(** * Scholarship-notice crawler and Notion mirror: a verification development

    A shallow embedding of [main.py]: the text helpers (date parsing, URL
    normalisation), the two row extractors, the pagination loops, the
    retrying Notion transport and the reconciliation engine, followed by the
    properties of the specification that concern them.

    Python [str] values are sequences of Unicode code points; they are
    modelled as [list N].  Python dictionaries coming from or going to the
    Notion API are modelled as a small dynamic [value] type with association
    lists, so that [.get], truthiness and [KeyError] read as in the source. *)

From Stdlib Require Import NArith ZArith String Ascii Lia DecimalPos DecimalN.
From stdpp Require Import base option list gmap sorting.

Local Open Scope N_scope.

(** ** Python strings *)

Abbreviation pystr := (list N).

Definition ch (a : ascii) : N := N_of_ascii a.
Arguments ch _%_char : simpl never.

Definition py (s : string) : pystr := map N_of_ascii (list_ascii_of_string s).
Arguments py _%_string : simpl never.

Definition in_range (lo hi c : N) : bool := (lo <=? c) && (c <=? hi).

(** [str.isspace] / the characters removed by [str.strip()] (Unicode 14,
    the table of CPython 3.11). *)
Definition is_space (c : N) : bool :=
  in_range 0x09 0x0D c || in_range 0x1C 0x20 c || (c =? 0x85) || (c =? 0xA0)
  || (c =? 0x1680) || in_range 0x2000 0x200A c || (c =? 0x2028)
  || (c =? 0x2029) || (c =? 0x202F) || (c =? 0x205F) || (c =? 0x3000).

(** The class [\d] of [re] on [str] patterns: the decimal digits of Unicode
    (category Nd).  Every run holds ten digits, the mathematical digits at
    U+1D7CE hold fifty. *)
Definition decimal_runs : list N :=
  [48; 1632; 1776; 1984; 2406; 2534; 2662; 2790; 2918; 3046; 3174; 3302;
   3430; 3558; 3664; 3792; 3872; 4160; 4240; 6112; 6160; 6470; 6608; 6784;
   6800; 6992; 7088; 7232; 7248; 42528; 43216; 43264; 43472; 43504; 43600;
   44016; 65296; 66720; 68912; 69734; 69872; 69942; 70096; 70384; 70736;
   70864; 71248; 71360; 71472; 71904; 72016; 72784; 73040; 73120; 92768;
   92864; 93008; 120782; 120792; 120802; 120812; 120822; 123200; 123632;
   125264; 130032].

Definition is_decimal (c : N) : bool :=
  existsb (fun lo => in_range lo (lo + 9) c) decimal_runs.

Definition is_ascii (c : N) : bool := c <? 128.
Definition is_ascii_digit (c : N) : bool := in_range 48 57 c.
Definition is_ascii_upper (c : N) : bool := in_range 65 90 c.
Definition is_ascii_lower (c : N) : bool := in_range 97 122 c.
Definition is_ascii_alpha (c : N) : bool := is_ascii_upper c || is_ascii_lower c.

(** [str.lower()].  On ASCII it shifts the capital letters.  Outside ASCII
    the only characters whose lower case contains an ASCII character are
    U+0130 and U+212A; they are mapped as Python does.  The other cased
    characters are left in place: the callers only compare the lowered text
    with ASCII literals, which no such character can match either way. *)
Definition lower_char (c : N) : pystr :=
  if is_ascii_upper c then [c + 32]
  else if c =? 0x130 then [0x69; 0x307]
  else if c =? 0x212A then [0x6B]
  else [c].

Definition str_lower (s : pystr) : pystr := flat_map lower_char s.

(** [str.upper()], with the same convention: no non-ASCII character has an
    upper case made of the letters T, O and P only, so the comparison with
    ["TOP"] is decided by the ASCII letters. *)
Definition upper_char (c : N) : N := if is_ascii_lower c then c - 32 else c.
Definition str_upper (s : pystr) : pystr := map upper_char s.

Fixpoint lstrip (s : pystr) : pystr :=
  match s with
  | c :: r => if is_space c then lstrip r else s
  | [] => []
  end.

Definition rstrip (s : pystr) : pystr := rev (lstrip (rev s)).

Definition strip (s : pystr) : pystr := rstrip (lstrip s).

Fixpoint startswith (p s : pystr) : bool :=
  match p, s with
  | [], _ => true
  | a :: p', b :: s' => (a =? b) && startswith p' s'
  | _ :: _, [] => false
  end.

Definition str_eqb (a b : pystr) : bool := bool_decide (a = b).

(** Python truthiness of a string and of an optional string. *)
Definition nonempty (s : pystr) : bool := negb (str_eqb s []).

Definition truthy_opt (o : option pystr) : bool :=
  match o with Some s => nonempty s | None => false end.

(** ** Regular-expression fragments

    The patterns of the source are sequences of fixed-width atoms, so a match
    anchored at a position is decided by reading the atoms in order, and
    [re.search] returns the match at the leftmost position that has one. *)

(** [\d{n}] *)
Definition digits (n : nat) (s : pystr) : option (pystr * pystr) :=
  let d := take n s in
  if (length d =? n)%nat && forallb is_decimal d then Some (d, drop n s)
  else None.

(** A character class such as [[.\-]] or a literal character. *)
Definition one_of (cs : list N) (s : pystr) : option (N * pystr) :=
  match s with
  | c :: r => if bool_decide (c ∈ cs) then Some (c, r) else None
  | [] => None
  end.

Definition date_sep : list N := [ch "."; ch "-"].

(** [(\d{4})[.\-](\d{2})[.\-](\d{2})] anchored at the head of [s]. *)
Definition match_date (s : pystr) : option (pystr * pystr * pystr) :=
  '(y, s) ← digits 4 s;
  '(_, s) ← one_of date_sep s;
  '(m, s) ← digits 2 s;
  '(_, s) ← one_of date_sep s;
  '(d, _) ← digits 2 s;
  Some (y, m, d).

(** [(\d{2}):(\d{2})(?::(\d{2}))?] anchored at the head of [s]; the optional
    group is greedy and nothing follows it, so it takes part whenever it
    can. *)
Definition match_time (s : pystr) : option (pystr * pystr * option pystr) :=
  '(h, s) ← digits 2 s;
  '(_, s) ← one_of [ch ":"] s;
  '(m, s) ← digits 2 s;
  let sec := '(_, s) ← one_of [ch ":"] s; '(x, _) ← digits 2 s; Some x in
  Some (h, m, sec).

(** [re.search]: the anchored match at the leftmost position that has one. *)
Fixpoint re_search {A} (anchored : pystr -> option A) (s : pystr) : option A :=
  match anchored s with
  | Some r => Some r
  | None => match s with
            | _ :: r => re_search anchored r
            | [] => None
            end
  end.

(** ** [parse_datetime] *)

Definition parse_datetime (date_text : pystr) : option pystr :=
  match re_search match_date date_text with
  | None => None
  | Some (year, month, day) =>
      match re_search match_time date_text with
      | Some (hour, minute, second) =>
          let second := match second with
                        | Some x => if nonempty x then x else py "00"
                        | None => py "00"
                        end in
          Some (year ++ py "-" ++ month ++ py "-" ++ day ++ py "T" ++ hour
                ++ py ":" ++ minute ++ py ":" ++ second ++ py "+09:00")
      | None =>
          Some (year ++ py "-" ++ month ++ py "-" ++ day ++ py "T00:00:00+09:00")
      end
  end.

(** [\d{4}-\d{2}-\d{2}] anchored; the whole match is returned. *)
Definition match_day_key (s : pystr) : option pystr :=
  '(y, s) ← digits 4 s;
  '(_, s) ← one_of [ch "-"] s;
  '(m, s) ← digits 2 s;
  '(_, s) ← one_of [ch "-"] s;
  '(d, _) ← digits 2 s;
  Some (y ++ py "-" ++ m ++ py "-" ++ d).

Definition normalize_date_key (date_text : option pystr) : pystr :=
  match date_text with
  | None => []
  | Some t =>
      if nonempty t then
        match re_search match_day_key t with
        | Some k => k
        | None => take 10 t
        end
      else []
  end.

(** Occurrences of the date and time shapes in a text, stated on the text
    itself; the theorems relate them to what [parse_datetime] returns. *)

Definition all_decimal (n : nat) (w : pystr) : Prop :=
  length w = n ∧ Forall (λ c, is_decimal c = true) w.

Definition date_occurs (text y m d : pystr) : Prop :=
  ∃ pre post s1 s2,
    text = pre ++ y ++ [s1] ++ m ++ [s2] ++ d ++ post
    ∧ all_decimal 4 y ∧ all_decimal 2 m ∧ all_decimal 2 d
    ∧ s1 ∈ date_sep ∧ s2 ∈ date_sep.





(** ** Values

    What [json.load] returns and [json.dumps] accepts, and what the items
    built by the extractors hold: [None], booleans, integers, strings, lists
    and dictionaries with string keys.  A dictionary is an association list
    in insertion order with one entry per key.  The numbers of the payloads
    are integers (view counts); the code computes on no number it receives. *)

#[local] Unset Elimination Schemes.
Inductive value : Type :=
  | VNone
  | VBool (b : bool)
  | VInt (n : Z)
  | VStr (s : pystr)
  | VList (l : list value)
  | VDict (d : list (pystr * value)).
#[local] Set Elimination Schemes.

Abbreviation dict := (list (pystr * value)).

(** ** Exceptions

    The text of a [RuntimeError] built by an f-string is kept as the
    template, with [{}] for each hole, and the values that fill the holes. *)

Inductive exn : Type :=
  | ValueError          (* [urlsplit] on a malformed host, [float], [json] *)
  | UnicodeEncodeError  (* [str.encode] on a lone surrogate *)
  | KeyError
  | IndexError
  | AttributeError
  | TypeError
  | OverflowError       (* [time.sleep] on a delay that its clock cannot hold *)
  | OtherError (name : pystr)  (* an exception of another class, by its name *)
  | RuntimeError (template : pystr) (args : list value).

Inductive result (A : Type) : Type :=
  | Ok (a : A)
  | Raise (e : exn).
Arguments Ok {A} a.
Arguments Raise {A} e.

Definition result_bind {A B} (r : result A) (k : A → result B) : result B :=
  match r with
  | Ok a => k a
  | Raise e => Raise e
  end.

#[global] Instance result_ret : MRet result := λ A a, Ok a.
#[global] Instance result_mbind : MBind result := λ A B k r, result_bind r k.

(** ** [parse_int]

    [re.sub] removes the characters [[^0-9]], which keeps the ASCII digits,
    and [int] reads them in base ten.  [int] refuses a text of more than
    4300 digits, leading zeros included (the default limit of CPython
    3.11 on the conversion of a string to an integer). *)
Definition digit_value (c : N) : N := c - 48.

Definition int_max_str_digits : nat := 4300.

Definition parse_int (value : pystr) : result (option N) :=
  let ds := filter (fun c => is_ascii_digit c = true) value in
  if negb (nonempty ds) then Ok None
  else if (int_max_str_digits <? length ds)%nat then Raise ValueError
  else Ok (Some (fold_left (fun acc c => 10 * acc + digit_value c) ds 0)).

(** ** [urllib.parse] (CPython 3.11)

    The functions of the standard library that [normalize_detail_url] and
    [is_detail_url] call, transcribed from [urllib/parse.py].  Two checks of
    [urlsplit] consult other libraries ([ipaddress] for a bracketed host,
    [unicodedata] for a non-ASCII host); they are pure functions of the host
    and are taken as an interface. *)

Class HostChecks := {
  (** [_check_bracketed_netloc netloc] returns without raising. *)
  bracketed_netloc_ok : pystr → bool;
  (** the NFKC test of [_checknetloc] on a non-ASCII [netloc] passes. *)
  nfkc_netloc_ok : pystr → bool
}.

(** [s.lstrip(chars)] for a set of characters given as a predicate. *)
Fixpoint lstrip_by (p : N → bool) (s : pystr) : pystr :=
  match s with
  | c :: r => if p c then lstrip_by p r else s
  | [] => []
  end.

(** The longest prefix free of the characters [p], and what follows it:
    [break p s = (s[:i], s[i:])] for [i] the first index of a [p]
    character, or [len(s)]. *)
Fixpoint break (p : N → bool) (s : pystr) : pystr * pystr :=
  match s with
  | [] => ([], [])
  | c :: r => if p c then ([], s) else let '(a, b) := break p r in (c :: a, b)
  end.

Definition is_char (c : N) : N → bool := λ x, x =? c.

Definition contains (c : N) (s : pystr) : bool := existsb (is_char c) s.

(** [s.split(c, 1)] when [c] occurs in [s]: the text before the first [c]
    and the text after it; [None] when [c] does not occur. *)
Definition split_once (c : N) (s : pystr) : option (pystr * pystr) :=
  match break (is_char c) s with
  | (a, _ :: b) => Some (a, b)
  | (_, []) => None
  end.

(** [s.split(c)] *)
Fixpoint split_on (c : N) (s : pystr) : list pystr :=
  match s with
  | [] => [[]]
  | x :: r =>
      if x =? c then [] :: split_on c r
      else match split_on c r with
           | w :: ws => (x :: w) :: ws
           | [] => [[x]]
           end
  end.

Definition replace_char (a b : N) (s : pystr) : pystr :=
  map (λ x, if x =? a then b else x) s.

Definition is_c0_or_space (c : N) : bool := c <=? 0x20.

Definition is_unsafe_url_byte (c : N) : bool :=
  (c =? 9) || (c =? 13) || (c =? 10).

Definition is_scheme_char (c : N) : bool :=
  is_ascii_lower c || is_ascii_upper c || is_ascii_digit c
  || (c =? ch "+") || (c =? ch "-") || (c =? ch ".").

Definition uses_params : list pystr :=
  [[]; py "ftp"; py "hdl"; py "prospero"; py "http"; py "imap";
   py "https"; py "shttp"; py "rtsp"; py "rtspu"; py "sip"; py "sips";
   py "mms"; py "sftp"; py "tel"].

Definition uses_netloc : list pystr :=
  [[]; py "ftp"; py "http"; py "gopher"; py "nntp"; py "telnet";
   py "imap"; py "wais"; py "file"; py "mms"; py "https"; py "shttp";
   py "snews"; py "prospero"; py "rtsp"; py "rtspu"; py "rsync";
   py "svn"; py "svn+ssh"; py "sftp"; py "nfs"; py "git"; py "git+ssh";
   py "ws"; py "wss"].

Record SplitResult := {
  sr_scheme : pystr; sr_netloc : pystr; sr_path : pystr;
  sr_query : pystr; sr_fragment : pystr
}.

Record ParseResult := {
  scheme : pystr; netloc : pystr; path : pystr;
  params : pystr; query : pystr; fragment : pystr
}.

Section UrlParse.
Context `{HostChecks}.

Definition is_netloc_delim (c : N) : bool :=
  (c =? ch "/") || (c =? ch "?") || (c =? ch "#").

(** [_splitnetloc(url, 2)] *)
Definition splitnetloc (url : pystr) : pystr * pystr :=
  break is_netloc_delim (drop 2 url).

Definition checknetloc (netloc : pystr) : result unit :=
  if negb (nonempty netloc) || forallb is_ascii netloc then Ok tt
  else if nfkc_netloc_ok netloc then Ok tt else Raise ValueError.

Definition urlsplit (url : pystr) : result SplitResult :=
  let url := lstrip_by is_c0_or_space url in
  let url := filter (λ c, is_unsafe_url_byte c = false) url in
  let '(scheme, url) :=
    match break (is_char (ch ":")) url with
    | (c0 :: pre, _ :: rest) =>
        if is_ascii_alpha c0 && forallb is_scheme_char (c0 :: pre)
        then (str_lower (c0 :: pre), rest)
        else ([], url)
    | _ => ([], url)
    end in
  '(netloc, url) ←
    (if str_eqb (take 2 url) (py "//") then
       let '(netloc, url) := splitnetloc url in
       let lb := contains (ch "[") netloc in
       let rb := contains (ch "]") netloc in
       if (lb && negb rb) || (rb && negb lb) then Raise ValueError
       else if lb && rb && negb (bracketed_netloc_ok netloc)
       then Raise ValueError
       else Ok (netloc, url)
     else Ok ([], url));
  let '(url, fragment) :=
    match split_once (ch "#") url with
    | Some (u, f) => (u, f)
    | None => (url, [])
    end in
  let '(url, query) :=
    match split_once (ch "?") url with
    | Some (u, q) => (u, q)
    | None => (url, [])
    end in
  _ ← checknetloc netloc;
  Ok {| sr_scheme := scheme; sr_netloc := netloc; sr_path := url;
        sr_query := query; sr_fragment := fragment |}.

(** [_splitparams]: the parameters start at the first [;] of the last path
    segment. *)
Definition splitparams (url : pystr) : pystr * pystr :=
  let '(seg_rev, before_rev) := break (is_char (ch "/")) (rev url) in
  (* [rev before_rev] ends with the last [/], [rev seg_rev] follows it *)
  match break (is_char (ch ";")) (rev seg_rev) with
  | (a, _ :: b) => (rev before_rev ++ a, b)
  | (_, []) => (url, [])
  end.

Definition urlparse (url : pystr) : result ParseResult :=
  sr ← urlsplit url;
  let '(url, params) :=
    if bool_decide (sr_scheme sr ∈ uses_params) && contains (ch ";") (sr_path sr)
    then splitparams (sr_path sr)
    else (sr_path sr, []) in
  Ok {| scheme := sr_scheme sr; netloc := sr_netloc sr; path := url;
        params := params; query := sr_query sr; fragment := sr_fragment sr |}.

End UrlParse.

Definition urlunsplit (scheme netloc url query fragment : pystr) : pystr :=
  let url :=
    if nonempty netloc
       || (nonempty scheme && bool_decide (scheme ∈ uses_netloc)
           && negb (str_eqb (take 2 url) (py "//")))
    then
      let url := if nonempty url && negb (str_eqb (take 1 url) (py "/"))
                 then py "/" ++ url else url in
      py "//" ++ netloc ++ url
    else url in
  let url := if nonempty scheme then scheme ++ py ":" ++ url else url in
  let url := if nonempty query then url ++ py "?" ++ query else url in
  let url := if nonempty fragment then url ++ py "#" ++ fragment else url in
  url.

Definition urlunparse (scheme netloc url params query fragment : pystr) : pystr :=
  let url := if nonempty params then url ++ py ";" ++ params else url in
  urlunsplit scheme netloc url query fragment.

(** *** UTF-8 *)

Definition is_cont (b : N) : bool := in_range 0x80 0xBF b.

Definition replacement_char : N := 0xFFFD.

(** The second byte of a three-byte and of a four-byte sequence has a
    narrower range after the lead bytes [E0], [ED], [F0] and [F4]. *)
Definition second_ok3 (b c1 : N) : bool :=
  is_cont c1 && negb (if c1 <? 0xA0 then b =? 0xE0 else b =? 0xED).

Definition second_ok4 (b c1 : N) : bool :=
  is_cont c1 && negb (if c1 <? 0x90 then b =? 0xF0 else b =? 0xF4).

(** [bytes.decode("utf-8", "replace")]: an ill-formed sequence is replaced
    by one U+FFFD up to the byte that breaks it, or up to the end of the
    input when the input stops in the middle of a sequence. *)
Fixpoint utf8_decode (bs : list N) : pystr :=
  match bs with
  | [] => []
  | b :: r =>
      if b <? 0x80 then b :: utf8_decode r
      else if in_range 0xC2 0xDF b then
        match r with
        | [] => [replacement_char]
        | c1 :: r1 =>
            if is_cont c1
            then ((b - 0xC0) * 64 + (c1 - 0x80)) :: utf8_decode r1
            else replacement_char :: utf8_decode r
        end
      else if in_range 0xE0 0xEF b then
        match r with
        | [] => [replacement_char]
        | c1 :: r1 =>
            if second_ok3 b c1 then
              match r1 with
              | [] => [replacement_char]
              | c2 :: r2 =>
                  if is_cont c2
                  then ((b - 0xE0) * 4096 + (c1 - 0x80) * 64 + (c2 - 0x80))
                       :: utf8_decode r2
                  else replacement_char :: utf8_decode r1
              end
            else replacement_char :: utf8_decode r
        end
      else if in_range 0xF0 0xF4 b then
        match r with
        | [] => [replacement_char]
        | c1 :: r1 =>
            if second_ok4 b c1 then
              match r1 with
              | [] => [replacement_char]
              | c2 :: r2 =>
                  if is_cont c2 then
                    match r2 with
                    | [] => [replacement_char]
                    | c3 :: r3 =>
                        if is_cont c3
                        then ((b - 0xF0) * 262144 + (c1 - 0x80) * 4096
                              + (c2 - 0x80) * 64 + (c3 - 0x80))
                             :: utf8_decode r3
                        else replacement_char :: utf8_decode r2
                    end
                  else replacement_char :: utf8_decode r1
              end
            else replacement_char :: utf8_decode r
        end
      else replacement_char :: utf8_decode r
  end.

(** [str.encode("utf-8", "strict")] of one character; the surrogates have no
    encoding. *)
Definition utf8_encode_char (c : N) : option (list N) :=
  if c <? 0x80 then Some [c]
  else if c <? 0x800 then Some [0xC0 + c / 64; 0x80 + c mod 64]
  else if c <? 0x10000 then
    if in_range 0xD800 0xDFFF c then None
    else Some [0xE0 + c / 4096; 0x80 + (c / 64) mod 64; 0x80 + c mod 64]
  else if c <? 0x110000 then
    Some [0xF0 + c / 262144; 0x80 + (c / 4096) mod 64;
          0x80 + (c / 64) mod 64; 0x80 + c mod 64]
  else None.

Fixpoint utf8_encode (s : pystr) : result (list N) :=
  match s with
  | [] => Ok []
  | c :: r =>
      match utf8_encode_char c with
      | Some bs => rs ← utf8_encode r; Ok (bs ++ rs)
      | None => Raise UnicodeEncodeError
      end
  end.

(** *** Percent-encoding *)

Definition is_hexdig (c : N) : bool :=
  is_ascii_digit c || in_range 65 70 c || in_range 97 102 c.

Definition hex_value (c : N) : N :=
  if is_ascii_digit c then c - 48
  else if in_range 65 70 c then c - 55
  else c - 87.

(** [unquote_to_bytes] on ASCII text: [%XY] with two hexadecimal digits is
    the byte [XY]; any other [%] stays. *)
Fixpoint unquote_to_bytes (s : pystr) : list N :=
  match s with
  | [] => []
  | c :: r =>
      if c =? ch "%" then
        match r with
        | h1 :: h2 :: r' =>
            if is_hexdig h1 && is_hexdig h2
            then (16 * hex_value h1 + hex_value h2) :: unquote_to_bytes r'
            else c :: unquote_to_bytes r
        | _ => c :: unquote_to_bytes r
        end
      else c :: unquote_to_bytes r
  end.

(** The loop of [unquote] over the alternation of ASCII runs (decoded) and
    non-ASCII runs (kept); [run] is the ASCII run read so far. *)
Fixpoint unquote_runs (run : pystr) (s : pystr) : pystr :=
  match s with
  | [] => utf8_decode (unquote_to_bytes run)
  | c :: r =>
      if is_ascii c then unquote_runs (run ++ [c]) r
      else utf8_decode (unquote_to_bytes run) ++ c :: unquote_runs [] r
  end.

Definition unquote (s : pystr) : pystr :=
  if negb (contains (ch "%") s) then s else unquote_runs [] s.

Definition is_always_safe (b : N) : bool :=
  is_ascii_upper b || is_ascii_lower b || is_ascii_digit b
  || (b =? ch "_") || (b =? ch ".") || (b =? ch "-") || (b =? ch "~").

Definition hex_digit_upper (n : N) : N := if n <? 10 then 48 + n else 55 + n.

(** The [_Quoter] of [safe]: a safe byte is itself, another byte is [%XX]. *)
Definition quoter (safe : list N) (b : N) : pystr :=
  if is_always_safe b || bool_decide (b ∈ safe) then [b]
  else [ch "%"; hex_digit_upper (b / 16); hex_digit_upper (b mod 16)].

Definition quote_from_bytes (bs : list N) (safe : list N) : pystr :=
  flat_map (quoter safe) bs.

Definition quote (s : pystr) (safe : list N) : result pystr :=
  if negb (nonempty s) then Ok s
  else bs ← utf8_encode s; Ok (quote_from_bytes bs safe).

Definition quote_plus (s : pystr) : result pystr :=
  if negb (contains (ch " ") s) then quote s []
  else q ← quote s [ch " "]; Ok (replace_char (ch " ") (ch "+") q).

(** *** Query strings *)

(** The body of the loop of [parse_qsl]. *)
Definition parse_field (name_value : pystr) : option (pystr * pystr) :=
  if negb (nonempty name_value) then None
  else match split_once (ch "=") name_value with
       | None => None
       | Some (n, v) =>
           if nonempty v
           then Some (unquote (replace_char (ch "+") (ch " ") n),
                      unquote (replace_char (ch "+") (ch " ") v))
           else None
       end.

(** [parse_qsl] with its default arguments. *)
Definition parse_qsl (qs : pystr) : list (pystr * pystr) :=
  let query_args := if nonempty qs then split_on (ch "&") qs else [] in
  omap parse_field query_args.

(** [parsed_result[name].append(value)] or [parsed_result[name] = [value]];
    a dictionary keeps its keys in the order of their first insertion. *)
Fixpoint dict_append (name value : pystr) (d : list (pystr * list pystr))
  : list (pystr * list pystr) :=
  match d with
  | [] => [(name, [value])]
  | (k, vs) :: d' =>
      if str_eqb k name then (k, vs ++ [value]) :: d'
      else (k, vs) :: dict_append name value d'
  end.

Definition parse_qs (qs : pystr) : list (pystr * list pystr) :=
  fold_left (λ d '(name, value), dict_append name value d) (parse_qsl qs) [].

(** [urlencode(query_items, doseq=True)] on a list of pairs of strings *)
Fixpoint quote_items (items : list (pystr * pystr)) : result (list pystr) :=
  match items with
  | [] => Ok []
  | (k, v) :: r =>
      k' ← quote_plus k;
      v' ← quote_plus v;
      l ← quote_items r;
      Ok ((k' ++ py "=" ++ v') :: l)
  end.

Fixpoint join (sep : pystr) (l : list pystr) : pystr :=
  match l with
  | [] => []
  | [x] => x
  | x :: r => x ++ sep ++ join sep r
  end.

Definition urlencode (items : list (pystr * pystr)) : result pystr :=
  l ← quote_items items; Ok (join (py "&") l).

(** ** Sorting the keys

    [sorted] on strings compares code points lexicographically.  The keys of
    a dictionary are distinct, so the sorted list does not depend on the
    algorithm; insertion sort stands for it. *)
Fixpoint str_leb (a b : pystr) : bool :=
  match a, b with
  | [], _ => true
  | _ :: _, [] => false
  | x :: a', y :: b' => (x <? y) || ((x =? y) && str_leb a' b')
  end.

Fixpoint insert_sorted (k : pystr) (l : list pystr) : list pystr :=
  match l with
  | [] => [k]
  | x :: r => if str_leb k x then k :: l else x :: insert_sorted k r
  end.

Definition sorted (l : list pystr) : list pystr :=
  foldr insert_sorted [] l.

(** [d[key]] on the dictionary returned by [parse_qs] *)
Definition dict_values (d : list (pystr * list pystr)) (key : pystr) : list pystr :=
  match list_find (λ kv, kv.1 = key) d with
  | Some (_, (_, vs)) => vs
  | None => []
  end.

(** ** URL normalisation *)

Definition BASE_URL : pystr := py "https://www.sogang.ac.kr/ko/scholarship-notice".
Definition BASE_SITE : pystr := py "https://www.sogang.ac.kr".

Definition placeholder_links : list pystr :=
  [py "#"; py "#/"; py "javascript:void(0)"; py "javascript:void(0);"].

Definition script_prefixes : list pystr :=
  [py "javascript:"; py "mailto:"; py "tel:"; py "data:"].

Definition script_schemes : list pystr :=
  [py "javascript"; py "mailto"; py "tel"; py "data"].

Definition drop_keys : list pystr := [py "introPkId"; py "option"; py "page"].

Section Normalize.
Context `{HostChecks}.

(** The loop that fills [query_items]: the keys in sorted order, the listing
    keys skipped, every value of a key in its order. *)
Definition query_items (query : list (pystr * list pystr)) : list (pystr * pystr) :=
  flat_map (λ key,
              if bool_decide (key ∈ drop_keys) then []
              else map (λ value, (key, value)) (dict_values query key))
           (sorted (map fst query)).

Definition normalize_detail_url (raw_url : option pystr) : result (option pystr) :=
  match raw_url with
  | None => Ok None
  | Some raw_url =>
    if negb (nonempty raw_url) then Ok None else
    let raw_url := strip raw_url in
    let lowered := str_lower raw_url in
    if bool_decide (lowered ∈ placeholder_links) then Ok None else
    if existsb (λ p, startswith p lowered) script_prefixes then Ok None else
    let raw_url :=
      if startswith (py "//") raw_url then py "https:" ++ raw_url else raw_url in
    parsed ← urlparse raw_url;
    if bool_decide (scheme parsed ∈ script_schemes) then Ok None else
    reparsed ←
      (if negb (nonempty (scheme parsed)) || negb (nonempty (netloc parsed)) then
         if startswith (py "/") raw_url then
           base ← urlparse BASE_URL;
           p ← urlparse (scheme base ++ py "://" ++ netloc base ++ raw_url);
           Ok (Some p)
         else Ok None
       else Ok (Some parsed));
    match reparsed with
    | None => Ok None
    | Some parsed =>
        let query := parse_qs (query parsed) in
        new_query ← urlencode (query_items query);
        Ok (Some (urlunparse (scheme parsed) (netloc parsed) (path parsed)
                             [] new_query []))
    end
  end.

(** The part of [normalize_detail_url] that follows the tests on the
    lowered text, as a function of the stripped text; the function above
    continues with it ([normalize_detail_url_tail] below). *)
Definition normalize_tail (stripped : pystr) : result (option pystr) :=
  let raw_url :=
    if startswith (py "//") stripped then py "https:" ++ stripped else stripped in
  parsed ← urlparse raw_url;
  if bool_decide (scheme parsed ∈ script_schemes) then Ok None else
  reparsed ←
    (if negb (nonempty (scheme parsed)) || negb (nonempty (netloc parsed)) then
       if startswith (py "/") raw_url then
         base ← urlparse BASE_URL;
         p ← urlparse (scheme base ++ py "://" ++ netloc base ++ raw_url);
         Ok (Some p)
       else Ok None
     else Ok (Some parsed));
  match reparsed with
  | None => Ok None
  | Some parsed =>
      let query := parse_qs (query parsed) in
      new_query ← urlencode (query_items query);
      Ok (Some (urlunparse (scheme parsed) (netloc parsed) (path parsed)
                           [] new_query []))
  end.

(** [DETAIL_PATH_PATTERN = /detail/\d+], anchored. *)
Definition match_detail_path (s : pystr) : option unit :=
  if startswith (py "/detail/") s then
    '(_, _) ← digits 1 (drop 8 s); Some tt
  else None.

Definition is_detail_url (url : pystr) : result bool :=
  if negb (nonempty url) then Ok false else
  parsed ← urlparse url;
  if bool_decide (is_Some (re_search match_detail_path (path parsed))) then Ok true
  else
    let qs := parse_qs (query parsed) in
    Ok (bool_decide (py "bbsConfigFk" ∈ map fst qs)).

End Normalize.

(** An interface instance for evaluating examples: it accepts every host
    that reaches the two library checks.  The examples below use plain ASCII
    hosts without brackets, which never reach them. *)
Definition lenient_checks : HostChecks :=
  {| bracketed_netloc_ok := λ _, true; nfkc_netloc_ok := λ _, true |}.

(** ** Predicates used in the statements about URLs *)

(** A [SplitResult] and a [ParseResult] with another fragment. *)
Definition sr_with_fragment (f : pystr) (sr : SplitResult) : SplitResult :=
  {| sr_scheme := sr_scheme sr; sr_netloc := sr_netloc sr;
     sr_path := sr_path sr; sr_query := sr_query sr; sr_fragment := f |}.

Definition with_fragment (f : pystr) (c : ParseResult) : ParseResult :=
  {| scheme := scheme c; netloc := netloc c; path := path c;
     params := params c; query := query c; fragment := f |}.

Definition result_map {A B} (f : A → B) (r : result A) : result B :=
  match r with
  | Ok a => Ok (f a)
  | Raise e => Raise e
  end.

(** No character of [s] satisfies [p]. *)
Definition free (p : N → bool) (s : pystr) : Prop := Forall (λ c, p c = false) s.

Definition is_query_or_fragment_mark (c : N) : bool :=
  (c =? ch "?") || (c =? ch "#").

(** The [%XX] escape of a byte. *)
Definition escape (b : N) : pystr :=
  [ch "%"; hex_digit_upper (b / 16); hex_digit_upper (b mod 16)].

(** What [quote_plus] writes for one byte of the encoded text. *)
Definition plus_quote_byte (b : N) : pystr :=
  if is_always_safe b then [b]
  else if b =? ch " " then [ch "+"]
  else escape b.

(** The characters that [quote_plus] produces. *)
Definition is_query_char (c : N) : bool :=
  is_always_safe c || (c =? ch "+") || (c =? ch "%").

(** The characters of the text that [urlencode] produces. *)
Definition is_query_text_char (c : N) : bool :=
  is_query_char c || (c =? ch "=") || (c =? ch "&").

(** The piece that [urlencode] writes for a pair, seen from the pair. *)
Definition encodes (kv : pystr * pystr) (p : pystr) : Prop :=
  ∃ k' v', p = k' ++ ch "=" :: v'
    ∧ forallb is_query_char k' = true ∧ forallb is_query_char v' = true
    ∧ v' ≠ []
    ∧ unquote (replace_char (ch "+") (ch " ") k') = kv.1
    ∧ unquote (replace_char (ch "+") (ch " ") v') = kv.2.

(** The dictionaries that [parse_qs] builds: distinct keys, and at least one
    value under every key. *)
Definition dict_ok (d : list (pystr * list pystr)) : Prop :=
  NoDup (map fst d) ∧ Forall (λ kv, kv.2 ≠ []) d.

(** The pairs of a dictionary of lists, key by key. *)
Definition flatten (d : list (pystr * list pystr)) : list (pystr * pystr) :=
  flat_map (λ kv, map (λ v, (kv.1, v)) kv.2) d.

(** The entries that the loop of [normalize_detail_url] keeps, in the order
    in which it visits them. *)
Definition selected (d : list (pystr * list pystr)) : list (pystr * list pystr) :=
  map (λ k, (k, dict_values d k))
      (filter (λ k, k ∉ drop_keys) (sorted (map fst d))).

Definition str_le (a b : pystr) : Prop := str_leb a b = true.

(** No value of the dictionary is the empty string. *)
Definition values_nonempty (d : list (pystr * list pystr)) : Prop :=
  Forall (λ kv, Forall (λ v, v ≠ []) kv.2) d.

(** What [urlunsplit] appends for the query [q]. *)
Definition query_suffix (q : pystr) : pystr :=
  if nonempty q then py "?" ++ q else [].

(** The shape of the scheme, host and path that [urlparse] returns for a URL
    with a scheme and a host. *)
Record canonical_parts `{HostChecks} (s n p : pystr) : Prop := {
  cp_scheme_head : ∃ c0 s', s = c0 :: s' ∧ is_ascii_alpha c0 = true;
  cp_scheme_chars : forallb is_scheme_char s = true;
  cp_scheme_lower : str_lower s = s;
  cp_netloc_nonempty : n ≠ [];
  cp_netloc_free : free is_netloc_delim n;
  cp_netloc_safe : free is_unsafe_url_byte n;
  cp_netloc_brackets : contains (ch "[") n = contains (ch "]") n;
  cp_netloc_bracketed : contains (ch "[") n = true → bracketed_netloc_ok n = true;
  cp_netloc_check : checknetloc n = Ok tt;
  cp_path_head : p = [] ∨ ∃ r, p = ch "/" :: r;
  cp_path_free : free is_query_or_fragment_mark p;
  cp_path_safe : free is_unsafe_url_byte p;
  cp_path_params :
    s ∈ uses_params → contains (ch ";") p = true → splitparams p = (p, [])
}.

(** The link of the counterexample to idempotence: a space before the
    fragment. *)
Definition link_with_inner_space : pystr := py "https://h/a #x".

(** ** Python operations on values *)

(** A literal of the source that holds characters outside ASCII: the bytes
    of the literal, read as UTF-8. *)
Definition pyu (s : string) : pystr := utf8_decode (py s).
Arguments pyu _%_string : simpl never.

Definition truthy (v : value) : bool :=
  match v with
  | VNone => false
  | VBool b => b
  | VInt n => negb (n =? 0)%Z
  | VStr s => nonempty s
  | VList l => match l with [] => false | _ :: _ => true end
  | VDict d => match d with [] => false | _ :: _ => true end
  end.

Definition opt_str (o : option pystr) : value :=
  match o with Some s => VStr s | None => VNone end.

(** [v == s] for a string [s]: only a string is equal to a string. *)
Definition is_str (s : pystr) (v : value) : bool :=
  match v with VStr t => str_eqb t s | _ => false end.

(** [hash(v)] is defined: lists and dictionaries cannot be members of a set
    or keys of a dictionary. *)
Definition hashable (v : value) : bool :=
  match v with VList _ | VDict _ => false | _ => true end.

Fixpoint assoc {A} (key : pystr) (d : list (pystr * A)) : option A :=
  match d with
  | [] => None
  | (k, v) :: r => if str_eqb key k then Some v else assoc key r
  end.

(** [d[key] = v]: a present key keeps its place. *)
Fixpoint dict_set {A} (key : pystr) (v : A) (d : list (pystr * A))
  : list (pystr * A) :=
  match d with
  | [] => [(key, v)]
  | (k, w) :: r => if str_eqb key k then (k, v) :: r else (k, w) :: dict_set key v r
  end.

(** [d.get(key)] and [d[key]] on a dictionary. *)
Definition dict_get (d : dict) (key : pystr) : value := default VNone (assoc key d).

Definition dict_item (d : dict) (key : pystr) : result value :=
  match assoc key d with Some v => Ok v | None => Raise KeyError end.

(** [obj.get(key, default)] on any value: only a dictionary has [get]. *)
Definition py_get (obj : value) (key : pystr) (dflt : value) : result value :=
  match obj with
  | VDict d => Ok (default dflt (assoc key d))
  | _ => Raise AttributeError
  end.

(** [obj[key]] for a string [key]. *)
Definition py_item (obj : value) (key : pystr) : result value :=
  match obj with
  | VDict d => dict_item d key
  | _ => Raise TypeError
  end.

(** [obj[0]] *)
Definition py_first (obj : value) : result value :=
  match obj with
  | VList (x :: _) => Ok x
  | VStr (c :: _) => Ok (VStr [c])
  | VList [] | VStr [] => Raise IndexError
  | VDict _ => Raise KeyError
  | _ => Raise TypeError
  end.

(** [len(obj)] *)
Definition py_len (obj : value) : result nat :=
  match obj with
  | VList l => Ok (length l)
  | VStr s => Ok (length s)
  | VDict d => Ok (length d)
  | _ => Raise TypeError
  end.

(** [for x in obj]: the elements that the loop visits. *)
Definition py_iter (obj : value) : result (list value) :=
  match obj with
  | VList l => Ok l
  | VStr s => Ok (map (λ c, VStr [c]) s)
  | VDict d => Ok (map (λ kv, VStr kv.1) d)
  | _ => Raise TypeError
  end.

Fixpoint result_mapM {A B} (f : A → result B) (l : list A) : result (list B) :=
  match l with
  | [] => Ok []
  | x :: r => y ← f x; ys ← result_mapM f r; Ok (y :: ys)
  end.

(** [str(n)] for a natural number. *)
Fixpoint uint_chars (d : Decimal.uint) : pystr :=
  match d with
  | Decimal.Nil => []
  | Decimal.D0 r => 48 :: uint_chars r
  | Decimal.D1 r => 49 :: uint_chars r
  | Decimal.D2 r => 50 :: uint_chars r
  | Decimal.D3 r => 51 :: uint_chars r
  | Decimal.D4 r => 52 :: uint_chars r
  | Decimal.D5 r => 53 :: uint_chars r
  | Decimal.D6 r => 54 :: uint_chars r
  | Decimal.D7 r => 55 :: uint_chars r
  | Decimal.D8 r => 56 :: uint_chars r
  | Decimal.D9 r => 57 :: uint_chars r
  end.

Definition str_of_N (n : N) : pystr := uint_chars (N.to_uint n).

(** [str.isdigit]: the decimal digits and the other characters whose
    numeric type is Digit (Unicode 14). *)
Definition other_digit_runs : list (N * N) :=
  [(178, 179); (185, 185); (4969, 4977); (6618, 6618); (8304, 8304);
   (8308, 8313); (8320, 8329); (9312, 9320); (9332, 9340); (9352, 9360);
   (9450, 9450); (9461, 9469); (9471, 9471); (10102, 10110); (10112, 10120);
   (10122, 10130); (68160, 68163); (69216, 69224); (69714, 69722);
   (127232, 127242)].

Definition is_digit (c : N) : bool :=
  is_decimal c || existsb (λ r, in_range r.1 r.2 c) other_digit_runs.

Definition str_isdigit (s : pystr) : bool := nonempty s && forallb is_digit s.

(** The value of a decimal digit: its offset in its run of ten. *)
Definition decimal_value (c : N) : N :=
  match find (λ lo, in_range lo (lo + 9) c) decimal_runs with
  | Some lo => c - lo
  | None => 0
  end.

(** [float(s)] for a text that passed [isdigit]: the decimal digits of any
    script are read in base ten, the other digit characters are refused.
    The float is kept as the number it denotes. *)
Definition float_of_digits (s : pystr) : result N :=
  if forallb is_decimal s
  then Ok (fold_left (λ acc c, 10 * acc + decimal_value c) s 0)
  else Raise ValueError.

(** ** The outside world

    The program talks to the Notion API and to the source site, drives a
    browser, sleeps and logs.  A run is recorded as the list of these events,
    oldest first.  What the outside answers is any function of the request
    and of everything that happened before it. *)

Record Request := {
  req_method : pystr;
  req_url : pystr;
  req_token : pystr;            (* the bearer of the [Authorization] header *)
  req_payload : option value    (* [payload], sent as [json.dumps(payload)] *)
}.

(** What [urllib.request.urlopen] and the reading of its response do with a
    request: a body, an [HTTPError], a [URLError], or an exception of
    another class ([InvalidURL] for a control character in the address,
    [UnicodeEncodeError] for a letter outside ASCII, [ValueError] for a
    header, a time-out while the body is read, ...), which neither
    [notion_request] nor [fetch_html] catches. *)
Inductive HttpOutcome (A : Type) : Type :=
  | HttpOk (body : A)
  | HTTPError (code : N) (retry_after : option pystr) (body : pystr)
      (* [exc.code], [exc.headers.get("Retry-After")], the decoded body *)
  | URLError (reason : value)
  | Uncaught (e : exn).
Arguments HttpOk {A} body.
Arguments HTTPError {A} code retry_after body.
Arguments URLError {A} reason.
Arguments Uncaught {A} e.

(** [playwright.chromium], [playwright.firefox], [playwright.webkit] *)
Inductive Launcher := Chromium | Firefox | Webkit.

(** A row of the list page as the browser shows it: the [inner_text] of its
    cells and the [href] attribute of its links. *)
Record PageRow := {
  cell_texts : list pystr;
  link_hrefs : list (option pystr)
}.

Inductive Event : Type :=
  | EvNotion (req : Request) (out : HttpOutcome (option value))
      (* a call of the Notion API; the body is what [json.load] reads, [None]
         when the body is not JSON *)
  | EvSite (url : pystr) (out : HttpOutcome pystr)
      (* a page of the source site over HTTP *)
  | EvStart (out : result unit)
      (* [sync_playwright()] starts Playwright *)
  | EvLaunch (launcher : Launcher) (headless : bool) (out : result unit)
      (* the browser is launched and a page is opened *)
  | EvGoto (url : pystr) (rows : result (option (list PageRow)))
      (* the browser loads a list page, waits for its rows and reads them;
         [None] is the timeout of Playwright, an exception of another class
         is not caught *)
  | EvClose (out : result unit)
      (* the browser is closed and Playwright stops *)
  | EvDetail (list_url : pystr) (row_index : value) (detail_url : value)
      (out : result (value * value))
      (* [fetch_detail_for_row]: the browser visits the detail page of a row
         and comes back *)
  | EvSleep (seconds : N)
  | EvLog (fmt : pystr) (args : list value).

Class World := {
  notion_api : list Event → Request → HttpOutcome (option value);
  site : list Event → pystr → HttpOutcome pystr;
  playwright_start : list Event → result unit;
  browser_launch : list Event → Launcher → bool → result unit;
  browser_goto : list Event → pystr → result (option (list PageRow));
  browser_detail : list Event → pystr → value → value → result (value * value);
  browser_close : list Event → result unit;
  (** [str(v)] for a value that is not a string *)
  py_repr : value → pystr
}.

(** The regular-expression scans of the HTML of the source site; they are
    pure functions of the text and are taken as an interface. *)
Class Html := {
  (** [re.sub] that removes the tags [<[^>]+>] *)
  strip_tags : pystr → pystr;
  (** [html.unescape] *)
  unescape : pystr → pystr;
  (** the groups of [<tr[^>]*>(.*?)</tr>] *)
  find_rows : pystr → list pystr;
  (** the groups of [<td[^>]*>(.*?)</td>] *)
  find_cells : pystr → list pystr;
  (** the quoted values of the [href] attributes, in order *)
  find_hrefs : pystr → list pystr;
  (** the group of the first [/detail/(\d+)] *)
  find_detail_id : pystr → option pystr;
  (** the second groups of the labelled dates of a detail page *)
  find_written_at : pystr → list pystr
}.

(** The process environment once [load_dotenv] has run, the command line and
    the files. *)
Class Environ := {
  NOTION_TOKEN : option pystr;
  NOTION_DB_ID : option pystr;
  BBS_CONFIG_FK : option pystr;
  BROWSER : option pystr;
  HEADLESS : option pystr;
  HTML_PATH : option pystr;
  argv1 : option pystr;
  (** [Path.exists] and [Path.read_text] *)
  read_text : pystr → option pystr;
  playwright_installed : bool;
  python_version : pystr
}.

(** ** Computations

    A computation reads the history, extends it, and returns, raises, or
    runs out of the fuel given to an unbounded loop. *)

Inductive outcome (A : Type) : Type :=
  | Return (a : A)
  | Raised (e : exn)
  | Diverged.
Arguments Return {A} a.
Arguments Raised {A} e.
Arguments Diverged {A}.

Record M (A : Type) : Type := MkM { run : list Event → outcome A * list Event }.
Arguments MkM {A} run.
Arguments run {A} m h.

Definition M_bind {A B} (m : M A) (k : A → M B) : M B :=
  MkM (λ h, match run m h with
            | (Return a, h') => run (k a) h'
            | (Raised e, h') => (Raised e, h')
            | (Diverged, h') => (Diverged, h')
            end).

#[global] Instance M_ret : MRet M := λ A a, MkM (λ h, (Return a, h)).
#[global] Instance M_mbind : MBind M := λ A B k m, M_bind m k.

Definition raise {A} (e : exn) : M A := MkM (λ h, (Raised e, h)).
Definition diverge {A} : M A := MkM (λ h, (Diverged, h)).

Definition lift {A} (r : result A) : M A :=
  match r with Ok a => mret a | Raise e => raise e end.

Definition emit (e : Event) : M unit := MkM (λ h, (Return tt, h ++ [e])).

(** [LOGGER.info(fmt, *args)] *)
Definition log (fmt : pystr) (args : list value) : M unit := emit (EvLog fmt args).

(** [time.sleep]: the delay is converted to a signed 64-bit number of
    nanoseconds, which a delay of more than 9223372036 seconds does not
    fit (CPython 3.11). *)
Definition max_sleep : N := 9223372036.

Definition sleep (seconds : N) : M unit :=
  if max_sleep <? seconds then raise OverflowError else emit (EvSleep seconds).

Fixpoint foldM {A S} (f : S → A → M S) (s : S) (l : list A) : M S :=
  match l with
  | [] => mret s
  | x :: r => s' ← f s x; foldM f s' r
  end.

(** ** Constants of the source *)

Definition TITLE_PROPERTY : pystr := pyu "제목".
Definition AUTHOR_PROPERTY : pystr := pyu "작성자".
Definition DATE_PROPERTY : pystr := pyu "작성일".
Definition TOP_PROPERTY : pystr := py "TOP".
Definition URL_PROPERTY : pystr := py "URL".
Definition VIEWS_PROPERTY : pystr := pyu "조회수".
Definition PAGE_ICON_EMOJI : pystr := pyu "🌱".
Definition DEFAULT_QUERY : list (pystr * pystr) :=
  [(py "introPkId", py "All"); (py "option", py "TITLE")].
Definition no_date : pystr := pyu "날짜없음".

Section Program.
Context `{HostChecks} `{Html} `{Environ} `{World}.

Definition str_of (v : value) : pystr :=
  match v with VStr s => s | _ => py_repr v end.

(** ** The extractors *)

Definition clean_text (html_text : pystr) : pystr :=
  strip (replace_char 0xA0 (ch " ") (unescape (strip_tags html_text))).

(** [normalize_detail_url] applied to a value: a false value is absent, a
    true value that is not a string has no [strip]. *)
Definition normalize_detail_url_of (raw_url : value) : result (option pystr) :=
  if negb (truthy raw_url) then Ok None else
  match raw_url with
  | VStr s => normalize_detail_url (Some s)
  | _ => Raise AttributeError
  end.

(** [normalize_date_key] applied to a value: [re.search] refuses a true
    value that is not a string. *)
Definition normalize_date_key_of (date_text : value) : result pystr :=
  if negb (truthy date_text) then Ok [] else
  match date_text with
  | VStr s => Ok (normalize_date_key (Some s))
  | _ => Raise TypeError
  end.

Definition get_bbs_config_fk : pystr := default (py "141") BBS_CONFIG_FK.

Definition build_detail_url (detail_id : pystr) : pystr :=
  BASE_SITE ++ py "/ko/detail/" ++ detail_id ++ py "?bbsConfigFk=" ++ get_bbs_config_fk.

(** The loop over the links of [extract_detail_url_from_row_html]. *)
Fixpoint first_detail_href (hrefs : list pystr) : result (option pystr) :=
  match hrefs with
  | [] => Ok None
  | href :: rest =>
      candidate ← normalize_detail_url (Some (unescape href));
      match candidate with
      | Some c =>
          if nonempty c then
            detail ← is_detail_url c;
            if detail : bool then Ok (Some c) else first_detail_href rest
          else first_detail_href rest
      | None => first_detail_href rest
      end
  end.

Definition extract_detail_url_from_row_html (row_html : pystr)
  : result (option pystr) :=
  found ← first_detail_href (find_hrefs row_html);
  match found with
  | Some c => Ok (Some c)
  | None =>
      match find_detail_id row_html with
      | Some detail_id => normalize_detail_url (Some (build_detail_url detail_id))
      | None => Ok None
      end
  end.

(** [l[i]] for an index that the caller has checked. *)
Definition at_ (i : nat) (l : list pystr) : pystr := nth i l [].

(** The body of the loop of [parse_rows]: the record of a row, or nothing
    when the row is passed over. *)
Definition parse_row (row_html : pystr) : result (option dict) :=
  let cells := find_cells row_html in
  match cells with
  | [] => Ok None
  | _ :: _ =>
    let cleaned := map clean_text cells in
    if (length cleaned <? 5)%nat then Ok None else
    let num_or_top := at_ 0 cleaned in
    let title := at_ 1 cleaned in
    let author := at_ 2 cleaned in
    let date_text := at_ (length cleaned - 2) cleaned in
    let views_text := at_ (length cleaned - 1) cleaned in
    let date_iso := parse_datetime date_text in
    views ← parse_int views_text;
    if negb (truthy_opt date_iso) || bool_decide (views = None) || negb (nonempty title)
    then Ok None else
    let top := str_eqb (str_upper (strip num_or_top)) (py "TOP") in
    detail_url ← extract_detail_url_from_row_html row_html;
    Ok (Some [(py "title", VStr title);
              (py "author", VStr author);
              (py "date", opt_str date_iso);
              (py "views", VInt (Z.of_N (default 0 views)));
              (py "top", VBool top);
              (py "url", opt_str detail_url)])
  end.

Definition parse_rows (html_text : pystr) : result (list dict) :=
  items ← result_mapM parse_row (find_rows html_text);
  Ok (omap id (items : list (option dict))).

(** The loop over the links of a row in [extract_list_rows]. *)
Fixpoint first_detail_link (hrefs : list (option pystr)) : result (option pystr) :=
  match hrefs with
  | [] => Ok None
  | href :: rest =>
      if negb (truthy_opt href) then first_detail_link rest else
      candidate ← normalize_detail_url href;
      match candidate with
      | Some c =>
          if nonempty c then
            detail ← is_detail_url c;
            if detail : bool then Ok (Some c) else first_detail_link rest
          else first_detail_link rest
      | None => first_detail_link rest
      end
  end.

(** The body of the loop of [extract_list_rows]. *)
Definition extract_list_row (index : nat) (row : PageRow) : result (option dict) :=
  let cells := cell_texts row in
  let cell_count := length cells in
  if (cell_count <? 5)%nat then Ok None else
  let num_or_top := strip (at_ 0 cells) in
  let title := strip (at_ 1 cells) in
  let author := strip (at_ 2 cells) in
  let date_text := strip (at_ (cell_count - 2) cells) in
  let views_text := strip (at_ (cell_count - 1) cells) in
  let date_iso := parse_datetime date_text in
  views ← parse_int views_text;
  if negb (nonempty title) || bool_decide (views = None) then Ok None else
  let top := str_eqb (str_upper (strip num_or_top)) (py "TOP") in
  detail_url ← first_detail_link (link_hrefs row);
  Ok (Some [(py "title", VStr title);
            (py "author", VStr author);
            (py "date", opt_str date_iso);
            (py "views", VInt (Z.of_N (default 0 views)));
            (py "top", VBool top);
            (py "row_index", VInt (Z.of_nat index));
            (py "detail_url", opt_str detail_url)]).

Fixpoint extract_list_rows_from (index : nat) (rows : list PageRow)
  : result (list dict) :=
  match rows with
  | [] => Ok []
  | row :: rest =>
      item ← extract_list_row index row;
      items ← extract_list_rows_from (S index) rest;
      Ok (match item with Some i => i :: items | None => items end)
  end.

Definition extract_list_rows (page : list PageRow) : result (list dict) :=
  extract_list_rows_from 0 page.

(** [DATE_TIME_PATTERN] anchored at the head of [s].  The run of white space
    is greedy; giving back part of it cannot help, for no digit is white
    space. *)
Definition match_date_time (s : pystr) : option unit :=
  '(_, s) ← digits 4 s;
  '(_, s) ← one_of date_sep s;
  '(_, s) ← digits 2 s;
  '(_, s) ← one_of date_sep s;
  '(_, s) ← digits 2 s;
  match s with
  | c :: r =>
      if is_space c then
        '(_, s) ← digits 2 (lstrip r);
        '(_, s) ← one_of [ch ":"] s;
        '(_, _) ← digits 2 s;
        Some tt
      else None
  | [] => None
  end.

Definition extract_written_at_from_detail (html_text : pystr) : option pystr :=
  let matches := find_written_at html_text in
  match matches with
  | [] => None
  | first :: _ =>
      match find (λ v, bool_decide (is_Some (re_search match_date_time v))) matches with
      | Some v => parse_datetime v
      | None => parse_datetime first
      end
  end.

Definition build_list_url (page : N) : result pystr :=
  q ← urlencode (DEFAULT_QUERY ++ [(py "page", str_of_N page)]);
  Ok (BASE_URL ++ py "?" ++ q).

(** ** [urllib.request.Request] (CPython 3.11)

    Building a request parses the address, and refuses it with a
    [ValueError] before anything is sent: when the address has no scheme
    ([unknown url type]), and when [urlparse], which [request_host] calls,
    refuses its host. *)

(** [unwrap]: [<URL:scheme://host/path>] gives [scheme://host/path]. *)
Definition unwrap (url : pystr) : pystr :=
  let url := strip url in
  let url :=
    if str_eqb (take 1 url) (py "<") && str_eqb (drop (length url - 1) url) (py ">")
    then strip (take (length url - 2) (drop 1 url))
    else url in
  if str_eqb (take 4 url) (py "URL:") then strip (drop 4 url) else url.

(** [_splittag]: [url.rpartition('#')], the address and what follows its
    last hash sign. *)
Definition splittag (url : pystr) : pystr * option pystr :=
  match break (is_char (ch "#")) (rev url) with
  | (tag_rev, _ :: path_rev) => (rev path_rev, Some (rev tag_rev))
  | (_, []) => (url, None)
  end.

(** [_splittype]: the scheme of an address is the text before its first
    colon, when that text is not empty and holds no slash; the regular
    expression of the library asks for one character or more that are
    neither slash nor colon, followed by a colon. *)
Definition splittype (url : pystr) : option pystr * pystr :=
  match break (λ c, is_char (ch "/") c || is_char (ch ":") c) url with
  | (c0 :: pre, d :: rest) =>
      if is_char (ch ":") d then (Some (str_lower (c0 :: pre)), rest)
      else (None, url)
  | _ => (None, url)
  end.

(** [Request(url)]: the setter of [full_url], then [request_host]. *)
Definition request_init (url : pystr) : result unit :=
  let '(full, fragment) := splittag (unwrap url) in
  match (splittype full).1 with
  | None => Raise ValueError
  | Some _ =>
      let full_url :=
        match fragment with
        | Some (c :: f) => full ++ py "#" ++ c :: f
        | _ => full
        end in
      _ ← urlparse full_url;
      Ok tt
  end.

(** ** The source site over HTTP *)

Definition fetch_html (url : pystr) : M (option pystr) :=
  _ ← lift (request_init url);
  MkM (λ h,
    let out := site h url in
    let h := h ++ [EvSite url out] in
    match out with
    | HttpOk text => (Return (Some text), h)
    | HTTPError code _ _ =>
        (Return None,
         h ++ [EvLog (pyu "상세 HTML 요청 실패: %s (HTTP %s)") [VStr url; VInt (Z.of_N code)]])
    | URLError reason =>
        (Return None,
         h ++ [EvLog (pyu "상세 HTML 요청 실패: %s (%s)") [VStr url; reason]])
    | Uncaught e => (Raised e, h)
    end).

Definition fetch_written_at_from_url (detail_url : pystr) : M (option pystr) :=
  html_text ← fetch_html detail_url;
  if negb (truthy_opt html_text) then mret None else
  mret (extract_written_at_from_detail (default [] html_text)).

(** ** The pagination loops *)

Definition is_top (item : dict) : bool := truthy (dict_get item (py "top")).

(** [item.get("url") or f"{item['title']}|{item.get('date') or ''}"]: the
    key under which a pinned item is remembered.  The link of an item is a
    string or [None]. *)
Definition item_key (item : dict) : result pystr :=
  match dict_get item (py "url") with
  | VStr (c :: s) => Ok (c :: s)
  | VList (_ :: _) | VDict (_ :: _) => Raise TypeError
  | _ =>
      title ← dict_item item (py "title");
      let date := dict_get item (py "date") in
      Ok (str_of title ++ py "|" ++ (if truthy date then str_of date else []))
  end.

Abbreviation crawl_state := (list dict * gset pystr * N)%type.

(** The body of the loop over the pinned items of a page, HTTP mode. *)
Definition collect_top_http (st : crawl_state) (item : dict) : M crawl_state :=
  let '(items, seen, new_top) := st in
  item ← (match dict_get item (py "url") with
          | VStr (c :: s) =>
              written_at ← fetch_written_at_from_url (c :: s);
              mret (if truthy_opt written_at
                    then dict_set (py "date") (opt_str written_at) item
                    else item)
          | v => if truthy v then raise AttributeError else mret item
          end);
  key ← lift (item_key item);
  if bool_decide (key ∈ seen) then mret (items, seen, new_top)
  else mret (items ++ [item], {[ key ]} ∪ seen, new_top + 1).

Fixpoint crawl_http_loop (fuel : nat) (page_number : N)
    (items : list dict) (seen : gset pystr) : M (list dict) :=
  match fuel with
  | O => diverge
  | S fuel =>
    url ← lift (build_list_url page_number);
    _ ← log (pyu "페이지 로드 시작(HTTP): %s") [VStr url];
    html_text ← fetch_html url;
    if negb (truthy_opt html_text) then
      _ ← log (pyu "페이지 %s 로드 실패(HTTP)") [VInt (Z.of_N page_number)];
      mret items
    else
    page_items ← lift (parse_rows (default [] html_text));
    _ ← log (pyu "페이지 %s 항목 수(HTTP): %s")
          [VInt (Z.of_N page_number); VInt (Z.of_nat (length page_items))];
    match page_items with
    | [] => mret items
    | _ :: _ =>
      let top_items := filter (λ item, is_top item = true) page_items in
      let has_non_top := existsb (λ item, negb (is_top item)) page_items in
      '(items, seen, new_top) ← foldM collect_top_http (items, seen, 0) top_items;
      _ ← log (pyu "페이지 %s 신규 TOP 수(HTTP): %s")
            [VInt (Z.of_N page_number); VInt (Z.of_N new_top)];
      if has_non_top then
        _ ← log (pyu "페이지 %s에서 비TOP 발견, 다음 페이지 탐색 중단(HTTP)")
              [VInt (Z.of_N page_number)];
        mret items
      else crawl_http_loop fuel (page_number + 1) items seen
    end
  end.

Definition crawl_top_items_http (fuel : nat) : M (list dict) :=
  crawl_http_loop fuel 1 [] ∅.

Definition get_browser_launcher (browser : pystr) : result Launcher :=
  let browser := str_lower browser in
  if bool_decide (browser ∈ [py "chromium"; py "chrome"; py "edge"]) then Ok Chromium
  else if str_eqb browser (py "firefox") then Ok Firefox
  else if bool_decide (browser ∈ [py "webkit"; py "safari"]) then Ok Webkit
  else Raise (RuntimeError (py "Unsupported BROWSER: {}") [VStr browser]).

(** The calls of Playwright: each one either comes back or raises. *)
Definition of_result {A} (r : result A) : outcome A :=
  match r with Ok a => Return a | Raise e => Raised e end.

Definition start_playwright : M unit :=
  MkM (λ h, let out := playwright_start h in (of_result out, h ++ [EvStart out])).

Definition launch_browser (launcher : Launcher) (headless : bool) : M unit :=
  MkM (λ h, let out := browser_launch h launcher headless in
            (of_result out, h ++ [EvLaunch launcher headless out])).

Definition close_browser : M unit :=
  MkM (λ h, let out := browser_close h in (of_result out, h ++ [EvClose out])).

Definition goto_list_page (url : pystr) : M (option (list PageRow)) :=
  MkM (λ h, let out := browser_goto h url in (of_result out, h ++ [EvGoto url out])).

Definition fetch_detail_for_row (list_url : pystr) (row_index detail_url : value)
  : M (value * value) :=
  MkM (λ h,
    let out := browser_detail h list_url row_index detail_url in
    let h := h ++ [EvDetail list_url row_index detail_url out] in
    match out with
    | Ok r => (Return r, h)
    | Raise e => (Raised e, h)
    end).

(** The body of the loop over the pinned items of a page, browser mode. *)
Definition collect_top (url : pystr) (st : crawl_state) (item : dict)
  : M crawl_state :=
  let '(items, seen, new_top) := st in
  row_index ← lift (dict_item item (py "row_index"));
  '(written_at, detail_url) ←
      fetch_detail_for_row url row_index (dict_get item (py "detail_url"));
  let item := if truthy written_at then dict_set (py "date") written_at item
              else item in
  item ← (if truthy detail_url then
            normalized ← lift (normalize_detail_url_of detail_url);
            mret (dict_set (py "url") (opt_str normalized) item)
          else mret item);
  key ← lift (item_key item);
  if bool_decide (key ∈ seen) then mret (items, seen, new_top)
  else mret (items ++ [item], {[ key ]} ∪ seen, new_top + 1).

Fixpoint crawl_loop (fuel : nat) (page_number : N)
    (items : list dict) (seen : gset pystr) : M (list dict) :=
  match fuel with
  | O => diverge
  | S fuel =>
    url ← lift (build_list_url page_number);
    _ ← log (pyu "페이지 로드 시작: %s") [VStr url];
    loaded ← goto_list_page url;
    match loaded with
    | None =>
        _ ← log (pyu "페이지 %s 로드 실패") [VInt (Z.of_N page_number)];
        mret items
    | Some page =>
      page_items ← lift (extract_list_rows page);
      _ ← log (pyu "페이지 %s 항목 수: %s")
            [VInt (Z.of_N page_number); VInt (Z.of_nat (length page_items))];
      match page_items with
      | [] => mret items
      | _ :: _ =>
        let top_items := filter (λ item, is_top item = true) page_items in
        let has_non_top := existsb (λ item, negb (is_top item)) page_items in
        '(items, seen, new_top) ← foldM (collect_top url) (items, seen, 0) top_items;
        _ ← log (pyu "페이지 %s 신규 TOP 수: %s")
              [VInt (Z.of_N page_number); VInt (Z.of_N new_top)];
        if has_non_top then
          _ ← log (pyu "페이지 %s에서 비TOP 발견, 다음 페이지 탐색 중단")
                [VInt (Z.of_N page_number)];
          mret items
        else crawl_loop fuel (page_number + 1) items seen
      end
    end
  end.

Definition crawl_top_items (fuel : nat) : M (list dict) :=
  if negb playwright_installed then
    _ ← log (pyu "Playwright 미설치: HTTP 모드로 전환") [];
    crawl_top_items_http fuel
  else
    let browser_name := default (py "chromium") BROWSER in
    let headless :=
      negb (bool_decide (str_lower (strip (default (py "1") HEADLESS))
                         ∈ [py "0"; py "false"; py "no"; py "off"])) in
    _ ← start_playwright;
    launcher ← lift (get_browser_launcher browser_name);
    _ ← launch_browser launcher headless;
    items ← crawl_loop fuel 1 [] ∅;
    _ ← close_browser;
    mret items.

(** ** The Notion transport *)

Definition retryable_codes : list N := [429; 500; 502; 503; 504].
Definition max_retries : N := 3.

(** One turn of the loop up to the answer: the request is built, which may
    fail before anything is sent, and [urlopen] is called. *)
Definition ask_notion (req : Request) : M (HttpOutcome (option value)) :=
  _ ← lift (request_init (req_url req));
  MkM (λ h, let out := notion_api h req in (Return out, h ++ [EvNotion req out])).

(** The loop of [notion_request]: [remaining] attempts of
    [range(max_retries + 1)] are left, [attempt] is the index of the next
    one.  Falling out of the loop returns [None]. *)
Fixpoint notion_attempts (remaining : nat) (attempt : N) (backoff : N)
    (req : Request) : M value :=
  match remaining with
  | O => mret VNone
  | S remaining =>
    out ← ask_notion req;
    match out with
    | HttpOk (Some data) => mret data
    | HttpOk None => raise ValueError
    | HTTPError code retry_after body =>
        let retryable := bool_decide (code ∈ retryable_codes) in
        if retryable && (attempt <? max_retries) then
          sleep_s ← (match retry_after with
                     | Some text =>
                         if nonempty text && str_isdigit text
                         then lift (float_of_digits text)
                         else mret backoff
                     | None => mret backoff
                     end);
          _ ← log (pyu "Notion API 재시도(%s/%s): HTTP %s")
                [VInt (Z.of_N (attempt + 1)); VInt (Z.of_N max_retries);
                 VInt (Z.of_N code)];
          _ ← sleep sleep_s;
          notion_attempts remaining (attempt + 1) (N.min (backoff * 2) 8) req
        else
          raise (RuntimeError (py "Notion API error: HTTP {}: {}")
                   [VInt (Z.of_N code); VStr body])
    | URLError reason =>
        if attempt <? max_retries then
          _ ← log (pyu "Notion API 재시도(%s/%s): %s")
                [VInt (Z.of_N (attempt + 1)); VInt (Z.of_N max_retries); reason];
          _ ← sleep backoff;
          notion_attempts remaining (attempt + 1) (N.min (backoff * 2) 8) req
        else raise (RuntimeError (py "Notion API error: {}") [reason])
    | Uncaught e => raise e
    end
  end.

Definition notion_request (method url token : pystr) (payload : option value)
  : M value :=
  notion_attempts (S (N.to_nat max_retries)) 0 1
    {| req_method := method; req_url := url; req_token := token;
       req_payload := payload |}.

(** ** The schema of the mirror *)

Definition database_url (database_id : pystr) : pystr :=
  py "https://api.notion.com/v1/databases/" ++ database_id.

Definition fetch_database (token database_id : pystr) : M value :=
  notion_request (py "GET") (database_url database_id) token None.

Definition update_database (token database_id : pystr) (properties : value)
  : M value :=
  notion_request (py "PATCH") (database_url database_id) token
    (Some (VDict [(py "properties", properties)])).

(** [database.get("properties", {}).get(property_name)] *)
Definition get_property (database : value) (property_name : pystr) : result value :=
  properties ← py_get database (py "properties") (VDict []);
  py_get properties property_name VNone.

Definition ensure_url_property (token database_id : pystr) (database : value)
  : M value :=
  prop ← lift (get_property database URL_PROPERTY);
  if truthy prop then
    actual ← lift (py_get prop (py "type") VNone);
    if negb (is_str (py "url") actual) then
      raise (RuntimeError (pyu "Notion 속성 타입 불일치: {} (url 아님)") [VStr URL_PROPERTY])
    else mret database
  else
    _ ← log (pyu "Notion 속성 추가: %s") [VStr URL_PROPERTY];
    update_database token database_id
      (VDict [(URL_PROPERTY, VDict [(py "url", VDict [])])]).

Definition require_property_type (database : value)
    (property_name expected_type : pystr) : result unit :=
  prop ← get_property database property_name;
  if negb (truthy prop) then
    Raise (RuntimeError (pyu "Notion 속성 누락: {} (필수 타입: {})")
             [VStr property_name; VStr expected_type])
  else
    actual ← py_get prop (py "type") VNone;
    if negb (is_str expected_type actual) then
      Raise (RuntimeError (pyu "Notion 속성 타입 불일치: {} (기대 {}, 실제 {})")
               [VStr property_name; VStr expected_type; actual])
    else Ok tt.

Definition validate_required_properties (database : value) : result unit :=
  _ ← require_property_type database TITLE_PROPERTY (py "title");
  _ ← require_property_type database TOP_PROPERTY (py "checkbox");
  _ ← require_property_type database DATE_PROPERTY (py "date");
  _ ← require_property_type database AUTHOR_PROPERTY (py "select");
  require_property_type database URL_PROPERTY (py "url").

Definition validate_optional_property_type (database : value)
    (property_name expected_type : pystr) : M bool :=
  prop ← lift (get_property database property_name);
  if negb (truthy prop) then mret false else
  actual ← lift (py_get prop (py "type") VNone);
  if negb (is_str expected_type actual) then
    _ ← log (pyu "Notion 속성 타입 불일치: %s (기대 %s, 실제 %s) -> 업데이트 생략")
          [VStr property_name; VStr expected_type; actual];
    mret false
  else mret true.

Definition get_select_options (database : value) (property_name : pystr)
  : result value :=
  prop ← get_property database property_name;
  if negb (truthy prop) then
    Raise (RuntimeError (pyu "Notion 속성 누락: {}") [VStr property_name])
  else
    actual ← py_get prop (py "type") VNone;
    if negb (is_str (py "select") actual) then
      Raise (RuntimeError (pyu "Notion 속성 타입 오류: {} (select 아님)")
               [VStr property_name])
    else
      select ← py_get prop (py "select") (VDict []);
      py_get select (py "options") (VList []).

(** The body of the loop of [sanitize_select_options]: the entry kept for an
    option, or nothing when the option has no name. *)
Definition sanitize_select_option (opt : value) : result (option dict) :=
  name ← py_get opt (py "name") VNone;
  if negb (truthy name) then Ok None else
  let item := [(py "name", name)] in
  id ← py_get opt (py "id") VNone;
  item ← (if truthy id then
            id ← py_item opt (py "id"); Ok (item ++ [(py "id", id)])
          else Ok item);
  color ← py_get opt (py "color") VNone;
  Ok (Some (if truthy color then item ++ [(py "color", color)] else item)).

Definition sanitize_select_options (options : value) : result (list dict) :=
  options ← py_iter options;
  sanitized ← result_mapM sanitize_select_option options;
  Ok (omap id (sanitized : list (option dict))).

Definition ensure_select_option (token database_id property_name option_name : pystr)
    (options_cache : value) : M value :=
  if negb (nonempty option_name) then mret options_cache else
  sanitized_options ← lift (sanitize_select_options options_cache);
  let names := map (λ opt, dict_get opt (py "name")) sanitized_options in
  (* the set comprehension hashes every name *)
  if negb (forallb hashable names) then raise TypeError else
  if existsb (is_str option_name) names then mret options_cache else
  let updated_options :=
    map VDict sanitized_options ++ [VDict [(py "name", VStr option_name)]] in
  _ ← log (pyu "Notion 옵션 추가: %s=%s") [VStr property_name; VStr option_name];
  data ← update_database token database_id
           (VDict [(property_name,
                    VDict [(py "select", VDict [(py "options", VList updated_options)])])]);
  lift (get_select_options data property_name).

(** ** Pages of the mirror *)

Definition query_database (token database_id : pystr) (filter_payload : value)
  : M value :=
  data ← notion_request (py "POST") (database_url database_id ++ py "/query") token
           (Some (VDict [(py "filter", filter_payload)]));
  lift (py_get data (py "results") (VList [])).

Definition build_properties (item : dict) (has_views_property : bool)
  : result dict :=
  title ← dict_item item (py "title");
  top ← dict_item item (py "top");
  let props :=
    [(TITLE_PROPERTY,
      VDict [(py "title",
              VList [VDict [(py "text", VDict [(py "content", title)])]])]);
     (TOP_PROPERTY, VDict [(py "checkbox", top)])] in
  let props :=
    if truthy (dict_get item (py "date")) then
      dict_set DATE_PROPERTY
        (VDict [(py "date", VDict [(py "start", dict_get item (py "date"))])]) props
    else props in
  let props :=
    if truthy (dict_get item (py "author")) then
      dict_set AUTHOR_PROPERTY
        (VDict [(py "select", VDict [(py "name", dict_get item (py "author"))])]) props
    else props in
  let props :=
    if has_views_property
       && negb (match dict_get item (py "views") with VNone => true | _ => false end)
    then dict_set VIEWS_PROPERTY (VDict [(py "number", dict_get item (py "views"))]) props
    else props in
  let props :=
    if truthy (dict_get item (py "url")) then
      dict_set URL_PROPERTY (VDict [(py "url", dict_get item (py "url"))]) props
    else props in
  Ok props.

Definition as_str (v : value) : result pystr :=
  match v with VStr s => Ok s | _ => Raise TypeError end.

Definition extract_title (properties : value) : result pystr :=
  title_prop ← py_get properties TITLE_PROPERTY (VDict []);
  title_parts ← py_get title_prop (py "title") (VList []);
  parts ← py_iter title_parts;
  texts ← result_mapM (λ part, py_get part (py "plain_text") (VStr [])) parts;
  texts ← result_mapM as_str texts;
  Ok (strip (concat texts)).

Definition extract_date (properties : value) : result value :=
  date_prop ← py_get properties DATE_PROPERTY (VDict []);
  date_data ← py_get date_prop (py "date") VNone;
  if negb (truthy date_data) then Ok VNone else
  start ← py_get date_data (py "start") VNone;
  if negb (truthy start) then Ok VNone else Ok start.

Definition extract_url (properties : value) : result (option pystr) :=
  url_prop ← py_get properties URL_PROPERTY (VDict []);
  url_value ← py_get url_prop (py "url") VNone;
  if negb (truthy url_value) then Ok None else
  normalize_detail_url_of url_value.

(** [results[0]["id"]] *)
Definition first_id (results : value) : result value :=
  first ← py_first results; py_item first (py "id").

Definition find_existing_page (token database_id : pystr)
    (detail_url title date_iso : value) : M value :=
  let by_title :=
    if truthy title then
      results ← query_database token database_id
        (VDict [(py "property", VStr TITLE_PROPERTY);
                (py "title", VDict [(py "equals", title)])]);
      n ← lift (py_len results);
      if (n =? 1)%nat then lift (first_id results) else mret VNone
    else mret VNone in
  let by_title_and_date :=
    if truthy title && truthy date_iso then
      results ← query_database token database_id
        (VDict [(py "and",
                 VList [VDict [(py "property", VStr TITLE_PROPERTY);
                               (py "title", VDict [(py "equals", title)])];
                        VDict [(py "property", VStr DATE_PROPERTY);
                               (py "date", VDict [(py "equals", date_iso)])]])]);
      n ← lift (py_len results);
      if (n =? 1)%nat then lift (first_id results)
      else if (1 <? n)%nat then
        _ ← log (pyu "제목+작성일 중복 감지: %s (%s)") [title; date_iso];
        mret VNone
      else by_title
    else by_title in
  if truthy detail_url then
    results ← query_database token database_id
      (VDict [(py "property", VStr URL_PROPERTY);
              (py "url", VDict [(py "equals", detail_url)])]);
    n ← lift (py_len results);
    if (n =? 1)%nat then lift (first_id results)
    else if (1 <? n)%nat then
      _ ← log (pyu "URL 중복 감지: %s") [detail_url];
      mret VNone
    else by_title_and_date
  else by_title_and_date.

Definition build_icon : value :=
  VDict [(py "type", VStr (py "emoji")); (py "emoji", VStr PAGE_ICON_EMOJI)].

Definition create_page (token database_id : pystr) (properties : value) : M unit :=
  _ ← notion_request (py "POST") (py "https://api.notion.com/v1/pages") token
        (Some (VDict [(py "parent", VDict [(py "database_id", VStr database_id)]);
                      (py "properties", properties);
                      (py "icon", build_icon)]));
  mret tt.

Definition update_page (token : pystr) (page_id : value) (properties : value)
  : M unit :=
  _ ← notion_request (py "PATCH")
        (py "https://api.notion.com/v1/pages/" ++ str_of page_id) token
        (Some (VDict [(py "properties", properties); (py "icon", build_icon)]));
  mret tt.

(** ** The retirement pass *)

(** The body of the loop of [disable_missing_top]: whether the page was
    retired. *)
Definition disable_page (token : pystr) (current_top_urls : gset pystr)
    (current_top_dates : gmap pystr (gset pystr)) (page : value) : M bool :=
  props ← lift (py_get page (py "properties") (VDict []));
  page_url ← lift (extract_url props);
  if truthy_opt page_url
     && negb (bool_decide (current_top_urls = ∅))
     && bool_decide (default [] page_url ∈ current_top_urls)
  then mret false else
  title ← lift (extract_title props);
  if negb (nonempty title) then mret false else
  date_iso ← lift (extract_date props);
  date_key ← lift (normalize_date_key_of date_iso);
  if match current_top_dates !! title with
     | Some title_dates => bool_decide (date_key ∈ title_dates)
     | None => false
     end
  then mret false else
  page_id ← lift (py_item page (py "id"));
  _ ← update_page token page_id
        (VDict [(TOP_PROPERTY, VDict [(py "checkbox", VBool false)])]);
  _ ← log (pyu "TOP 해제: %s (%s)")
        [VStr title; if truthy date_iso then date_iso else VStr no_date];
  mret true.

Definition disable_pages (token : pystr) (current_top_urls : gset pystr)
    (current_top_dates : gmap pystr (gset pystr)) (disabled : N)
    (pages : list value) : M N :=
  foldM (λ disabled page,
           retired ← disable_page token current_top_urls current_top_dates page;
           mret (if retired : bool then disabled + 1 else disabled))
        disabled pages.

(** [disable_missing_top] over the generator [iter_top_pages]: a batch of
    pinned pages is asked for, its pages are handled, and the next batch is
    asked for while the answer says there is more. *)
Fixpoint disable_loop (fuel : nat) (token database_id : pystr)
    (current_top_urls : gset pystr) (current_top_dates : gmap pystr (gset pystr))
    (payload : dict) (disabled : N) : M N :=
  match fuel with
  | O => diverge
  | S fuel =>
    data ← notion_request (py "POST") (database_url database_id ++ py "/query")
             token (Some (VDict payload));
    results ← lift (py_get data (py "results") (VList []));
    pages ← lift (py_iter results);
    disabled ← disable_pages token current_top_urls current_top_dates disabled pages;
    has_more ← lift (py_get data (py "has_more") VNone);
    if negb (truthy has_more) then mret disabled else
    next_cursor ← lift (py_get data (py "next_cursor") VNone);
    disable_loop fuel token database_id current_top_urls current_top_dates
      (dict_set (py "start_cursor") next_cursor payload) disabled
  end.

Definition disable_missing_top (fuel : nat) (token database_id : pystr)
    (current_top_urls : gset pystr) (current_top_dates : gmap pystr (gset pystr))
  : M N :=
  disable_loop fuel token database_id current_top_urls current_top_dates
    [(py "filter", VDict [(py "property", VStr TOP_PROPERTY);
                          (py "checkbox", VDict [(py "equals", VBool true)])]);
     (py "page_size", VInt 100)]
    0.

(** ** The reconciliation *)

Record SyncState := {
  author_options : value;
  created : N;
  updated : N;
  current_top_urls : gset pystr;
  current_top_dates : gmap pystr (gset pystr)
}.

(** The body of the loop of [main] over the items. *)
Definition process_item (token database_id : pystr) (has_views_property : bool)
    (st : SyncState) (item : dict) : M SyncState :=
  '(item, urls) ←
     (if truthy (dict_get item (py "url")) then
        url ← lift (dict_item item (py "url"));
        normalized_url ← lift (normalize_detail_url_of url);
        match normalized_url with
        | Some (c :: s) =>
            mret (dict_set (py "url") (VStr (c :: s)) item,
                  {[ c :: s ]} ∪ current_top_urls st)
        | _ => mret (item, current_top_urls st)
        end
      else mret (item, current_top_urls st));
  title ← lift (dict_item item (py "title"));
  let date := dict_get item (py "date") in
  let label := str_of title ++ py " (" ++ (if truthy date then str_of date else no_date)
               ++ py ")" in
  date_key ← lift (normalize_date_key_of date);
  (* [current_top_dates.setdefault(item["title"], set()).add(date_key)]: the
     map is only ever read at a string, so an entry under another key is
     not kept *)
  dates ← (match title with
           | VStr t =>
               mret (<[ t := {[ date_key ]} ∪ default ∅ (current_top_dates st !! t) ]>
                       (current_top_dates st))
           | VList _ | VDict _ => raise TypeError
           | _ => mret (current_top_dates st)
           end);
  _ ← log (pyu "처리 시작: %s") [VStr label];
  options ← (if truthy (dict_get item (py "author")) then
               author ← lift (dict_item item (py "author"));
               (* the author of an item is a string *)
               match author with
               | VStr a =>
                   ensure_select_option token database_id AUTHOR_PROPERTY a
                     (author_options st)
               | _ => raise TypeError
               end
             else mret (author_options st));
  properties ← lift (build_properties item has_views_property);
  page_id ← find_existing_page token database_id (dict_get item (py "url")) title date;
  if truthy page_id then
    _ ← update_page token page_id (VDict properties);
    _ ← log (pyu "업데이트 완료: %s") [VStr label];
    mret {| author_options := options; created := created st;
            updated := updated st + 1; current_top_urls := urls;
            current_top_dates := dates |}
  else
    _ ← create_page token database_id (VDict properties);
    _ ← log (pyu "생성 완료: %s") [VStr label];
    mret {| author_options := options; created := created st + 1;
            updated := updated st; current_top_urls := urls;
            current_top_dates := dates |}.

(** [main] up to the items: the environment, then the HTML file or the
    crawl. *)
Definition load_items (fuel : nat) : M (pystr * pystr * list dict) :=
  _ ← log (pyu "환경: Python=%s, Playwright=%s")
        [VStr python_version;
         VStr (if playwright_installed then pyu "설치됨" else pyu "미설치")];
  _ ← log (pyu "환경: BROWSER=%s, HEADLESS=%s, bbsConfigFk=%s")
        [VStr (default (py "chromium") BROWSER);
         VStr (if bool_decide (str_lower (strip (default (py "1") HEADLESS))
                               ∈ [py "0"; py "false"; py "no"; py "off"])
               then py "0" else py "1");
         VStr get_bbs_config_fk];
  if negb (truthy_opt NOTION_TOKEN) || negb (truthy_opt NOTION_DB_ID) then
    raise (RuntimeError (py "NOTION_TOKEN and NOTION_DB_ID must be set (env or .env)") [])
  else
  let notion_token := default [] NOTION_TOKEN in
  let database_id := default [] NOTION_DB_ID in
  let html_path :=
    match argv1 with
    | Some p => Some p
    | None => if truthy_opt HTML_PATH then HTML_PATH else None
    end in
  items ← (match html_path with
           | Some p =>
               match read_text p with
               | None => raise (RuntimeError (py "HTML file not found: {}") [VStr p])
               | Some html_text => lift (parse_rows html_text)
               end
           | None => crawl_top_items fuel
           end);
  match items with
  | [] => raise (RuntimeError (py "No items parsed from source") [])
  | _ :: _ => mret (notion_token, database_id, items)
  end.

(** [main] from the schema checks to the first item. *)
Definition preflight (notion_token database_id : pystr) : M (value * bool) :=
  database ← fetch_database notion_token database_id;
  database ← ensure_url_property notion_token database_id database;
  _ ← lift (validate_required_properties database);
  author_options ← lift (get_select_options database AUTHOR_PROPERTY);
  has_views_property ←
    validate_optional_property_type database VIEWS_PROPERTY (py "number");
  mret (author_options, has_views_property).

(** [main] once the items are there. *)
Definition reconcile (fuel : nat) (notion_token database_id : pystr)
    (items : list dict) : M unit :=
  '(author_options, has_views_property) ← preflight notion_token database_id;
  st ← foldM (process_item notion_token database_id has_views_property)
         {| author_options := author_options; created := 0; updated := 0;
            current_top_urls := ∅; current_top_dates := ∅ |}
         items;
  _ ← log (pyu "기존 TOP 정리 시작") [];
  disabled ← disable_missing_top fuel notion_token database_id
               (current_top_urls st) (current_top_dates st);
  _ ← log (pyu "TOP 해제 수: %s") [VInt (Z.of_N disabled)];
  _ ← log (pyu "TOP 항목 수: %s") [VInt (Z.of_nat (length items))];
  _ ← log (pyu "생성: %s") [VInt (Z.of_N (created st))];
  log (pyu "업데이트: %s") [VInt (Z.of_N (updated st))].

Definition main (fuel : nat) : M unit :=
  '(notion_token, database_id, items) ← load_items fuel;
  reconcile fuel notion_token database_id items.

End Program.

(** ** The retry policy, as stated

    A failure is retried when it is a network error or an HTTP error with
    one of five status codes, and the delay before the retry can be slept.
    Before the retry number [k] (counted from 0) the transport asks for the
    delay of the [Retry-After] header when the header is a text of digits,
    and otherwise for the back-off, which starts at 1 and doubles up
    to 8. *)

Definition backoff_before (k : nat) : N :=
  match k with
  | 0%nat => 1
  | 1%nat => 2
  | 2%nat => 4
  | _ => 8
  end.

Definition retryable (out : HttpOutcome (option value)) : bool :=
  match out with
  | HTTPError code _ _ =>
      bool_decide (code = 429 ∨ code = 500 ∨ code = 502 ∨ code = 503 ∨ code = 504)
  | URLError _ => true
  | HttpOk _ | Uncaught _ => false
  end.

(** The delay asked for after the failed attempt number [k]: the header
    when it is a text of digits, which [float] reads or refuses, and the
    back-off otherwise. *)
Definition requested_delay (k : nat) (out : HttpOutcome (option value)) : result N :=
  match out with
  | HTTPError _ (Some text) _ =>
      if str_isdigit text then float_of_digits text else Ok (backoff_before k)
  | _ => Ok (backoff_before k)
  end.

(** The failure is followed by a pause of [d] seconds and another attempt. *)
Definition retried_after (k : nat) (out : HttpOutcome (option value)) (d : N) : Prop :=
  retryable out = true ∧ requested_delay k out = Ok d ∧ d ≤ max_sleep.

Definition retried (k : nat) (out : HttpOutcome (option value)) : Prop :=
  ∃ d, retried_after k out d.

Definition slept (k : nat) (out : HttpOutcome (option value)) : N :=
  match requested_delay k out with Ok d => d | Raise _ => 0 end.

Definition retry_log (k : nat) (out : HttpOutcome (option value)) : Event :=
  match out with
  | HTTPError code _ _ =>
      EvLog (pyu "Notion API 재시도(%s/%s): HTTP %s")
        [VInt (Z.of_nat (S k)); VInt 3; VInt (Z.of_N code)]
  | URLError reason =>
      EvLog (pyu "Notion API 재시도(%s/%s): %s")
        [VInt (Z.of_nat (S k)); VInt 3; reason]
  | HttpOk _ | Uncaught _ => EvLog [] []
  end.

(** The events of one failed attempt and of the wait that follows it. *)
Definition retry_events (req : Request) (k : nat)
    (out : HttpOutcome (option value)) : list Event :=
  [EvNotion req out; retry_log k out; EvSleep (slept k out)].

Fixpoint retry_trace (req : Request) (k : nat)
    (fails : list (HttpOutcome (option value))) : list Event :=
  match fails with
  | [] => []
  | out :: rest => retry_events req k out ++ retry_trace req (S k) rest
  end.

(** The world answers the attempts made from the history [h] on with the
    failures [fails], in order, and then with [last]. *)
Fixpoint answered `{World} (h : list Event) (req : Request) (k : nat)
    (fails : list (HttpOutcome (option value)))
    (last : HttpOutcome (option value)) : Prop :=
  match fails with
  | [] => notion_api h req = last
  | out :: rest =>
      notion_api h req = out
      ∧ answered (h ++ retry_events req k out) req (S k) rest last
  end.

(** The answer [last] to the attempt number [k] ends the call: it is the
    fourth attempt, or the answer is not a failure that is retried. *)
Definition ends_call (k : nat) (last : HttpOutcome (option value)) : Prop :=
  k = 3%nat ∨ ¬ retried k last.

(** How the call ends on the answer [last] to its attempt number [k].  A
    failure of one of the retried kinds, before the fourth attempt, ends
    the call when its delay cannot be slept: with the [ValueError] of
    [float], or, after the line of the retry is logged, with the
    [OverflowError] of [time.sleep]. *)
Definition call_outcome (k : nat) (last : HttpOutcome (option value)) : outcome value :=
  match last with
  | HttpOk (Some data) => Return data
  | HttpOk None => Raised ValueError
  | Uncaught e => Raised e
  | HTTPError code _ body =>
      if retryable last && (k <? 3)%nat then
        match requested_delay k last with
        | Raise e => Raised e
        | Ok _ => Raised OverflowError
        end
      else Raised (RuntimeError (py "Notion API error: HTTP {}: {}")
                     [VInt (Z.of_N code); VStr body])
  | URLError reason => Raised (RuntimeError (py "Notion API error: {}") [reason])
  end.

Definition closing_events (k : nat) (last : HttpOutcome (option value)) : list Event :=
  if retryable last && (k <? 3)%nat then
    match requested_delay k last with
    | Ok _ => [retry_log k last]
    | Raise _ => []
    end
  else [].

Definition make_request (method url token : pystr) (payload : option value)
  : Request :=
  {| req_method := method; req_url := url; req_token := token;
     req_payload := payload |}.

(** The address at which pages are created. *)
Definition api_pages_url : pystr := py "https://api.notion.com/v1/pages".

(** ** Worlds for the examples *)

Fixpoint count_requests (h : list Event) : nat :=
  match h with
  | [] => 0
  | EvNotion _ _ :: r => S (count_requests r)
  | _ :: r => count_requests r
  end.

(** The Notion API answers its n-th request with the n-th entry of a
    script, whatever the request; nothing else answers. *)
Definition scripted_world (script : list (HttpOutcome (option value))) : World :=
  {| notion_api := λ h _, nth (count_requests h) script (URLError VNone);
     site := λ _ _, URLError VNone;
     playwright_start := λ _, Ok tt;
     browser_launch := λ _ _ _, Ok tt;
     browser_goto := λ _ _, Ok None;
     browser_detail := λ _ _ _ _, Ok (VNone, VNone);
     browser_close := λ _, Ok tt;
     py_repr := λ _, [] |}.

Definition rate_limited : HttpOutcome (option value) := HTTPError 429 None [].

(** ** Requests of a run *)

(** The requests sent to the Notion API in a stretch of history. *)
Fixpoint requests (h : list Event) : list Request :=
  match h with
  | [] => []
  | EvNotion req _ :: r => req :: requests r
  | _ :: r => requests r
  end.

(** ** The choices of a single-choice field *)

(** The name of a choice: a choice is a dictionary with a true [name]. *)
Definition option_name_of (opt : value) : option value :=
  match opt with
  | VDict d => if truthy (dict_get d (py "name")) then Some (dict_get d (py "name")) else None
  | _ => None
  end.

(** The names of the choices that a list of options holds. *)
Definition existing_names (options : value) : list value :=
  match options with
  | VList opts => omap option_name_of opts
  | _ => []
  end.

(** The schema update that sets the choices of a field. *)
Definition select_update (token database_id property_name : pystr)
    (options : list value) : Request :=
  make_request (py "PATCH") (database_url database_id) token
    (Some (VDict [(py "properties",
                   VDict [(property_name,
                           VDict [(py "select",
                                   VDict [(py "options", VList options)])])])])).

(** ** The schema of the mirror, as stated *)

(** The schema exposes the field [name] with the type [expected]. *)
Definition has_field (database : value) (name expected : pystr) : Prop :=
  ∃ prop, get_property database name = Ok prop
          ∧ truthy prop = true
          ∧ py_get prop (py "type") VNone = Ok (VStr expected).

(** The five required fields are there with their types. *)
Definition schema_ok (database : value) : Prop :=
  has_field database TITLE_PROPERTY (py "title")
  ∧ has_field database TOP_PROPERTY (py "checkbox")
  ∧ has_field database DATE_PROPERTY (py "date")
  ∧ has_field database AUTHOR_PROPERTY (py "select")
  ∧ has_field database URL_PROPERTY (py "url").

(** The schema has no URL field. *)
Definition url_field_missing (database : value) : Prop :=
  ∃ prop, get_property database URL_PROPERTY = Ok prop ∧ truthy prop = false.

(** The request that reads the schema and the one that adds the URL field. *)
Definition schema_read (token database_id : pystr) : Request :=
  make_request (py "GET") (database_url database_id) token None.

Definition add_url_field (token database_id : pystr) : Request :=
  make_request (py "PATCH") (database_url database_id) token
    (Some (VDict [(py "properties",
                   VDict [(URL_PROPERTY, VDict [(py "url", VDict [])])])])).

(** A request that writes to the mirror: an update of the schema or of a
    page, or the creation of a page. *)
Definition is_write (req : Request) : bool :=
  str_eqb (req_method req) (py "PATCH")
  || str_eqb (req_url req) (py "https://api.notion.com/v1/pages").

(** ** Schemas and items for the examples *)

Definition field (name type : pystr) : pystr * value :=
  (name, VDict [(py "type", VStr type)]).

Definition schema_of (fields : dict) : value := VDict [(py "properties", VDict fields)].

Definition schema_without_url : value :=
  schema_of [field TITLE_PROPERTY (py "title"); field TOP_PROPERTY (py "checkbox");
             field DATE_PROPERTY (py "date"); field AUTHOR_PROPERTY (py "select")].

Definition schema_full : value :=
  schema_of [field TITLE_PROPERTY (py "title"); field TOP_PROPERTY (py "checkbox");
             field DATE_PROPERTY (py "date"); field AUTHOR_PROPERTY (py "select");
             field URL_PROPERTY (py "url")].

Definition schema_without_title : value :=
  schema_of [field TOP_PROPERTY (py "checkbox");
             field DATE_PROPERTY (py "date"); field AUTHOR_PROPERTY (py "select");
             field URL_PROPERTY (py "url")].

Definition no_results : value :=
  VDict [(py "results", VList []); (py "has_more", VBool false)].

(** A pinned notice without author, date and link. *)
Definition plain_item : dict :=
  [(py "title", VStr (py "Notice")); (py "author", VStr []);
   (py "date", VNone); (py "views", VInt 1); (py "top", VBool true);
   (py "url", VNone)].

(** The schema lacks the URL field; the update that adds it answers with the
    full schema; no page matches the item; the page is created; no page is
    pinned in the mirror. *)
Definition world_without_url_field : World :=
  scripted_world [HttpOk (Some schema_without_url); HttpOk (Some schema_full);
                  HttpOk (Some no_results); HttpOk (Some (VDict []));
                  HttpOk (Some no_results)].

Definition world_without_title_field : World :=
  scripted_world [HttpOk (Some schema_without_title)].

(** ** Identity resolution, as stated *)

(** The filter of the first tier: the pages whose URL field is [detail_url]. *)
Definition url_filter (detail_url : value) : value :=
  VDict [(py "property", VStr URL_PROPERTY);
         (py "url", VDict [(py "equals", detail_url)])].

(** The request that creates the page of an item. *)
Definition create_request (token database_id : pystr) (properties : value) : Request :=
  make_request (py "POST") (py "https://api.notion.com/v1/pages") token
    (Some (VDict [(py "parent", VDict [(py "database_id", VStr database_id)]);
                  (py "properties", properties);
                  (py "icon", build_icon)])).

(** A request that creates or updates a page. *)
Definition is_page_write (req : Request) : bool :=
  startswith (py "https://api.notion.com/v1/pages") (req_url req).

Definition notice_url : pystr := py "https://www.sogang.ac.kr/ko/detail/7?bbsConfigFk=141".

(** A pinned notice with a link. *)
Definition linked_item : dict :=
  [(py "title", VStr (py "Notice")); (py "author", VStr []);
   (py "date", VStr (py "2024-03-05T00:00:00+09:00")); (py "views", VInt 1);
   (py "top", VBool true); (py "url", VStr notice_url)].

Definition two_pages : value :=
  VDict [(py "results", VList [VDict [(py "id", VStr (py "p1"))];
                               VDict [(py "id", VStr (py "p2"))]])].

(** The schema is right; two pages of the mirror carry the link of the
    item; whatever is asked next succeeds; no page is pinned in the mirror. *)
Definition world_with_duplicates : World :=
  scripted_world [HttpOk (Some schema_full); HttpOk (Some two_pages);
                  HttpOk (Some (VDict [])); HttpOk (Some no_results)].

(** ** The retirement pass, as stated *)

(** A pinned page of the mirror as the Notion API describes it, as far as
    the pass looks at it: its identifier, its URL field (a text, or null),
    the texts of the parts of its title, and the start of its date when it
    has a date. *)
Record MirrorPage := {
  mp_id : pystr;
  mp_url : option pystr;
  mp_title : list pystr;
  mp_date : option pystr
}.

(** The JSON object [d] holds [v] under [key]. *)
Definition has (d : dict) (key : pystr) (v : value) : Prop := assoc key d = Some v.


(** The canonical URL of the page, its title and its day-key. *)
Definition canonical_url `{HostChecks} (p : MirrorPage) : result (option pystr) :=
  normalize_detail_url (mp_url p).

Definition title_text (p : MirrorPage) : pystr := strip (concat (mp_title p)).

Definition day_key (p : MirrorPage) : pystr := normalize_date_key (mp_date p).

(** The page was observed in this run: its canonical URL is in the set of
    pinned URLs, or its title and day-key are in the map of pinned titles. *)
Definition observed `{HostChecks} (urls : gset pystr) (dates : gmap pystr (gset pystr))
    (p : MirrorPage) : bool :=
  match canonical_url p with
  | Ok (Some u) => bool_decide (u ∈ urls)
  | _ => false
  end
  || match dates !! title_text p with
     | Some days => bool_decide (day_key p ∈ days)
     | None => false
     end.

(** The page is retired: it has a title and was not observed. *)
Definition retired `{HostChecks} (urls : gset pystr) (dates : gmap pystr (gset pystr))
    (p : MirrorPage) : bool :=
  nonempty (title_text p) && negb (observed urls dates p).

(** The update that clears the pinned flag of a page. *)
Definition clear_request `{World} (token : pystr) (page_id : value) : Request :=
  make_request (py "PATCH") (py "https://api.notion.com/v1/pages/" ++ str_of page_id)
    token
    (Some (VDict [(py "properties",
                   VDict [(TOP_PROPERTY, VDict [(py "checkbox", VBool false)])]);
                  (py "icon", build_icon)])).







(** Every request is answered with some data at once. *)
Definition obliging `{World} : Prop :=
  ∀ h req, ∃ data, notion_api h req = HttpOk (Some data).

(** A pinned page of the mirror. *)
Definition pinned_page (id : pystr) (url : value) (title date : pystr) : value :=
  VDict [(py "id", VStr id);
         (py "properties",
          VDict [(URL_PROPERTY, VDict [(py "url", url)]);
                 (TITLE_PROPERTY,
                  VDict [(py "title", VList [VDict [(py "plain_text", VStr title)]])]);
                 (DATE_PROPERTY, VDict [(py "date", VDict [(py "start", VStr date)])])])].

(** The mirror of the example: the page A carries the link [u1], the page B
    the title T and a date. *)
Definition page_A : value :=
  pinned_page (py "A") (VStr notice_url) (py "Notice") (py "2024-03-05").
Definition page_B : value :=
  pinned_page (py "B") VNone (py "T") (py "2024-03-01").

Definition world_of_pinned_pages : World :=
  scripted_world [HttpOk (Some (VDict [(py "results", VList [page_A; page_B]);
                                       (py "has_more", VBool false)]));
                  HttpOk (Some (VDict []))].






(** ** The rows of the two extractors, as stated *)

(** The text of the date cell of a row: the cell before the last. *)
Definition static_date_text `{Html} (row_html : pystr) : pystr :=
  let cleaned := map clean_text (find_cells row_html) in
  at_ (length cleaned - 2) cleaned.

Definition page_date_text (row : PageRow) : pystr :=
  strip (at_ (length (cell_texts row) - 2) (cell_texts row)).

(** The text of the cell of the view count: the last cell. *)
Definition static_views_text `{Html} (row_html : pystr) : pystr :=
  let cleaned := map clean_text (find_cells row_html) in
  at_ (length cleaned - 1) cleaned.

Definition page_views_text (row : PageRow) : pystr :=
  strip (at_ (length (cell_texts row) - 1) (cell_texts row)).

(** The keys of a record of the static extractor and of the interactive
    one. *)
Definition static_keys : list pystr :=
  [py "title"; py "author"; py "date"; py "views"; py "top"; py "url"].

Definition page_keys : list pystr :=
  [py "title"; py "author"; py "date"; py "views"; py "top"; py "row_index";
   py "detail_url"].

(** A row of the list page whose date cell holds no date. *)
Definition undated_row : PageRow :=
  {| cell_texts := [py "TOP"; py "Notice"; py "Office"; py "soon"; py "12"];
     link_hrefs := [] |}.

(** An HTML reader for the examples: a row is its cells separated by bars,
    a page is its rows separated by line feeds, and a row holds no link. *)
Definition bar_html : Html :=
  {| strip_tags := λ s, s;
     unescape := λ s, s;
     find_rows := split_on 10;
     find_cells := split_on (ch "|");
     find_hrefs := λ _, [];
     find_detail_id := λ _, None;
     find_written_at := λ _, [] |}.

Definition default_environ : Environ :=
  {| NOTION_TOKEN := Some (py "t"); NOTION_DB_ID := Some (py "d");
     BBS_CONFIG_FK := None; BROWSER := None; HEADLESS := None;
     HTML_PATH := None; argv1 := None; read_text := λ _, None;
     playwright_installed := true; python_version := py "3.11.2" |}.

(** ** Pagination, as stated *)

(** The address of the list page number [page]. *)
Definition list_url (page : N) : pystr :=
  BASE_URL ++ py "?introPkId=All&option=TITLE&page=" ++ str_of_N page.














(** ** A source site of three pages *)

Definition three_pages (u : pystr) : HttpOutcome pystr :=
  if str_eqb u (list_url 1) then HttpOk (py "TOP|First|Office|2024-03-05|10")
  else if str_eqb u (list_url 2) then HttpOk (py "TOP|Second|Office|2024-03-04|20")
  else if str_eqb u (list_url 3) then
    HttpOk (py "TOP|Third|Office|2024-03-03|30" ++ [10]
            ++ py "17|Fourth|Office|2024-03-02|40")
  else URLError VNone.

Definition world_of_three_pages : World :=
  {| notion_api := λ _ _, URLError VNone;
     site := λ _ u, three_pages u;
     playwright_start := λ _, Ok tt;
     browser_launch := λ _ _ _, Ok tt;
     browser_goto := λ _ _, Ok None;
     browser_detail := λ _ _ _ _, Ok (VNone, VNone);
     browser_close := λ _, Ok tt;
     py_repr := λ _, [] |}.



(** ** Items and events of the pagination loops *)





(** ** What a computation sends *)

(** From any history the computation only adds events, and every request it
    sends to the Notion API satisfies [P]. *)
Definition sends {A} (P : Request → Prop) (m : M A) : Prop :=
  ∀ h, ∃ new, (run m h).2 = h ++ new ∧ Forall P (requests new).

(** The pauses of a stretch of history. *)
Fixpoint sleeps (h : list Event) : list N :=
  match h with
  | [] => []
  | EvSleep d :: r => d :: sleeps r
  | _ :: r => sleeps r
  end.

(** The query that lists the pinned pages, with or without a cursor. *)
Definition pinned_filter : value :=
  VDict [(py "property", VStr TOP_PROPERTY);
         (py "checkbox", VDict [(py "equals", VBool true)])].

Definition is_pinned_query (token database_id : pystr) (req : Request) : Prop :=
  req_method req = py "POST"
  ∧ req_url req = database_url database_id ++ py "/query"
  ∧ req_token req = token
  ∧ ∃ payload, req_payload req = Some (VDict payload)
               ∧ assoc (py "filter") payload = Some pinned_filter
               ∧ assoc (py "page_size") payload = Some (VInt 100).

(** A request of the retirement pass: the listing of pinned pages, or the
    update that clears the pinned flag of a page. *)
Definition is_retirement_request `{World} (token database_id : pystr)
    (req : Request) : Prop :=
  is_pinned_query token database_id req ∨ ∃ page_id, req = clear_request token page_id.

(** An environment that reads the list page from a file: one pinned row. *)
Definition file_environ : Environ :=
  {| NOTION_TOKEN := Some (py "t"); NOTION_DB_ID := Some (py "d");
     BBS_CONFIG_FK := None; BROWSER := None; HEADLESS := None;
     HTML_PATH := None; argv1 := Some (py "list.html");
     read_text := λ _, Some (py "TOP|Notice|Office|2024-03-05|10");
     playwright_installed := false; python_version := py "3.11.2" |}.

(** ** The requests of a run *)

(** The five kinds of request that the program has for the mirror, each
    with the body it carries: reading the schema of the database (no body);
    updating its schema (a body with the properties only); querying its
    pages (a body with a filter); creating a page, whose parent is the
    database (parent, properties and icon); and updating a page (properties
    and icon, and nothing else: no key that archives or moves the page). *)
Definition mirror_endpoint `{World} (database_id : pystr) (req : Request) : Prop :=
  (req_method req = py "GET" ∧ req_url req = database_url database_id
   ∧ req_payload req = None)
  ∨ (req_method req = py "PATCH" ∧ req_url req = database_url database_id
     ∧ ∃ properties,
         req_payload req = Some (VDict [(py "properties", properties)]))
  ∨ (req_method req = py "POST"
     ∧ req_url req = database_url database_id ++ py "/query"
     ∧ ∃ payload filter_payload,
         req_payload req = Some (VDict payload)
         ∧ assoc (py "filter") payload = Some filter_payload)
  ∨ (req_method req = py "POST" ∧ req_url req = py "https://api.notion.com/v1/pages"
     ∧ ∃ properties,
         req_payload req
         = Some (VDict [(py "parent", VDict [(py "database_id", VStr database_id)]);
                        (py "properties", properties);
                        (py "icon", build_icon)]))
  ∨ (req_method req = py "PATCH"
     ∧ ∃ page_id properties,
         req_url req = py "https://api.notion.com/v1/pages/" ++ str_of page_id
         ∧ req_payload req
           = Some (VDict [(py "properties", properties); (py "icon", build_icon)])).

Definition is_mirror_request `{World} (token database_id : pystr) (req : Request)
  : Prop :=
  req_token req = token ∧ mirror_endpoint database_id req.

(** ** The items of a crawl *)

(** The state of the pagination loops: every item kept so far is pinned,
    the keys of the items are pairwise different, and all of them are in the
    set [seen]. *)
Definition remembered `{World} (items : list dict) (seen : gset pystr) : Prop :=
  Forall (λ item, is_top item = true) items
  ∧ ∃ keys, Forall2 (λ item key, item_key item = Ok key) items keys
            ∧ NoDup keys ∧ ∀ key, key ∈ keys → key ∈ seen.

(** The items are pinned and no two of them have the same key. *)
Definition distinct_pinned `{World} (items : list dict) : Prop :=
  Forall (λ item, is_top item = true) items
  ∧ ∃ keys, Forall2 (λ item key, item_key item = Ok key) items keys ∧ NoDup keys.

(** ** Identity resolution: where an answer comes from *)

(** The event is a query of the pages of the database, answered with
    exactly one page, whose identifier is [page_id]. *)
Definition unique_match (token database_id : pystr) (page_id : value)
    (e : Event) : Prop :=
  ∃ filter_payload data results,
    e = EvNotion (make_request (py "POST") (database_url database_id ++ py "/query")
                    token (Some (VDict [(py "filter", filter_payload)])))
                 (HttpOk (Some data))
    ∧ py_get data (py "results") (VList []) = Ok results
    ∧ py_len results = Ok 1%nat
    ∧ first_id results = Ok page_id.

(** A mirror that is busy at first and then answers a query with one page. *)
Definition world_with_one_match : World :=
  scripted_world
    [rate_limited;
     HttpOk (Some (VDict [(py "results", VList [VDict [(py "id", VStr (py "p1"))]])]))].

(** ** [load_dotenv]

    The file is given as the lines that the loop reads, each with its line
    end, or as [None] when there is no such file; the environment of the
    process is a finite map from names to values.  The file is taken to be
    readable and to decode, and the process to run on a POSIX system with
    the UTF-8 file-system encoding. *)

(** [value[1:-1]] when the value has two characters or more, begins and
    ends with the same character, and that character is a double or a
    single quote (34 or 39). *)
Definition unquoted (value : pystr) : pystr :=
  if (2 <=? length value)%nat
     && bool_decide (head value = last value)
     && bool_decide (head value ∈ [Some 34; Some 39])
  then take (length value - 2) (drop 1 value)
  else value.

(** The body of the loop up to the assignment: the name and the value that
    a line gives, if it gives any. *)
Definition dotenv_entry (line : pystr) : option (pystr * pystr) :=
  let line := strip line in
  if negb (nonempty line) || startswith (py "#") line then None else
  match split_once (ch "=") line with
  | None => None
  | Some (key, value) =>
      let key := strip key in
      let value := strip value in
      if negb (nonempty key) then None else Some (key, unquoted value)
  end.

(** The encoding of a name or a value for the process environment accepts
    the escaped bytes U+DC80 to U+DCFF and no other surrogate. *)
Definition fs_encodable (s : pystr) : bool :=
  forallb (λ c, negb (in_range 0xD800 0xDFFF c) || in_range 0xDC80 0xDCFF c) s.

(** [os.environ.setdefault(key, value)]: the name is encoded and looked up;
    a variable that is set is left alone; otherwise the value is encoded
    and the variable is set, which a null character in the name or in the
    value prevents. *)
Definition setdefault (key value : pystr) (env : gmap pystr pystr)
  : result (gmap pystr pystr) :=
  if negb (fs_encodable key) then Raise UnicodeEncodeError else
  match env !! key with
  | Some _ => Ok env
  | None =>
      if negb (fs_encodable value) then Raise UnicodeEncodeError
      else if contains 0 key || contains 0 value then Raise ValueError
      else Ok (<[ key := value ]> env)
  end.

(** The loop over the lines: how it ends, and the environment it leaves. *)
Fixpoint load_lines (lines : list pystr) (env : gmap pystr pystr)
  : result unit * gmap pystr pystr :=
  match lines with
  | [] => (Ok tt, env)
  | line :: rest =>
      match dotenv_entry line with
      | None => load_lines rest env
      | Some (key, value) =>
          match setdefault key value env with
          | Ok env' => load_lines rest env'
          | Raise e => (Raise e, env)
          end
      end
  end.

Definition load_dotenv (file : option (list pystr)) (env : gmap pystr pystr)
  : result unit * gmap pystr pystr :=
  match file with
  | None => (Ok tt, env)
  | Some lines => load_lines lines env
  end.

(** The first line of the file that gives a value to the name. *)
Fixpoint first_entry (key : pystr) (lines : list pystr) : option pystr :=
  match lines with
  | [] => None
  | line :: rest =>
      match dotenv_entry line with
      | Some (k, v) => if str_eqb k key then Some v else first_entry key rest
      | None => first_entry key rest
      end
  end.

(** ** The links of a row *)

(** The loops over the links of a row pass over the link: it normalises to
    nothing, to the empty text, or to a link that is no detail link. *)
Definition passed_over `{HostChecks} (href : pystr) : Prop :=
  normalize_detail_url (Some href) = Ok None
  ∨ ∃ c, normalize_detail_url (Some href) = Ok (Some c)
         ∧ (c = [] ∨ is_detail_url c = Ok false).

(** ** The properties of a page *)

(** The names of the fields that the program writes. *)
Definition written_fields : list pystr :=
  [TITLE_PROPERTY; TOP_PROPERTY; DATE_PROPERTY; AUTHOR_PROPERTY; VIEWS_PROPERTY;
   URL_PROPERTY].

(** The value written under the name of an optional field: nothing unless
    [present] holds. *)
Definition written_if (present : bool) (payload : value) : option value :=
  if present then Some payload else None.

(** [v is None] *)
Definition is_none (v : value) : bool :=
  match v with VNone => true | _ => false end.

(** ** Titles *)

(** A title as the extractors leave it: not empty, and without white space
    at its ends. *)
Definition clean_title (item : dict) : Prop :=
  ∃ title, dict_get item (py "title") = VStr title
           ∧ title ≠ [] ∧ strip title = title.

(** ** The pages written in a run *)

(** The requests of a stretch of history that the API answered with data,
    in order. *)
Fixpoint served (h : list Event) : list Request :=
  match h with
  | [] => []
  | EvNotion req (HttpOk (Some _)) :: r => req :: served r
  | _ :: r => served r
  end.

(** The request creates a page; the request updates a page. *)
Definition is_creation (req : Request) : bool :=
  str_eqb (req_method req) (py "POST") && str_eqb (req_url req) api_pages_url.

Definition is_update (req : Request) : bool :=
  str_eqb (req_method req) (py "PATCH")
  && startswith (py "https://api.notion.com/v1/pages/") (req_url req).

(** The numbers of pages created and updated in a stretch of history. *)
Definition pages_created (h : list Event) : N :=
  N.of_nat (length (List.filter is_creation (served h))).

Definition pages_updated (h : list Event) : N :=
  N.of_nat (length (List.filter is_update (served h))).

(** The request neither creates nor updates a page. *)
Definition about_no_page (req : Request) : Prop :=
  is_creation req = false ∧ is_update req = false.

(** When the computation returns it has only added events, and its result
    and the numbers of pages created and updated in these events are
    related by [rel]. *)
Definition tallies {A} (m : M A) (rel : A → N → N → Prop) : Prop :=
  ∀ h a h', run m h = (Return a, h') →
    ∃ new, h' = h ++ new ∧ rel a (pages_created new) (pages_updated new).

(** The state of the reconciliation before the first item. *)
Definition initial_state (author_options : value) : SyncState :=
  {| author_options := author_options; created := 0; updated := 0;
     current_top_urls := ∅; current_top_dates := ∅ |}.

(** * Properties *)

(** ** Date parsing *)

Section Regex.

#[local] Arguments one_of : simpl never.
#[local] Arguments digits : simpl never.

Lemma digits_Some n s d r :
  digits n s = Some (d, r) ↔ s = d ++ r ∧ all_decimal n d.
Proof.
  unfold digits, all_decimal. split.
  - intros H. destruct (_ && _) eqn:E; [|discriminate].
    injection H as <- <-. apply andb_true_iff in E as [E1 E2].
    apply Nat.eqb_eq in E1. rewrite forallb_forall in E2.
    rewrite take_drop. repeat split; auto.
    apply Forall_forall. intros x Hx. apply E2. by apply list_elem_of_In.
  - intros (-> & Hl & Hd).
    rewrite take_app_length' by done. rewrite drop_app_length' by done.
    rewrite Hl, Nat.eqb_refl. simpl.
    replace (forallb is_decimal d) with true; [done|].
    symmetry. apply forallb_forall. intros x Hx.
    rewrite Forall_forall in Hd. apply Hd. by apply list_elem_of_In.
Qed.

Lemma digits_None_app n s post :
  digits n (s ++ post) = None → (length s >= n)%nat → digits n s = None.
Proof.
  unfold digits. intros H Hl.
  rewrite take_app_le in H by lia.
  destruct (_ && _); [discriminate|done].
Qed.

Lemma one_of_Some cs s c r :
  one_of cs s = Some (c, r) ↔ s = c :: r ∧ c ∈ cs.
Proof.
  unfold one_of. destruct s as [|c' r']; [naive_solver|].
  case_bool_decide; naive_solver.
Qed.

Lemma re_search_Some {A} (f : pystr → option A) s r :
  re_search f s = Some r →
  ∃ pre post, s = pre ++ post ∧ f post = Some r.
Proof.
  induction s as [|c s IH]; simpl.
  - destruct (f []) eqn:E; [|discriminate]. intros [= <-]. by exists [], [].
  - destruct (f (c :: s)) eqn:E.
    + intros [= <-]. by exists [], (c :: s).
    + intros H. destruct (IH H) as (pre & post & -> & Hf).
      by exists (c :: pre), post.
Qed.



Lemma match_date_Some s y m d :
  match_date s = Some (y, m, d) ↔
  ∃ s1 s2 post, s = y ++ [s1] ++ m ++ [s2] ++ d ++ post
    ∧ all_decimal 4 y ∧ all_decimal 2 m ∧ all_decimal 2 d
    ∧ s1 ∈ date_sep ∧ s2 ∈ date_sep.
Proof.
  unfold match_date. split.
  - intros H.
    destruct (digits 4 s) as [[y' r1]|] eqn:E1; simpl in H; [|discriminate].
    destruct (one_of date_sep r1) as [[c1 r2]|] eqn:E2; simpl in H; [|discriminate].
    destruct (digits 2 r2) as [[m' r3]|] eqn:E3; simpl in H; [|discriminate].
    destruct (one_of date_sep r3) as [[c2 r4]|] eqn:E4; simpl in H; [|discriminate].
    destruct (digits 2 r4) as [[d' r5]|] eqn:E5; simpl in H; [|discriminate].
    injection H as -> -> ->.
    apply digits_Some in E1 as [-> ?]. apply one_of_Some in E2 as [-> ?].
    apply digits_Some in E3 as [-> ?]. apply one_of_Some in E4 as [-> ?].
    apply digits_Some in E5 as [-> ?].
    exists c1, c2, r5. repeat (split; [done|]). done.
  - intros (s1 & s2 & post & -> & Hy & Hm & Hd & H1 & H2).
    rewrite (proj2 (digits_Some 4 _ y _) (conj eq_refl Hy)). simpl.
    rewrite (proj2 (one_of_Some date_sep _ s1 _) (conj eq_refl H1)). simpl.
    rewrite (proj2 (digits_Some 2 _ m _) (conj eq_refl Hm)). simpl.
    rewrite (proj2 (one_of_Some date_sep _ s2 _) (conj eq_refl H2)). simpl.
    rewrite (proj2 (digits_Some 2 _ d _) (conj eq_refl Hd)). done.
Qed.

Lemma search_date_occurs text y m d :
  re_search match_date text = Some (y, m, d) → date_occurs text y m d.
Proof.
  intros H. apply re_search_Some in H as (pre & w & -> & Hm).
  apply match_date_Some in Hm as (s1 & s2 & post & -> & ?).
  by exists pre, post, s1, s2.
Qed.





End Regex.



(** ** Lists of characters *)

Lemma free_app p a b : free p (a ++ b) ↔ free p a ∧ free p b.
Proof. unfold free. by rewrite Forall_app. Qed.

Lemma free_cons p c s : free p (c :: s) ↔ p c = false ∧ free p s.
Proof. unfold free. by rewrite Forall_cons. Qed.

Lemma free_nil p : free p [].
Proof. constructor. Qed.

Lemma free_forallb p s : free p s ↔ forallb (λ c, negb (p c)) s = true.
Proof.
  unfold free. rewrite forallb_forall, Forall_forall. split; intros Hs x Hx.
  - apply list_elem_of_In in Hx. by rewrite (Hs x Hx).
  - apply list_elem_of_In in Hx. specialize (Hs x Hx). by destruct (p x).
Qed.

Lemma free_contains c s : free (is_char c) s ↔ contains c s = false.
Proof.
  unfold contains. induction s as [|x s IH]; simpl.
  - split; [done|intros; apply free_nil].
  - rewrite free_cons, IH, orb_false_iff. done.
Qed.

Lemma free_impl (p q : N → bool) s :
  (∀ c, p c = false → q c = false) → free p s → free q s.
Proof. intros Hpq Hs. eapply Forall_impl; [exact Hs|]. simpl. auto. Qed.

Lemma free_filter p s : free p s → filter (λ c, p c = false) s = s.
Proof.
  induction 1 as [|c s Hc Hs IH]; [done|].
  rewrite filter_cons_True by done. by rewrite IH.
Qed.

Lemma filter_free p s : free p (filter (λ c, p c = false) s).
Proof.
  apply Forall_forall. intros c Hc. by apply list_elem_of_filter in Hc as [? _].
Qed.

Lemma free_drop p n s : free p s → free p (drop n s).
Proof. apply Forall_drop. Qed.

Lemma free_rev p s : free p (rev s) ↔ free p s.
Proof.
  unfold free. split; intros Hs.
  - rewrite <- (rev_involutive s). by apply List.Forall_rev.
  - by apply List.Forall_rev.
Qed.

(** *** [break] *)

Lemma break_spec p s :
  ∃ a b, break p s = (a, b) ∧ s = a ++ b ∧ free p a
         ∧ (b = [] ∨ ∃ c b', b = c :: b' ∧ p c = true).
Proof.
  induction s as [|c s IH]; simpl.
  - exists [], []. repeat split; auto using free_nil.
  - destruct (p c) eqn:Hc.
    + exists [], (c :: s). repeat split; eauto using free_nil.
    + destruct IH as (a & b & -> & -> & Ha & Hb).
      exists (c :: a), b. repeat split; auto. by apply free_cons.
Qed.

Lemma break_app_free p a b :
  free p a → break p (a ++ b) = ((a ++ (break p b).1), (break p b).2).
Proof.
  induction 1 as [|c a Hc Ha IH]; simpl.
  - by destruct (break p b).
  - rewrite Hc, IH. done.
Qed.

Lemma break_stop p c r : p c = true → break p (c :: r) = ([], c :: r).
Proof. simpl. by intros ->. Qed.

Lemma break_free p s : free p s → break p s = (s, []).
Proof.
  intros Hs. rewrite <- (app_nil_r s) at 1.
  rewrite break_app_free by done. simpl. by rewrite app_nil_r.
Qed.

Lemma break_free_stop p a c r :
  free p a → p c = true → break p (a ++ c :: r) = (a, c :: r).
Proof.
  intros Ha Hc. rewrite break_app_free by done.
  rewrite break_stop by done. simpl. by rewrite app_nil_r.
Qed.

Lemma split_once_free c s : free (is_char c) s → split_once c s = None.
Proof. intros Hs. unfold split_once. by rewrite break_free. Qed.

Lemma split_once_app c a b :
  free (is_char c) a → split_once c (a ++ c :: b) = Some (a, b).
Proof.
  intros Ha. unfold split_once. rewrite break_free_stop; [done|done|].
  unfold is_char. apply N.eqb_refl.
Qed.

Lemma split_once_Some c s a b :
  split_once c s = Some (a, b) → s = a ++ c :: b ∧ free (is_char c) a.
Proof.
  unfold split_once. destruct (break_spec (is_char c) s)
    as (a' & b' & -> & -> & Ha & Hb).
  destruct b' as [|x b']; [discriminate|]. intros [= <- <-].
  destruct Hb as [|(? & ? & [= <- <-] & Hx)]; [done|].
  apply N.eqb_eq in Hx as ->. done.
Qed.

Lemma split_once_None c s : split_once c s = None → free (is_char c) s.
Proof.
  unfold split_once. destruct (break_spec (is_char c) s)
    as (a' & b' & -> & -> & Ha & Hb).
  destruct b'; [|discriminate]. intros _. by rewrite app_nil_r.
Qed.

Lemma lstrip_by_head p c s : p c = false → lstrip_by p (c :: s) = c :: s.
Proof. simpl. by intros ->. Qed.

Lemma free_lstrip_by p q s : free q s → free q (lstrip_by p s).
Proof.
  induction 1 as [|c s Hc Hs IH]; simpl; [constructor|].
  destruct (p c); [done|by constructor].
Qed.

Lemma nonempty_true s : nonempty s = true ↔ s ≠ [].
Proof. unfold nonempty, str_eqb. case_bool_decide; naive_solver. Qed.

Lemma nonempty_false s : nonempty s = false ↔ s = [].
Proof. unfold nonempty, str_eqb. case_bool_decide; naive_solver. Qed.

Lemma nonempty_cons c s : nonempty (c :: s) = true.
Proof. by apply nonempty_true. Qed.

Lemma str_eqb_eq a b : str_eqb a b = true ↔ a = b.
Proof. unfold str_eqb. by rewrite bool_decide_eq_true. Qed.

(** *** Character classes *)

Ltac lit :=
  repeat match goal with
  | |- context [ch ?a] =>
      let v := eval vm_compute in (ch a) in change (ch a) with v
  | H : context [ch ?a] |- _ =>
      let v := eval vm_compute in (ch a) in change (ch a) with v in H
  | |- context [py ?a] =>
      let v := eval vm_compute in (py a) in change (py a) with v
  | H : context [py ?a] |- _ =>
      let v := eval vm_compute in (py a) in change (py a) with v in H
  end.

Ltac bool_prop :=
  repeat first
    [ rewrite orb_true_iff in * | rewrite andb_true_iff in *
    | rewrite orb_false_iff in * | rewrite andb_false_iff in *
    | rewrite negb_true_iff in * | rewrite negb_false_iff in *
    | rewrite N.eqb_eq in * | rewrite N.eqb_neq in *
    | rewrite N.leb_le in * | rewrite N.leb_gt in *
    | rewrite N.ltb_lt in * | rewrite N.ltb_ge in * ].

Ltac chars :=
  unfold is_scheme_char, is_always_safe, is_hexdig, is_ascii_alpha in *;
  unfold is_ascii_upper, is_ascii_lower,
    is_ascii_digit, is_ascii, is_unsafe_url_byte, is_c0_or_space,
    is_netloc_delim, is_query_or_fragment_mark, is_char, is_space,
    is_cont in *;
  unfold in_range in *;
  lit; bool_prop; lia.

Lemma scheme_char_not_colon c : is_scheme_char c = true → is_char (ch ":") c = false.
Proof. intros. chars. Qed.

Lemma scheme_char_safe c : is_scheme_char c = true → is_unsafe_url_byte c = false.
Proof. intros. chars. Qed.

Lemma alpha_not_c0 c : is_ascii_alpha c = true → is_c0_or_space c = false.
Proof. intros. chars. Qed.

Lemma alpha_not_space c : is_ascii_alpha c = true → is_space c = false.
Proof. intros. chars. Qed.

Lemma forallb_free (p q : N → bool) s :
  (∀ c, p c = true → q c = false) → forallb p s = true → free q s.
Proof.
  intros Hpq Hs. apply Forall_forall. intros c Hc.
  rewrite forallb_forall in Hs. apply Hpq, Hs. by apply list_elem_of_In.
Qed.

Ltac free_solve :=
  repeat first
    [ assumption | apply free_nil | rewrite free_app | split
    | rewrite free_cons; split; [by vm_compute|] ].
(** ** [urlparse] and [urlunparse] *)

Section UrlRoundTrip.
Context `{HostChecks}.

Lemma urlsplit_canonical s n p q :
  canonical_parts s n p → free (is_char (ch "#")) q → free is_unsafe_url_byte q →
  urlsplit (s ++ py ":" ++ py "//" ++ n ++ p ++ query_suffix q)
  = Ok {| sr_scheme := s; sr_netloc := n; sr_path := p; sr_query := q;
          sr_fragment := [] |}.
Proof.
  intros [ (c0 & s' & -> & Hc0) Hsc Hsl Hn0 Hnf Hns Hnb Hnbr Hnc Hph Hpf Hps _] Hq1 Hq2.
  unfold urlsplit.
  assert (Hfs : free is_unsafe_url_byte (c0 :: s')).
  { eapply forallb_free; [|exact Hsc]. apply scheme_char_safe. }
  assert (Hqs : free is_unsafe_url_byte (query_suffix q)).
  { unfold query_suffix. destruct (nonempty q); [|constructor].
    lit. free_solve. }
  lit. cbn [app]. rewrite lstrip_by_head by (by apply alpha_not_c0).
  rewrite free_filter.
  2:{ change (c0 :: s' ++ ?x) with ((c0 :: s') ++ x).
      free_solve. }
  change (c0 :: s' ++ ?x) with ((c0 :: s') ++ x).
  rewrite break_free_stop.
  2:{ eapply forallb_free; [|exact Hsc]. apply scheme_char_not_colon. }
  2:{ by vm_compute. }
  rewrite Hc0, Hsc, Hsl. cbn [andb take]. 
  change (str_eqb [47; 47] [47; 47]) with true. cbn iota.
  unfold splitnetloc. cbn [drop].
  rewrite take_0, drop_0. change (str_eqb [47; 47] [47; 47]) with true. cbn iota.
  assert (Htail : break is_netloc_delim (n ++ p ++ query_suffix q)
                  = (n, p ++ query_suffix q)).
  { destruct Hph as [->|[r ->]].
    - unfold query_suffix. destruct (nonempty q); lit; cbn [app].
      + by apply break_free_stop.
      + by rewrite app_nil_r, break_free.
    - cbn [app]. by apply break_free_stop. }
  rewrite Htail.
  assert (Hbr : contains 91 n && negb (contains 93 n)
                || contains 93 n && negb (contains 91 n) = false).
  { rewrite <- Hnb. by destruct (contains 91 n). }
  rewrite Hbr.
  assert (Hbr2 : contains 91 n && contains 93 n && negb (bracketed_netloc_ok n)
                 = false).
  { destruct (contains 91 n) eqn:E; [|done]. rewrite Hnbr by done.
    simpl. apply andb_false_r. }
  rewrite Hbr2. cbn [mbind result_mbind result_bind].
  assert (Hfrag : split_once 35 (p ++ query_suffix q) = None).
  { apply split_once_free. apply free_app. split.
    - eapply free_impl; [|exact Hpf]. intros c. chars.
    - unfold query_suffix. destruct (nonempty q); lit; free_solve. }
  rewrite Hfrag.
  assert (Hquery : match split_once 63 (p ++ query_suffix q) with
                   | Some (u, q0) => (u, q0)
                   | None => (p ++ query_suffix q, [])
                   end = (p, q)).
  { unfold query_suffix. destruct (nonempty q) eqn:Eq; lit; cbn [app].
    - rewrite split_once_app; [done|].
      eapply free_impl; [|exact Hpf]. intros c. chars.
    - apply nonempty_false in Eq as ->. rewrite app_nil_r.
      rewrite split_once_free; [done|].
      eapply free_impl; [|exact Hpf]. intros c. chars. }
  rewrite Hquery. rewrite Hnc. done.
Qed.

Lemma urlparse_canonical s n p q :
  canonical_parts s n p → free (is_char (ch "#")) q → free is_unsafe_url_byte q →
  urlparse (s ++ py ":" ++ py "//" ++ n ++ p ++ query_suffix q)
  = Ok {| scheme := s; netloc := n; path := p; params := []; query := q;
          fragment := [] |}.
Proof.
  intros Hc Hq1 Hq2. unfold urlparse.
  rewrite urlsplit_canonical by done.
  cbn [mbind result_mbind result_bind sr_scheme sr_path sr_netloc sr_query
       sr_fragment].
  destruct (bool_decide (s ∈ uses_params) && contains (ch ";") p) eqn:E; [|done].
  apply andb_true_iff in E as [E1 E2]. apply bool_decide_eq_true in E1.
  by rewrite (cp_path_params _ _ _ Hc E1 E2).
Qed.

Lemma urlunparse_canonical s n p q :
  canonical_parts s n p →
  urlunparse s n p [] q [] = s ++ py ":" ++ py "//" ++ n ++ p ++ query_suffix q.
Proof.
  intros [(c0 & s' & -> & _) _ _ Hn0 _ _ _ _ _ Hph _ _ _].
  unfold urlunparse, urlunsplit, query_suffix.
  apply nonempty_true in Hn0. rewrite Hn0. cbn [orb nonempty str_eqb].
  change (nonempty []) with false. cbn iota.
  rewrite nonempty_cons.
  assert (Hp : (if nonempty p && negb (str_eqb (take 1 p) (py "/"))
                then py "/" ++ p else p) = p).
  { destruct Hph as [->|[r ->]]; [done|]. by vm_compute. }
  rewrite Hp. destruct (nonempty q); lit; cbn [app].
  - repeat (rewrite <- app_assoc; cbn [app]). done.
  - by rewrite app_nil_r.
Qed.

End UrlRoundTrip.

(** *** The parts returned by [urlparse] *)

Lemma splitparams_idem x :
  splitparams (splitparams x).1 = ((splitparams x).1, []).
Proof.
  unfold splitparams at 2 3.
  destruct (break_spec (is_char (ch "/")) (rev x)) as (sr & br & Eb & Hx & Hsr & Hbr).
  rewrite Eb.
  destruct (break_spec (is_char (ch ";")) (rev sr)) as (a & rest & Ea & Hs & Ha & Hrest).
  rewrite Ea. destruct rest as [|c b]; cbn [fst].
  - unfold splitparams. rewrite Eb, Ea. done.
  - unfold splitparams. rewrite rev_app_distr, rev_involutive.
    assert (Hfa : free (is_char (ch "/")) (rev a)).
    { apply free_rev. apply free_rev in Hsr. rewrite Hs in Hsr.
      by apply free_app in Hsr as [? _]. }
    assert (break (is_char (ch "/")) (rev a ++ br) = (rev a, br)) as ->.
    { destruct Hbr as [->|(c' & b' & -> & Hc')].
      - by rewrite app_nil_r, break_free.
      - by apply break_free_stop. }
    rewrite rev_involutive, break_free by done. done.
Qed.

Lemma scheme_char_lower c :
  is_scheme_char c = true →
  ∃ c', lower_char c = [c'] ∧ is_scheme_char c' = true ∧ lower_char c' = [c']
        ∧ (is_ascii_alpha c = true → is_ascii_alpha c' = true).
Proof.
  intros Hc. unfold lower_char.
  destruct (is_ascii_upper c) eqn:Eu.
  - exists (c + 32). split; [done|].
    assert (is_ascii_upper (c + 32) = false) as -> by chars.
    assert ((c + 32 =? 304) = false) as -> by chars.
    assert ((c + 32 =? 8490) = false) as -> by chars.
    split; [chars|]. split; [reflexivity|]. intros _; chars.
  - assert ((c =? 304) = false) as E1 by chars.
    assert ((c =? 8490) = false) as E2 by chars.
    exists c. rewrite Eu, E1, E2. done.
Qed.

Lemma scheme_lower s :
  forallb is_scheme_char s = true →
  forallb is_scheme_char (str_lower s) = true
  ∧ str_lower (str_lower s) = str_lower s
  ∧ length (str_lower s) = length s.
Proof.
  induction s as [|c s IH]; [done|]. cbn [forallb]. intros Hs.
  apply andb_true_iff in Hs as [Hc Hs].
  destruct (scheme_char_lower c Hc) as (c' & E1 & E2 & E3 & _).
  destruct (IH Hs) as (IH1 & IH2 & IH3).
  unfold str_lower in *. cbn [flat_map]. rewrite E1. cbn [app flat_map forallb].
  rewrite E2, E3, IH1, IH2. cbn [app length]. by rewrite IH3.
Qed.

Lemma scheme_lower_head c0 s :
  is_ascii_alpha c0 = true → forallb is_scheme_char (c0 :: s) = true →
  ∃ c0' s', str_lower (c0 :: s) = c0' :: s' ∧ is_ascii_alpha c0' = true.
Proof.
  cbn [forallb]. intros Ha Hs. apply andb_true_iff in Hs as [Hc Hs].
  destruct (scheme_char_lower c0 Hc) as (c' & E1 & _ & _ & E4).
  unfold str_lower. cbn [flat_map]. rewrite E1. eauto.
Qed.

Lemma splitparams_prefix x :
  ∃ t, x = (splitparams x).1 ++ t
       ∧ ∀ r, x = ch "/" :: r → ∃ r', (splitparams x).1 = ch "/" :: r'.
Proof.
  unfold splitparams.
  destruct (break_spec (is_char (ch "/")) (rev x)) as (sr & br & Eb & Hx & Hsr & Hbr).
  rewrite Eb.
  destruct (break_spec (is_char (ch ";")) (rev sr)) as (a & rest & Ea & Hs & Ha & Hrest).
  rewrite Ea. destruct rest as [|c b]; cbn [fst].
  - exists []. rewrite app_nil_r. eauto.
  - assert (Hx' : x = rev br ++ a ++ c :: b).
    { rewrite <- Hs, <- rev_app_distr, <- Hx. by rewrite rev_involutive. }
    exists (c :: b). split; [by rewrite <- app_assoc|].
    intros r Hr.
    destruct Hbr as [->|(c' & b' & -> & Hc')].
    + exfalso. rewrite app_nil_r in Hx. apply free_rev in Hsr.
      rewrite <- Hx, rev_involutive, Hr in Hsr.
      apply free_cons in Hsr as [Hsr _]. by vm_compute in Hsr.
    + destruct (rev (c' :: b')) as [|y ys] eqn:E.
      { apply (f_equal (@length N)) in E. rewrite length_rev in E. done. }
      rewrite Hr in Hx'. cbn [app] in Hx'. injection Hx' as <- _.
      cbn [app]. eauto.
Qed.

Section UrlParts.
Context `{HostChecks}.

Lemma urlsplit_parts u sr :
  urlsplit u = Ok sr → sr_scheme sr ≠ [] → sr_netloc sr ≠ [] →
  (∃ c0 s', sr_scheme sr = c0 :: s' ∧ is_ascii_alpha c0 = true)
  ∧ forallb is_scheme_char (sr_scheme sr) = true
  ∧ str_lower (sr_scheme sr) = sr_scheme sr
  ∧ free is_netloc_delim (sr_netloc sr)
  ∧ free is_unsafe_url_byte (sr_netloc sr)
  ∧ contains (ch "[") (sr_netloc sr) = contains (ch "]") (sr_netloc sr)
  ∧ (contains (ch "[") (sr_netloc sr) = true → bracketed_netloc_ok (sr_netloc sr) = true)
  ∧ checknetloc (sr_netloc sr) = Ok tt
  ∧ (sr_path sr = [] ∨ ∃ r, sr_path sr = ch "/" :: r)
  ∧ free is_query_or_fragment_mark (sr_path sr)
  ∧ free is_unsafe_url_byte (sr_path sr).
Proof.
  unfold urlsplit.
  set (url1 := filter _ (lstrip_by _ u)).
  assert (Hsafe : free is_unsafe_url_byte url1) by apply filter_free.
  clearbody url1.
  destruct (break_spec (is_char (ch ":")) url1) as (pre & rest & Eb & Hu & Hpre & Hrest).
  rewrite Eb.
  set (sc := match pre with [] => _ | _ => _ end).
  assert (Hsc : ∃ scm url2, sc = (scm, url2) ∧ free is_unsafe_url_byte url2
            ∧ (scm = [] ∨ ((∃ c0 s', scm = c0 :: s' ∧ is_ascii_alpha c0 = true)
                           ∧ forallb is_scheme_char scm = true
                           ∧ str_lower scm = scm))).
  { subst sc. destruct pre as [|c0 pre0]; [by eauto 6|].
    destruct rest as [|c1 rest0]; [by eauto 6|].
    destruct (is_ascii_alpha c0 && forallb is_scheme_char (c0 :: pre0)) eqn:E;
      [|by eauto 6].
    apply andb_true_iff in E as [E1 E2].
    eexists _, _. split; [done|]. split.
    - rewrite Hu in Hsafe. apply free_app in Hsafe as [_ Hr].
      by apply free_cons in Hr as [_ ?].
    - right. destruct (scheme_lower _ E2) as (? & ? & _).
      split; [by apply scheme_lower_head|done]. }
  destruct Hsc as (scm & url2 & -> & Hsafe2 & Hscm). clear Eb Hu Hpre Hrest.
  destruct (str_eqb (take 2 url2) (py "//")) eqn:E2.
  2:{ cbn [mbind result_mbind result_bind].
      destruct (split_once (ch "#") url2) as [[? ?]|];
      destruct (split_once (ch "?") _) as [[? ?]|];
      cbn; intros [= <-]; cbn; done. }
  unfold splitnetloc.
  destruct (break_spec is_netloc_delim (drop 2 url2)) as (nl & url3 & -> & Hd & Hnl & Hurl3).
  destruct (_ || _) eqn:Ebr; [discriminate|].
  destruct (_ && negb (bracketed_netloc_ok nl)) eqn:Ebr2; [discriminate|].
  cbn [mbind result_mbind result_bind].
  assert (Hsafe3 : free is_unsafe_url_byte (nl ++ url3)).
  { rewrite <- Hd. by apply free_drop. }
  apply free_app in Hsafe3 as [Hsn Hs3].
  set (fr := match split_once (ch "#") url3 with Some _ => _ | None => _ end).
  assert (Hfr : ∃ url4 f, fr = (url4, f) ∧ free (is_char (ch "#")) url4
                ∧ free is_unsafe_url_byte url4
                ∧ (url4 = [] ∨ ∃ c r, url4 = c :: r ∧ (c = ch "/" ∨ c = ch "?"))).
  { subst fr. destruct (split_once (ch "#") url3) as [[a b]|] eqn:E.
    - apply split_once_Some in E as [-> Ha]. exists a, b.
      apply free_app in Hs3 as [? _]. do 3 (split; [done|]).
      destruct a as [|c a]; [by left|right]. exists c, a. split; [done|].
      destruct Hurl3 as [?|(c' & b' & [= <- <-] & Hc)]; [done|].
      apply free_cons in Ha as [Hc' _]. revert Hc Hc'. chars.
    - apply split_once_None in E. exists url3, []. do 3 (split; [done|]).
      destruct Hurl3 as [->|(c' & b' & -> & Hc)]; [by left|right].
      exists c', b'. split; [done|].
      apply free_cons in E as [Hc' _]. revert Hc Hc'. chars. }
  destruct Hfr as (url4 & f & -> & Hf4 & Hs4 & Hh4).
  set (qr := match split_once (ch "?") url4 with Some _ => _ | None => _ end).
  assert (Hqr : ∃ url5 q, qr = (url5, q) ∧ free is_query_or_fragment_mark url5
                ∧ free is_unsafe_url_byte url5
                ∧ (url5 = [] ∨ ∃ r, url5 = ch "/" :: r)).
  { subst qr. destruct (split_once (ch "?") url4) as [[a b]|] eqn:E.
    - apply split_once_Some in E as [-> Ha]. exists a, b.
      apply free_app in Hs4 as [? _]. apply free_app in Hf4 as [Hfa _].
      split; [done|]. split.
      { apply Forall_forall. intros c Hc.
        unfold free in Ha, Hfa. rewrite Forall_forall in Ha, Hfa.
        specialize (Ha c Hc). specialize (Hfa c Hc). revert Ha Hfa. chars. }
      split; [done|].
      destruct a as [|c a]; [by left|right]. exists a.
      destruct Hh4 as [?|(c' & r' & [= <- <-] & [->| ->])]; [done|done|].
      apply free_cons in Ha as [Hc' _]. revert Hc'. by vm_compute.
    - apply split_once_None in E. exists url4, []. split; [done|]. split.
      { apply Forall_forall. intros c Hc.
        unfold free in E, Hf4. rewrite Forall_forall in E, Hf4.
        specialize (E c Hc). specialize (Hf4 c Hc). revert E Hf4. chars. }
      split; [done|].
      destruct Hh4 as [->|(c' & r' & -> & [->| ->])]; [by left|right; eauto|].
      apply free_cons in E as [Hc' _]. revert Hc'. by vm_compute. }
  destruct Hqr as (url5 & q & -> & Hf5 & Hs5 & Hh5).
  destruct (checknetloc nl) as [[]|] eqn:Ecn; [|discriminate].
  cbn [mbind result_mbind result_bind].
  intros [= <-]. cbn [sr_scheme sr_netloc sr_path sr_query sr_fragment].
  intros Hs0 Hn0.
  destruct Hscm as [->|(Hs1 & Hs2 & Hs3')]; [done|].
  do 5 (split; [done|]).
  apply orb_false_iff in Ebr as [Eb1 Eb2].
  assert (Hbb : contains (ch "[") nl = contains (ch "]") nl).
  { destruct (contains (ch "[") nl), (contains (ch "]") nl); done. }
  split; [done|]. split.
  { clear -Ebr2 Hbb. rewrite <- Hbb in Ebr2.
    by destruct (contains (ch "[") nl), (bracketed_netloc_ok nl). }
  done.
Qed.

Lemma urlparse_parts u c :
  urlparse u = Ok c → scheme c ≠ [] → netloc c ≠ [] →
  canonical_parts (scheme c) (netloc c) (path c).
Proof.
  unfold urlparse. destruct (urlsplit u) as [sr|] eqn:E; [|discriminate].
  cbn [mbind result_mbind result_bind].
  destruct (bool_decide _ && _) eqn:Ep.
  - destruct (splitparams (sr_path sr)) as [p1 pa] eqn:Es.
    intros [= <-]. cbn [scheme netloc path]. intros Hs Hn.
    destruct (urlsplit_parts _ _ E Hs Hn)
      as (? & ? & ? & ? & ? & ? & ? & ? & Hh & Hf & Hsf).
    destruct (splitparams_prefix (sr_path sr)) as (t & Ht & Hhead).
    rewrite Es in Ht, Hhead. cbn [fst] in Ht, Hhead.
    rewrite Ht in Hf, Hsf.
    apply free_app in Hf as [Hf _]. apply free_app in Hsf as [Hsf _].
    split; try done.
    + destruct Hh as [Hh|[r Hr]]; [|right; eauto].
      left. rewrite Hh in Ht. symmetry in Ht. by apply app_eq_nil in Ht as [? _].
    + intros _ _. pose proof (splitparams_idem (sr_path sr)) as Hi.
      by rewrite Es in Hi.
  - intros [= <-]. cbn [scheme netloc path]. intros Hs Hn.
    destruct (urlsplit_parts _ _ E Hs Hn)
      as (? & ? & ? & ? & ? & ? & ? & ? & Hh & Hf & Hsf).
    split; try done.
    intros Hin Hc. by rewrite (bool_decide_eq_true_2 _ Hin), Hc in Ep.
Qed.

End UrlParts.

(** ** UTF-8 and percent-encoding round trips *)

Ltac decide_if :=
  match goal with
  | |- (if ?b then _ else _) = _ =>
      let E := fresh "E" in
      destruct b eqn:E;
      try (exfalso; revert E;
           cbv beta delta [second_ok3 second_ok4 is_cont in_range];
           repeat match goal with
           | |- context [if ?x then _ else _] => destruct x eqn:?
           end;
           bool_prop; lia)
  end.

Lemma div_facts c :
  c = 64 * (c / 64) + c mod 64 ∧ c mod 64 < 64
  ∧ c / 64 = 64 * (c / 4096) + (c / 64) mod 64 ∧ (c / 64) mod 64 < 64
  ∧ c / 4096 = 64 * (c / 262144) + (c / 4096) mod 64 ∧ (c / 4096) mod 64 < 64.
Proof.
  replace (c / 4096) with (c / 64 / 64) by (rewrite N.Div0.div_div; done).
  replace (c / 262144) with (c / 64 / 64 / 64) by (rewrite !N.Div0.div_div; done).
  repeat split; try (apply N.div_mod; lia); try (apply N.mod_lt; lia).
Qed.

Lemma utf8_decode_encode_char c bs rest :
  utf8_encode_char c = Some bs →
  utf8_decode (bs ++ rest) = c :: utf8_decode rest.
Proof.
  unfold utf8_encode_char.
  destruct (div_facts c) as (D1 & D2 & D3 & D4 & D5 & D6).
  revert D1 D2 D3 D4 D5 D6.
  generalize ((c / 4096) mod 64). generalize ((c / 64) mod 64).
  generalize (c mod 64). generalize (c / 262144). generalize (c / 4096).
  generalize (c / 64).
  intros d1 d2 d3 m1 m2 m3 D1 D2 D3 D4 D5 D6.
  destruct (c <? 128) eqn:E1.
  { intros [= <-]. cbn [app utf8_decode]. by rewrite E1. }
  destruct (c <? 2048) eqn:E2.
  { intros [= <-]. cbn [app utf8_decode].
    apply N.ltb_ge in E1. apply N.ltb_lt in E2.
    repeat decide_if. f_equal. lia. }
  destruct (c <? 65536) eqn:E3.
  { destruct (in_range 55296 57343 c) eqn:E4; [discriminate|].
    intros [= <-]. cbn [app utf8_decode].
    apply N.ltb_ge in E1, E2. apply N.ltb_lt in E3.
    unfold in_range in E4. bool_prop.
    repeat decide_if. f_equal. lia. }
  destruct (c <? 1114112) eqn:E4; [|discriminate].
  intros [= <-]. cbn [app utf8_decode].
  apply N.ltb_ge in E1, E2, E3. apply N.ltb_lt in E4.
  repeat decide_if. f_equal. lia.
Qed.

Lemma utf8_encode_char_bytes c bs :
  utf8_encode_char c = Some bs → Forall (λ b, b < 256) bs ∧ bs ≠ [].
Proof.
  unfold utf8_encode_char.
  destruct (div_facts c) as (D1 & D2 & D3 & D4 & D5 & D6).
  revert D1 D2 D3 D4 D5 D6.
  generalize ((c / 4096) mod 64). generalize ((c / 64) mod 64).
  generalize (c mod 64). generalize (c / 262144). generalize (c / 4096).
  generalize (c / 64).
  intros d1 d2 d3 m1 m2 m3 D1 D2 D3 D4 D5 D6.
  repeat match goal with
  | |- context [if ?b then _ else _] => destruct b eqn:?
  end; try discriminate; intros [= <-]; (split; [|done]);
  unfold in_range in *; bool_prop; repeat constructor; lia.
Qed.

Lemma utf8_decode_encode s bs : utf8_encode s = Ok bs → utf8_decode bs = s.
Proof.
  revert bs. induction s as [|c s IH]; intros bs; cbn [utf8_encode].
  - by intros [= <-].
  - destruct (utf8_encode_char c) as [b1|] eqn:E; [|discriminate].
    destruct (utf8_encode s) as [b2|]; [|discriminate].
    cbn. intros [= <-]. rewrite (utf8_decode_encode_char _ _ _ E).
    by rewrite IH.
Qed.

Lemma utf8_encode_bytes s bs :
  utf8_encode s = Ok bs → Forall (λ b, b < 256) bs ∧ (s ≠ [] → bs ≠ []).
Proof.
  revert bs. induction s as [|c s IH]; intros bs; cbn [utf8_encode].
  - by intros [= <-].
  - destruct (utf8_encode_char c) as [b1|] eqn:E; [|discriminate].
    destruct (utf8_encode s) as [b2|]; [|discriminate].
    cbn. intros [= <-]. destruct (utf8_encode_char_bytes _ _ E) as [H1 H2].
    destruct (IH _ eq_refl) as [H3 _]. split.
    + by apply Forall_app.
    + intros _. by destruct b1.
Qed.

Lemma utf8_decode_ascii bs : forallb is_ascii bs = true → utf8_decode bs = bs.
Proof.
  induction bs as [|b bs IH]; [done|]. cbn [forallb utf8_decode].
  intros Hb. apply andb_true_iff in Hb as [Hb Hbs].
  unfold is_ascii in Hb. rewrite Hb. by rewrite IH.
Qed.

Lemma utf8_decode_nil bs : utf8_decode bs = [] → bs = [].
Proof.
  destruct bs as [|b r]; [done|]. cbn [utf8_decode].
  repeat match goal with
  | |- context [if ?b then _ else _] => destruct b
  | |- context [match ?r with [] => _ | _ => _ end] => destruct r
  end; discriminate.
Qed.

(** *** Percent-encoding *)

Lemma hex_digit_upper_spec n :
  n < 16 → is_hexdig (hex_digit_upper n) = true
           ∧ hex_value (hex_digit_upper n) = n
           ∧ is_ascii (hex_digit_upper n) = true.
Proof.
  intros Hn. unfold hex_digit_upper, hex_value.
  destruct (n <? 10) eqn:E.
  - assert (is_ascii_digit (48 + n) = true) as Hd by chars.
    rewrite Hd. repeat split; chars.
  - assert (is_ascii_digit (55 + n) = false) as Hd by chars.
    assert (in_range 65 70 (55 + n) = true) as Hr by chars.
    rewrite Hd, Hr. repeat split; chars.
Qed.

Lemma unquote_to_bytes_escaped (g : N → pystr) bs :
  Forall (λ b, b < 256) bs →
  (∀ b, b < 256 → (g b = [b] ∧ b ≠ ch "%") ∨ g b = escape b) →
  unquote_to_bytes (flat_map g bs) = bs.
Proof.
  intros Hbs Hg. induction Hbs as [|b bs Hb _ IH]; [done|].
  cbn [flat_map]. destruct (Hg b Hb) as [[-> Hne]| ->].
  - cbn [app unquote_to_bytes].
    assert ((b =? ch "%") = false) as -> by (by apply N.eqb_neq).
    by rewrite IH.
  - unfold escape. cbn [app unquote_to_bytes]. rewrite N.eqb_refl.
    assert (b / 16 < 16) as H1.
    { apply N.Div0.div_lt_upper_bound. lia. }
    assert (b mod 16 < 16) as H2 by (apply N.mod_lt; lia).
    destruct (hex_digit_upper_spec _ H1) as (-> & -> & _).
    destruct (hex_digit_upper_spec _ H2) as (-> & -> & _).
    cbn [andb]. rewrite IH. f_equal.
    pose proof (N.div_mod b 16). lia.
Qed.

Lemma unquote_runs_ascii run s :
  forallb is_ascii s = true →
  unquote_runs run s = utf8_decode (unquote_to_bytes (run ++ s)).
Proof.
  revert run. induction s as [|c s IH]; intros run; cbn [forallb unquote_runs].
  - by rewrite app_nil_r.
  - intros Hs. apply andb_true_iff in Hs as [-> Hs].
    rewrite IH by done. by rewrite <- app_assoc.
Qed.

Lemma unquote_to_bytes_plain s :
  contains (ch "%") s = false → unquote_to_bytes s = s.
Proof.
  unfold contains. induction s as [|c s IH]; [done|]. cbn [existsb unquote_to_bytes].
  intros Hs. apply orb_false_iff in Hs as [Hc Hs]. unfold is_char in Hc.
  rewrite Hc. by rewrite IH.
Qed.

Lemma unquote_ascii s :
  forallb is_ascii s = true → unquote s = utf8_decode (unquote_to_bytes s).
Proof.
  intros Hs. unfold unquote. destruct (contains (ch "%") s) eqn:E; cbn [negb].
  - by rewrite unquote_runs_ascii.
  - rewrite unquote_to_bytes_plain by done. by rewrite utf8_decode_ascii.
Qed.

Lemma replace_char_flat_map a b (g : N → pystr) l :
  replace_char a b (flat_map g l) = flat_map (λ x, replace_char a b (g x)) l.
Proof.
  unfold replace_char. induction l as [|x l IH]; [done|].
  cbn [flat_map]. by rewrite map_app, IH.
Qed.

Lemma flat_map_ext_Forall {A B} (f g : A → list B) (P : A → Prop) l :
  Forall P l → (∀ x, P x → f x = g x) → flat_map f l = flat_map g l.
Proof.
  intros Hl Hfg. induction Hl as [|x l Hx _ IH]; [done|].
  cbn [flat_map]. by rewrite IH, Hfg.
Qed.

Lemma hex_digit_upper_safe n :
  n < 16 → is_always_safe (hex_digit_upper n) = true.
Proof. intros Hn. unfold hex_digit_upper. destruct (n <? 10) eqn:E; chars. Qed.

Lemma byte_nibbles b : b < 256 → b / 16 < 16 ∧ b mod 16 < 16.
Proof.
  intros Hb. split; [apply N.Div0.div_lt_upper_bound; lia|apply N.mod_lt; lia].
Qed.

Lemma replace_safe a b c :
  is_always_safe a = false → is_always_safe c = true →
  replace_char a b [c] = [c].
Proof.
  intros Ha Hc. unfold replace_char. cbn [map].
  destruct (N.eqb_spec c a) as [->|]; [congruence|done].
Qed.

Lemma replace_escape a b x :
  x < 256 → is_always_safe a = false → a ≠ ch "%" →
  replace_char a b (escape x) = escape x.
Proof.
  intros Hx Ha Hne. destruct (byte_nibbles x Hx) as [N1 N2].
  pose proof (hex_digit_upper_safe _ N1) as S1.
  pose proof (hex_digit_upper_safe _ N2) as S2.
  unfold escape, replace_char. cbn [map].
  destruct (N.eqb_spec (ch "%") a) as [E|_]; [by rewrite E in Hne|].
  destruct (N.eqb_spec (hex_digit_upper (x / 16)) a) as [E|_]; [congruence|].
  destruct (N.eqb_spec (hex_digit_upper (x mod 16)) a) as [E|_]; [congruence|].
  done.
Qed.

Lemma utf8_encode_char_space c bs :
  utf8_encode_char c = Some bs → Forall (λ b, b = c ∨ 128 <= b) bs.
Proof.
  unfold utf8_encode_char.
  generalize ((c / 4096) mod 64). generalize ((c / 64) mod 64).
  generalize (c mod 64). generalize (c / 262144). generalize (c / 4096).
  generalize (c / 64). intros d1 d2 d3 m1 m2 m3.
  repeat match goal with
  | |- context [if ?b then _ else _] => destruct b eqn:?
  end; try discriminate; intros [= <-];
    repeat (apply List.Forall_cons; [lia|]); apply List.Forall_nil.
Qed.

Lemma utf8_encode_space x bs :
  utf8_encode x = Ok bs → contains (ch " ") x = false →
  Forall (λ b, b ≠ ch " ") bs.
Proof.
  revert bs. induction x as [|c x IH]; intros bs; cbn [utf8_encode].
  - intros [= <-]. constructor.
  - destruct (utf8_encode_char c) as [b1|] eqn:E; [|discriminate].
    destruct (utf8_encode x) as [b2|]; [|discriminate].
    cbn. intros [= <-]. unfold contains. cbn [existsb].
    intros Hc. apply orb_false_iff in Hc as [Hc Hx].
    apply Forall_app. split; [|by apply IH].
    eapply Forall_impl; [exact (utf8_encode_char_space _ _ E)|].
    intros b [->|Hb]; [|lit; lia]. unfold is_char in Hc.
    by apply N.eqb_neq in Hc.
Qed.

(** The text of [quote_plus], byte by byte. *)
Lemma quote_plus_spec x q :
  quote_plus x = Ok q →
  ∃ bs, utf8_encode x = Ok bs ∧ q = flat_map plus_quote_byte bs.
Proof.
  unfold quote_plus, quote.
  destruct (nonempty x) eqn:Ex; cbn [negb].
  2:{ apply nonempty_false in Ex as ->. cbn. intros [= <-]. by exists []. }
  destruct (utf8_encode x) as [bs|] eqn:Eb.
  2:{ by destruct (contains (ch " ") x). }
  destruct (utf8_encode_bytes _ _ Eb) as [Hbs _].
  destruct (contains (ch " ") x) eqn:Es; cbn; intros [= <-]; exists bs;
    (split; [done|]); unfold quote_from_bytes.
  - rewrite replace_char_flat_map.
    eapply flat_map_ext_Forall; [exact Hbs|]. cbn beta.
    intros b Hb. unfold quoter, plus_quote_byte.
    destruct (is_always_safe b) eqn:Esafe; cbn [orb].
    + apply replace_safe; [by vm_compute|done].
    + case_bool_decide as Hin.
      * apply list_elem_of_singleton in Hin as ->. by vm_compute.
      * destruct (N.eqb_spec b (ch " ")) as [->|_];
          [exfalso; apply Hin; by apply list_elem_of_singleton|].
        fold (escape b). apply replace_escape; [done|by vm_compute|by vm_compute].
  - eapply flat_map_ext_Forall.
    { apply Forall_and. split; [exact Hbs|exact (utf8_encode_space _ _ Eb Es)]. }
    cbn beta. intros b [Hb Hsp]. unfold quoter, plus_quote_byte.
    destruct (is_always_safe b); cbn [orb]; [done|].
    destruct (N.eqb_spec b (ch " ")) as [->|_]; [done|].
    case_bool_decide as Hin; [by apply not_elem_of_nil in Hin|done].
Qed.

Lemma plus_quote_byte_chars b :
  b < 256 →
  plus_quote_byte b ≠ []
  ∧ forallb is_query_char (plus_quote_byte b) = true
  ∧ ((replace_char (ch "+") (ch " ") (plus_quote_byte b) = [b] ∧ b ≠ ch "%")
     ∨ replace_char (ch "+") (ch " ") (plus_quote_byte b) = escape b).
Proof.
  intros Hb. destruct (byte_nibbles b Hb) as [N1 N2].
  pose proof (hex_digit_upper_safe _ N1) as S1.
  pose proof (hex_digit_upper_safe _ N2) as S2.
  unfold plus_quote_byte. destruct (is_always_safe b) eqn:Es.
  - split; [done|]. split.
    + cbn [forallb]. unfold is_query_char. by rewrite Es.
    + left. split; [apply replace_safe; [by vm_compute|done]|].
      intros ->. by vm_compute in Es.
  - destruct (N.eqb_spec b (ch " ")) as [->|_].
    + split; [done|]. split; [by vm_compute|]. left. by vm_compute.
    + split; [done|]. split.
      * unfold escape. cbn [forallb]. unfold is_query_char at 2 3.
        rewrite S1, S2. done.
      * right. apply replace_escape; [done|by vm_compute|by vm_compute].
Qed.

Lemma forallb_flat_map {A B} (p : B → bool) (f : A → list B) l :
  forallb p (flat_map f l) = forallb (λ x, forallb p (f x)) l.
Proof.
  induction l as [|x l IH]; [done|]. cbn [flat_map forallb].
  by rewrite forallb_app, IH.
Qed.

Lemma query_char_ascii c : is_query_char c = true → is_ascii c = true.
Proof. unfold is_query_char. intros. chars. Qed.

(** [unquote_plus] undoes [quote_plus], and the quoted text is made of
    query characters. *)
Lemma unquote_quote_plus x q :
  quote_plus x = Ok q →
  unquote (replace_char (ch "+") (ch " ") q) = x
  ∧ forallb is_query_char q = true
  ∧ (x ≠ [] → q ≠ []).
Proof.
  intros Hq. destruct (quote_plus_spec _ _ Hq) as (bs & Eb & ->).
  destruct (utf8_encode_bytes _ _ Eb) as [Hbs Hne].
  assert (Hchars : forallb is_query_char (flat_map plus_quote_byte bs) = true).
  { rewrite forallb_flat_map. apply forallb_forall. intros b Hb.
    rewrite Forall_forall in Hbs. apply list_elem_of_In in Hb.
    by destruct (plus_quote_byte_chars b (Hbs b Hb)) as (_ & ? & _). }
  split; [|split; [done|]].
  - rewrite unquote_ascii.
    2:{ unfold replace_char. rewrite forallb_forall. intros c Hc.
        apply in_map_iff in Hc as (c' & <- & Hc').
        rewrite forallb_forall in Hchars. specialize (Hchars _ Hc').
        destruct (N.eqb_spec c' (ch "+")); [done|].
        by apply query_char_ascii. }
    rewrite replace_char_flat_map.
    rewrite unquote_to_bytes_escaped; [by apply utf8_decode_encode|done|].
    intros b Hb. destruct (plus_quote_byte_chars b Hb) as (_ & _ & [?|?]); auto.
  - intros Hx. specialize (Hne Hx). destruct bs as [|b bs]; [done|].
    cbn [flat_map]. apply Forall_cons in Hbs as [Hb _].
    destruct (plus_quote_byte_chars b Hb) as (Hn & _).
    by destruct (plus_quote_byte b).
Qed.

(** ** Query strings *)

Lemma forallb_impl_true {A} (p q : A → bool) l :
  (∀ x, p x = true → q x = true) → forallb p l = true → forallb q l = true.
Proof.
  intros Hpq. rewrite !forallb_forall. intros Hl x Hx. by apply Hpq, Hl.
Qed.

Lemma split_on_free c s : free (is_char c) s → split_on c s = [s].
Proof.
  induction 1 as [|x s Hx Hs IH]; [done|]. cbn [split_on].
  unfold is_char in Hx. rewrite Hx, IH. done.
Qed.

Lemma split_on_app c a b :
  free (is_char c) a → split_on c (a ++ c :: b) = a :: split_on c b.
Proof.
  induction 1 as [|x s Hx Hs IH]; cbn [app split_on].
  - by rewrite N.eqb_refl.
  - unfold is_char in Hx. rewrite Hx, IH. done.
Qed.

Lemma split_on_join c l :
  Forall (free (is_char c)) l → l ≠ [] → split_on c (join [c] l) = l.
Proof.
  induction 1 as [|x l Hx Hl IH]; [done|]. intros _.
  destruct l as [|y l]; cbn [join].
  - by apply split_on_free.
  - cbn [app]. rewrite split_on_app by done. f_equal. by apply IH.
Qed.

Lemma query_char_not c d :
  is_query_char d = false → is_query_char c = true → is_char d c = false.
Proof.
  intros Hd Hc. unfold is_char. apply N.eqb_neq. intros ->. congruence.
Qed.

Lemma encodes_parse kv p : encodes kv p → kv.2 ≠ [] ∨ True → parse_field p = Some kv.
Proof.
  intros (k' & v' & -> & Hk & Hv & Hne & Ek & Ev) _. unfold parse_field.
  assert (nonempty (k' ++ ch "=" :: v') = true) as ->.
  { apply nonempty_true. by destruct k'. }
  cbn [negb]. rewrite split_once_app.
  2:{ eapply forallb_free; [|exact Hk]. intros c. by apply query_char_not. }
  apply nonempty_true in Hne. rewrite Hne, Ek, Ev. by destruct kv.
Qed.

Lemma encodes_chars kv p :
  encodes kv p → forallb is_query_text_char p = true ∧ free (is_char (ch "&")) p
                 ∧ p ≠ [].
Proof.
  intros (k' & v' & -> & Hk & Hv & Hne & _).
  assert (Hq : ∀ c, is_query_char c = true → is_query_text_char c = true).
  { intros c Hc. unfold is_query_text_char. by rewrite Hc. }
  split; [|split].
  - rewrite forallb_app. cbn [forallb].
    rewrite !(forallb_impl_true _ _ _ Hq) by done. by vm_compute.
  - apply free_app. split; [|apply free_cons; split; [by vm_compute|]];
      (eapply forallb_free; [|eassumption]); intros c; by apply query_char_not.
  - by destruct k'.
Qed.

Lemma quote_items_spec items l :
  quote_items items = Ok l →
  Forall (λ kv, kv.2 ≠ []) items →
  Forall2 encodes items l.
Proof.
  revert l. induction items as [|[k v] items IH]; intros l; cbn [quote_items].
  - intros [= <-] _. constructor.
  - destruct (quote_plus k) as [k'|] eqn:Ek; [|done].
    destruct (quote_plus v) as [v'|] eqn:Ev; [|done].
    destruct (quote_items items) as [l'|] eqn:El; [|done].
    cbn. intros [= <-] Hv. apply Forall_cons in Hv as [Hv Hvs]. cbn in Hv.
    destruct (unquote_quote_plus _ _ Ek) as (Uk & Ck & _).
    destruct (unquote_quote_plus _ _ Ev) as (Uv & Cv & Nv).
    constructor; [|by apply IH].
    exists k', v'. lit. cbn [app]. repeat split; auto.
Qed.

Lemma parse_qsl_join items l :
  Forall2 encodes items l → parse_qsl (join (py "&") l) = items.
Proof.
  intros Hl. unfold parse_qsl.
  destruct l as [|p l].
  { inversion Hl; subst. done. }
  assert (Hne : nonempty (join (py "&") (p :: l)) = true).
  { apply nonempty_true. inversion Hl as [|kv ? ? ? Hp]; subst.
    destruct (encodes_chars _ _ Hp) as (_ & _ & Hn).
    destruct l; cbn [join]; [done|]. by destruct p. }
  rewrite Hne. change (py "&") with [ch "&"].
  rewrite split_on_join; [|clear Hne|done].
  2:{ eapply Forall2_Forall_r; [exact Hl|].
      apply Forall_true. intros kv q Hq. by apply (encodes_chars _ _ Hq). }
  clear Hne. induction Hl as [|kv q items l' Hq Hl IH]; [done|].
  cbn [omap list_omap]. rewrite (encodes_parse _ _ Hq) by auto.
  by rewrite IH.
Qed.

Lemma join_chars (p : N → bool) sep l :
  forallb p sep = true → Forall (λ x, forallb p x = true) l →
  forallb p (join sep l) = true.
Proof.
  intros Hsep. induction 1 as [|x l Hx Hl IH]; [done|].
  destruct l as [|y l]; cbn [join]; [done|].
  rewrite !forallb_app, Hx, Hsep. exact IH.
Qed.

(** What the second reading of the query sees: the pairs come back, and the
    text holds query characters only. *)
Lemma parse_qsl_urlencode items q :
  urlencode items = Ok q →
  Forall (λ kv, kv.2 ≠ []) items →
  parse_qsl q = items ∧ forallb is_query_text_char q = true.
Proof.
  unfold urlencode. destruct (quote_items items) as [l|] eqn:El; [|done].
  cbn. intros [= <-] Hv. pose proof (quote_items_spec _ _ El Hv) as Hl.
  split; [by apply parse_qsl_join|].
  apply join_chars; [by vm_compute|].
  eapply Forall2_Forall_r; [exact Hl|].
  apply Forall_true. intros kv p Hp. by apply (encodes_chars _ _ Hp).
Qed.

(** ** Sorting and regrouping the query *)

Lemma str_leb_total a b : str_leb a b = false → str_leb b a = true.
Proof.
  revert b. induction a as [|x a IH]; intros [|y b]; cbn [str_leb]; try done.
  intros H. apply orb_false_iff in H as [H1 H2].
  apply N.ltb_ge in H1. destruct (N.eqb_spec x y) as [->|Hne].
  - cbn in H2. rewrite N.eqb_refl, (IH _ H2). apply orb_true_r.
  - assert ((y <? x) = true) as -> by (apply N.ltb_lt; lia). done.
Qed.

Lemma str_leb_trans a b c :
  str_leb a b = true → str_leb b c = true → str_leb a c = true.
Proof.
  revert b c. induction a as [|x a IH]; intros [|y b] [|z c]; cbn [str_leb];
    try done.
  intros H1 H2. apply orb_true_iff in H1, H2. apply orb_true_iff.
  destruct H1 as [H1|H1], H2 as [H2|H2].
  - left. apply N.ltb_lt in H1, H2. apply N.ltb_lt. lia.
  - apply andb_true_iff in H2 as [H2 _]. apply N.eqb_eq in H2 as <-. by left.
  - apply andb_true_iff in H1 as [H1 _]. apply N.eqb_eq in H1 as <-. by left.
  - apply andb_true_iff in H1 as [E1 H1]. apply andb_true_iff in H2 as [E2 H2].
    apply N.eqb_eq in E1 as <-. right. rewrite E2. eauto.
Qed.

Lemma insert_sorted_perm k l : insert_sorted k l ≡ₚ k :: l.
Proof.
  induction l as [|x l IH]; cbn [insert_sorted]; [done|].
  destruct (str_leb k x); [done|]. rewrite IH. apply Permutation_swap.
Qed.

Lemma sorted_perm l : sorted l ≡ₚ l.
Proof.
  unfold sorted. induction l as [|x l IH]; cbn [foldr]; [done|].
  by rewrite insert_sorted_perm, IH.
Qed.

Lemma insert_sorted_sorted k l :
  StronglySorted str_le l → StronglySorted str_le (insert_sorted k l).
Proof.
  induction 1 as [|x l Hl IH Hx]; cbn [insert_sorted].
  - by repeat constructor.
  - destruct (str_leb k x) eqn:E.
    + constructor; [by constructor|]. constructor; [done|].
      eapply Forall_impl; [exact Hx|]. intros y Hy. by eapply str_leb_trans.
    + constructor; [done|]. rewrite insert_sorted_perm.
      constructor; [by apply str_leb_total|done].
Qed.

Lemma sorted_sorted l : StronglySorted str_le (sorted l).
Proof.
  unfold sorted. induction l as [|x l IH]; cbn [foldr]; [constructor|].
  by apply insert_sorted_sorted.
Qed.

Lemma sorted_id l : StronglySorted str_le l → sorted l = l.
Proof.
  unfold sorted. induction 1 as [|x l Hl IH Hx]; cbn [foldr]; [done|].
  rewrite IH. destruct l as [|y l]; [done|]. cbn [insert_sorted].
  apply Forall_cons in Hx as [Hy _]. unfold str_le in Hy. by rewrite Hy.
Qed.

Lemma StronglySorted_filter' {A} (R : relation A) (P : A → Prop)
    `{∀ x, Decision (P x)} l :
  StronglySorted R l → StronglySorted R (filter P l).
Proof.
  induction 1 as [|x l Hl IH Hx]; [constructor|].
  rewrite filter_cons. destruct (decide (P x)); [|done].
  constructor; [done|]. apply Forall_forall. intros y Hy.
  apply list_elem_of_filter in Hy as [_ Hy].
  rewrite Forall_forall in Hx. by apply Hx.
Qed.

(** *** Dictionaries of lists *)

Lemma dict_append_keys name value d :
  map fst (dict_append name value d)
  = if bool_decide (name ∈ map fst d) then map fst d else map fst d ++ [name].
Proof.
  induction d as [|[k vs] d IH]; cbn [dict_append map fst].
  - by rewrite bool_decide_eq_false_2 by apply not_elem_of_nil.
  - unfold str_eqb. destruct (decide (k = name)) as [->|Hk].
    + rewrite (bool_decide_eq_true_2 (name = name)) by done.
      cbn [map fst]. by rewrite bool_decide_eq_true_2 by left.
    + rewrite (bool_decide_eq_false_2 (k = name)) by done.
      cbn [map fst]. rewrite IH.
      destruct (decide (name ∈ map fst d)) as [Hin|Hin].
      * rewrite !bool_decide_eq_true_2; [done|by right|done].
      * rewrite !bool_decide_eq_false_2; [done| |done].
        intros Hc. apply elem_of_cons in Hc as [?|?]; by subst.
Qed.

Lemma dict_append_ok name value d : dict_ok d → dict_ok (dict_append name value d).
Proof.
  intros [Hnd Hne]. split.
  - rewrite dict_append_keys. case_bool_decide as Hin; [done|].
    apply NoDup_app. split; [done|]. split; [|apply NoDup_singleton].
    intros x Hx Hx'. apply list_elem_of_singleton in Hx' as ->. done.
  - clear Hnd. induction Hne as [|[k vs] d Hk Hd IH]; cbn [dict_append].
    + by repeat constructor.
    + destruct (str_eqb k name); constructor; try done.
      cbn in *. by destruct vs.
Qed.

Lemma parse_qs_ok_aux l d :
  dict_ok d → dict_ok (fold_left (λ d '(name, value), dict_append name value d) l d).
Proof.
  revert d. induction l as [|[n v] l IH]; intros d Hd; cbn [fold_left]; [done|].
  by apply IH, dict_append_ok.
Qed.

Lemma parse_qs_ok qs : dict_ok (parse_qs qs).
Proof. apply parse_qs_ok_aux. split; constructor. Qed.

(** Appending the values of one key, then of the next keys, rebuilds the
    dictionary. *)
Lemma regroup_values k vs acc d1 rest :
  k ∉ map fst d1 →
  fold_left (λ d '(name, value), dict_append name value d)
            (map (λ v, (k, v)) vs ++ rest) (d1 ++ [(k, acc)])
  = fold_left (λ d '(name, value), dict_append name value d)
              rest (d1 ++ [(k, acc ++ vs)]).
Proof.
  intros Hk. revert acc. induction vs as [|v vs IH]; intros acc; cbn [map app].
  - by rewrite app_nil_r.
  - cbn [fold_left].
    assert (dict_append k v (d1 ++ [(k, acc)]) = d1 ++ [(k, acc ++ [v])]) as ->.
    { clear IH. induction d1 as [|[k' vs'] d1 IH1]; cbn [app dict_append].
      - unfold str_eqb. by rewrite bool_decide_eq_true_2.
      - unfold str_eqb. rewrite bool_decide_eq_false_2.
        + rewrite IH1; [done|]. intros Hc. apply Hk. by right.
        + intros ->. apply Hk. by left. }
    rewrite IH. by rewrite <- app_assoc.
Qed.

Lemma dict_append_fresh k v d :
  k ∉ map fst d → dict_append k v d = d ++ [(k, [v])].
Proof.
  induction d as [|[k' vs'] d IH]; cbn [app dict_append map fst]; [done|].
  intros Hk. unfold str_eqb. rewrite bool_decide_eq_false_2.
  - rewrite IH; [done|]. intros Hc. apply Hk. by right.
  - intros ->. apply Hk. by left.
Qed.

Lemma regroup d1 d2 :
  dict_ok (d1 ++ d2) →
  fold_left (λ d '(name, value), dict_append name value d) (flatten d2) d1
  = d1 ++ d2.
Proof.
  revert d1. induction d2 as [|[k vs] d2 IH]; intros d1 [Hnd Hne].
  - by rewrite app_nil_r.
  - unfold flatten. cbn [flat_map fst snd].
    assert (Hk : k ∉ map fst d1).
    { rewrite map_app in Hnd. apply NoDup_app in Hnd as (_ & Hd & _).
      intros Hin. apply (Hd _ Hin). by left. }
    apply Forall_app in Hne as [Hne1 Hne2].
    pose proof Hne2 as Hne2'. apply Forall_cons in Hne2' as [Hvs _]. cbn in Hvs.
    destruct vs as [|v vs]; [done|]. cbn [map app fold_left].
    rewrite dict_append_fresh by done.
    rewrite regroup_values by done. cbn [app].
    fold (flatten d2). rewrite IH.
    + by rewrite <- app_assoc.
    + rewrite <- app_assoc. cbn [app]. split; [done|]. by apply Forall_app.
Qed.

Lemma unquote_to_bytes_nil s : unquote_to_bytes s = [] → s = [].
Proof.
  destruct s as [|c r]; [done|]. cbn [unquote_to_bytes].
  destruct (c =? ch "%"); [|done].
  destruct r as [|h1 [|h2 r']]; try done.
  by destruct (is_hexdig h1 && is_hexdig h2).
Qed.

Lemma unquote_runs_nil run s : unquote_runs run s = [] → run = [] ∧ s = [].
Proof.
  revert run. induction s as [|c r IH]; intros run; cbn [unquote_runs].
  - intros H. apply utf8_decode_nil, unquote_to_bytes_nil in H. done.
  - destruct (is_ascii c).
    + intros H. apply IH in H as [H _]. by destruct run.
    + intros H. by apply app_eq_nil in H as [_ ?].
Qed.

Lemma unquote_nonempty s : s ≠ [] → unquote s ≠ [].
Proof.
  intros Hs. unfold unquote. destruct (negb _); [done|].
  intros H. by apply unquote_runs_nil in H as [_ ?].
Qed.

Lemma parse_field_value p kv : parse_field p = Some kv → kv.2 ≠ [].
Proof.
  unfold parse_field. destruct (negb (nonempty p)); [done|].
  destruct (split_once (ch "=") p) as [[n v]|]; [|done].
  destruct (nonempty v) eqn:E; [|done]. intros [= <-]. cbn.
  apply unquote_nonempty. unfold replace_char.
  apply nonempty_true in E. by destruct v.
Qed.

Lemma parse_qsl_values qs : Forall (λ kv, kv.2 ≠ []) (parse_qsl qs).
Proof.
  unfold parse_qsl. apply Forall_forall. intros kv Hkv.
  apply list_elem_of_omap in Hkv as (p & _ & Hp). by eapply parse_field_value.
Qed.

Lemma dict_append_values name value d :
  value ≠ [] → values_nonempty d → values_nonempty (dict_append name value d).
Proof.
  intros Hv. induction 1 as [|[k vs] d Hk Hd IH]; cbn [dict_append].
  - by repeat constructor.
  - destruct (str_eqb k name); constructor; try done.
    cbn in *. apply Forall_app. split; [done|by repeat constructor].
Qed.

Lemma parse_qs_values qs : values_nonempty (parse_qs qs).
Proof.
  unfold parse_qs. pose proof (parse_qsl_values qs) as Hl.
  assert (Hd : values_nonempty []) by constructor.
  revert Hd. generalize (@nil (pystr * list pystr)).
  induction Hl as [|[n v] l Hv Hl IH]; intros d Hd; cbn [fold_left]; [done|].
  apply IH. by apply dict_append_values.
Qed.

Lemma dict_values_lookup d k vs :
  NoDup (map fst d) → (k, vs) ∈ d → dict_values d k = vs.
Proof.
  unfold dict_values. induction d as [|[k' vs'] d IH]; intros Hnd Hin.
  - by apply elem_of_nil in Hin.
  - cbn [map fst] in Hnd. apply NoDup_cons in Hnd as [Hk' Hnd].
    cbn [list_find]. destruct (decide (k' = k)) as [->|Hne].
    + rewrite decide_True by done. cbn.
      apply elem_of_cons in Hin as [[= ->]|Hin]; [done|].
      exfalso. apply Hk'. apply list_elem_of_fmap. by exists (k, vs).
    + rewrite decide_False by done.
      apply elem_of_cons in Hin as [[= -> ->]|Hin]; [done|].
      specialize (IH Hnd Hin).
      destruct (list_find _ d) as [[i [k2 v2]]|]; cbn in *; done.
Qed.

Lemma dict_values_in d k :
  k ∈ map fst d → (k, dict_values d k) ∈ d.
Proof.
  unfold dict_values. induction d as [|[k' vs'] d IH]; cbn [map fst].
  - intros Hin. by apply elem_of_nil in Hin.
  - cbn [list_find]. destruct (decide (k' = k)) as [->|Hne].
    + rewrite decide_True by done. cbn. intros _. by left.
    + rewrite decide_False by done. intros Hin.
      apply elem_of_cons in Hin as [?|Hin]; [done|]. specialize (IH Hin).
      right. destruct (list_find _ d) as [[i [k2 v2]]|]; cbn in *; done.
Qed.

Lemma selected_keys d :
  map fst (selected d) = filter (λ k, k ∉ drop_keys) (sorted (map fst d)).
Proof.
  unfold selected. rewrite map_map. cbn. apply map_id.
Qed.

Lemma selected_in d kv : kv ∈ selected d → kv ∈ d ∧ kv.1 ∉ drop_keys.
Proof.
  unfold selected. intros Hin. apply list_elem_of_fmap in Hin as (k & -> & Hk).
  apply list_elem_of_filter in Hk as [Hd Hk]. split; [|done].
  apply dict_values_in. by rewrite sorted_perm in Hk.
Qed.

Lemma selected_ok d : dict_ok d → dict_ok (selected d).
Proof.
  intros [Hnd Hne]. split.
  - rewrite selected_keys. apply NoDup_filter. by rewrite sorted_perm.
  - apply Forall_forall. intros kv Hkv. apply selected_in in Hkv as [Hkv _].
    rewrite Forall_forall in Hne. by apply Hne.
Qed.

Lemma query_items_flatten d : query_items d = flatten (selected d).
Proof.
  unfold query_items, flatten, selected.
  induction (sorted (map fst d)) as [|k ks IH]; [done|].
  cbn [flat_map]. rewrite filter_cons. case_bool_decide as Hk.
  - rewrite decide_False by (by intros ?). done.
  - rewrite decide_True by done. cbn [map flat_map fst snd]. by rewrite IH.
Qed.

Lemma selected_idem d : dict_ok d → selected (selected d) = selected d.
Proof.
  intros Hd. pose proof (selected_ok _ Hd) as [Hnd _].
  unfold selected at 1. rewrite selected_keys.
  rewrite sorted_id.
  2:{ apply StronglySorted_filter'. apply sorted_sorted. }
  rewrite list_filter_filter.
  rewrite (list_filter_iff _ (λ k, k ∉ drop_keys)) by tauto.
  unfold selected at 2. apply map_ext_in. intros k Hk. f_equal.
  apply dict_values_lookup; [done|].
  unfold selected. apply list_elem_of_fmap. exists k. split; [done|].
  by apply list_elem_of_In.
Qed.

Lemma flatten_values d :
  values_nonempty d → Forall (λ kv, kv.2 ≠ []) (flatten d).
Proof.
  intros Hd. unfold flatten. apply Forall_forall. intros [k v] Hin.
  apply list_elem_of_In, in_flat_map in Hin as ([k' vs] & Hkv & Hv).
  apply in_map_iff in Hv as (v' & [= <- <-] & Hv').
  unfold values_nonempty in Hd. rewrite Forall_forall in Hd.
  apply list_elem_of_In in Hkv. specialize (Hd _ Hkv). cbn in Hd.
  rewrite Forall_forall in Hd. apply Hd. by apply list_elem_of_In.
Qed.

Section QueryRoundTrip.
Context `{HostChecks}.

(** Reading back the query that [normalize_detail_url] wrote gives the same
    list of pairs. *)
Lemma query_round_trip q0 q1 :
  urlencode (query_items (parse_qs q0)) = Ok q1 →
  query_items (parse_qs q1) = query_items (parse_qs q0)
  ∧ forallb is_query_text_char q1 = true.
Proof.
  intros Hq. pose proof (parse_qs_ok q0) as Hok.
  pose proof (parse_qs_values q0) as Hval.
  rewrite query_items_flatten in Hq |- *.
  assert (Hsel : values_nonempty (selected (parse_qs q0))).
  { apply Forall_forall. intros kv Hkv. apply selected_in in Hkv as [Hkv _].
    unfold values_nonempty in Hval. rewrite Forall_forall in Hval. by apply Hval. }
  destruct (parse_qsl_urlencode _ _ Hq (flatten_values _ Hsel)) as [Hp Hc].
  split; [|done].
  assert (parse_qs q1 = selected (parse_qs q0)) as ->.
  { unfold parse_qs at 1. rewrite Hp.
    apply (regroup [] (selected (parse_qs q0))). by apply selected_ok. }
  rewrite query_items_flatten. by rewrite selected_idem.
Qed.

End QueryRoundTrip.

(** ** [normalize_detail_url] *)

Section NormalizeLemmas.
Context `{HostChecks}.

Lemma urlparse_base : urlparse BASE_URL
  = Ok {| scheme := py "https"; netloc := py "www.sogang.ac.kr";
          path := py "/ko/scholarship-notice"; params := []; query := [];
          fragment := [] |}.
Proof. by vm_compute. Qed.

Lemma urlsplit_prefix c0 s' n r sr :
  is_ascii_alpha c0 = true → forallb is_scheme_char (c0 :: s') = true →
  free is_netloc_delim n → free is_unsafe_url_byte n →
  urlsplit ((c0 :: s') ++ py ":" ++ py "//" ++ n ++ ch "/" :: r) = Ok sr →
  sr_scheme sr = str_lower (c0 :: s') ∧ sr_netloc sr = n.
Proof.
  intros Hc0 Hs Hn1 Hn2. unfold urlsplit. lit. cbn [app].
  rewrite lstrip_by_head by (by apply alpha_not_c0).
  change (c0 :: s' ++ ?x) with ((c0 :: s') ++ x).
  rewrite filter_app, free_filter.
  2:{ eapply forallb_free; [|exact Hs]. apply scheme_char_safe. }
  rewrite !filter_cons_True by (by vm_compute).
  rewrite filter_app, (free_filter _ n) by done.
  rewrite filter_cons_True by (by vm_compute).
  set (r' := filter _ r).
  rewrite break_free_stop.
  2:{ eapply forallb_free; [|exact Hs]. apply scheme_char_not_colon. }
  2:{ by vm_compute. }
  rewrite Hc0, Hs. cbn [andb take]. rewrite take_0.
  change (str_eqb [47; 47] [47; 47]) with true. cbn iota.
  unfold splitnetloc. cbn [drop]. rewrite drop_0.
  rewrite break_free_stop by (done || by vm_compute).
  destruct (_ || _); [done|]. destruct (_ && negb _); [done|].
  cbn [mbind result_mbind result_bind].
  destruct (split_once 35 _) as [[? ?]|];
    destruct (split_once 63 _) as [[? ?]|];
    destruct (checknetloc n); cbn; try done; by intros [= <-].
Qed.

(** A root-relative link resolved against the origin of the site has the
    scheme and the host of the site. *)
Lemma urlparse_rebased raw c :
  startswith (py "/") raw = true →
  urlparse (py "https" ++ py "://" ++ py "www.sogang.ac.kr" ++ raw) = Ok c →
  scheme c = py "https" ∧ netloc c = py "www.sogang.ac.kr".
Proof.
  intros Hraw. destruct raw as [|c0 raw]; [done|].
  cbn [startswith] in Hraw. lit. apply andb_true_iff in Hraw as [Hc0 _].
  apply N.eqb_eq in Hc0 as <-.
  unfold urlparse. destruct (urlsplit _) as [sr|] eqn:E; [|done].
  cbn [mbind result_mbind result_bind].
  apply (urlsplit_prefix 104 [116; 116; 112; 115]
           (py "www.sogang.ac.kr") raw sr) in E;
    [|by vm_compute|by vm_compute|lit; free_solve|lit; free_solve].
  destruct E as [Es En].
  destruct (_ && _); [destruct (splitparams (sr_path sr))|];
    intros [= <-]; cbn; by split.
Qed.

(** The result of a normalisation, taken apart. *)
Lemma normalize_spec raw out :
  normalize_detail_url (Some raw) = Ok (Some out) →
  ∃ s n p q0 q1,
    canonical_parts s n p ∧ (s ∉ script_schemes)
    ∧ urlencode (query_items (parse_qs q0)) = Ok q1
    ∧ out = urlunparse s n p [] q1 [].
Proof.
  unfold normalize_detail_url.
  destruct (negb (nonempty raw)); [done|].
  destruct (bool_decide (str_lower (strip raw) ∈ placeholder_links)); [done|].
  destruct (existsb _ script_prefixes); [done|].
  set (raw' := if startswith (py "//") (strip raw) then _ else _).
  destruct (urlparse raw') as [c|] eqn:Ec; [|done].
  cbn [mbind result_mbind result_bind].
  case_bool_decide as Hscheme; [done|].
  destruct (negb (nonempty (scheme c)) || negb (nonempty (netloc c))) eqn:Eempty.
  - destruct (startswith (py "/") raw') eqn:Eslash; [|done].
    rewrite urlparse_base. cbn [mbind result_mbind result_bind scheme netloc].
    destruct (urlparse (py "https" ++ py "://" ++ py "www.sogang.ac.kr" ++ raw'))
      as [c2|] eqn:Ec2; [|done].
    cbn [mbind result_mbind result_bind].
    destruct (urlencode _) as [q1|] eqn:Eq; [|done].
    cbn. intros [= <-].
    destruct (urlparse_rebased _ _ Eslash Ec2) as [Hs Hn].
    exists (scheme c2), (netloc c2), (path c2), (query c2), q1.
    split; [|split; [|done]].
    + apply (urlparse_parts _ _ Ec2); [by rewrite Hs|by rewrite Hn].
    + rewrite Hs. intros Hin. apply (bool_decide_eq_true_2 _) in Hin.
      by vm_compute in Hin.
  - cbn [mbind result_mbind result_bind].
    destruct (urlencode _) as [q1|] eqn:Eq; [|done].
    cbn. intros [= <-].
    apply orb_false_iff in Eempty as [E1 E2].
    apply negb_false_iff, nonempty_true in E1, E2.
    exists (scheme c), (netloc c), (path c), (query c), q1.
    split; [by apply (urlparse_parts _ _ Ec)|done].
Qed.

End NormalizeLemmas.

Lemma startswith_spec p s : startswith p s = true ↔ ∃ r, s = p ++ r.
Proof.
  revert s. induction p as [|a p IH]; intros s; cbn [startswith].
  - split; [by exists s|done].
  - destruct s as [|b s]; [split; [done|by intros [? ?]]|].
    rewrite andb_true_iff, N.eqb_eq, IH. split.
    + intros [-> [r ->]]. by exists r.
    + intros [r [= -> ->]]. eauto.
Qed.

Lemma colon_prefix_eq a b r1 r2 :
  free (is_char (ch ":")) a → free (is_char (ch ":")) b →
  a ++ ch ":" :: r1 = b ++ ch ":" :: r2 → a = b.
Proof.
  intros Ha Hb E. apply (f_equal (break (is_char (ch ":")))) in E.
  rewrite !break_free_stop in E by (done || by vm_compute). by injection E.
Qed.

Lemma str_lower_app a b : str_lower (a ++ b) = str_lower a ++ str_lower b.
Proof. unfold str_lower. apply flat_map_app. Qed.

(** A text that starts with a scheme other than the script schemes is not a
    placeholder and has no script prefix. *)
Lemma scheme_text_passes s rest :
  (∃ c0 s', s = c0 :: s' ∧ is_ascii_alpha c0 = true) →
  forallb is_scheme_char s = true → s ∉ script_schemes →
  bool_decide (s ++ ch ":" :: rest ∈ placeholder_links) = false
  ∧ existsb (λ p, startswith p (s ++ ch ":" :: rest)) script_prefixes = false
  ∧ startswith (py "//") (s ++ ch ":" :: rest) = false.
Proof.
  intros (c0 & s' & -> & Hc0) Hs Hns.
  assert (Hfree : free (is_char (ch ":")) (c0 :: s')).
  { eapply forallb_free; [|exact Hs]. apply scheme_char_not_colon. }
  assert (Hne : ∀ x r, x ∈ script_schemes → free (is_char (ch ":")) x →
                 (c0 :: s') ++ ch ":" :: rest ≠ x ++ ch ":" :: r).
  { intros x r Hx Hfx E. apply colon_prefix_eq in E; [|done|done]. by subst. }
  split; [|split].
  - apply bool_decide_eq_false. unfold placeholder_links.
    rewrite !elem_of_cons, elem_of_nil.
    intros [E|[E|[E|[E|[]]]]].
    + revert E. lit. intros [= -> _]. by vm_compute in Hc0.
    + revert E. lit. intros [= -> _]. by vm_compute in Hc0.
    + apply (Hne (py "javascript") (py "void(0)")); [|by lit; free_solve|done].
      unfold script_schemes. set_solver.
    + apply (Hne (py "javascript") (py "void(0);")); [|by lit; free_solve|done].
      unfold script_schemes. set_solver.
  - unfold script_prefixes. cbn [existsb].
    repeat match goal with
    | |- context [startswith ?p ?w] =>
        let E := fresh "E" in
        destruct (startswith p w) eqn:E;
        [exfalso; apply startswith_spec in E as [r E]|]
    end; try done.
    + apply (Hne (py "javascript") r); [|by lit; free_solve|done].
      unfold script_schemes. set_solver.
    + apply (Hne (py "mailto") r); [|by lit; free_solve|done].
      unfold script_schemes. set_solver.
    + apply (Hne (py "tel") r); [|by lit; free_solve|done].
      unfold script_schemes. set_solver.
    + apply (Hne (py "data") r); [|by lit; free_solve|done].
      unfold script_schemes. set_solver.
  - lit. cbn [app startswith]. destruct (N.eqb_spec 47 c0) as [<-|]; [|done].
    by vm_compute in Hc0.
Qed.

Lemma query_text_free q :
  forallb is_query_text_char q = true →
  free (is_char (ch "#")) q ∧ free is_unsafe_url_byte q.
Proof.
  intros Hq. split; (eapply forallb_free; [|exact Hq]); intros c;
    unfold is_query_text_char, is_query_char; intros; chars.
Qed.

Section Idempotence.
Context `{HostChecks}.

(** C8 (amended). Normalising a normalised link gives the same link whenever
    the normalised link has no white space at its ends. *)
Theorem normalize_idempotent_when_stripped (x out : pystr) :
  normalize_detail_url (Some x) = Ok (Some out) →
  strip out = out →
  normalize_detail_url (Some out) = Ok (Some out).
Proof.
  intros Hx Hstrip.
  destruct (normalize_spec _ _ Hx) as (s & n & p & q0 & q1 & Hc & Hs & Hq & Hout).
  rewrite (urlunparse_canonical _ _ _ _ Hc) in Hout.
  destruct (query_round_trip _ _ Hq) as [Hrt Hchars].
  destruct (query_text_free _ Hchars) as [Hf1 Hf2].
  pose proof (urlparse_canonical _ _ _ _ Hc Hf1 Hf2) as Hparse.
  rewrite <- Hout in Hparse.
  pose proof (cp_scheme_head _ _ _ Hc) as Hhead.
  pose proof (cp_scheme_chars _ _ _ Hc) as Hsc.
  assert (Hlow : str_lower out = s ++ ch ":" :: str_lower (py "//" ++ n ++ p ++ query_suffix q1)).
  { rewrite Hout. rewrite str_lower_app, (cp_scheme_lower _ _ _ Hc). done. }
  destruct (scheme_text_passes s (str_lower (py "//" ++ n ++ p ++ query_suffix q1))
              Hhead Hsc Hs) as (P1 & P2 & _).
  destruct (scheme_text_passes s (py "//" ++ n ++ p ++ query_suffix q1)
              Hhead Hsc Hs) as (_ & _ & P3).
  unfold normalize_detail_url.
  assert (nonempty out = true) as ->.
  { rewrite Hout. destruct Hhead as (c0 & s' & -> & _). done. }
  cbn [negb]. rewrite Hstrip, Hlow, P1, P2.
  assert (startswith (py "//") out = false) as -> by (by rewrite Hout).
  rewrite Hparse. cbn [mbind result_mbind result_bind scheme netloc path query].
  rewrite bool_decide_eq_false_2 by done.
  assert (nonempty s = true) as ->.
  { destruct Hhead as (c0 & s' & -> & _). done. }
  assert (nonempty n = true) as ->.
  { apply nonempty_true. apply (cp_netloc_nonempty _ _ _ Hc). }
  cbn [negb orb mbind result_mbind result_bind scheme netloc path query].
  rewrite Hrt, Hq. cbn [mbind result_mbind result_bind].
  by rewrite (urlunparse_canonical _ _ _ _ Hc), <- Hout.
Qed.

End Idempotence.

(** C8, as stated, fails: the path keeps the space that stood before the
    fragment, and the second normalisation strips it. *)
Lemma normalize_not_idempotent :
  ¬ (∀ x out : pystr,
       @normalize_detail_url lenient_checks (Some x) = Ok (Some out) →
       @normalize_detail_url lenient_checks (Some out) = Ok (Some out)).
Proof.
  intros Hidem.
  specialize (Hidem link_with_inner_space (py "https://h/a ") eq_refl).
  by vm_compute in Hidem.
Qed.

Lemma normalize_idempotent_when_stripped_witness :
  @normalize_detail_url lenient_checks
     (Some (py "https://www.sogang.ac.kr/ko/detail/7?bbsConfigFk=141"))
  = Ok (Some (py "https://www.sogang.ac.kr/ko/detail/7?bbsConfigFk=141")).
Proof.
  apply (@normalize_idempotent_when_stripped lenient_checks
           (py "/ko/detail/7?page=3&bbsConfigFk=141#top")); by vm_compute.
Defined.

(** ** Fragments *)

Lemma lstrip_by_hash p b f :
  p (ch "#") = false →
  lstrip_by p (b ++ ch "#" :: f) = lstrip_by p b ++ ch "#" :: f.
Proof.
  intros Hp. induction b as [|c b IH]; cbn [app lstrip_by].
  - by rewrite Hp.
  - by destruct (p c).
Qed.

Lemma lstrip_is_lstrip_by s : lstrip s = lstrip_by is_space s.
Proof. induction s as [|c s IH]; cbn; [done|]. by rewrite IH. Qed.

Lemma strip_hash b f :
  strip (b ++ ch "#" :: f) = lstrip b ++ ch "#" :: rstrip f.
Proof.
  unfold strip, rstrip. rewrite !lstrip_is_lstrip_by.
  rewrite lstrip_by_hash by (by vm_compute).
  rewrite rev_app_distr. cbn [rev]. rewrite <- app_assoc. cbn [app].
  rewrite lstrip_by_hash by (by vm_compute).
  rewrite rev_app_distr. cbn [rev]. rewrite rev_involutive, <- app_assoc. done.
Qed.

Lemma str_lower_hash a r :
  str_lower (a ++ ch "#" :: r) = str_lower a ++ ch "#" :: str_lower r.
Proof. by rewrite str_lower_app. Qed.

Lemma startswith_hash p a r :
  free (is_char (ch "#")) p →
  startswith p (a ++ ch "#" :: r) = startswith p a.
Proof.
  intros Hp. revert a. induction Hp as [|c p Hc Hp IH]; intros a; [done|].
  destruct a as [|x a]; cbn [app startswith].
  - unfold is_char in Hc. rewrite Hc. done.
  - by rewrite IH.
Qed.

Lemma lower_char_hash c : c ≠ ch "#" → free (is_char (ch "#")) (lower_char c)
                                      ∧ lower_char c ≠ [].
Proof.
  intros Hc. unfold lower_char.
  destruct (is_ascii_upper c) eqn:E.
  - split; [|done]. apply free_cons; split; [chars|apply free_nil].
  - destruct (c =? 304).
    { split; [|done]. lit. free_solve. }
    destruct (c =? 8490).
    { split; [|done]. lit. free_solve. }
    split; [|done]. apply free_cons. split; [|apply free_nil].
    unfold is_char. by apply N.eqb_neq.
Qed.

Lemma str_lower_free_hash s :
  free (is_char (ch "#")) s → free (is_char (ch "#")) (str_lower s)
                               ∧ (s ≠ [] → str_lower s ≠ []).
Proof.
  induction 1 as [|c s Hc Hs [IH1 IH2]]; [split; [apply free_nil|done]|].
  unfold str_lower. cbn [flat_map].
  assert (c ≠ ch "#") as Hne.
  { intros ->. by vm_compute in Hc. }
  destruct (lower_char_hash c Hne) as [H1 H2].
  split; [by apply free_app|]. intros _. by destruct (lower_char c).
Qed.

Section Fragments.
Context `{HostChecks}.

Lemma break_app_spec p u x :
  ∃ a b, break p u = (a, b) ∧ u = a ++ b ∧ free p a
    ∧ ((b = [] ∧ break p (u ++ x) = (a ++ (break p x).1, (break p x).2))
       ∨ (∃ c b', b = c :: b' ∧ p c = true ∧ break p (u ++ x) = (a, b ++ x))).
Proof.
  destruct (break_spec p u) as (a & b & E & -> & Ha & Hb).
  exists a, b. do 3 (split; [done|]).
  destruct Hb as [->|(c & b' & -> & Hc)].
  - left. split; [done|]. rewrite app_nil_r. by apply break_app_free.
  - right. exists c, b'. do 2 (split; [done|]).
    rewrite <- app_assoc. cbn [app]. by apply break_free_stop.
Qed.

Lemma take2_hash w f :
  free (is_char (ch "#")) w →
  str_eqb (take 2 (w ++ ch "#" :: f)) (py "//") = str_eqb (take 2 w) (py "//")
  ∧ (str_eqb (take 2 w) (py "//") = true →
     drop 2 (w ++ ch "#" :: f) = drop 2 w ++ ch "#" :: f).
Proof.
  intros Hw. destruct w as [|c1 [|c2 w]]; cbn [app take drop].
  - split; [|intros E; apply str_eqb_eq in E; discriminate E]. lit. unfold str_eqb.
    rewrite !bool_decide_eq_false_2 by (intros E; discriminate E). done.
  - split; [|intros E; apply str_eqb_eq in E; discriminate E]. lit. unfold str_eqb.
    rewrite !bool_decide_eq_false_2 by (intros E; discriminate E). done.
  - done.
Qed.

(** A fragment does not change what [urlsplit] returns for the rest. *)
Lemma urlsplit_fragment u f :
  free (is_char (ch "#")) u →
  urlsplit (u ++ ch "#" :: f)
  = result_map (sr_with_fragment (filter (λ c, is_unsafe_url_byte c = false) f))
               (urlsplit u).
Proof.
  intros Hu. unfold urlsplit.
  rewrite lstrip_by_hash by (by vm_compute).
  rewrite filter_app, filter_cons_True by (by vm_compute).
  set (f2 := filter _ f).
  assert (Hu2 : free (is_char (ch "#"))
                  (filter (λ c, is_unsafe_url_byte c = false)
                     (lstrip_by is_c0_or_space u))).
  { apply Forall_forall. intros c Hc. apply list_elem_of_filter in Hc as [_ Hc].
    revert c Hc. apply Forall_forall. by apply free_lstrip_by. }
  set (u2 := filter _ (lstrip_by _ u)) in *. clearbody u2 f2. clear Hu.
  (* the scheme *)
  assert (Hsch : ∃ scm w,
     free (is_char (ch "#")) w
     ∧ match break (is_char (ch ":")) (u2 ++ ch "#" :: f2) with
       | (c0 :: pre, _ :: rest) =>
           if is_ascii_alpha c0 && forallb is_scheme_char (c0 :: pre)
           then (str_lower (c0 :: pre), rest)
           else ([], u2 ++ ch "#" :: f2)
       | _ => ([], u2 ++ ch "#" :: f2)
       end = (scm, w ++ ch "#" :: f2)
     ∧ match break (is_char (ch ":")) u2 with
       | (c0 :: pre, _ :: rest) =>
           if is_ascii_alpha c0 && forallb is_scheme_char (c0 :: pre)
           then (str_lower (c0 :: pre), rest)
           else ([], u2)
       | _ => ([], u2)
       end = (scm, w)).
  { destruct (break_app_spec (is_char (ch ":")) u2 (ch "#" :: f2))
      as (a & b & Eb & Hab & Ha & [[-> Ebx]|(c & b' & -> & Hc & Ebx)]);
      rewrite Eb, Ebx.
    - (* no colon before the fragment *)
      exists [], u2. split; [done|]. rewrite app_nil_r in Hab. subst a.
      cbn [break]. change (is_char (ch ":") (ch "#")) with false. cbn iota.
      destruct (break (is_char (ch ":")) f2) as [fa fb]. cbn [fst snd].
      split; [|by destruct u2].
      destruct u2 as [|c0 u2']; cbn [app].
      + destruct fb; [done|]. by change (is_ascii_alpha (ch "#")) with false.
      + destruct fb; [done|].
        assert (forallb is_scheme_char (c0 :: u2' ++ ch "#" :: fa) = false) as ->.
        { change (c0 :: u2' ++ ?x) with ((c0 :: u2') ++ x).
          rewrite forallb_app. cbn [forallb].
          change (is_scheme_char (ch "#")) with false.
          by rewrite andb_false_r. }
        by rewrite andb_false_r.
    - subst u2. apply free_app in Hu2 as [Hfa Hfb].
      pose proof Hfb as Hfcb. apply free_cons in Hfb as [_ Hfb'].
      destruct a as [|c0 pre].
      + exists [], (c :: b'). split; [done|]. done.
      + cbn [app]. destruct (is_ascii_alpha c0 && forallb is_scheme_char (c0 :: pre)).
        * exists (str_lower (c0 :: pre)), b'. done.
        * exists [], ((c0 :: pre) ++ c :: b'). split; [|done].
          apply free_app. split; [done|done]. }
  destruct Hsch as (scm & w & Hw & -> & ->).
  destruct (take2_hash w f2 Hw) as [-> Hdrop].
  destruct (str_eqb (take 2 w) (py "//")) eqn:E2.
  - unfold splitnetloc. rewrite Hdrop by done.
    assert (Hw2 : free (is_char (ch "#")) (drop 2 w)) by (by apply free_drop).
    destruct (break_app_spec is_netloc_delim (drop 2 w) (ch "#" :: f2))
      as (nl & r3 & Eb & Hab & Hnl & [[-> Ebx]|(c & b' & -> & Hc & Ebx)]);
      rewrite Eb, Ebx.
    + cbn [break]. change (is_netloc_delim (ch "#")) with true. cbn [fst snd].
      rewrite app_nil_r.
      destruct (_ || _); [done|]. destruct (_ && negb _); [done|].
      cbn [mbind result_mbind result_bind].
      replace (split_once (ch "#") (ch "#" :: f2)) with (Some (@nil N, f2))
        by (symmetry; apply (split_once_app (ch "#") [] f2), free_nil).
      rewrite (split_once_free (ch "#") []) by apply free_nil.
      destruct (checknetloc nl); done.
    + destruct (_ || _); [done|]. destruct (_ && negb _); [done|].
      cbn [mbind result_mbind result_bind].
      rewrite Hab in Hw2. apply free_app in Hw2 as [_ Hr3].
      rewrite split_once_app by done. rewrite (split_once_free (ch "#")) by done.
      destruct (split_once (ch "?") (c :: b')) as [[? ?]|];
        destruct (checknetloc nl); done.
  - cbn [mbind result_mbind result_bind].
    rewrite split_once_app by done. rewrite (split_once_free (ch "#")) by done.
    destruct (split_once (ch "?") w) as [[? ?]|]; cbn; done.
Qed.

Lemma urlparse_fragment u f :
  free (is_char (ch "#")) u →
  urlparse (u ++ ch "#" :: f)
  = result_map (with_fragment (filter (λ c, is_unsafe_url_byte c = false) f))
               (urlparse u).
Proof.
  intros Hu. unfold urlparse. rewrite urlsplit_fragment by done.
  destruct (urlsplit u) as [sr|]; [|done].
  cbn [result_map mbind result_mbind result_bind sr_with_fragment
       sr_scheme sr_path sr_netloc sr_query sr_fragment].
  destruct (_ && _); [destruct (splitparams (sr_path sr))|]; done.
Qed.

End Fragments.

(** *** White space at the ends *)

Lemma lstrip_spec s :
  ∃ ws, s = ws ++ lstrip s
        ∧ (lstrip s = [] ∨ ∃ c r, lstrip s = c :: r ∧ is_space c = false).
Proof.
  induction s as [|c s (ws & IH1 & IH2)]; cbn [lstrip].
  - exists []. by split; [|left].
  - destruct (is_space c) eqn:E.
    + exists (c :: ws). split; [by rewrite IH1 at 1|done].
    + exists []. split; [done|right; eauto].
Qed.

Lemma lstrip_length s : (length (lstrip s) <= length s)%nat.
Proof.
  destruct (lstrip_spec s) as (ws & E & _). rewrite E at 2.
  rewrite length_app. lia.
Qed.

Lemma rstrip_snoc s c : is_space c = false → rstrip (s ++ [c]) = s ++ [c].
Proof.
  intros Hc. unfold rstrip. rewrite rev_app_distr. cbn [rev app lstrip].
  rewrite Hc. cbn [rev]. by rewrite rev_involutive.
Qed.

Lemma rstrip_fixed s :
  rstrip s = s → s = [] ∨ ∃ s' c, s = s' ++ [c] ∧ is_space c = false.
Proof.
  destruct s as [|x s0] using rev_ind; [by left|]. clear IHs0.
  intros E. right. exists s0, x. split; [done|].
  destruct (is_space x) eqn:Hx; [|done]. exfalso.
  unfold rstrip in E. rewrite rev_app_distr in E. cbn [rev app lstrip] in E.
  rewrite Hx in E. apply (f_equal (@length N)) in E.
  rewrite length_rev, length_app in E. cbn in E.
  pose proof (lstrip_length (rev s0)) as Hl. rewrite length_rev in Hl. lia.
Qed.

Lemma strip_of_rstripped b : rstrip b = b → strip b = lstrip b.
Proof.
  intros Hb. unfold strip.
  destruct (lstrip_spec b) as (ws & E & [Hnil|(c & r & Hl & Hc)]).
  - by rewrite Hnil.
  - destruct (rstrip_fixed _ Hb) as [->|(s' & x & Hs & Hx)]; [done|].
    assert (∃ y, lstrip b = y ++ [x]) as [y Hy].
    { rewrite Hl in E |- *. rewrite Hs in E. clear Hs Hl Hb.
      destruct (r) as [|r0 r'] using rev_ind.
      - apply app_inj_tail in E as [_ ->]. by exists [].
      - clear IHr'. rewrite app_comm_cons, app_assoc in E.
        apply app_inj_tail in E as [_ ->]. exists (c :: r').
        by rewrite app_comm_cons. }
    rewrite Hy. by apply rstrip_snoc.
Qed.

Lemma lstrip_nil_rstripped b : rstrip b = b → lstrip b = [] → b = [].
Proof.
  intros Hb Hl. destruct (rstrip_fixed _ Hb) as [->|(s' & x & -> & Hx)]; [done|].
  exfalso. clear Hb. induction s' as [|c s' IH]; cbn [app lstrip] in Hl.
  - by rewrite Hx in Hl.
  - destruct (is_space c); [by apply IH|done].
Qed.

Section FragmentTheorems.
Context `{HostChecks}.

Lemma normalize_unfold raw :
  normalize_detail_url (Some raw)
  = if negb (nonempty raw) then Ok None else
    if bool_decide (str_lower (strip raw) ∈ placeholder_links) then Ok None else
    if existsb (λ p, startswith p (str_lower (strip raw))) script_prefixes
    then Ok None
    else normalize_tail (strip raw).
Proof. reflexivity. Qed.

Lemma normalize_tail_root : normalize_tail [] = Ok None.
Proof. by vm_compute. Qed.

Lemma normalize_tail_fragment u f :
  free (is_char (ch "#")) u →
  normalize_tail (u ++ ch "#" :: f) = normalize_tail u.
Proof.
  intros Hu. unfold normalize_tail.
  rewrite startswith_hash by (lit; free_solve).
  set (raw1 := if startswith (py "//") u then py "https:" ++ u else u).
  assert ((if startswith (py "//") u then py "https:" ++ u ++ ch "#" :: f
           else u ++ ch "#" :: f) = raw1 ++ ch "#" :: f) as ->.
  { subst raw1. destruct (startswith (py "//") u); [|done]. by rewrite <- app_assoc. }
  assert (Hraw1 : free (is_char (ch "#")) raw1).
  { subst raw1. destruct (startswith (py "//") u); [|done].
    apply free_app. split; [lit; free_solve|done]. }
  clearbody raw1.
  rewrite urlparse_fragment by done.
  destruct (urlparse raw1) as [c|]; [|done].
  cbn [result_map mbind result_mbind result_bind with_fragment scheme netloc
       path query].
  destruct (bool_decide (scheme c ∈ script_schemes)); [done|].
  destruct (negb (nonempty (scheme c)) || negb (nonempty (netloc c))); [|done].
  rewrite startswith_hash by (lit; free_solve).
  destruct (startswith (py "/") raw1); [|done].
  rewrite urlparse_base.
  cbn [mbind result_mbind result_bind scheme netloc].
  rewrite !app_assoc. rewrite urlparse_fragment.
  2:{ rewrite <- !app_assoc. lit. cbn [app]. free_solve. }
  destruct (urlparse _) as [c2|]; done.
Qed.

Lemma hash_text_not_placeholder a r :
  a ≠ [] → free (is_char (ch "#")) a → a ++ ch "#" :: r ∉ placeholder_links.
Proof.
  intros Ha Hf. unfold placeholder_links.
  rewrite !elem_of_cons, elem_of_nil. intros [E|[E|[E|[E|[]]]]].
  - destruct a as [|c [|? ?]]; [done|discriminate E|discriminate E].
  - destruct a as [|c a]; [done|]. revert E. lit. cbn [app]. intros [= -> _].
    apply free_cons in Hf as [Hc _]. by vm_compute in Hc.
  - assert (Hfr : free (is_char (ch "#")) (a ++ ch "#" :: r)).
    { rewrite E. lit. free_solve. }
    apply free_app in Hfr as [_ Hfr]. apply free_cons in Hfr as [Hc _].
    by vm_compute in Hc.
  - assert (Hfr : free (is_char (ch "#")) (a ++ ch "#" :: r)).
    { rewrite E. lit. free_solve. }
    apply free_app in Hfr as [_ Hfr]. apply free_cons in Hfr as [Hc _].
    by vm_compute in Hc.
Qed.

Lemma script_prefix_hash a r :
  existsb (λ p, startswith p (a ++ ch "#" :: r)) script_prefixes
  = existsb (λ p, startswith p a) script_prefixes.
Proof.
  unfold script_prefixes. cbn [existsb].
  rewrite !startswith_hash by (lit; free_solve). done.
Qed.

(** What [normalize_detail_url] returns for a text with a fragment, as a
    function of the text before the fragment. *)
Lemma normalize_hash b f :
  free (is_char (ch "#")) b →
  normalize_detail_url (Some (b ++ ch "#" :: f))
  = if bool_decide (lstrip b = []) then Ok None else
    if existsb (λ p, startswith p (str_lower (lstrip b))) script_prefixes
    then Ok None
    else normalize_tail (lstrip b).
Proof.
  intros Hb. rewrite normalize_unfold.
  assert (nonempty (b ++ ch "#" :: f) = true) as ->.
  { apply nonempty_true. by destruct b. }
  cbn [negb]. rewrite strip_hash, str_lower_hash.
  assert (Hb1 : free (is_char (ch "#")) (lstrip b)).
  { rewrite lstrip_is_lstrip_by. by apply free_lstrip_by. }
  destruct (str_lower_free_hash _ Hb1) as [Hl1 Hl2].
  destruct (decide (lstrip b = [])) as [Hnil|Hnil].
  - rewrite (bool_decide_eq_true_2 (lstrip b = [])) by done.
    rewrite Hnil. cbn [str_lower flat_map app].
    destruct (bool_decide _); [done|].
    change (existsb _ script_prefixes) with false. cbn iota.
    rewrite <- normalize_tail_root.
    apply (normalize_tail_fragment [] (rstrip f)), free_nil.
  - rewrite (bool_decide_eq_false_2 (lstrip b = [])) by done.
    rewrite bool_decide_eq_false_2
      by (apply hash_text_not_placeholder; [by apply Hl2|done]).
    rewrite script_prefix_hash.
    destruct (existsb _ script_prefixes); [done|].
    by apply normalize_tail_fragment.
Qed.

End FragmentTheorems.

Lemma str_leb_refl a : str_leb a a = true.
Proof.
  induction a as [|x a IH]; [done|]. cbn [str_leb].
  rewrite N.eqb_refl, IH. apply orb_true_r.
Qed.

Lemma flatten_keys d : ∀ k, k ∈ map fst (flatten d) → k ∈ map fst d.
Proof.
  intros k Hk. apply list_elem_of_fmap in Hk as ([k' v] & -> & Hin).
  unfold flatten in Hin. apply list_elem_of_In, in_flat_map in Hin
    as ([k2 vs] & Hkv & Hv).
  apply in_map_iff in Hv as (v' & [= <- <-] & _).
  apply list_elem_of_fmap. exists (k2, vs). split; [done|].
  by apply list_elem_of_In.
Qed.

Lemma flatten_keys_sorted d :
  StronglySorted str_le (map fst d) →
  StronglySorted str_le (map fst (flatten d)).
Proof.
  induction d as [|[k vs] d IH]; cbn [map fst]; [constructor|].
  intros Hs. apply StronglySorted_inv in Hs as [Hs Hk].
  unfold flatten. cbn [flat_map fst snd]. rewrite map_app, map_map. cbn [fst].
  fold (flatten d). specialize (IH Hs).
  induction vs as [|v vs IHv]; cbn [map app]; [done|].
  constructor; [done|]. apply Forall_app. split.
  - apply Forall_forall. intros x Hx. apply list_elem_of_fmap in Hx as (? & -> & _).
    apply str_leb_refl.
  - apply Forall_forall. intros x Hx. apply flatten_keys in Hx.
    rewrite Forall_forall in Hk. by apply Hk.
Qed.

Lemma selected_keys_sorted d : StronglySorted str_le (map fst (selected d)).
Proof.
  rewrite selected_keys. apply StronglySorted_filter'. apply sorted_sorted.
Qed.

Section FragmentFree.
Context `{HostChecks}.

Lemma normalized_parts x out :
  normalize_detail_url (Some x) = Ok (Some out) →
  contains (ch "#") out = false
  ∧ ∃ c, urlparse out = Ok c ∧ fragment c = [] ∧ params c = []
         ∧ StronglySorted str_le (map fst (parse_qsl (query c))).
Proof.
  intros Hx.
  destruct (normalize_spec _ _ Hx) as (s & n & p & q0 & q1 & Hc & Hs & Hq & Hout).
  rewrite (urlunparse_canonical _ _ _ _ Hc) in Hout.
  destruct (query_round_trip _ _ Hq) as [Hrt Hchars].
  destruct (query_text_free _ Hchars) as [Hf1 Hf2].
  pose proof (urlparse_canonical _ _ _ _ Hc Hf1 Hf2) as Hparse.
  rewrite <- Hout in Hparse. split.
  - apply free_contains. rewrite Hout. clear Hparse Hrt Hq Hx Hs Hout. lit. cbn [app].
    apply free_app. split.
    { eapply forallb_free; [|exact (cp_scheme_chars _ _ _ Hc)].
      clear. intros c. chars. }
    do 3 (apply free_cons; split; [by vm_compute|]).
    apply free_app. split.
    { eapply free_impl; [|exact (cp_netloc_free _ _ _ Hc)].
      clear. intros c. chars. }
    apply free_app. split.
    { eapply free_impl; [|exact (cp_path_free _ _ _ Hc)].
      clear. intros c. chars. }
    unfold query_suffix. destruct (nonempty q1); [|apply free_nil].
    lit. cbn [app]. apply free_cons. split; [by vm_compute|done].
  - eexists. split; [exact Hparse|]. cbn [fragment params query].
    split; [done|]. split; [done|].
    rewrite query_items_flatten in Hq.
    assert (Hsel : values_nonempty (selected (parse_qs q0))).
    { apply Forall_forall. intros kv Hkv. apply selected_in in Hkv as [Hkv _].
      pose proof (parse_qs_values q0) as Hval.
      unfold values_nonempty in Hval. rewrite Forall_forall in Hval. by apply Hval. }
    destruct (parse_qsl_urlencode _ _ Hq (flatten_values _ Hsel)) as [-> _].
    apply flatten_keys_sorted, selected_keys_sorted.
Qed.

(** C10. A non-absent result of [normalize_detail_url] carries no fragment
    and no path parameters (it holds no [#], and parsing it back gives empty
    [fragment] and [params]), and its query parameters appear sorted by key.
    Consequently two links that differ only in the text of their fragment
    have the same normal form; and a link has the same normal form as the
    same link followed by a fragment, provided the link does not end in
    white space (which [strip] would remove from the bare link only). *)
Theorem normalize_drops_fragment_and_params :
  (∀ x out : pystr,
     normalize_detail_url (Some x) = Ok (Some out) →
     contains (ch "#") out = false
     ∧ ∃ c, urlparse out = Ok c ∧ fragment c = [] ∧ params c = []
            ∧ StronglySorted str_le (map fst (parse_qsl (query c))))
  ∧ (∀ b f1 f2 : pystr,
       free (is_char (ch "#")) b →
       normalize_detail_url (Some (b ++ ch "#" :: f1))
       = normalize_detail_url (Some (b ++ ch "#" :: f2)))
  ∧ (∀ b f : pystr,
       free (is_char (ch "#")) b → rstrip b = b →
       normalize_detail_url (Some (b ++ ch "#" :: f))
       = normalize_detail_url (Some b)).
Proof.
  split; [exact normalized_parts|]. split.
  - intros b f1 f2 Hb. by rewrite !normalize_hash.
  - intros b f Hb Hr. rewrite normalize_hash by done.
    rewrite normalize_unfold.
    destruct (decide (b = [])) as [->|Hne]; [done|].
    assert (nonempty b = true) as -> by (by apply nonempty_true).
    cbn [negb]. rewrite (strip_of_rstripped _ Hr).
    rewrite bool_decide_eq_false_2
      by (intros Hl; by apply Hne, lstrip_nil_rstripped).
    assert (Hb1 : free (is_char (ch "#")) (lstrip b)).
    { rewrite lstrip_is_lstrip_by. by apply free_lstrip_by. }
    destruct (str_lower_free_hash _ Hb1) as [Hl1 _].
    destruct (decide (str_lower (lstrip b) ∈ placeholder_links)) as [Hin|Hin].
    + rewrite (bool_decide_eq_true_2 _ Hin).
      unfold placeholder_links in Hin.
      rewrite !elem_of_cons, elem_of_nil in Hin.
      destruct Hin as [E|[E|[E|[E|[]]]]]; rewrite E in Hl1 |- *;
        first [ apply free_cons in Hl1 as [Hc _]; by vm_compute in Hc
              | match goal with
                | |- (if ?t then _ else _) = _ =>
                    assert (t = true) as -> by (by vm_compute)
                end; reflexivity ].
    + by rewrite (bool_decide_eq_false_2 _ Hin).
Qed.

End FragmentFree.

Lemma normalize_drops_fragment_and_params_witness :
  contains (ch "#") (py "https://www.sogang.ac.kr/ko/detail/7?a=1&b=2") = false
  ∧ @normalize_detail_url lenient_checks (Some (py "/ko/detail/7?b=2&a=1#x"))
    = @normalize_detail_url lenient_checks (Some (py "/ko/detail/7?b=2&a=1#y")).
Proof.
  destruct (@normalize_drops_fragment_and_params lenient_checks) as (W1 & W2 & _).
  split.
  - apply (W1 (py "/ko/detail/7?b=2&a=1#x")). by vm_compute.
  - apply (W2 (py "/ko/detail/7?b=2&a=1") (py "x") (py "y")).
    lit. free_solve.
Defined.

(** ** Computations *)

Lemma run_bind {A B} (m : M A) (k : A → M B) h :
  run (m ≫= k) h
  = match run m h with
    | (Return a, h') => run (k a) h'
    | (Raised e, h') => (Raised e, h')
    | (Diverged, h') => (Diverged, h')
    end.
Proof. reflexivity. Qed.

Lemma run_ret {A} (a : A) h : run (mret a) h = (Return a, h).
Proof. reflexivity. Qed.

Lemma run_raise {A} e h : run (raise e : M A) h = (Raised e, h).
Proof. reflexivity. Qed.

Lemma run_lift_Ok {A} (r : result A) a h : r = Ok a → run (lift r) h = (Return a, h).
Proof. by intros ->. Qed.

Lemma run_lift_Raise {A} (r : result A) e h :
  r = Raise e → run (lift r) h = (Raised e, h).
Proof. by intros ->. Qed.

Lemma run_log fmt args h : run (log fmt args) h = (Return tt, h ++ [EvLog fmt args]).
Proof. reflexivity. Qed.

Lemma run_sleep d h :
  d ≤ max_sleep → run (sleep d) h = (Return tt, h ++ [EvSleep d]).
Proof.
  intros Hd. unfold sleep.
  by replace (max_sleep <? d) with false by (symmetry; apply N.ltb_ge; lia).
Qed.

Lemma run_sleep_overflow d h :
  max_sleep < d → run (sleep d) h = (Raised OverflowError, h).
Proof.
  intros Hd. unfold sleep.
  by replace (max_sleep <? d) with true by (symmetry; apply N.ltb_lt; lia).
Qed.

(** ** The retry policy of [notion_request] *)

Section Retry.
Context `{HostChecks} `{World}.

Lemma backoff_doubles k : N.min (backoff_before k * 2) 8 = backoff_before (S k).
Proof. by destruct k as [|[|[|[|k]]]]. Qed.

Lemma backoff_small k : backoff_before k ≤ max_sleep.
Proof. destruct k as [|[|[|k]]]; by vm_compute. Qed.

Lemma retryable_codes_spec code :
  code ∈ retryable_codes
  ↔ code = 429 ∨ code = 500 ∨ code = 502 ∨ code = 503 ∨ code = 504.
Proof.
  unfold retryable_codes. rewrite !elem_of_cons, elem_of_nil. tauto.
Qed.

Lemma retryable_codes_decide code :
  bool_decide (code ∈ retryable_codes) = retryable (HTTPError code None []).
Proof. cbn [retryable]. apply bool_decide_ext, retryable_codes_spec. Qed.

Lemma run_ask_notion req h :
  request_init (req_url req) = Ok tt →
  run (ask_notion req) h
  = (Return (notion_api h req), h ++ [EvNotion req (notion_api h req)]).
Proof. intros Hinit. unfold ask_notion. by rewrite run_bind, Hinit. Qed.

Lemma run_ask_notion_refused req e h :
  request_init (req_url req) = Raise e → run (ask_notion req) h = (Raised e, h).
Proof. intros Hinit. unfold ask_notion. by rewrite run_bind, Hinit. Qed.

(** The delay that the handler of an HTTP error computes. *)
Lemma run_sleep_s k code ra body h :
  run (match ra with
       | Some text =>
           if nonempty text && str_isdigit text
           then lift (float_of_digits text) else mret (backoff_before k)
       | None => mret (backoff_before k)
       end) h
  = (of_result (requested_delay k (HTTPError code ra body)), h).
Proof.
  cbn [requested_delay]. destruct ra as [text|]; [|done].
  unfold str_isdigit. destruct (nonempty text); cbn [andb]; [|done].
  destruct (forallb is_digit text); [|done].
  by destruct (float_of_digits text).
Qed.

Lemma retried_dec k out : retried k out ∨ ¬ retried k out.
Proof.
  unfold retried, retried_after.
  destruct (retryable out); [|right; by intros (d & ? & _)].
  destruct (requested_delay k out) as [d|e]; [|right; by intros (d & _ & ? & _)].
  destruct (decide (d ≤ max_sleep)) as [Hd|Hd]; [left; by exists d|].
  right. intros (d' & _ & [= <-] & ?). done.
Qed.

Lemma attempts_policy req last fails :
  request_init (req_url req) = Ok tt →
  ∀ k h,
    (k + length fails ≤ 3)%nat →
    answered h req k fails last →
    Forall (λ ko, retried ko.1 ko.2) (imap (λ i o, ((k + i)%nat, o)) fails) →
    ends_call (k + length fails) last →
    run (notion_attempts (4 - k) (N.of_nat k) (backoff_before k) req) h
    = (call_outcome (k + length fails) last,
       h ++ retry_trace req k fails
         ++ EvNotion req last :: closing_events (k + length fails) last).
Proof.
  intros Hinit.
  induction fails as [|out fails IH]; intros k h Hk Hans Hdel Hend.
  - cbn [length] in *. rewrite Nat.add_0_r in *. cbn in Hans.
    destruct (4 - k)%nat as [|n] eqn:En; [lia|].
    cbn [notion_attempts retry_trace app]. rewrite run_bind.
    rewrite (run_ask_notion _ _ Hinit), Hans.
    assert (Hlt : (N.of_nat k <? max_retries) = (k <? 3)%nat).
    { unfold max_retries. destruct (Nat.ltb_spec k 3).
      - apply N.ltb_lt. lia.
      - apply N.ltb_ge. lia. }
    destruct last as [[v|]|code ra body|reason|e]; try reflexivity.
    + unfold call_outcome, closing_events.
      rewrite retryable_codes_decide, Hlt.
      change (retryable (HTTPError code ra body)) with (retryable (HTTPError code None [])).
      destruct (retryable (HTTPError code None []) && (k <? 3)%nat) eqn:E; [|done].
      apply andb_true_iff in E as [Er Ek]. apply Nat.ltb_lt in Ek.
      destruct Hend as [->|Hnot]; [lia|].
      rewrite run_bind, (run_sleep_s k code ra body).
      destruct (requested_delay k (HTTPError code ra body)) as [d|e] eqn:Ed;
        cbn [of_result]; [|done].
      rewrite run_bind, run_log, run_bind.
      rewrite run_sleep_overflow.
      2:{ apply N.lt_nge. intros Hd. apply Hnot. by exists d. }
      unfold retry_log, max_retries.
      replace (Z.of_N (N.of_nat k + 1)) with (Z.of_nat (S k)) by lia.
      by rewrite <- app_assoc.
    + unfold call_outcome, closing_events. cbn [retryable andb]. rewrite Hlt.
      destruct (Nat.ltb_spec k 3) as [Ek|Ek]; [|done].
      destruct Hend as [->|Hnot]; [lia|].
      destruct Hnot. exists (backoff_before k). split; [done|].
      split; [done|apply backoff_small].
  - cbn [length] in Hk, Hend. cbn [answered] in Hans. destruct Hans as [Hout Hans].
    cbn [imap] in Hdel. apply Forall_cons in Hdel as [Hd Hdel].
    cbn [fst snd] in Hd. rewrite Nat.add_0_r in Hd.
    destruct Hd as (d & Hr & Hd & Hsmall).
    destruct (4 - k)%nat as [|n] eqn:En; [lia|].
    assert (n = (4 - S k)%nat) as -> by lia.
    assert (Hlt : (N.of_nat k <? max_retries) = true).
    { apply N.ltb_lt. unfold max_retries. lia. }
    specialize (IH (S k) (h ++ retry_events req k out)).
    cbn [length]. rewrite <- (Nat.add_succ_comm k (length fails)) in Hk, Hend |- *.
    specialize (IH Hk Hans).
    assert (Hdel' : Forall (λ ko, retried ko.1 ko.2)
                      (imap (λ i o, ((S k + i)%nat, o)) fails)).
    { erewrite imap_ext; [exact Hdel|]. intros i o _. cbn. f_equal. lia. }
    specialize (IH Hdel' Hend).
    cbn [notion_attempts retry_trace]. rewrite run_bind.
    rewrite (run_ask_notion _ _ Hinit), Hout.
    assert (Hnext : N.of_nat k + 1 = N.of_nat (S k)) by lia.
    assert (Hz : Z.of_N (N.of_nat (S k)) = Z.of_nat (S k)) by lia.
    destruct out as [b|code ra body|reason|e]; [done| | |done].
    + rewrite retryable_codes_decide.
      change (retryable (HTTPError code None [])) with (retryable (HTTPError code ra body)).
      rewrite Hr, Hlt. cbn [andb].
      rewrite run_bind, (run_sleep_s k code ra body), Hd. cbn [of_result].
      rewrite run_bind, run_log, run_bind, run_sleep by done.
      rewrite backoff_doubles, Hnext.
      unfold retry_events, slept in IH |- *. rewrite Hd in IH |- *.
      cbn [retry_log] in IH |- *.
      rewrite Hz. unfold max_retries. change (Z.of_N 3) with 3%Z.
      rewrite <- !app_assoc. cbn [app]. rewrite IH.
      by rewrite <- !app_assoc.
    + cbn [requested_delay] in Hd. injection Hd as <-.
      rewrite Hlt. rewrite run_bind, run_log, run_bind, run_sleep by done.
      rewrite backoff_doubles, Hnext.
      unfold retry_events, slept in IH |- *.
      cbn [retry_log requested_delay] in IH |- *.
      rewrite Hz. unfold max_retries. change (Z.of_N 3) with 3%Z.
      rewrite <- !app_assoc. cbn [app]. rewrite IH.
      by rewrite <- !app_assoc.
Qed.

(** Whatever the world answers, the attempts of a call split into failures
    that are retried and the answer that ends the call. *)
Lemma attempts_split req :
  ∀ n k h,
    (k + n = 3)%nat →
    ∃ fails last,
      (k + length fails ≤ 3)%nat
      ∧ answered h req k fails last
      ∧ Forall (λ ko, retried ko.1 ko.2) (imap (λ i o, ((k + i)%nat, o)) fails)
      ∧ ends_call (k + length fails) last.
Proof.
  induction n as [|n IH]; intros k h Hk.
  - exists [], (notion_api h req). cbn [length imap]. rewrite Nat.add_0_r.
    split; [lia|]. split; [done|]. split; [constructor|]. left. lia.
  - destruct (retried_dec k (notion_api h req)) as [Hr|Hr].
    + destruct (IH (S k) (h ++ retry_events req k (notion_api h req)))
        as (fails & last & Hlen & Hans & Hall & Hend); [lia|].
      exists (notion_api h req :: fails), last. cbn [length].
      rewrite <- (Nat.add_succ_comm k (length fails)).
      split; [done|]. split; [done|]. split; [|done].
      cbn [imap]. constructor; [by rewrite Nat.add_0_r|].
      erewrite imap_ext; [exact Hall|]. intros i o _. cbn. f_equal. lia.
    + exists [], (notion_api h req). cbn [length imap]. rewrite Nat.add_0_r.
      split; [lia|]. split; [done|]. split; [constructor|]. by right.
Qed.

End Retry.

(** ** Addresses that [Request] accepts *)

Lemma lstrip_app_stop x c y :
  is_space c = false → lstrip (x ++ c :: y) = lstrip x ++ c :: y.
Proof.
  intros Hc. induction x as [|a x IH]; cbn [app lstrip].
  - by rewrite Hc.
  - by destruct (is_space a).
Qed.

Lemma rstrip_app_stop a c b :
  is_space c = false → rstrip (a ++ c :: b) = a ++ c :: rstrip b.
Proof.
  intros Hc. unfold rstrip.
  replace (rev (a ++ c :: b)) with (rev b ++ c :: rev a).
  2:{ rewrite rev_app_distr. cbn [rev]. by rewrite <- app_assoc. }
  rewrite lstrip_app_stop by done.
  rewrite rev_app_distr. cbn [rev]. rewrite rev_involutive.
  by rewrite <- app_assoc.
Qed.

(** A text that starts with [p], cut at a character that [p] does not
    hold, is cut after [p]. *)
Lemma prefix_before p (c : N) :
  ∀ r x y, free (is_char c) p → p ++ r = x ++ c :: y → ∃ r', x = p ++ r'.
Proof.
  induction p as [|a p IH]; intros r x y Hp Heq.
  - by exists x.
  - apply free_cons in Hp as [Ha Hp]. destruct x as [|b x].
    + cbn [app] in Heq. injection Heq as -> _. unfold is_char in Ha.
      by rewrite N.eqb_refl in Ha.
    + cbn [app] in Heq. injection Heq as -> Heq.
      destruct (IH r x y Hp Heq) as [r' ->]. by exists r'.
Qed.

Section Addresses.
Context `{HostChecks}.

Lemma urlparse_https n r :
  free is_netloc_delim n → free is_unsafe_url_byte n →
  forallb is_ascii n = true →
  contains (ch "[") n = false → contains (ch "]") n = false →
  ∃ c, urlparse (py "https://" ++ n ++ ch "/" :: r) = Ok c.
Proof.
  intros Hn1 Hn2 Hascii Hlb Hrb.
  assert (∃ sr, urlsplit (py "https://" ++ n ++ ch "/" :: r) = Ok sr) as [sr Hsr].
  { unfold urlsplit. lit. cbn [app].
    rewrite lstrip_by_head by (by vm_compute).
    rewrite !filter_cons_True by (by vm_compute).
    rewrite filter_app, (free_filter _ n) by done.
    rewrite filter_cons_True by (by vm_compute).
    set (r' := filter _ r).
    change (104 :: 116 :: 116 :: 112 :: 115 :: 58 :: 47 :: 47 :: n ++ 47 :: r')
      with ([104; 116; 116; 112; 115] ++ 58 :: 47 :: 47 :: n ++ 47 :: r').
    rewrite break_free_stop by first [by vm_compute | by repeat constructor].
    replace (is_ascii_alpha 104 && forallb is_scheme_char [104; 116; 116; 112; 115])
      with true by (by vm_compute).
    cbn [take]. rewrite take_0.
    change (str_eqb [47; 47] [47; 47]) with true. cbn iota.
    unfold splitnetloc. cbn [drop]. rewrite drop_0.
    rewrite break_free_stop by (done || by vm_compute).
    rewrite Hlb, Hrb. cbn [andb orb negb mbind result_mbind result_bind].
    destruct (split_once 35 _) as [[? ?]|];
      destruct (split_once 63 _) as [[? ?]|];
      unfold checknetloc; rewrite Hascii, orb_true_r; cbn; by eexists. }
  unfold urlparse. rewrite Hsr. cbn [mbind result_mbind result_bind].
  destruct (_ && _); [destruct (splitparams _)|]; by eexists.
Qed.

(** [Request] accepts every address of the scheme [https] whose host is
    plain: made of ASCII characters, none of them a bracket. *)
Lemma request_init_https n r :
  free is_netloc_delim n → free is_unsafe_url_byte n →
  forallb is_ascii n = true →
  contains (ch "[") n = false → contains (ch "]") n = false →
  request_init (py "https://" ++ n ++ ch "/" :: r) = Ok tt.
Proof.
  intros Hn1 Hn2 Hascii Hlb Hrb. unfold request_init.
  assert (Hu : unwrap (py "https://" ++ n ++ ch "/" :: r)
               = py "https://" ++ n ++ ch "/" :: rstrip r).
  { unfold unwrap, strip. lit. cbn [app lstrip].
    replace (is_space 104) with false by (by vm_compute).
    change (104 :: 116 :: 116 :: 112 :: 115 :: 58 :: 47 :: 47 :: n ++ 47 :: r)
      with (([104; 116; 116; 112; 115; 58; 47; 47] ++ n) ++ 47 :: r).
    rewrite rstrip_app_stop by (by vm_compute).
    rewrite <- app_assoc. cbn [app take drop].
    replace (str_eqb [104] [60]) with false by (by vm_compute).
    cbn [andb]. rewrite ?take_0.
    by replace (str_eqb [104; 116; 116; 112] [85; 82; 76; 58]) with false
      by (by vm_compute). }
  rewrite Hu. set (u := py "https://" ++ n ++ ch "/" :: rstrip r).
  assert (Hhash : free (is_char (ch "#")) (py "https://" ++ n ++ [ch "/"])).
  { apply free_app. split; [by repeat constructor|].
    apply free_app. split; [|by repeat constructor].
    eapply Forall_impl; [exact Hn1|]. intros c Hc. chars. }
  assert (∃ r' fragment, splittag u = (py "https://" ++ n ++ ch "/" :: r', fragment))
    as (r' & fragment & ->).
  { unfold splittag.
    destruct (break_spec (is_char (ch "#")) (rev u)) as (a & b & -> & Hrev & _ & Hb).
    destruct Hb as [->|(c & b' & -> & Hc)]; [by eexists _, _|].
    apply (f_equal (@rev N)) in Hrev. rewrite rev_involutive, rev_app_distr in Hrev.
    cbn [rev] in Hrev. rewrite <- app_assoc in Hrev. cbn [app] in Hrev.
    assert (c = ch "#") as -> by (by apply N.eqb_eq).
    subst u.
    change (py "https://" ++ n ++ ch "/" :: rstrip r)
      with (py "https://" ++ n ++ [ch "/"] ++ rstrip r) in Hrev.
    rewrite 2!app_assoc in Hrev. rewrite <- (app_assoc _ n) in Hrev.
    destruct (prefix_before _ _ _ _ _ Hhash Hrev) as [r' ->].
    exists r', (Some (rev a)). by rewrite <- !app_assoc. }
  assert (Hty : (splittype (py "https://" ++ n ++ ch "/" :: r')).1
                = Some (py "https")).
  { unfold splittype. lit. cbn [app].
    change (104 :: 116 :: 116 :: 112 :: 115 :: 58 :: 47 :: 47 :: n ++ 47 :: r')
      with ([104; 116; 116; 112; 115] ++ 58 :: 47 :: 47 :: n ++ 47 :: r').
    rewrite break_free_stop by first [by vm_compute | by repeat constructor].
    by vm_compute. }
  rewrite Hty.
  assert (∃ r2, match fragment with
                | Some (c :: f) => (py "https://" ++ n ++ ch "/" :: r') ++ py "#" ++ c :: f
                | _ => py "https://" ++ n ++ ch "/" :: r'
                end = py "https://" ++ n ++ ch "/" :: r2) as [r2 ->].
  { destruct fragment as [[|c f]|]; try by eexists.
    exists (r' ++ py "#" ++ c :: f). by rewrite <- !app_assoc. }
  destruct (urlparse_https n r2) as [c ->]; done.
Qed.

Lemma request_init_notion rest :
  request_init (py "https://api.notion.com/v1/" ++ rest) = Ok tt.
Proof.
  change (py "https://api.notion.com/v1/" ++ rest)
    with (py "https://" ++ py "api.notion.com" ++ ch "/" :: (py "v1/" ++ rest)).
  apply request_init_https; first [by vm_compute | by repeat constructor].
Qed.

Lemma request_init_database database_id rest :
  request_init (database_url database_id ++ rest) = Ok tt.
Proof.
  unfold database_url.
  change (py "https://api.notion.com/v1/databases/")
    with (py "https://api.notion.com/v1/" ++ py "databases/").
  rewrite <- !app_assoc. apply request_init_notion.
Qed.

Lemma request_init_database0 database_id :
  request_init (database_url database_id) = Ok tt.
Proof. rewrite <- (app_nil_r (database_url _)). apply request_init_database. Qed.


Lemma request_init_pages : request_init (py "https://api.notion.com/v1/pages") = Ok tt.
Proof.
  change (py "https://api.notion.com/v1/pages")
    with (py "https://api.notion.com/v1/" ++ py "pages").
  apply request_init_notion.
Qed.

End Addresses.

(** C6. The retry policy of [notion_request].  A call whose address
    [Request] refuses ends with that error and sends nothing.  Otherwise the
    attempts of the call are failures that are retried, at most three of
    them, and the answer that ends the call, and every run splits in this
    way.  A failure is retried when it is a network error, or HTTP 429, 500,
    502, 503 or 504, and its delay can be slept: the call logs the retry,
    sleeps -- for the [Retry-After] delay when that header is a text of
    digits, and otherwise for the back-off 1, 2, 4 (doubling, capped at 8)
    -- and makes one further attempt.  The answer that ends the call gives
    its result: the data; a fatal [RuntimeError] for a failure with another
    status or for the failure of the fourth attempt; the exception that
    [urlopen] raised and the call does not catch; the [ValueError] of a
    [Retry-After] that [float] refuses; or, once the retry is logged, the
    [OverflowError] of a delay too long to sleep.  In particular three
    retried failures followed by a success give three retries and the
    data, and a fourth failure is fatal. *)
Theorem notion_request_retry_policy `{HostChecks} `{World} method url token payload h :
  (∀ e, request_init url = Raise e →
        run (notion_request method url token payload) h = (Raised e, h))
  ∧ (request_init url = Ok tt →
     ∀ fails last,
       (length fails ≤ 3)%nat →
       answered h (make_request method url token payload) 0 fails last →
       (∀ k out, fails !! k = Some out → retried k out) →
       ends_call (length fails) last →
       run (notion_request method url token payload) h
       = (call_outcome (length fails) last,
          h ++ retry_trace (make_request method url token payload) 0 fails
            ++ EvNotion (make_request method url token payload) last
               :: closing_events (length fails) last))
  ∧ (∃ fails last,
       (length fails ≤ 3)%nat
       ∧ answered h (make_request method url token payload) 0 fails last
       ∧ (∀ k out, fails !! k = Some out → retried k out)
       ∧ ends_call (length fails) last).
Proof.
  split; [|split].
  - intros e He. unfold notion_request. cbn [notion_attempts N.to_nat max_retries].
    change (Pos.to_nat 3) with 3%nat. cbn [notion_attempts].
    by rewrite run_bind, (run_ask_notion_refused _ e).
  - intros Hinit fails last Hlen Hans Hdel Hend. unfold notion_request.
    apply (attempts_policy (make_request method url token payload) last fails Hinit
             0%nat h); try done.
    apply Forall_forall. intros [k out] Hin.
    apply elem_of_lookup_imap in Hin as (i & o & [= -> ->] & Hi). cbn.
    by apply Hdel.
  - destruct (attempts_split (make_request method url token payload) 3 0%nat h)
      as (fails & last & Hlen & Hans & Hall & Hend); [done|].
    exists fails, last. split; [done|]. split; [done|]. split; [|done].
    intros k out Hk. rewrite Forall_forall in Hall.
    apply (Hall (k, out)). apply elem_of_lookup_imap. by exists k, out.
Qed.

Lemma notion_request_retry_policy_witness :
  run (@notion_request lenient_checks
         (scripted_world [rate_limited; rate_limited; rate_limited;
                          HttpOk (Some (VDict []))])
         (py "GET") (py "https://api.notion.com/v1/databases/d") (py "t") None) []
  = (Return (VDict []),
     [] ++ retry_trace
             (make_request (py "GET") (py "https://api.notion.com/v1/databases/d")
                (py "t") None) 0 [rate_limited; rate_limited; rate_limited]
        ++ [EvNotion
              (make_request (py "GET") (py "https://api.notion.com/v1/databases/d")
                 (py "t") None) (HttpOk (Some (VDict [])))]).
Proof.
  destruct (@notion_request_retry_policy lenient_checks
              (scripted_world [rate_limited; rate_limited; rate_limited;
                               HttpOk (Some (VDict []))])
              (py "GET") (py "https://api.notion.com/v1/databases/d") (py "t") None [])
    as (_ & Hpolicy & _).
  apply (Hpolicy eq_refl [rate_limited; rate_limited; rate_limited]
           (HttpOk (Some (VDict [])))).
  - simpl. lia.
  - simpl. repeat split; reflexivity.
  - intros [|[|[|k]]] out; simpl; intros [= <-];
      (eexists; split; [reflexivity|split; [reflexivity|by vm_compute]]).
  - left. reflexivity.
Defined.

(** HTTP 501 is a server-side status, and it is not retried: the call is
    fatal at once although the next attempt would have succeeded. *)
Lemma notion_request_gives_up_on_501 :
  ¬ (∀ (C : HostChecks) (W : World) method url token payload h code body data,
       @request_init C url = Ok tt →
       code = 429 ∨ (500 ≤ code ∧ code ≤ 599) →
       @answered W h (make_request method url token payload) 0
         [HTTPError code None body] (HttpOk (Some data)) →
       ∃ h', run (@notion_request C W method url token payload) h = (Return data, h')).
Proof.
  intros Hclaim.
  destruct (Hclaim lenient_checks
              (scripted_world [HTTPError 501 None []; HttpOk (Some VNone)])
              (py "POST") api_pages_url (py "t") None [] 501 [] VNone)
    as [h' Hrun].
  - by vm_compute.
  - right. lia.
  - simpl. split; reflexivity.
  - vm_compute in Hrun. discriminate Hrun.
Qed.

(** ** What a call of the transport sends *)

Lemma requests_app h1 h2 : requests (h1 ++ h2) = requests h1 ++ requests h2.
Proof.
  induction h1 as [|e h1 IH]; [done|]. destruct e; cbn [app requests]; by rewrite ?IH.
Qed.

Lemma run_lift_history {A} (r : result A) h : (run (lift r) h).2 = h.
Proof. by destruct r. Qed.

Section Transport.
Context `{HostChecks} `{World}.

(** A call of the transport extends the history, and whatever it sends is
    the request it was given; it sends it when [Request] accepts the
    address. *)
Lemma notion_attempts_trace req n :
  ∀ a b h, ∃ new,
    (run (notion_attempts n a b req) h).2 = h ++ new
    ∧ Forall (λ r, r = req) (requests new)
    ∧ (n ≠ 0%nat → request_init (req_url req) = Ok tt →
       ∃ out rest, new = EvNotion req out :: rest).
Proof.
  induction n as [|n IH]; intros a b h.
  - exists []. by rewrite app_nil_r.
  - cbn [notion_attempts]. rewrite run_bind.
    destruct (request_init (req_url req)) as [[]|e] eqn:Hinit.
    2:{ rewrite (run_ask_notion_refused _ e) by done.
        exists []. rewrite app_nil_r. repeat split; [constructor|done]. }
    rewrite run_ask_notion by done.
    set (out := notion_api h req).
    assert (Hone : ∀ o : outcome value,
      ∃ new, (o, h ++ [EvNotion req out]).2 = h ++ new
        ∧ Forall (λ r, r = req) (requests new)
        ∧ (S n ≠ 0%nat → Ok tt = Ok tt → ∃ out rest, new = EvNotion req out :: rest)).
    { intros o. exists [EvNotion req out]. repeat split; eauto.
      cbn. by repeat constructor. }
    assert (Hlog : ∀ (o : outcome value) fmt args,
      ∃ new, (o, (h ++ [EvNotion req out]) ++ [EvLog fmt args]).2 = h ++ new
        ∧ Forall (λ r, r = req) (requests new)
        ∧ (S n ≠ 0%nat → Ok tt = Ok tt → ∃ out rest, new = EvNotion req out :: rest)).
    { intros o fmt args. exists [EvNotion req out; EvLog fmt args].
      rewrite <- app_assoc. repeat split; eauto. cbn. by repeat constructor. }
    assert (Hmore : ∀ evs, requests evs = [] →
      ∃ new, (run (notion_attempts n (a + 1) (N.min (b * 2) 8) req)
                ((h ++ [EvNotion req out]) ++ evs)).2 = h ++ new
        ∧ Forall (λ r, r = req) (requests new)
        ∧ (S n ≠ 0%nat → Ok tt = Ok tt → ∃ out rest, new = EvNotion req out :: rest)).
    { intros evs Hevs.
      destruct (IH (a + 1) (N.min (b * 2) 8) ((h ++ [EvNotion req out]) ++ evs))
        as (new & Hnew & Hreq & _).
      exists ([EvNotion req out] ++ evs ++ new). split; [|split].
      - rewrite Hnew. by rewrite <- !app_assoc.
      - rewrite !requests_app, Hevs. cbn. by constructor.
      - intros _ _. by eexists _, _. }
    assert (Hsleep : ∀ d fmt args,
      ∃ new, (run (_ ← sleep d;
                   notion_attempts n (a + 1) (N.min (b * 2) 8) req)
                ((h ++ [EvNotion req out]) ++ [EvLog fmt args])).2 = h ++ new
        ∧ Forall (λ r, r = req) (requests new)
        ∧ (S n ≠ 0%nat → Ok tt = Ok tt → ∃ out rest, new = EvNotion req out :: rest)).
    { intros d fmt args. rewrite run_bind.
      destruct (N.le_gt_cases d max_sleep) as [Hd|Hd].
      - rewrite run_sleep by done.
        rewrite <- (app_assoc _ [EvLog fmt args] [EvSleep d]). by apply Hmore.
      - rewrite run_sleep_overflow by done. apply Hlog. }
    destruct out as [[v|]|code ra body|reason|e] eqn:Eo; try apply Hone.
    + destruct (bool_decide (code ∈ retryable_codes) && (a <? max_retries));
        [|apply Hone].
      rewrite run_bind.
      set (delay := match ra with Some text => _ | None => _ end).
      assert (Hdelay : ∀ h0, (∃ d, run delay h0 = (Return d, h0))
                             ∨ (∃ e, run delay h0 = (Raised e, h0))).
      { intros h0. subst delay. destruct ra as [text|]; [|left; by eexists].
        destruct (nonempty text && str_isdigit text); [|left; by eexists].
        destruct (float_of_digits text); [left|right]; by eexists. }
      destruct (Hdelay (h ++ [EvNotion req (HTTPError code ra body)]))
        as [[d ->]|[e ->]]; [|apply Hone].
      rewrite run_bind, run_log. apply Hsleep.
    + destruct (a <? max_retries); [|apply Hone].
      rewrite run_bind, run_log. apply Hsleep.
Qed.

Lemma notion_request_sends method url token payload h :
  ∃ new,
    (run (notion_request method url token payload) h).2 = h ++ new
    ∧ Forall (λ r, r = make_request method url token payload) (requests new).
Proof.
  unfold notion_request.
  destruct (notion_attempts_trace (make_request method url token payload)
              (S (N.to_nat max_retries)) 0 1 h) as (new & Hnew & Hreq & _).
  by exists new.
Qed.

Lemma notion_request_trace method url token payload h :
  request_init url = Ok tt →
  ∃ out rest,
    (run (notion_request method url token payload) h).2
    = h ++ EvNotion (make_request method url token payload) out :: rest
    ∧ Forall (λ r, r = make_request method url token payload) (requests rest).
Proof.
  intros Hinit. unfold notion_request.
  destruct (notion_attempts_trace (make_request method url token payload)
              (S (N.to_nat max_retries)) 0 1 h) as (new & Hnew & Hreq & Hfirst).
  destruct Hfirst as (out & rest & ->); [done|done|].
  exists out, rest. split; [exact Hnew|]. cbn in Hreq. by inversion Hreq.
Qed.

End Transport.

(** ** The choices of the author field *)

Lemma assoc_head {A} k (v : A) d : assoc k ((k, v) :: d) = Some v.
Proof. cbn [assoc]. unfold str_eqb. by rewrite bool_decide_eq_true_2. Qed.

Lemma is_str_spec s v : is_str s v = true ↔ v = VStr s.
Proof.
  destruct v; cbn; try (split; [done|by intros [=]]).
  unfold str_eqb. rewrite bool_decide_eq_true. split; [by intros ->|by intros [= ->]].
Qed.

Lemma existsb_is_str s l : existsb (is_str s) l = true ↔ VStr s ∈ l.
Proof.
  rewrite existsb_exists. split.
  - intros (v & Hin & Hv). apply is_str_spec in Hv as ->. by apply list_elem_of_In.
  - intros Hin. exists (VStr s). split; [by apply list_elem_of_In|by apply is_str_spec].
Qed.

(** What is kept of an option: nothing when it has no name, and otherwise
    an entry that starts with its name. *)
Lemma sanitize_select_option_spec opt r :
  sanitize_select_option opt = Ok r →
  match r with
  | None => option_name_of opt = None
  | Some item =>
      ∃ name, option_name_of opt = Some name
              ∧ option_name_of (VDict item) = Some name
              ∧ dict_get item (py "name") = name
  end.
Proof.
  unfold sanitize_select_option. destruct opt as [| | | | |d]; try done.
  cbn [py_get mbind result_mbind result_bind option_name_of].
  fold (dict_get d (py "name")).
  destruct (truthy (dict_get d (py "name"))) eqn:En; cbn [negb]; [|by intros [= <-]].
  set (name := dict_get d (py "name")) in *.
  assert (Hitem : ∀ tail, option_name_of (VDict ((py "name", name) :: tail)) = Some name
                          ∧ dict_get ((py "name", name) :: tail) (py "name") = name).
  { intros tail. cbn [option_name_of]. unfold dict_get. rewrite assoc_head.
    cbn [from_option id]. by rewrite En. }
  destruct (truthy (default VNone (assoc (py "id") d))).
  - cbn [py_item]. destruct (dict_item d (py "id")) as [id|]; [|done].
    cbn [result_bind app].
    destruct (truthy (default VNone (assoc (py "color") d)));
      intros [= <-]; exists name; cbn [app]; split; try done; apply Hitem.
  - cbn [result_bind app].
    destruct (truthy (default VNone (assoc (py "color") d)));
      intros [= <-]; exists name; cbn [app]; split; try done; apply Hitem.
Qed.

Lemma sanitize_mapM_names opts rs :
  result_mapM sanitize_select_option opts = Ok rs →
  omap option_name_of (map VDict (omap id rs)) = omap option_name_of opts
  ∧ map (λ o, dict_get o (py "name")) (omap id rs) = omap option_name_of opts.
Proof.
  revert rs. induction opts as [|opt opts IH]; intros rs.
  - intros [= <-]. done.
  - cbn [result_mapM mbind result_mbind result_bind].
    destruct (sanitize_select_option opt) as [r|] eqn:Er; [|done].
    destruct (result_mapM sanitize_select_option opts) as [rs'|]; [|done].
    intros [= <-]. destruct (IH rs' eq_refl) as [IH1 IH2].
    apply sanitize_select_option_spec in Er.
    destruct r as [item|].
    + destruct Er as (name & Ho & Hi & Hn).
      cbn [omap list_omap fmap list_fmap id map]. rewrite Ho, Hi, Hn.
      split; f_equal; [exact IH1|exact IH2].
    + cbn [omap list_omap fmap list_fmap id map]. rewrite Er.
      split; [exact IH1|exact IH2].
Qed.

(** Sanitizing keeps every choice that has a name, with its name, in
    order. *)
Lemma sanitize_select_options_names cache sanitized :
  sanitize_select_options cache = Ok sanitized →
  omap option_name_of (map VDict sanitized) = existing_names cache
  ∧ map (λ o, dict_get o (py "name")) sanitized = existing_names cache.
Proof.
  unfold sanitize_select_options.
  destruct cache as [| | |s|opts|d]; try done;
    cbn [py_iter mbind result_mbind result_bind existing_names].
  - destruct s as [|c s]; [by intros [= <-]|done].
  - destruct (result_mapM sanitize_select_option opts) as [rs|] eqn:Ers; [|done].
    intros [= <-]. by apply sanitize_mapM_names.
  - destruct d as [|[k v] d]; [by intros [= <-]|done].
Qed.

Section Choices.
Context `{HostChecks} `{World}.

(** C9. Author enrichment never removes or renames a choice.  Whatever the
    cached options and the author name, every request that
    [ensure_select_option] sends is the update of the field whose list of
    choices holds the names of the existing choices, in their order,
    followed by the author name as one new choice, and the author name is
    not one of the existing names.  When the name is not empty and not
    among the names of well-formed options, that update is sent. *)
Theorem ensure_select_option_keeps_choices
    (token database_id property_name option_name : pystr) (cache : value) h :
  ∃ new,
    (run (ensure_select_option token database_id property_name option_name cache) h).2
    = h ++ new
    ∧ (∀ req, req ∈ requests new →
         ∃ submitted,
           req = select_update token database_id property_name submitted
           ∧ omap option_name_of submitted = existing_names cache ++ [VStr option_name]
           ∧ length submitted = S (length (existing_names cache))
           ∧ VStr option_name ∉ existing_names cache)
    ∧ (option_name ≠ [] →
       (∃ sanitized, sanitize_select_options cache = Ok sanitized) →
       Forall (λ name, hashable name = true) (existing_names cache) →
       VStr option_name ∉ existing_names cache →
       requests new ≠ []).
Proof.
  set (claim := λ new : list Event,
    (∀ req, req ∈ requests new →
       ∃ submitted,
         req = select_update token database_id property_name submitted
         ∧ omap option_name_of submitted = existing_names cache ++ [VStr option_name]
         ∧ length submitted = S (length (existing_names cache))
         ∧ VStr option_name ∉ existing_names cache)
    ∧ (option_name ≠ [] →
       (∃ sanitized, sanitize_select_options cache = Ok sanitized) →
       Forall (λ name, hashable name = true) (existing_names cache) →
       VStr option_name ∉ existing_names cache →
       requests new ≠ [])).
  change (∃ new,
    (run (ensure_select_option token database_id property_name option_name cache) h).2
    = h ++ new ∧ claim new).
  assert (Hquiet : ∀ o : outcome value,
    ¬ (option_name ≠ [] ∧
       (∃ sanitized, sanitize_select_options cache = Ok sanitized) ∧
       Forall (λ name, hashable name = true) (existing_names cache) ∧
       VStr option_name ∉ existing_names cache) →
    ∃ new, (o, h).2 = h ++ new ∧ claim new).
  { intros o Hno. exists []. rewrite app_nil_r. split; [done|]. split.
    - intros req Hreq. by apply elem_of_nil in Hreq.
    - intros. destruct Hno. done. }
  unfold ensure_select_option.
  destruct (nonempty option_name) eqn:Ene; cbn [negb].
  2:{ apply Hquiet. intros (Hne & _). by apply nonempty_false in Ene. }
  rewrite run_bind.
  destruct (sanitize_select_options cache) as [sanitized|e] eqn:Es.
  2:{ apply Hquiet. intros (_ & [s Hs] & _). done. }
  cbn [lift]. rewrite run_ret.
  destruct (sanitize_select_options_names _ _ Es) as [Hn1 Hn2]. rewrite Hn2.
  destruct (forallb hashable (existing_names cache)) eqn:Eh; cbn [negb].
  2:{ apply Hquiet. intros (_ & _ & Hh & _).
      rewrite Forall_forall in Hh. apply not_true_iff_false in Eh. apply Eh.
      apply forallb_forall. intros v Hv. apply Hh. by apply list_elem_of_In. }
  destruct (existsb (is_str option_name) (existing_names cache)) eqn:Ex.
  { apply Hquiet. intros (_ & _ & _ & Hnew). by apply existsb_is_str in Ex. }
  assert (Hnew : VStr option_name ∉ existing_names cache).
  { intros Hin. apply existsb_is_str in Hin. congruence. }
  rewrite run_bind, run_log, run_bind. unfold update_database.
  set (submitted := map VDict sanitized ++ [VDict [(py "name", VStr option_name)]]).
  destruct (notion_request_trace (py "PATCH") (database_url database_id) token
    (Some (VDict [(py "properties",
                   VDict [(property_name,
                           VDict [(py "select",
                                   VDict [(py "options", VList submitted)])])])]))
    (h ++ [EvLog (pyu "Notion 옵션 추가: %s=%s") [VStr property_name; VStr option_name]])
    (request_init_database0 database_id))
    as (out & rest & Htr & Hreq).
  fold (select_update token database_id property_name submitted) in Htr, Hreq.
  match goal with
  | |- context [run (notion_request ?m ?u ?t ?p) ?h0] =>
      destruct (run (notion_request m u t p) h0) as [o h1]
  end.
  cbn [snd] in Htr. subst h1.
  exists (EvLog (pyu "Notion 옵션 추가: %s=%s") [VStr property_name; VStr option_name]
          :: EvNotion (select_update token database_id property_name submitted) out
          :: rest).
  split.
  - destruct o as [data| |]; rewrite ?run_lift_history; cbn [snd];
      by rewrite <- app_assoc.
  - split; [|by intros].
    intros req Hin. cbn [requests] in Hin.
    assert (req = select_update token database_id property_name submitted) as ->.
    { apply elem_of_cons in Hin as [->|Hin]; [done|].
      rewrite Forall_forall in Hreq. by apply Hreq. }
    exists submitted. split; [done|]. split; [|split; [|done]].
    + subst submitted. rewrite omap_app, Hn1. f_equal.
      cbn [omap list_omap option_name_of]. unfold dict_get.
      rewrite assoc_head. cbn [from_option id truthy]. by rewrite Ene.
    + subst submitted. rewrite length_app, length_map. cbn [length].
      rewrite <- Hn2, length_map. lia.
Qed.

End Choices.

(** ** The schema checks *)

Lemma require_property_type_spec database name expected :
  (require_property_type database name expected = Ok tt
   ∧ has_field database name expected)
  ∨ (∃ e, require_property_type database name expected = Raise e
          ∧ ¬ has_field database name expected).
Proof.
  unfold require_property_type, has_field.
  destruct (get_property database name) as [prop|e] eqn:Ep; cbn.
  2:{ right. exists e. split; [done|]. by intros (? & [=] & _). }
  destruct (truthy prop) eqn:Et; cbn.
  2:{ right. eexists. split; [done|]. intros (? & [= <-] & Ht & _).
      rewrite Et in Ht. discriminate Ht. }
  destruct (py_get prop (py "type") VNone) as [actual|e] eqn:Ea; cbn.
  2:{ right. exists e. split; [done|]. intros (? & [= <-] & _ & Hty).
      rewrite Ea in Hty. discriminate Hty. }
  destruct (is_str expected actual) eqn:Es; cbn.
  - left. split; [done|]. apply is_str_spec in Es as ->. by exists prop.
  - right. eexists. split; [done|]. intros (? & [= <-] & _ & Hty).
    rewrite Ea in Hty. injection Hty as ->.
    apply not_true_iff_false in Es. apply Es. by apply is_str_spec.
Qed.

Lemma validate_required_properties_spec database :
  (validate_required_properties database = Ok tt ∧ schema_ok database)
  ∨ (∃ e, validate_required_properties database = Raise e ∧ ¬ schema_ok database).
Proof.
  unfold validate_required_properties, schema_ok.
  destruct (require_property_type_spec database TITLE_PROPERTY (py "title"))
    as [[-> H1]|(e & -> & H1)]; cbn; [|right; exists e; tauto].
  destruct (require_property_type_spec database TOP_PROPERTY (py "checkbox"))
    as [[-> H2]|(e & -> & H2)]; cbn; [|right; exists e; tauto].
  destruct (require_property_type_spec database DATE_PROPERTY (py "date"))
    as [[-> H3]|(e & -> & H3)]; cbn; [|right; exists e; tauto].
  destruct (require_property_type_spec database AUTHOR_PROPERTY (py "select"))
    as [[-> H4]|(e & -> & H4)]; cbn; [|right; exists e; tauto].
  destruct (require_property_type_spec database URL_PROPERTY (py "url"))
    as [[-> H5]|(e & -> & H5)]; cbn; [left; tauto|right; exists e; tauto].
Qed.

Section Preflight.
Context `{HostChecks} `{World}.

Lemma fetch_database_trace token database_id h :
  ∃ new, (run (fetch_database token database_id) h).2 = h ++ new
         ∧ Forall (λ r, r = schema_read token database_id) (requests new).
Proof.
  unfold fetch_database.
  destruct (notion_request_trace (py "GET") (database_url database_id) token None h
              (request_init_database0 _))
    as (out & rest & -> & Hrest).
  eexists. split; [done|]. cbn [requests]. by constructor.
Qed.

Lemma update_database_trace token database_id properties h :
  ∃ new, (run (update_database token database_id properties) h).2 = h ++ new
         ∧ Forall (λ r, r = make_request (py "PATCH") (database_url database_id) token
                              (Some (VDict [(py "properties", properties)])))
             (requests new)
         ∧ requests new ≠ [].
Proof.
  unfold update_database.
  destruct (notion_request_trace (py "PATCH") (database_url database_id) token
              (Some (VDict [(py "properties", properties)])) h
              (request_init_database0 _))
    as (out & rest & -> & Hrest).
  eexists. split; [done|]. cbn [requests]. split; [by constructor|done].
Qed.

(** C3. A violation of the schema is fatal before any page is written.
    Let the run read the schema [database] of the mirror.  If the URL field
    is there and one of the five required fields is missing or has another
    type, the run raises, and all it has sent are reads of the schema.  If
    the URL field is missing the run does not stop: it first sends the
    update of the schema that adds the field; when the schema that this
    update answers with violates the requirements the run raises, having
    sent reads of the schema and that one update, and no request about a
    page. *)
Theorem schema_violation_aborts_before_page_writes
    fuel token database_id items h database h1 :
  run (fetch_database token database_id) h = (Return database, h1) →
  (¬ url_field_missing database → ¬ schema_ok database →
   ∃ e new,
     run (reconcile fuel token database_id items) h = (Raised e, h ++ new)
     ∧ h1 = h ++ new
     ∧ Forall (λ r, r = schema_read token database_id) (requests new))
  ∧ (url_field_missing database →
     ∀ database' h2,
       run (update_database token database_id
              (VDict [(URL_PROPERTY, VDict [(py "url", VDict [])])]))
           (h1 ++ [EvLog (pyu "Notion 속성 추가: %s") [VStr URL_PROPERTY]])
       = (Return database', h2) →
       ¬ schema_ok database' →
       ∃ e new,
         run (reconcile fuel token database_id items) h = (Raised e, h ++ new)
         ∧ h2 = h ++ new
         ∧ Forall (λ r, r = schema_read token database_id
                        ∨ r = add_url_field token database_id) (requests new)
         ∧ add_url_field token database_id ∈ requests new).
Proof.
  intros Hfetch.
  destruct (fetch_database_trace token database_id h) as (new1 & Hnew1 & Hreq1).
  rewrite Hfetch in Hnew1. cbn [snd] in Hnew1. subst h1.
  assert (Hrest : ∀ db hh, ¬ schema_ok db →
    ∃ e, run (_ ← lift (validate_required_properties db);
              author_options ← lift (get_select_options db AUTHOR_PROPERTY);
              has_views_property ←
                validate_optional_property_type db VIEWS_PROPERTY (py "number");
              mret (author_options, has_views_property)) hh
         = (Raised e, hh)).
  { intros db hh Hbad.
    destruct (validate_required_properties_spec db) as [[_ ?]|(e & He & _)]; [done|].
    exists e. rewrite run_bind. by rewrite He. }
  split.
  - intros Hurl Hbad.
    assert (∃ e, run (preflight token database_id) h = (Raised e, h ++ new1))
      as [e He].
    { unfold preflight. rewrite run_bind, Hfetch. rewrite run_bind.
      unfold ensure_url_property. rewrite run_bind.
      destruct (get_property database URL_PROPERTY) as [prop|e] eqn:Ep;
        [|by exists e].
      cbn [lift]. rewrite run_ret.
      destruct (truthy prop) eqn:Et; [|destruct Hurl; by exists prop].
      rewrite run_bind.
      destruct (py_get prop (py "type") VNone) as [actual|e]; [|by exists e].
      cbn [lift]. rewrite run_ret.
      destruct (is_str (py "url") actual); cbn [negb]; [|by eexists].
      rewrite run_ret. by apply Hrest. }
    exists e, new1. split; [|done].
    unfold reconcile. rewrite run_bind. by rewrite He.
  - intros (prop & Ep & Et) database' h2 Hupd Hbad.
    destruct (update_database_trace token database_id
                (VDict [(URL_PROPERTY, VDict [(py "url", VDict [])])])
                ((h ++ new1) ++ [EvLog (pyu "Notion 속성 추가: %s") [VStr URL_PROPERTY]]))
      as (new2 & Hnew2 & Hreq2 & Hsent).
    rewrite Hupd in Hnew2. cbn [snd] in Hnew2. subst h2.
    fold (add_url_field token database_id) in Hreq2.
    destruct (Hrest database'
                (((h ++ new1) ++ [EvLog (pyu "Notion 속성 추가: %s") [VStr URL_PROPERTY]])
                 ++ new2) Hbad) as [e He].
    exists e, (new1 ++ [EvLog (pyu "Notion 속성 추가: %s") [VStr URL_PROPERTY]] ++ new2).
    split; [|split; [by rewrite <- !app_assoc|split]].
    + unfold reconcile. rewrite run_bind.
      unfold preflight. rewrite run_bind, Hfetch. rewrite run_bind.
      unfold ensure_url_property. rewrite run_bind, Ep. cbn [lift]. rewrite run_ret, Et.
      rewrite run_bind, run_log, Hupd. rewrite He. by rewrite <- !app_assoc.
    + rewrite !requests_app. cbn [requests app]. apply Forall_app. split.
      * eapply Forall_impl; [exact Hreq1|]. cbn. auto.
      * eapply Forall_impl; [exact Hreq2|]. cbn. auto.
    + rewrite !requests_app. cbn [requests app]. apply elem_of_app. right.
      destruct (requests new2) as [|r rs]; [done|].
      apply Forall_cons in Hreq2 as [-> _]. apply elem_of_cons. by left.
Qed.

End Preflight.

Lemma schema_violation_aborts_before_page_writes_witness :
  ∃ e new,
    run (@reconcile lenient_checks world_without_title_field 1 (py "t") (py "d")
           [plain_item]) []
    = (Raised e, [] ++ new)
    ∧ [EvNotion (schema_read (py "t") (py "d")) (HttpOk (Some schema_without_title))]
      = [] ++ new
    ∧ Forall (λ r, r = schema_read (py "t") (py "d")) (requests new).
Proof.
  apply (@schema_violation_aborts_before_page_writes
           lenient_checks world_without_title_field 1 (py "t") (py "d") [plain_item] []
           schema_without_title
           [EvNotion (schema_read (py "t") (py "d")) (HttpOk (Some schema_without_title))]).
  - reflexivity.
  - intros (prop & Hp & Ht). vm_compute in Hp. injection Hp as <-. discriminate Ht.
  - intros ((prop & Hp & Ht & _) & _). vm_compute in Hp. injection Hp as <-.
    discriminate Ht.
Defined.

(** A schema without the URL field violates the requirement as stated, and
    the run is not fatal: the field is added by a write to the schema, and
    the page of the item is created. *)
Lemma missing_url_field_is_added :
  ¬ (∀ (HC : HostChecks) (W : World) fuel token database_id items h database,
       notion_api h (schema_read token database_id) = HttpOk (Some database) →
       ¬ schema_ok database →
       ∃ e new,
         run (@reconcile HC W fuel token database_id items) h = (Raised e, h ++ new)
         ∧ Forall (λ r, is_write r = false) (requests new)).
Proof.
  intros Hclaim.
  destruct (Hclaim lenient_checks world_without_url_field 1%nat (py "t") (py "d")
              [plain_item] [] schema_without_url) as (e & new & Hrun & _).
  - reflexivity.
  - intros (_ & _ & _ & _ & (prop & Hp & Ht & _)). vm_compute in Hp.
    injection Hp as <-. discriminate Ht.
  - vm_compute in Hrun. discriminate Hrun.
Qed.

(** ** Identity resolution *)

Section Identity.
Context `{HostChecks} `{World}.

(** More than one page with the link of the item: the resolution logs the
    duplicate and answers as it does when no page matches. *)
Lemma find_existing_page_ambiguous_url
    token database_id detail_url title date_iso h results h1 n :
  truthy detail_url = true →
  run (query_database token database_id (url_filter detail_url)) h
  = (Return results, h1) →
  py_len results = Ok n → (1 < n)%nat →
  run (find_existing_page token database_id detail_url title date_iso) h
  = (Return VNone, h1 ++ [EvLog (pyu "URL 중복 감지: %s") [detail_url]]).
Proof.
  intros Hurl Hq Hlen Hn. unfold find_existing_page. rewrite Hurl.
  fold (url_filter detail_url). rewrite run_bind, Hq. rewrite run_bind, Hlen.
  cbn [lift]. rewrite run_ret.
  destruct (Nat.eqb_spec n 1) as [->|_]; [lia|].
  destruct (Nat.ltb_spec 1 n) as [_|?]; [|lia].
  by rewrite run_bind, run_log.
Qed.

End Identity.

(** C1. An ambiguous identity does not make the engine skip the record.
    When the first tier that matches finds more than one page,
    [find_existing_page] logs the duplicate and returns [None], which is
    also its answer when no page matches; [main] then creates a page.  In
    the run below two pages of the mirror carry the link of the item: the
    run ends normally, and the one request it sends about a page is the
    creation of a further page for the item. *)
Theorem ambiguous_identity_creates_page :
  (∀ (C : HostChecks) (W : World) token database_id detail_url title date_iso
      h results h1 n,
     truthy detail_url = true →
     run (@query_database C W token database_id (url_filter detail_url)) h
     = (Return results, h1) →
     py_len results = Ok n → (1 < n)%nat →
     run (@find_existing_page C W token database_id detail_url title date_iso) h
     = (Return VNone, h1 ++ [EvLog (pyu "URL 중복 감지: %s") [detail_url]]))
  ∧ ∃ trace properties,
      run (@reconcile lenient_checks world_with_duplicates 1 (py "t") (py "d")
             [linked_item]) []
      = (Return tt, trace)
      ∧ EvLog (pyu "URL 중복 감지: %s") [VStr notice_url] ∈ trace
      ∧ build_properties linked_item false = Ok properties
      ∧ List.filter is_page_write (requests trace)
        = [create_request (py "t") (py "d") (VDict properties)].
Proof.
  split.
  - intros C W. apply @find_existing_page_ambiguous_url.
  - eexists _, _. split; [by vm_compute|]. split; [|split].
    + apply list_elem_of_In. vm_compute. tauto.
    + by vm_compute.
    + by vm_compute.
Qed.

(** ** The retirement pass *)

Section Retirement.
Context `{HostChecks} `{World}.

Lemma normalize_nonempty raw out :
  normalize_detail_url (Some raw) = Ok (Some out) → out ≠ [].
Proof.
  intros Hn. destruct (normalize_spec _ _ Hn) as (s & n & p & q0 & q1 & Hc & _ & _ & ->).
  rewrite (urlunparse_canonical _ _ _ _ Hc).
  destruct Hc as [(c0 & s' & -> & _) _ _ _ _ _ _ _ _ _ _ _ _]. done.
Qed.

Lemma extract_url_nonempty props u : extract_url props = Ok (Some u) → u ≠ [].
Proof.
  unfold extract_url.
  destruct (py_get props URL_PROPERTY (VDict [])) as [url_prop|];
    cbn [mbind result_mbind result_bind]; [|done].
  destruct (py_get url_prop (py "url") VNone) as [url_value|];
    cbn [mbind result_mbind result_bind]; [|done].
  unfold normalize_detail_url_of.
  destruct (truthy url_value); cbn [negb]; [|done].
  destruct url_value; try done. apply normalize_nonempty.
Qed.

(** The first test of the pass: the URL of the page is among the pinned
    URLs of the run. *)
Lemma url_test (props : value) (page_url : option pystr) (urls : gset pystr) :
  extract_url props = Ok page_url →
  truthy_opt page_url && negb (bool_decide (urls = ∅))
    && bool_decide (default [] page_url ∈ urls)
  = match page_url with Some u => bool_decide (u ∈ urls) | None => false end.
Proof.
  intros Hu. destruct page_url as [u|]; [|done].
  apply extract_url_nonempty, nonempty_true in Hu. cbn [truthy_opt default from_option id].
  rewrite Hu. cbn [andb]. case_bool_decide as Hempty; cbn [negb andb]; [|done].
  subst urls. symmetry. apply bool_decide_eq_false_2. set_solver.
Qed.

(** A request that the world answers with data at once is one event. *)
Lemma notion_request_answered method url token payload h data :
  request_init url = Ok tt →
  notion_api h (make_request method url token payload) = HttpOk (Some data) →
  run (notion_request method url token payload) h
  = (Return data,
     h ++ [EvNotion (make_request method url token payload) (HttpOk (Some data))]).
Proof.
  intros Hinit Hdata. unfold notion_request.
  apply (attempts_policy (make_request method url token payload)
           (HttpOk (Some data)) [] Hinit 0%nat h); try done.
  - cbn. lia.
  - right. by intros (d & ? & _).
Qed.

(** In a world that answers every request with data, a call of the
    transport is one request. *)
Lemma notion_request_obliging method url token payload h :
  obliging → request_init url = Ok tt →
  ∃ data, run (notion_request method url token payload) h
          = (Return data,
             h ++ [EvNotion (make_request method url token payload)
                     (HttpOk (Some data))]).
Proof.
  intros Hob Hinit.
  destruct (Hob h (make_request method url token payload)) as [data Hdata].
  exists data. by apply notion_request_answered.
Qed.

(** *** What the pass reads of a page *)

Lemma title_parts parts texts :
  Forall2 (λ part text, ∃ dp, part = VDict dp ∧ has dp (py "plain_text") (VStr text))
    parts texts →
  result_mapM (λ part, py_get part (py "plain_text") (VStr [])) parts
  = Ok (map VStr texts).
Proof.
  induction 1 as [|part text parts texts (dp & -> & Hdp) _ IH]; [done|].
  cbn [result_mapM py_get mbind result_mbind result_bind].
  unfold has in Hdp. rewrite Hdp, IH. done.
Qed.










End Retirement.




(** The example of the specification: the mirror pins the page A, which
    carries the link observed in the run, and the page B, which was not
    observed.  The pass clears B and leaves A. *)
Lemma retirement_example :
  ∃ trace,
    run (@disable_missing_top lenient_checks world_of_pinned_pages 1 (py "t") (py "d")
           {[ notice_url ]} ∅) []
    = (Return 1, trace)
    ∧ List.filter is_page_write (requests trace)
      = [@clear_request world_of_pinned_pages (py "t") (VStr (py "B"))].
Proof. eexists. split; by vm_compute. Qed.

(** ** The two extractors *)

Section Extractors.
Context `{HostChecks} `{Html} `{Environ}.

Lemma truthy_opt_parse_datetime text :
  truthy_opt (parse_datetime text) = bool_decide (is_Some (parse_datetime text)).
Proof.
  unfold parse_datetime.
  destruct (re_search match_date text) as [[[y m] d]|]; [|done].
  destruct (re_search match_time text) as [[[hh mm] ss]|]; cbn [truthy_opt].
  - rewrite bool_decide_eq_true_2 by eauto. apply nonempty_true.
    by destruct y, m.
  - rewrite bool_decide_eq_true_2 by eauto. apply nonempty_true.
    by destruct y, m.
Qed.

(** The static extractor: a record is made only of a row with a date. *)
Lemma parse_row_record row_html item :
  parse_row row_html = Ok (Some item) →
  map fst item = static_keys
  ∧ ∃ date_iso, parse_datetime (static_date_text row_html) = Some date_iso
                ∧ dict_get item (py "date") = VStr date_iso.
Proof.
  unfold parse_row, static_date_text.
  destruct (find_cells row_html) as [|c cs] eqn:Ec; [done|].
  set (cleaned := map clean_text (c :: cs)).
  destruct (length cleaned <? 5)%nat; [done|].
  destruct (parse_int _) as [views|]; [|done].
  cbn [mbind result_mbind result_bind].
  destruct (parse_datetime (at_ (length cleaned - 2) cleaned)) as [d|] eqn:Ed;
    [|done].
  destruct (negb (truthy_opt (Some d)) || _ || _); [done|].
  destruct (extract_detail_url_from_row_html row_html) as [u|]; [|done].
  cbn. intros [= <-]. split; [done|]. by exists d.
Qed.

(** A row without a date: the static extractor reads the view count, which
    [int] may refuse, and makes no record. *)
Lemma parse_row_undated row_html :
  parse_datetime (static_date_text row_html) = None →
  parse_row row_html
  = if (length (find_cells row_html) <? 5)%nat then Ok None
    else _ ← parse_int (static_views_text row_html); Ok None.
Proof.
  intros Hd. unfold parse_row, static_views_text. unfold static_date_text in Hd.
  destruct (find_cells row_html) as [|c cs]; [done|].
  rewrite length_map.
  destruct (length (c :: cs) <? 5)%nat; [done|].
  rewrite length_map in Hd. rewrite Hd.
  by destruct (parse_int _).
Qed.

(** The interactive extractor keeps a row whatever its date cell holds. *)
Lemma extract_list_row_record index row views :
  (5 ≤ length (cell_texts row))%nat →
  strip (at_ 1 (cell_texts row)) ≠ [] →
  parse_int (page_views_text row) = Ok (Some views) →
  match first_detail_link (link_hrefs row) with
  | Ok _ =>
      ∃ item,
        extract_list_row index row = Ok (Some item)
        ∧ map fst item = page_keys
        ∧ dict_get item (py "date") = opt_str (parse_datetime (page_date_text row))
  | Raise e => extract_list_row index row = Raise e
  end.
Proof.
  intros Hlen Htitle Hviews. unfold extract_list_row, page_date_text.
  unfold page_views_text in Hviews.
  destruct (Nat.ltb_spec (length (cell_texts row)) 5) as [?|_]; [lia|].
  apply nonempty_true in Htitle. rewrite Htitle, Hviews.
  destruct (first_detail_link (link_hrefs row)) as [detail_url|e]; cbn; [|done].
  eexists. split; [done|]. split; done.
Qed.

(** C4. Rows without a date in the two extraction modes.  The static
    extractor makes no record of a row whose date cell does not parse: it
    passes over the row, unless the row has five cells and [int] refuses its
    view count, in which case it raises; and a record it makes carries the
    parsed date under the keys title, author, date, views, top and url.  The
    interactive extractor does not look at the date to keep a row: of a row
    with five cells, a title and a view count it makes a record whatever the
    date cell holds, with an absent date when the cell does not parse, under
    the keys title, author, date, views, top, row_index and detail_url --
    unless the URL parser refuses one of the links of the row, in which case
    it raises. *)
Theorem extractors_on_undated_rows :
  (∀ row_html,
     parse_datetime (static_date_text row_html) = None →
     parse_row row_html
     = if (length (find_cells row_html) <? 5)%nat then Ok None
       else _ ← parse_int (static_views_text row_html); Ok None)
  ∧ (∀ row_html item,
       parse_row row_html = Ok (Some item) →
       map fst item = static_keys
       ∧ ∃ date_iso, parse_datetime (static_date_text row_html) = Some date_iso
                     ∧ dict_get item (py "date") = VStr date_iso)
  ∧ (∀ index row views,
       (5 ≤ length (cell_texts row))%nat →
       strip (at_ 1 (cell_texts row)) ≠ [] →
       parse_int (page_views_text row) = Ok (Some views) →
       match first_detail_link (link_hrefs row) with
       | Ok _ =>
           ∃ item,
             extract_list_row index row = Ok (Some item)
             ∧ map fst item = page_keys
             ∧ dict_get item (py "date")
               = opt_str (parse_datetime (page_date_text row))
       | Raise e => extract_list_row index row = Raise e
       end).
Proof.
  split; [exact parse_row_undated|]. split; [exact parse_row_record|].
  exact extract_list_row_record.
Qed.

End Extractors.

Lemma extractors_on_undated_rows_witness :
  @parse_row lenient_checks bar_html default_environ (py "TOP|Notice|Office|soon|12")
  = Ok None
  ∧ ∃ item,
      @extract_list_row lenient_checks 0 undated_row = Ok (Some item)
      ∧ map fst item = page_keys
      ∧ dict_get item (py "date") = opt_str (parse_datetime (page_date_text undated_row)).
Proof.
  destruct (@extractors_on_undated_rows lenient_checks bar_html default_environ)
    as (Hstatic & _ & Hpage).
  split.
  - rewrite (Hstatic (py "TOP|Notice|Office|soon|12") eq_refl). reflexivity.
  - apply (Hpage 0%nat undated_row 12).
    + simpl. lia.
    + by vm_compute.
    + reflexivity.
Defined.

(** The interactive extractor keeps a row whose date cell does not parse:
    the record has no date. *)
Lemma extract_list_rows_keeps_undated_row :
  ¬ (∀ (HC : HostChecks) index row,
       parse_datetime (page_date_text row) = None →
       @extract_list_row HC index row = Ok None).
Proof.
  intros Hclaim.
  specialize (Hclaim lenient_checks 0%nat undated_row eq_refl).
  vm_compute in Hclaim. discriminate Hclaim.
Qed.

(** ** Dictionaries *)

Lemma str_eqb_refl s : str_eqb s s = true.
Proof. unfold str_eqb. by apply bool_decide_eq_true_2. Qed.

Lemma str_eqb_true a b : str_eqb a b = true ↔ a = b.
Proof. unfold str_eqb. apply bool_decide_eq_true. Qed.

Lemma str_eqb_false a b : str_eqb a b = false ↔ a ≠ b.
Proof. unfold str_eqb. apply bool_decide_eq_false. Qed.


Lemma assoc_dict_set_ne {A} k k' (v : A) d :
  k ≠ k' → assoc k (dict_set k' v d) = assoc k d.
Proof.
  intros Hne. induction d as [|[k2 w] d IH]; cbn [dict_set assoc].
  - by rewrite (proj2 (str_eqb_false k k')).
  - destruct (str_eqb k' k2) eqn:E; cbn [assoc].
    + apply str_eqb_true in E as <-. by rewrite (proj2 (str_eqb_false k k')).
    + by rewrite IH.
Qed.

(** ** The address of a list page *)

Lemma utf8_encode_ascii s :
  forallb is_ascii s = true → utf8_encode s = Ok s.
Proof.
  induction s as [|c s IH]; [done|]. cbn [forallb utf8_encode].
  intros [Hc Hs]%andb_true_iff. unfold utf8_encode_char.
  unfold is_ascii in Hc. change 0x80 with 128. rewrite Hc.
  rewrite (IH Hs). done.
Qed.

Lemma always_safe_ascii c : is_always_safe c = true → is_ascii c = true.
Proof. intros. chars. Qed.

Lemma quote_plus_safe s :
  forallb is_always_safe s = true → quote_plus s = Ok s.
Proof.
  intros Hs. unfold quote_plus.
  assert (contains (ch " ") s = false) as ->.
  { apply free_contains. eapply forallb_free; [|exact Hs]. intros c Hc. chars. }
  cbn [negb]. unfold quote. destruct (nonempty s); [|done]. cbn [negb].
  rewrite utf8_encode_ascii.
  2:{ apply forallb_forall. intros c Hc. apply always_safe_ascii.
      rewrite forallb_forall in Hs. by apply Hs. }
  cbn. f_equal. unfold quote_from_bytes.
  induction s as [|c s IH]; [done|]. cbn [forallb flat_map] in *.
  apply andb_true_iff in Hs as [Hc Hs]. unfold quoter at 1. rewrite Hc.
  cbn [orb app]. by rewrite IH.
Qed.

Lemma uint_chars_safe d : forallb is_always_safe (uint_chars d) = true.
Proof. induction d; cbn [uint_chars forallb]; rewrite ?IHd; done. Qed.

(** [build_list_url] never fails: the address of a page is the base
    address followed by the two fixed parameters and the page number. *)
Lemma build_list_url_total page : build_list_url page = Ok (list_url page).
Proof.
  unfold build_list_url, list_url, urlencode, DEFAULT_QUERY.
  cbn [app quote_items].
  rewrite !quote_plus_safe by (first [apply uint_chars_safe | by vm_compute]).
  cbn [mbind result_mbind result_bind join]. by do 2 f_equal.
Qed.


(** ** The pagination loops *)








Section Pagination.
Context `{HostChecks} `{Html} `{Environ} `{World}.








Lemma existsb_negb_forallb {A} (p : A → bool) l :
  existsb (λ x, negb (p x)) l = negb (forallb p l).
Proof.
  induction l as [|x l IH]; [done|]. cbn [existsb forallb].
  rewrite IH. by destruct (p x).
Qed.





(** *** The loop of the browser *)








Lemma negb_existsb {A} (p : A → bool) l :
  existsb (λ x, negb (p x)) l = false → forallb p l = true.
Proof. rewrite existsb_negb_forallb. by destruct (forallb p l). Qed.


End Pagination.



(** * Further properties of the code *)

(** ** The transport, in any world *)

Lemma sleeps_app h1 h2 : sleeps (h1 ++ h2) = sleeps h1 ++ sleeps h2.
Proof.
  induction h1 as [|e h1 IH]; [done|]. destruct e; cbn [app sleeps]; by rewrite ?IH.
Qed.

Section TransportBounds.
Context `{HostChecks} `{World}.

Lemma requests_retry_trace req fails :
  ∀ k, requests (retry_trace req k fails) = replicate (length fails) req.
Proof.
  induction fails as [|out fails IH]; intros k; [done|].
  cbn [retry_trace retry_events app requests length replicate].
  destruct out; cbn [retry_log requests]; by rewrite IH.
Qed.

Lemma sleeps_retry_trace req fails :
  ∀ k, length (sleeps (retry_trace req k fails)) = length fails.
Proof.
  induction fails as [|out fails IH]; intros k; [done|].
  cbn [retry_trace retry_events app sleeps length].
  destruct out; cbn [retry_log sleeps length]; by rewrite IH.
Qed.

Lemma closing_events_logs k last :
  requests (closing_events k last) = [] ∧ sleeps (closing_events k last) = [].
Proof.
  unfold closing_events. destruct (_ && _); [|done].
  destruct (requested_delay k last); [|done]. by destruct last.
Qed.

Lemma replicate_snoc {A} n (x : A) : replicate n x ++ [x] = replicate (S n) x.
Proof. induction n as [|n IH]; [done|]. cbn [replicate app]. by rewrite IH. Qed.

(** A call that returns was answered with its data, after failures of the
    kinds that are retried. *)
Lemma notion_request_returns method url token payload h data h' :
  run (notion_request method url token payload) h = (Return data, h') →
  ∃ fails,
    h' = h ++ retry_trace (make_request method url token payload) 0 fails
           ++ [EvNotion (make_request method url token payload) (HttpOk (Some data))]
    ∧ Forall (λ out, retryable out = true) fails.
Proof.
  set (req := make_request method url token payload).
  change (notion_request method url token payload)
    with (notion_attempts (S (N.to_nat max_retries)) 0 1 req).
  destruct (request_init url) as [[]|e] eqn:Hinit.
  2:{ cbn [notion_attempts N.to_nat max_retries].
      change (Pos.to_nat 3) with 3%nat. cbn [notion_attempts].
      by rewrite run_bind, (run_ask_notion_refused _ e). }
  destruct (attempts_split req 3 0%nat h) as (fails & last & Hlen & Hans & Hall & Hend);
    [done|].
  cbn [Nat.add] in Hlen, Hend.
  pose proof (attempts_policy req last fails Hinit 0%nat h Hlen Hans Hall Hend)
    as Hrun.
  change (notion_attempts (4 - 0) (N.of_nat 0) (backoff_before 0) req)
    with (notion_attempts (S (N.to_nat max_retries)) 0 1 req) in Hrun.
  rewrite Hrun. cbn [Nat.add]. intros [= Hout <-].
  exists fails.
  assert (last = HttpOk (Some data)) as ->.
  { unfold call_outcome in Hout. destruct last as [[v|]|code ra body|reason|e]; try done.
    - by injection Hout as ->.
    - destruct (_ && _); [|done]. by destruct (requested_delay _ _). }
  split; [done|].
  apply Forall_forall. intros out Hin.
  apply list_elem_of_lookup in Hin as [i Hi].
  rewrite Forall_forall in Hall.
  destruct (Hall (i, out)) as (d & Hr & _); [|done].
  apply elem_of_lookup_imap. by exists i, out.
Qed.

(** X1. A call of [notion_request], in any world.  When [Request] accepts
    the address, the call sends the same request between one and four
    times, sleeps once between two attempts, never fails to come back, and
    what it returns is the body of the answer to its last attempt.  When
    [Request] refuses the address, the call ends with that error and sends
    nothing. *)
Theorem notion_request_attempts_bounded method url token payload h :
  (request_init url = Ok tt →
   ∃ k new,
     (run (notion_request method url token payload) h).2 = h ++ new
     ∧ (k ≤ 3)%nat
     ∧ requests new = replicate (S k) (make_request method url token payload)
     ∧ length (sleeps new) = k
     ∧ (run (notion_request method url token payload) h).1 ≠ Diverged
     ∧ (∀ data,
          (run (notion_request method url token payload) h).1 = Return data →
          ∃ before,
            new = before ++ [EvNotion (make_request method url token payload)
                               (HttpOk (Some data))]))
  ∧ (∀ e, request_init url = Raise e →
          run (notion_request method url token payload) h = (Raised e, h)).
Proof.
  split.
  - intros Hinit. set (req := make_request method url token payload).
    destruct (attempts_split req 3 0%nat h) as (fails & last & Hlen & Hans & Hall & Hend);
      [done|].
    cbn [Nat.add] in Hlen, Hend.
    change (notion_request method url token payload)
      with (notion_attempts (S (N.to_nat max_retries)) 0 1 req).
    pose proof (attempts_policy req last fails Hinit 0%nat h Hlen Hans Hall Hend)
      as Hrun.
    change (notion_attempts (4 - 0) (N.of_nat 0) (backoff_before 0) req)
      with (notion_attempts (S (N.to_nat max_retries)) 0 1 req) in Hrun.
    rewrite Hrun. cbn [Nat.add fst snd].
    destruct (closing_events_logs (length fails) last) as [Hcr Hcs].
    exists (length fails), (retry_trace req 0 fails
                            ++ EvNotion req last :: closing_events (length fails) last).
    split; [done|]. split; [done|]. split; [|split; [|split]].
    + rewrite requests_app, requests_retry_trace. cbn [requests]. rewrite Hcr.
      apply replicate_snoc.
    + rewrite sleeps_app, length_app, sleeps_retry_trace. cbn [sleeps].
      rewrite Hcs. cbn. lia.
    + unfold call_outcome. destruct last as [[v|]|code ra body|reason|e]; try done.
      destruct (_ && _); [|done]. by destruct (requested_delay _ _).
    + intros data Hret. exists (retry_trace req 0 fails).
      unfold call_outcome in Hret. unfold closing_events.
      destruct last as [[v|]|code ra body|reason|e]; try done.
      * by injection Hret as ->.
      * destruct (_ && _); [|done]. by destruct (requested_delay _ _).
  - intros e He. unfold notion_request. cbn [notion_attempts N.to_nat max_retries].
    change (Pos.to_nat 3) with 3%nat. cbn [notion_attempts].
    by rewrite run_bind, (run_ask_notion_refused _ e).
Qed.

End TransportBounds.

Lemma notion_request_attempts_bounded_witness :
  ∃ k new,
    (run (@notion_request lenient_checks
            (scripted_world [rate_limited; HttpOk (Some (VDict []))])
            (py "POST") api_pages_url (py "t") None) []).2 = [] ++ new
    ∧ (k ≤ 3)%nat
    ∧ requests new = replicate (S k) (make_request (py "POST") api_pages_url (py "t") None)
    ∧ length (sleeps new) = k
    ∧ (run (@notion_request lenient_checks
              (scripted_world [rate_limited; HttpOk (Some (VDict []))])
              (py "POST") api_pages_url (py "t") None) []).1 ≠ Diverged
    ∧ (∀ data,
         (run (@notion_request lenient_checks
                 (scripted_world [rate_limited; HttpOk (Some (VDict []))])
                 (py "POST") api_pages_url (py "t") None) []).1 = Return data →
         ∃ before,
           new = before ++ [EvNotion (make_request (py "POST") api_pages_url (py "t") None)
                              (HttpOk (Some data))]).
Proof.
  destruct (@notion_request_attempts_bounded lenient_checks
              (scripted_world [rate_limited; HttpOk (Some (VDict []))])
              (py "POST") api_pages_url (py "t") None []) as [Hsent _].
  apply Hsent. reflexivity.
Defined.

(** ** What the parts of the program send to the mirror *)

Lemma sends_ret {A} P (a : A) : sends P (mret a).
Proof. intros h. exists []. rewrite app_nil_r. split; [done|constructor]. Qed.

Lemma sends_raise {A} P e : sends P (raise e : M A).
Proof. intros h. exists []. rewrite app_nil_r. split; [done|constructor]. Qed.

Lemma sends_diverge {A} P : sends P (diverge : M A).
Proof. intros h. exists []. rewrite app_nil_r. split; [done|constructor]. Qed.

Lemma sends_lift {A} P (r : result A) : sends P (lift r).
Proof. destruct r; [apply sends_ret|apply sends_raise]. Qed.

Lemma sends_log P fmt args : sends P (log fmt args).
Proof. intros h. exists [EvLog fmt args]. split; [done|constructor]. Qed.

Lemma sends_sleep P d : sends P (sleep d).
Proof.
  unfold sleep. destruct (max_sleep <? d); [apply sends_raise|].
  intros h. exists [EvSleep d]. split; [done|constructor].
Qed.

Lemma sends_bind {A B} P (m : M A) (k : A → M B) :
  sends P m → (∀ a, sends P (k a)) → sends P (m ≫= k).
Proof.
  intros Hm Hk h. destruct (Hm h) as (new1 & H1 & F1). rewrite run_bind.
  destruct (run m h) as [[a| |] h1]; cbn [snd] in H1; subst h1;
    try (exists new1; by split).
  destruct (Hk a (h ++ new1)) as (new2 & H2 & F2).
  exists (new1 ++ new2). rewrite H2, <- app_assoc. split; [done|].
  rewrite requests_app. by apply Forall_app.
Qed.

Lemma sends_weaken {A} (P Q : Request → Prop) (m : M A) :
  (∀ r, P r → Q r) → sends P m → sends Q m.
Proof.
  intros HPQ Hm h. destruct (Hm h) as (new & H1 & F1). exists new.
  split; [done|]. eapply Forall_impl; [exact F1|exact HPQ].
Qed.

Lemma sends_foldM {A S} P (f : S → A → M S) l :
  (∀ s x, sends P (f s x)) → ∀ s, sends P (foldM f s l).
Proof.
  intros Hf. induction l as [|x l IH]; intros s; cbn [foldM].
  - apply sends_ret.
  - apply sends_bind; [apply Hf|apply IH].
Qed.

Section Frames.
Context `{HostChecks} `{Html} `{Environ} `{World}.

Lemma sends_notion_request (P : Request → Prop) method url token payload :
  P (make_request method url token payload) →
  sends P (notion_request method url token payload).
Proof.
  intros HP h.
  destruct (notion_request_sends method url token payload h) as (new & Htr & Hreq).
  exists new. split; [exact Htr|].
  eapply Forall_impl; [exact Hreq|]. by intros r ->.
Qed.

Lemma sends_fetch_html P url : sends P (fetch_html url).
Proof.
  unfold fetch_html. apply sends_bind; [apply sends_lift|]. intros _ h. cbn [run].
  destruct (site h url); eexists; (split; [by rewrite <- ?app_assoc|]);
    cbn [app requests]; constructor.
Qed.

Lemma sends_start P : sends P start_playwright.
Proof. intros h. eexists [_]. split; [done|constructor]. Qed.

Lemma sends_launch P launcher headless : sends P (launch_browser launcher headless).
Proof. intros h. eexists [_]. split; [done|constructor]. Qed.

Lemma sends_close P : sends P close_browser.
Proof. intros h. eexists [_]. split; [done|constructor]. Qed.

Lemma sends_goto P url : sends P (goto_list_page url).
Proof. intros h. eexists [_]. split; [done|constructor]. Qed.

Lemma sends_detail P url i d : sends P (fetch_detail_for_row url i d).
Proof.
  intros h. cbn [run fetch_detail_for_row].
  destruct (browser_detail h url i d) as [r|e]; eexists [_]; (split; [done|constructor]).
Qed.

Ltac sends_step :=
  match goal with
  | |- sends _ (mret _) => apply sends_ret
  | |- sends _ (raise _) => apply sends_raise
  | |- sends _ diverge => apply sends_diverge
  | |- sends _ (lift _) => apply sends_lift
  | |- sends _ (log _ _) => apply sends_log
  | |- sends _ (sleep _) => apply sends_sleep
  | |- sends _ (fetch_html _) => apply sends_fetch_html
  | |- sends _ (goto_list_page _) => apply sends_goto
  | |- sends _ start_playwright => apply sends_start
  | |- sends _ (launch_browser _ _) => apply sends_launch
  | |- sends _ close_browser => apply sends_close
  | |- sends _ (fetch_detail_for_row _ _ _) => apply sends_detail
  | |- sends _ (foldM _ _ _) => apply sends_foldM; intros
  | |- sends _ (_ ≫= _) => apply sends_bind; [|intros]
  | |- sends _ (if ?b then _ else _) => destruct b
  | |- sends _ (match ?x with _ => _ end) => destruct x
  | |- sends _ (let '(_, _) := ?x in _) => destruct x
  end.

Lemma sends_collect_top_http P st item : sends P (collect_top_http st item).
Proof.
  destruct st as [[items seen] new_top]. unfold collect_top_http.
  unfold fetch_written_at_from_url. repeat sends_step.
Qed.

Lemma sends_collect_top P url st item : sends P (collect_top url st item).
Proof.
  destruct st as [[items seen] new_top]. unfold collect_top. repeat sends_step.
Qed.

Lemma sends_crawl_http_loop P fuel :
  ∀ page items seen, sends P (crawl_http_loop fuel page items seen).
Proof.
  induction fuel as [|fuel IH]; intros page items seen; cbn [crawl_http_loop].
  - apply sends_diverge.
  - repeat first [apply IH | apply sends_collect_top_http | sends_step].
Qed.

Lemma sends_crawl_loop P fuel :
  ∀ page items seen, sends P (crawl_loop fuel page items seen).
Proof.
  induction fuel as [|fuel IH]; intros page items seen; cbn [crawl_loop].
  - apply sends_diverge.
  - repeat first [apply IH | apply sends_collect_top | sends_step].
Qed.

Lemma sends_crawl_top_items P fuel : sends P (crawl_top_items fuel).
Proof.
  unfold crawl_top_items, crawl_top_items_http.
  destruct (negb playwright_installed).
  - apply sends_bind; [apply sends_log|intros _; apply sends_crawl_http_loop].
  - repeat first [apply sends_crawl_loop | sends_step].
Qed.

Lemma sends_load_items P fuel : sends P (load_items fuel).
Proof.
  unfold load_items.
  apply sends_bind; [apply sends_log|intros _].
  apply sends_bind; [apply sends_log|intros _].
  destruct (negb (truthy_opt NOTION_TOKEN) || negb (truthy_opt NOTION_DB_ID));
    [apply sends_raise|].
  apply sends_bind.
  - destruct argv1 as [p|].
    + destruct (read_text p); [apply sends_lift|apply sends_raise].
    + destruct (truthy_opt HTML_PATH); [|apply sends_crawl_top_items].
      destruct HTML_PATH as [p|]; [|apply sends_crawl_top_items].
      destruct (read_text p); [apply sends_lift|apply sends_raise].
  - intros [|item items]; [apply sends_raise|apply sends_ret].
Qed.

(** What [load_items] returns: the credentials of the environment, which
    are not empty, and at least one item. *)
Lemma load_items_return fuel h token database_id items h1 :
  run (load_items fuel) h = (Return (token, database_id, items), h1) →
  NOTION_TOKEN = Some token ∧ NOTION_DB_ID = Some database_id
  ∧ token ≠ [] ∧ database_id ≠ [] ∧ items ≠ [].
Proof.
  unfold load_items. rewrite run_bind, run_log, run_bind, run_log.
  destruct NOTION_TOKEN as [t|]; [|done]. destruct NOTION_DB_ID as [d|];
    cbn [truthy_opt negb orb]; [|by rewrite orb_true_r].
  destruct (nonempty t) eqn:Et; [|done]. destruct (nonempty d) eqn:Ed; [|done].
  cbn [negb orb default from_option id]. rewrite run_bind.
  match goal with |- context [run ?m ?h0] => destruct (run m h0) as [[its| |] h2] end;
    [|done..].
  destruct its as [|item its]; [done|]. rewrite run_ret.
  intros [= <- <- <- <-]. apply nonempty_true in Et, Ed. done.
Qed.

(** X2. [main] reaches the mirror only with credentials and items: whatever
    the environment, the source site and the browser do, if a run of [main]
    sends any request to the Notion API then the token and the database
    identifier were set and not empty and the source gave at least one item.
    In particular an empty crawl never starts the retirement pass. *)
Theorem main_reaches_mirror_only_with_items fuel h :
  requests (drop (length h) (run (main fuel) h).2) ≠ [] →
  ∃ token database_id items h1,
    run (load_items fuel) h = (Return (token, database_id, items), h1)
    ∧ requests (drop (length h) h1) = []
    ∧ NOTION_TOKEN = Some token ∧ NOTION_DB_ID = Some database_id
    ∧ token ≠ [] ∧ database_id ≠ [] ∧ items ≠ [].
Proof.
  unfold main. rewrite run_bind.
  destruct (sends_load_items (λ _, False) fuel h) as (new & Hnew & Hreq).
  assert (Hnone : requests new = []).
  { destruct (requests new); [done|]. by apply Forall_cons in Hreq as [[] _]. }
  destruct (run (load_items fuel) h) as [[[[token db] items]| |] h1] eqn:Hrun;
    cbn [snd] in Hnew; subst h1.
  - intros _. exists token, db, items, (h ++ new).
    rewrite drop_app_length. split; [done|]. split; [done|].
    exact (load_items_return fuel h _ _ _ _ Hrun).
  - cbn [snd]. by rewrite drop_app_length.
  - cbn [snd]. by rewrite drop_app_length.
Qed.

End Frames.

Lemma main_reaches_mirror_only_with_items_witness :
  ∃ token database_id items h1,
    run (@load_items lenient_checks bar_html file_environ world_without_title_field 1) []
    = (Return (token, database_id, items), h1)
    ∧ requests (drop (length (@nil Event)) h1) = []
    ∧ @NOTION_TOKEN file_environ = Some token
    ∧ @NOTION_DB_ID file_environ = Some database_id
    ∧ token ≠ [] ∧ database_id ≠ [] ∧ items ≠ [].
Proof.
  apply (@main_reaches_mirror_only_with_items lenient_checks bar_html file_environ
           world_without_title_field 1 []).
  by vm_compute.
Defined.

(** ** What the retirement pass sends *)

Section RetirementFrame.
Context `{HostChecks} `{World}.

Lemma sends_disable_page token database_id urls dates page :
  sends (is_retirement_request token database_id) (disable_page token urls dates page).
Proof.
  unfold disable_page.
  apply sends_bind; [apply sends_lift|intros props].
  apply sends_bind; [apply sends_lift|intros page_url].
  destruct (_ && _ && _); [apply sends_ret|].
  apply sends_bind; [apply sends_lift|intros title].
  destruct (negb (nonempty title)); [apply sends_ret|].
  apply sends_bind; [apply sends_lift|intros date_iso].
  apply sends_bind; [apply sends_lift|intros date_key].
  destruct (match dates !! title with Some _ => _ | None => _ end); [apply sends_ret|].
  apply sends_bind; [apply sends_lift|intros page_id].
  apply sends_bind.
  - unfold update_page. apply sends_bind; [|intros; apply sends_ret].
    apply sends_notion_request. right. by exists page_id.
  - intros _. apply sends_bind; [apply sends_log|intros; apply sends_ret].
Qed.

Lemma sends_disable_loop token database_id urls dates fuel :
  ∀ payload disabled,
    assoc (py "filter") payload = Some pinned_filter →
    assoc (py "page_size") payload = Some (VInt 100) →
    sends (is_retirement_request token database_id)
      (disable_loop fuel token database_id urls dates payload disabled).
Proof.
  induction fuel as [|fuel IH]; intros payload disabled Hf Hp; cbn [disable_loop].
  - apply sends_diverge.
  - apply sends_bind.
    { apply sends_notion_request. left. repeat split. by exists payload. }
    intros data. apply sends_bind; [apply sends_lift|intros results].
    apply sends_bind; [apply sends_lift|intros pages].
    apply sends_bind.
    { unfold disable_pages. apply sends_foldM. intros n page.
      apply sends_bind; [apply sends_disable_page|intros; apply sends_ret]. }
    intros disabled'. apply sends_bind; [apply sends_lift|intros has_more].
    destruct (negb (truthy has_more)); [apply sends_ret|].
    apply sends_bind; [apply sends_lift|intros next_cursor].
    apply IH; by rewrite assoc_dict_set_ne.
Qed.

(** X3. The retirement pass only lists pinned pages and clears pinned flags.
    In any world and for any mirror, every request that
    [disable_missing_top] sends is either the query of the database for the
    pages whose pinned box is checked, a hundred at a time, or the update of
    a page that unchecks its pinned box; it creates no page and writes no
    other field. *)
Theorem retirement_only_clears_flags fuel token database_id urls dates h :
  ∃ new,
    (run (disable_missing_top fuel token database_id urls dates) h).2 = h ++ new
    ∧ Forall (is_retirement_request token database_id) (requests new).
Proof.
  revert h. change (sends (is_retirement_request token database_id)
                      (disable_missing_top fuel token database_id urls dates)).
  unfold disable_missing_top. apply sends_disable_loop; by vm_compute.
Qed.

End RetirementFrame.

(** ** The counters of the reconciliation *)

Lemma run_bind_Return {A B} (m : M A) (k : A → M B) h b h' :
  run (m ≫= k) h = (Return b, h') →
  ∃ a h1, run m h = (Return a, h1) ∧ run (k a) h1 = (Return b, h').
Proof.
  rewrite run_bind. destruct (run m h) as [[a| |] h1]; [|done..]. by exists a, h1.
Qed.

(** Every value that the computation can return satisfies [Q]. *)
Lemma returns_bind {A B} (Q : B → Prop) (m : M A) (k : A → M B) :
  (∀ a h b h', run (k a) h = (Return b, h') → Q b) →
  ∀ h b h', run (m ≫= k) h = (Return b, h') → Q b.
Proof.
  intros Hk h b h' Hrun. apply run_bind_Return in Hrun as (a & h1 & _ & Hk').
  by eapply Hk.
Qed.

(** ** The day-key of a parsed date *)

Lemma re_search_head {A} (f : pystr → option A) s r :
  f s = Some r → re_search f s = Some r.
Proof. intros Hf. destruct s; cbn [re_search]; by rewrite Hf. Qed.

Lemma match_day_key_canonical y m d rest :
  all_decimal 4 y → all_decimal 2 m → all_decimal 2 d →
  match_day_key (y ++ py "-" ++ m ++ py "-" ++ d ++ rest)
  = Some (y ++ py "-" ++ m ++ py "-" ++ d).
Proof.
  intros Hy Hm Hd. unfold match_day_key.
  rewrite (proj2 (digits_Some 4 _ y _) (conj eq_refl Hy)).
  cbn [mbind option_bind]. lit. cbn [app].
  rewrite (proj2 (one_of_Some [45] _ 45 _) (conj eq_refl (list_elem_of_here _ _))).
  cbn [mbind option_bind].
  rewrite (proj2 (digits_Some 2 _ m _) (conj eq_refl Hm)).
  cbn [mbind option_bind app].
  rewrite (proj2 (one_of_Some [45] _ 45 _) (conj eq_refl (list_elem_of_here _ _))).
  cbn [mbind option_bind].
  rewrite (proj2 (digits_Some 2 _ d _) (conj eq_refl Hd)).
  done.
Qed.

(** X5. The day-key of a timestamp made by [parse_datetime].  When
    [parse_datetime] reads the date [y], [m], [d] in a text, the day-key
    that [normalize_date_key] gives for its result is [y-m-d]: ten
    characters, whatever the time of day in the text and whichever of the
    two separators the text uses. *)
Theorem day_key_of_parsed_date text iso :
  parse_datetime text = Some iso →
  ∃ y m d,
    re_search match_date text = Some (y, m, d)
    ∧ normalize_date_key (Some iso) = y ++ py "-" ++ m ++ py "-" ++ d
    ∧ length (normalize_date_key (Some iso)) = 10%nat.
Proof.
  unfold parse_datetime.
  destruct (re_search match_date text) as [[[y m] d]|] eqn:Ed; [|done].
  pose proof (search_date_occurs _ _ _ _ Ed)
    as (pre & post & s1 & s2 & _ & Hy & Hm & Hd & _).
  assert (Hkey : ∀ rest,
    normalize_date_key (Some (y ++ py "-" ++ m ++ py "-" ++ d ++ rest))
    = y ++ py "-" ++ m ++ py "-" ++ d).
  { intros rest. unfold normalize_date_key.
    assert (nonempty (y ++ py "-" ++ m ++ py "-" ++ d ++ rest) = true) as ->.
    { apply nonempty_true. destruct Hy as [Hl _]. by destruct y. }
    by rewrite (re_search_head _ _ _ (match_day_key_canonical y m d rest Hy Hm Hd)). }
  assert (Hlen : length (y ++ py "-" ++ m ++ py "-" ++ d) = 10%nat).
  { destruct Hy as [Hy _], Hm as [Hm _], Hd as [Hd _].
    rewrite !length_app, Hy, Hm, Hd. done. }
  intros Hiso. exists y, m, d. split; [done|].
  destruct (re_search match_time text) as [[[hh mm] ss]|];
    rewrite <- Hiso, Hkey; by split.
Qed.

Lemma day_key_of_parsed_date_witness :
  ∃ y m d,
    re_search match_date (py "2024.03.05 09:30") = Some (y, m, d)
    ∧ normalize_date_key (Some (py "2024-03-05T09:30:00+09:00"))
      = y ++ py "-" ++ m ++ py "-" ++ d
    ∧ length (normalize_date_key (Some (py "2024-03-05T09:30:00+09:00"))) = 10%nat.
Proof.
  apply (day_key_of_parsed_date (py "2024.03.05 09:30")). by vm_compute.
Defined.

(** ** White space around a link *)

Lemma lstrip_snoc a c : is_space c = false → lstrip (a ++ [c]) = lstrip a ++ [c].
Proof.
  intros Hc. induction a as [|x a IH]; cbn [app lstrip].
  - by rewrite Hc.
  - by destruct (is_space x).
Qed.

Lemma rstrip_cons c r : is_space c = false → rstrip (c :: r) = c :: rstrip r.
Proof.
  intros Hc. unfold rstrip. cbn [rev]. rewrite lstrip_snoc by done.
  by rewrite rev_app_distr.
Qed.

Lemma strip_idem s : strip (strip s) = strip s.
Proof.
  unfold strip.
  destruct (lstrip_spec s) as (ws & _ & [->|(c & r & -> & Hc)]); [done|].
  rewrite (rstrip_cons _ _ Hc). cbn [lstrip]. rewrite Hc.
  rewrite (rstrip_cons _ _ Hc). f_equal.
  unfold rstrip. rewrite rev_involutive.
  destruct (lstrip_spec (rev r)) as (ws' & _ & [->|(c' & r' & -> & Hc')]); [done|].
  cbn [lstrip]. by rewrite Hc'.
Qed.

Section SurroundingSpace.
Context `{HostChecks}.

(** X6. White space around a link is of no account: [normalize_detail_url]
    gives for a text what it gives for the text stripped of its leading and
    trailing white space, the same link, the same absence or the same
    error.  A text of white space alone is no link. *)
Theorem normalize_ignores_surrounding_space (raw : pystr) :
  normalize_detail_url (Some raw) = normalize_detail_url (Some (strip raw))
  ∧ (strip raw = [] → normalize_detail_url (Some raw) = Ok None).
Proof.
  rewrite !normalize_unfold, strip_idem.
  destruct (decide (strip raw = [])) as [E|E].
  - rewrite E. assert (Hnone :
      (if negb (nonempty raw) then Ok None
       else if bool_decide (str_lower [] ∈ placeholder_links) then Ok None
       else if existsb (λ p, startswith p (str_lower [])) script_prefixes
            then Ok None else normalize_tail []) = Ok None).
    { destruct (negb (nonempty raw)); [done|].
      assert (bool_decide (str_lower [] ∈ placeholder_links) = false)
        as -> by (by vm_compute).
      assert (existsb (λ p, startswith p (str_lower [])) script_prefixes = false)
        as -> by (by vm_compute).
      apply normalize_tail_root. }
    rewrite Hnone. by split.
  - split; [|done].
    assert (nonempty (strip raw) = true) as -> by (by apply nonempty_true).
    assert (nonempty raw = true) as ->; [|done].
    apply nonempty_true. intros ->. by apply E.
Qed.

End SurroundingSpace.

Lemma normalize_ignores_surrounding_space_witness :
  @normalize_detail_url lenient_checks (Some (py "  ")) = Ok None.
Proof.
  apply (proj2 (@normalize_ignores_surrounding_space lenient_checks (py "  "))).
  by vm_compute.
Defined.

(** ** What a normal form never holds *)

Lemma flatten_elem d kv :
  kv ∈ flatten d → ∃ vs, (kv.1, vs) ∈ d ∧ kv.2 ∈ vs.
Proof.
  unfold flatten. rewrite list_elem_of_In, in_flat_map.
  intros ([k vs] & Hin & Hkv). apply in_map_iff in Hkv as (v & <- & Hv).
  exists vs. cbn. split; by apply list_elem_of_In.
Qed.

Section ListingKeys.
Context `{HostChecks}.

(** X7. A link that [normalize_detail_url] returns is absolute and free of
    the listing parameters: parsed back, it has a scheme and a host, its
    scheme is none of javascript, mailto, tel and data, and its query holds
    no parameter named introPkId, option or page and no parameter with an
    empty value. *)
Theorem normalized_link_is_absolute_without_listing_keys x out :
  normalize_detail_url (Some x) = Ok (Some out) →
  ∃ c, urlparse out = Ok c
       ∧ scheme c ≠ [] ∧ netloc c ≠ [] ∧ (scheme c ∉ script_schemes)
       ∧ Forall (λ kv, (kv.1 ∉ drop_keys) ∧ kv.2 ≠ []) (parse_qsl (query c)).
Proof.
  intros Hx.
  destruct (normalize_spec _ _ Hx) as (s & n & p & q0 & q1 & Hc & Hs & Hq & Hout).
  rewrite (urlunparse_canonical _ _ _ _ Hc) in Hout.
  destruct (query_round_trip _ _ Hq) as [Hrt Hchars].
  destruct (query_text_free _ Hchars) as [Hf1 Hf2].
  pose proof (urlparse_canonical _ _ _ _ Hc Hf1 Hf2) as Hparse.
  rewrite <- Hout in Hparse.
  eexists. split; [exact Hparse|]. cbn [scheme netloc query].
  split; [by destruct (cp_scheme_head _ _ _ Hc) as (c0 & s' & -> & _)|].
  split; [exact (cp_netloc_nonempty _ _ _ Hc)|]. split; [done|].
  rewrite query_items_flatten in Hq.
  assert (Hsel : values_nonempty (selected (parse_qs q0))).
  { apply Forall_forall. intros kv Hkv. apply selected_in in Hkv as [Hkv _].
    pose proof (parse_qs_values q0) as Hval.
    unfold values_nonempty in Hval. rewrite Forall_forall in Hval. by apply Hval. }
  destruct (parse_qsl_urlencode _ _ Hq (flatten_values _ Hsel)) as [-> _].
  apply Forall_forall. intros kv Hkv.
  apply flatten_elem in Hkv as (vs & Hin & Hv).
  split.
  - by apply selected_in in Hin as [_ Hk].
  - unfold values_nonempty in Hsel. rewrite Forall_forall in Hsel.
    specialize (Hsel _ Hin). cbn in Hsel. rewrite Forall_forall in Hsel.
    by apply Hsel.
Qed.

End ListingKeys.

Lemma normalized_link_is_absolute_without_listing_keys_witness :
  ∃ c, @urlparse lenient_checks (py "https://www.sogang.ac.kr/ko/detail/7?a=1") = Ok c
       ∧ scheme c ≠ [] ∧ netloc c ≠ [] ∧ (scheme c ∉ script_schemes)
       ∧ Forall (λ kv, (kv.1 ∉ drop_keys) ∧ kv.2 ≠ []) (parse_qsl (query c)).
Proof.
  apply (@normalized_link_is_absolute_without_listing_keys lenient_checks
           (py "/ko/detail/7?page=3&a=1&option=TITLE")).
  by vm_compute.
Defined.

(** ** Links relative to the site *)

Section Relative.
Context `{HostChecks}.

Lemma urlsplit_rooted p :
  startswith (py "/") p = true → startswith (py "//") p = false →
  free is_query_or_fragment_mark p → free is_unsafe_url_byte p →
  urlsplit p = Ok {| sr_scheme := []; sr_netloc := []; sr_path := p;
                     sr_query := []; sr_fragment := [] |}.
Proof.
  intros H1 H2 Hq Hu. destruct p as [|c0 p]; [done|].
  lit. cbn [startswith] in H1, H2.
  apply andb_true_iff in H1 as [Hc0 _]. apply N.eqb_eq in Hc0 as <-.
  unfold urlsplit.
  rewrite lstrip_by_head by (by vm_compute).
  rewrite (free_filter _ _ Hu).
  assert (Hbr : (match break (is_char (ch ":")) (47 :: p) with
                 | (c0 :: pre, _ :: rest) =>
                     if is_ascii_alpha c0 && forallb is_scheme_char (c0 :: pre)
                     then (str_lower (c0 :: pre), rest)
                     else ([], 47 :: p)
                 | _ => ([], 47 :: p)
                 end) = ([], 47 :: p)).
  { cbn [break]. assert (is_char (ch ":") 47 = false) as -> by (by vm_compute).
    destruct (break (is_char (ch ":")) p) as [a [|b0 b]]; [done|].
    assert (is_ascii_alpha 47 = false) as -> by (by vm_compute). done. }
  rewrite Hbr.
  assert (str_eqb (take 2 (47 :: p)) (py "//") = false) as ->.
  { apply str_eqb_false. lit. destruct p as [|c1 p]; [done|].
    cbn [take]. intros [= ->]. by vm_compute in H2. }
  cbn [mbind result_mbind result_bind].
  assert (Hh : free (is_char (ch "#")) (47 :: p)).
  { eapply free_impl; [|exact Hq]. intros c. chars. }
  assert (Hm : free (is_char (ch "?")) (47 :: p)).
  { eapply free_impl; [|exact Hq]. intros c. chars. }
  rewrite (split_once_free _ _ Hh), (split_once_free _ _ Hm).
  done.
Qed.

(** X8. A path of the site resolves against the site.  For a text that
    starts with one slash (not two), does not end in white space and holds
    no question mark, hash sign, semicolon, tab or line break,
    [normalize_detail_url] returns the address of the site followed by the
    text. *)
Theorem site_path_resolves_against_site (p : pystr) :
  startswith (py "/") p = true → startswith (py "//") p = false →
  rstrip p = p →
  free is_query_or_fragment_mark p → free is_unsafe_url_byte p →
  free (is_char (ch ";")) p →
  normalize_detail_url (Some p) = Ok (Some (BASE_SITE ++ p)).
Proof.
  intros H1 H2 Hr Hq Hu Hs.
  assert (Hl : lstrip p = p).
  { destruct p as [|c0 p]; [done|]. lit. cbn [startswith] in H1.
    apply andb_true_iff in H1 as [Hc0 _]. apply N.eqb_eq in Hc0 as <-.
    cbn [lstrip]. by assert (is_space 47 = false) as -> by (by vm_compute). }
  assert (Hlow : ∃ r, str_lower p = 47 :: r).
  { destruct p as [|c0 p]; [done|]. lit. cbn [startswith] in H1.
    apply andb_true_iff in H1 as [Hc0 _]. apply N.eqb_eq in Hc0 as <-.
    exists (str_lower p). done. }
  destruct Hlow as [low Hlow].
  rewrite normalize_unfold, (strip_of_rstripped _ Hr), Hl, Hlow.
  assert (nonempty p = true) as -> by (apply nonempty_true; by intros ->).
  cbn [negb].
  assert (bool_decide (47 :: low ∈ placeholder_links) = false) as ->.
  { apply bool_decide_eq_false_2. unfold placeholder_links.
    rewrite !elem_of_cons, elem_of_nil. lit.
    intros [E|[E|[E|[E|[]]]]]; discriminate E. }
  assert (existsb (λ q, startswith q (47 :: low)) script_prefixes = false)
    as -> by (by vm_compute).
  unfold normalize_tail. rewrite H2.
  pose proof (urlsplit_rooted p H1 H2 Hq Hu) as Hsplit.
  assert (Hparse : urlparse p = Ok {| scheme := []; netloc := []; path := p;
                     params := []; query := []; fragment := [] |}).
  { unfold urlparse. rewrite Hsplit.
    cbn [mbind result_mbind result_bind sr_scheme sr_path sr_netloc sr_query
         sr_fragment].
    apply free_contains in Hs. by rewrite Hs, andb_false_r. }
  rewrite Hparse.
  cbn [mbind result_mbind result_bind scheme netloc].
  rewrite bool_decide_eq_false_2
    by (intros Hin; apply (bool_decide_eq_true_2 _) in Hin; by vm_compute in Hin).
  change (nonempty []) with false. cbn [negb orb]. rewrite H1.
  rewrite urlparse_base. cbn [mbind result_mbind result_bind scheme netloc].
  assert (Hc : canonical_parts (py "https") (py "www.sogang.ac.kr") p).
  { split; try (by vm_compute); try done.
    - exists 104, [116; 116; 112; 115]. by vm_compute.
    - lit. free_solve.
    - lit. free_solve.
    - right. destruct p as [|c0 p]; [done|]. lit. cbn [startswith] in H1.
      apply andb_true_iff in H1 as [Hc0 _]. apply N.eqb_eq in Hc0 as <-. by exists p.
    - intros _ Hsemi. apply free_contains in Hs. congruence. }
  pose proof (urlparse_canonical _ _ _ [] Hc (free_nil _) (free_nil _)) as Hp2.
  unfold query_suffix in Hp2. change (nonempty []) with false in Hp2.
  rewrite app_nil_r in Hp2.
  change (py "https" ++ py ":" ++ py "//" ++ py "www.sogang.ac.kr" ++ p)
    with (py "https" ++ py "://" ++ py "www.sogang.ac.kr" ++ p) in Hp2.
  rewrite Hp2.
  cbn [mbind result_mbind result_bind scheme netloc path query].
  assert (urlencode (query_items (parse_qs [])) = Ok []) as -> by (by vm_compute).
  cbn [mbind result_mbind result_bind].
  rewrite (urlunparse_canonical _ _ _ _ Hc).
  unfold query_suffix. change (nonempty []) with false. rewrite app_nil_r.
  by do 2 f_equal.
Qed.

End Relative.

Lemma site_path_resolves_against_site_witness :
  @normalize_detail_url lenient_checks (Some (py "/ko/detail/7"))
  = Ok (Some (BASE_SITE ++ py "/ko/detail/7")).
Proof.
  apply (@site_path_resolves_against_site lenient_checks (py "/ko/detail/7"));
    try (by vm_compute); lit; free_solve.
Defined.

(** ** Reading a number *)

Lemma fold_digits_acc d acc :
  fold_left (λ a c, 10 * a + digit_value c) (uint_chars d) (Npos acc)
  = Npos (Pos.of_uint_acc d acc).
Proof.
  revert acc. induction d; intros acc; cbn [uint_chars fold_left Pos.of_uint_acc];
    [done|..];
    match goal with
    | |- fold_left _ _ ?a = N.pos (Pos.of_uint_acc _ ?b) =>
        replace a with (N.pos b) by (unfold digit_value; lia)
    end; apply IHd.
Qed.

Lemma fold_digits d :
  fold_left (λ a c, 10 * a + digit_value c) (uint_chars d) 0 = Pos.of_uint d.
Proof.
  induction d; cbn [uint_chars fold_left Pos.of_uint]; [done|exact IHd|..];
    match goal with
    | |- fold_left _ _ ?a = N.pos (Pos.of_uint_acc _ ?b) =>
        replace a with (N.pos b) by (unfold digit_value; lia)
    end; apply fold_digits_acc.
Qed.

Lemma str_of_N_nonempty n : str_of_N n ≠ [].
Proof.
  unfold str_of_N. destruct n as [|p]; [done|]. cbn [N.to_uint].
  pose proof (DecimalPos.Unsigned.to_uint_nonnil p) as Hp.
  by destruct (Pos.to_uint p).
Qed.

(** X9. [parse_int] reads a number through its separators.  When the
    ASCII digits of a text, taken in order, are the decimal writing of [n]
    (at most 4300 digits, the length [int] accepts), [parse_int] returns
    [n], whatever other characters stand between the digits. *)
Theorem parse_int_reads_through_separators (value : pystr) (n : N) :
  filter (λ c, is_ascii_digit c = true) value = str_of_N n →
  (length (str_of_N n) ≤ 4300)%nat →
  parse_int value = Ok (Some n).
Proof.
  intros Hd Hlen. unfold parse_int. rewrite Hd.
  assert (nonempty (str_of_N n) = true) as ->
    by (apply nonempty_true, str_of_N_nonempty).
  cbn [negb]. unfold int_max_str_digits.
  destruct (Nat.ltb_spec 4300 (length (str_of_N n))) as [?|_]; [lia|].
  do 2 f_equal. unfold str_of_N. rewrite fold_digits.
  exact (DecimalN.Unsigned.of_to n).
Qed.

Lemma parse_int_reads_through_separators_witness :
  parse_int (py "1,234 views") = Ok (Some 1234).
Proof.
  apply parse_int_reads_through_separators; [by vm_compute|].
  vm_compute. lia.
Defined.

(** ** The link built from a detail number *)

Lemma safe_not_space c : is_always_safe c = true → is_space c = false.
Proof. intros. chars. Qed.

Lemma digit_always_safe c : is_ascii_digit c = true → is_always_safe c = true.
Proof. intros. chars. Qed.

Lemma digit_is_decimal c : is_ascii_digit c = true → is_decimal c = true.
Proof.
  intros Hc. unfold is_decimal, decimal_runs. cbn [existsb].
  apply orb_true_iff. left. exact Hc.
Qed.

Lemma safe_free (q : N → bool) s :
  (∀ c, is_always_safe c = true → q c = false) →
  forallb is_always_safe s = true → free q s.
Proof. apply forallb_free. Qed.

Section BuiltLink.
Context `{HostChecks} `{Environ}.

(** X10. The link built from a detail number is a detail link in normal
    form.  For a number written in ASCII digits and a board number
    ([BBS_CONFIG_FK], by default 141) made of letters, digits and the signs
    [_.-~], [normalize_detail_url] returns the text of [build_detail_url]
    unchanged, and [is_detail_url] accepts it. *)
Theorem built_detail_link_is_normal (detail_id : pystr) :
  detail_id ≠ [] → forallb is_ascii_digit detail_id = true →
  get_bbs_config_fk ≠ [] → forallb is_always_safe get_bbs_config_fk = true →
  normalize_detail_url (Some (build_detail_url detail_id))
  = Ok (Some (build_detail_url detail_id))
  ∧ is_detail_url (build_detail_url detail_id) = Ok true.
Proof.
  intros Hid Hdig Hfk Hsafe.
  set (fk := get_bbs_config_fk) in *.
  set (p := py "/ko/detail/" ++ detail_id).
  set (q := py "bbsConfigFk=" ++ fk).
  assert (Hids : forallb is_always_safe detail_id = true).
  { apply forallb_forall. intros c Hc. apply digit_always_safe.
    rewrite forallb_forall in Hdig. by apply Hdig. }
  assert (Hurl : build_detail_url detail_id
                 = py "https" ++ py ":" ++ py "//" ++ py "www.sogang.ac.kr"
                   ++ p ++ query_suffix q).
  { unfold build_detail_url, BASE_SITE, query_suffix, p, q. fold fk.
    assert (nonempty (py "bbsConfigFk=" ++ fk) = true) as -> by (by vm_compute).
    lit. cbn [app]. repeat (rewrite <- app_assoc; cbn [app]). done. }
  assert (Hc : canonical_parts (py "https") (py "www.sogang.ac.kr") p).
  { split; try (by vm_compute); try done.
    - exists 104, [116; 116; 112; 115]. by vm_compute.
    - lit. free_solve.
    - lit. free_solve.
    - right. by exists (py "ko/detail/" ++ detail_id).
    - unfold p. lit. cbn [app]. free_solve.
      eapply safe_free; [|exact Hids]. intros c0 Hc0. chars.
    - unfold p. lit. cbn [app]. free_solve.
      eapply safe_free; [|exact Hids]. intros c0 Hc0. chars.
    - intros _ Hsemi. exfalso.
      assert (Hf : free (is_char (ch ";")) p).
      { unfold p. lit. cbn [app]. free_solve.
        eapply safe_free; [|exact Hids]. intros c0 Hc0. chars. }
      apply free_contains in Hf. congruence. }
  assert (Hq1 : free (is_char (ch "#")) q).
  { unfold q. lit. cbn [app]. free_solve.
    eapply safe_free; [|exact Hsafe]. intros c0 Hc0. chars. }
  assert (Hq2 : free is_unsafe_url_byte q).
  { unfold q. lit. cbn [app]. free_solve.
    eapply safe_free; [|exact Hsafe]. intros c0 Hc0. chars. }
  pose proof (urlparse_canonical _ _ _ _ Hc Hq1 Hq2) as Hparse.
  rewrite <- Hurl in Hparse.
  assert (Hitems : urlencode [(py "bbsConfigFk", fk)] = Ok q).
  { unfold urlencode. cbn [quote_items].
    rewrite (quote_plus_safe (py "bbsConfigFk")) by (by vm_compute).
    rewrite (quote_plus_safe fk Hsafe). cbn. unfold q. lit.
    by repeat (rewrite <- app_assoc; cbn [app]). }
  assert (Hqs : parse_qs q = [(py "bbsConfigFk", [fk])]).
  { unfold parse_qs.
    destruct (parse_qsl_urlencode _ _ Hitems) as [-> _]; [|done].
    constructor; [done|constructor]. }
  split.
  - rewrite normalize_unfold.
    assert (Hlast : ∃ s' c, build_detail_url detail_id = s' ++ [c]
                            ∧ is_space c = false).
    { destruct fk as [|c0 fk'] eqn:Efk using rev_ind; [done|]. clear IHfk'.
      exists (BASE_SITE ++ py "/ko/detail/" ++ detail_id ++ py "?bbsConfigFk=" ++ fk'), c0.
      split.
      - unfold build_detail_url. fold fk. rewrite Efk.
        by rewrite <- !app_assoc.
      - apply safe_not_space. rewrite forallb_app in Hsafe.
        apply andb_true_iff in Hsafe as [_ Hc0]. cbn in Hc0.
        by rewrite andb_true_r in Hc0. }
    destruct Hlast as (s' & c & Es & Hcs).
    assert (Hr : rstrip (build_detail_url detail_id) = build_detail_url detail_id).
    { rewrite Es. by apply rstrip_snoc. }
    rewrite (strip_of_rstripped _ Hr).
    assert (Hhead : build_detail_url detail_id
                    = 104 :: drop 1 (build_detail_url detail_id)).
    { rewrite Hurl. by lit. }
    assert (Hl : lstrip (build_detail_url detail_id) = build_detail_url detail_id).
    { rewrite Hhead at 1. cbn [lstrip].
      assert (is_space 104 = false) as -> by (by vm_compute).
      by rewrite <- Hhead. }
    rewrite Hl.
    assert (nonempty (build_detail_url detail_id) = true) as ->
      by (rewrite Hhead; apply nonempty_cons).
    cbn [negb].
    assert (Hlow : ∃ low, str_lower (build_detail_url detail_id) = 104 :: low).
    { rewrite Hhead. by eexists. }
    destruct Hlow as [low ->].
    assert (bool_decide (104 :: low ∈ placeholder_links) = false) as ->.
    { apply bool_decide_eq_false_2. unfold placeholder_links.
      rewrite !elem_of_cons, elem_of_nil. lit.
      intros [E|[E|[E|[E|[]]]]]; discriminate E. }
    assert (existsb (λ x, startswith x (104 :: low)) script_prefixes = false)
      as -> by (by vm_compute).
    unfold normalize_tail.
    assert (startswith (py "//") (build_detail_url detail_id) = false) as ->
      by (rewrite Hhead; by vm_compute).
    rewrite Hparse.
    cbn [mbind result_mbind result_bind scheme netloc path query].
    rewrite bool_decide_eq_false_2
      by (intros Hin; apply (bool_decide_eq_true_2 _) in Hin; by vm_compute in Hin).
    assert (negb (nonempty (py "https")) || negb (nonempty (py "www.sogang.ac.kr"))
            = false) as -> by (by vm_compute).
    cbn [mbind result_mbind result_bind scheme netloc path query].
    rewrite Hqs.
    assert (query_items [(py "bbsConfigFk", [fk])] = [(py "bbsConfigFk", fk)])
      as -> by (by vm_compute).
    rewrite Hitems. cbn [mbind result_mbind result_bind].
    by rewrite (urlunparse_canonical _ _ _ _ Hc), Hurl.
  - unfold is_detail_url.
    assert (nonempty (build_detail_url detail_id) = true) as ->.
    { rewrite Hurl. by lit. }
    cbn [negb]. rewrite Hparse. cbn [mbind result_mbind result_bind path].
    rewrite bool_decide_eq_true_2; [done|].
    destruct detail_id as [|d0 ds]; [done|].
    cbn [forallb] in Hdig. apply andb_true_iff in Hdig as [Hd0 _].
    apply digit_is_decimal in Hd0.
    unfold p. lit. cbn [app].
    do 3 (cbn [re_search]; unfold match_detail_path at 1;
          match goal with
          | |- context [startswith ?a ?b] =>
              assert (startswith a b = false) as -> by (by vm_compute)
          end).
    cbn [re_search]. unfold match_detail_path at 1.
    match goal with
    | |- context [startswith ?a ?b] =>
        assert (startswith a b = true) as -> by (by vm_compute)
    end.
    cbn [drop]. unfold digits. cbn [take length forallb Nat.eqb].
    rewrite Hd0. by cbn.
Qed.

End BuiltLink.

Lemma built_detail_link_is_normal_witness :
  @normalize_detail_url lenient_checks
    (Some (@build_detail_url file_environ (py "2451")))
  = Ok (Some (@build_detail_url file_environ (py "2451")))
  ∧ @is_detail_url lenient_checks (@build_detail_url file_environ (py "2451"))
    = Ok true.
Proof.
  apply (@built_detail_link_is_normal lenient_checks file_environ (py "2451"));
    by vm_compute.
Defined.

(** ** Sanitized choices *)

Ltac keys_lit :=
  repeat match goal with
  | |- context [str_eqb (py ?a) (py ?b)] =>
      let v := eval vm_compute in (str_eqb (py a) (py b)) in
      change (str_eqb (py a) (py b)) with v
  end.

(** The keys that an entry of a sanitized list may hold. *)
Lemma sanitize_select_option_fixed opt item :
  sanitize_select_option opt = Ok (Some item) →
  sanitize_select_option (VDict item) = Ok (Some item)
  ∧ truthy (dict_get item (py "name")) = true
  ∧ Forall (λ kv, kv.1 ∈ [py "name"; py "id"; py "color"] ∧ truthy kv.2 = true) item.
Proof.
  unfold sanitize_select_option at 1. destruct opt as [| | | | |d]; try done.
  cbn [py_get mbind result_mbind result_bind].
  destruct (truthy (default VNone (assoc (py "name") d))) eqn:En; cbn [negb]; [|done].
  set (name := default VNone (assoc (py "name") d)) in *.
  destruct (truthy (default VNone (assoc (py "id") d))) eqn:Ei.
  - cbn [py_item]. unfold dict_item.
    destruct (assoc (py "id") d) as [idv|] eqn:Eid; [|done].
    cbn [result_bind app default from_option id] in Ei |- *.
    destruct (truthy (default VNone (assoc (py "color") d))) eqn:Ec;
      intros [= <-]; cbn [app]; (split; [|split]).
    + unfold sanitize_select_option.
      cbn [py_get py_item dict_item mbind result_mbind result_bind assoc]. keys_lit.
      cbn [default from_option id]. unfold dict_item. cbn [assoc]. keys_lit.
      by rewrite En, Ei, Ec.
    + unfold dict_get. cbn [assoc]. keys_lit. exact En.
    + repeat constructor; cbn [fst snd]; try done; set_solver.
    + unfold sanitize_select_option.
      cbn [py_get py_item dict_item mbind result_mbind result_bind assoc]. keys_lit.
      cbn [default from_option id]. unfold dict_item. cbn [assoc]. keys_lit.
      by rewrite En, Ei.
    + unfold dict_get. cbn [assoc]. keys_lit. exact En.
    + repeat constructor; cbn [fst snd]; try done; set_solver.
  - cbn [result_bind app].
    destruct (truthy (default VNone (assoc (py "color") d))) eqn:Ec;
      intros [= <-]; cbn [app]; (split; [|split]).
    + unfold sanitize_select_option.
      cbn [py_get py_item dict_item mbind result_mbind result_bind assoc]. keys_lit.
      cbn [default from_option id]. by rewrite En, Ec.
    + unfold dict_get. cbn [assoc]. keys_lit. exact En.
    + repeat constructor; cbn [fst snd]; try done; set_solver.
    + unfold sanitize_select_option.
      cbn [py_get py_item dict_item mbind result_mbind result_bind assoc]. keys_lit.
      cbn [default from_option id]. by rewrite En.
    + unfold dict_get. cbn [assoc]. keys_lit. exact En.
    + repeat constructor; cbn [fst snd]; try done; set_solver.
Qed.

Lemma omap_id_cons_Some {A} (x : A) (l : list (option A)) :
  omap id (Some x :: l) = x :: omap id l.
Proof. done. Qed.

Lemma omap_id_cons_None {A} (l : list (option A)) :
  omap id (None :: l) = omap id l.
Proof. done. Qed.

Lemma sanitize_mapM_fixed opts rs :
  result_mapM sanitize_select_option opts = Ok rs →
  result_mapM sanitize_select_option (map VDict (omap id rs))
  = Ok (map Some (omap id rs))
  ∧ Forall (λ item,
      truthy (dict_get item (py "name")) = true
      ∧ Forall (λ kv, kv.1 ∈ [py "name"; py "id"; py "color"] ∧ truthy kv.2 = true)
               item) (omap id rs).
Proof.
  revert rs. induction opts as [|opt opts IH]; intros rs.
  - intros [= <-]. by split.
  - cbn [result_mapM mbind result_mbind result_bind].
    destruct (sanitize_select_option opt) as [r|] eqn:Er; [|done].
    destruct (result_mapM sanitize_select_option opts) as [rs'|]; [|done].
    intros [= <-]. destruct (IH rs' eq_refl) as [IH1 IH2].
    destruct r as [item|];
      [rewrite omap_id_cons_Some|by rewrite omap_id_cons_None].
    destruct (sanitize_select_option_fixed _ _ Er) as (Hs & Hn & Hk).
    split; [|by constructor].
    cbn [map result_mapM mbind result_mbind result_bind]. rewrite Hs.
    cbn [result_bind]. by rewrite IH1.
Qed.

Lemma omap_id_Some {A} (l : list A) : omap id (map Some l) = l.
Proof. induction l as [|x l IH]; [done|]. cbn. by rewrite IH. Qed.

(** X11. A sanitized list of choices is its own sanitization.  Every entry
    that [sanitize_select_options] returns has a name, holds no key other
    than name, id and color, and no empty or absent value; and sanitizing
    the returned list again returns it unchanged. *)
Theorem sanitize_select_options_idempotent cache sanitized :
  sanitize_select_options cache = Ok sanitized →
  sanitize_select_options (VList (map VDict sanitized)) = Ok sanitized
  ∧ Forall (λ item,
      truthy (dict_get item (py "name")) = true
      ∧ Forall (λ kv, kv.1 ∈ [py "name"; py "id"; py "color"] ∧ truthy kv.2 = true)
               item) sanitized.
Proof.
  unfold sanitize_select_options.
  destruct cache as [| | |s|opts|d]; try done;
    cbn [py_iter mbind result_mbind result_bind].
  - destruct s as [|c s]; [by intros [= <-]|done].
  - destruct (result_mapM sanitize_select_option opts) as [rs|] eqn:Ers; [|done].
    intros [= <-]. destruct (sanitize_mapM_fixed _ _ Ers) as [H1 H2].
    split; [|exact H2]. rewrite H1. cbn [mbind result_mbind result_bind].
    by rewrite omap_id_Some.
  - destruct d as [|[k v] d]; [by intros [= <-]|done].
Qed.

Lemma sanitize_select_options_idempotent_witness :
  sanitize_select_options
    (VList [VDict [(py "name", VStr (py "Office")); (py "id", VStr (py "a1"))]])
  = Ok [[(py "name", VStr (py "Office")); (py "id", VStr (py "a1"))]]
  ∧ Forall (λ item,
      truthy (dict_get item (py "name")) = true
      ∧ Forall (λ kv, kv.1 ∈ [py "name"; py "id"; py "color"] ∧ truthy kv.2 = true)
               item)
      [[(py "name", VStr (py "Office")); (py "id", VStr (py "a1"))]].
Proof.
  apply (sanitize_select_options_idempotent
           (VList [VDict [(py "id", VStr (py "a1")); (py "description", VNone);
                          (py "name", VStr (py "Office")); (py "color", VStr [])]])
           [[(py "name", VStr (py "Office")); (py "id", VStr (py "a1"))]]).
  by vm_compute.
Defined.

(** ** What a run sends to the mirror *)

Section MirrorFrame.
Context `{HostChecks} `{Html} `{Environ} `{World}.

Ltac mirror_step :=
  first
    [ apply sends_ret | apply sends_raise | apply sends_lift | apply sends_log
    | apply sends_notion_request; split; [reflexivity|]
    | apply sends_bind; [|intros ?] ].

Lemma sends_query_database P token database_id filter_payload :
  P (make_request (py "POST") (database_url database_id ++ py "/query") token
       (Some (VDict [(py "filter", filter_payload)]))) →
  sends P (query_database token database_id filter_payload).
Proof.
  intros HP. unfold query_database. apply sends_bind; [|intros; apply sends_lift].
  by apply sends_notion_request.
Qed.

Lemma sends_update_database P token database_id properties :
  P (make_request (py "PATCH") (database_url database_id) token
       (Some (VDict [(py "properties", properties)]))) →
  sends P (update_database token database_id properties).
Proof. intros HP. unfold update_database. by apply sends_notion_request. Qed.

Lemma mirror_query token database_id filter_payload :
  is_mirror_request token database_id
    (make_request (py "POST") (database_url database_id ++ py "/query") token
       (Some (VDict [(py "filter", filter_payload)]))).
Proof.
  split; [done|]. right. right. left. split; [done|]. split; [done|].
  by eexists _, _.
Qed.

Lemma mirror_schema_update token database_id properties :
  is_mirror_request token database_id
    (make_request (py "PATCH") (database_url database_id) token
       (Some (VDict [(py "properties", properties)]))).
Proof.
  split; [done|]. right. left. split; [done|]. split; [done|]. by eexists.
Qed.

Lemma sends_update_page token database_id page_id properties :
  sends (is_mirror_request token database_id) (update_page token page_id properties).
Proof.
  unfold update_page. apply sends_bind; [|intros; apply sends_ret].
  apply sends_notion_request. split; [done|]. do 4 right. split; [done|].
  by exists page_id, properties.
Qed.

Lemma sends_create_page token database_id properties :
  sends (is_mirror_request token database_id)
    (create_page token database_id properties).
Proof.
  unfold create_page. apply sends_bind; [|intros; apply sends_ret].
  apply sends_notion_request. split; [done|]. do 3 right. left.
  split; [done|]. split; [done|]. by eexists.
Qed.

Lemma sends_find_existing_page P token database_id detail_url title date_iso :
  (∀ filter_payload,
     P (make_request (py "POST") (database_url database_id ++ py "/query") token
          (Some (VDict [(py "filter", filter_payload)])))) →
  sends P (find_existing_page token database_id detail_url title date_iso).
Proof.
  intros HP.
  assert (Htitle : sends P
    (if truthy title then
       results ← query_database token database_id
         (VDict [(py "property", VStr TITLE_PROPERTY);
                 (py "title", VDict [(py "equals", title)])]);
       n ← lift (py_len results);
       if (n =? 1)%nat then lift (first_id results) else mret VNone
     else mret VNone)).
  { destruct (truthy title); [|apply sends_ret].
    apply sends_bind; [apply sends_query_database, HP|intros results].
    apply sends_bind; [apply sends_lift|intros n].
    destruct (n =? 1)%nat; [apply sends_lift|apply sends_ret]. }
  assert (Hboth : sends P
    (if truthy title && truthy date_iso then
       results ← query_database token database_id
         (VDict [(py "and",
                  VList [VDict [(py "property", VStr TITLE_PROPERTY);
                                (py "title", VDict [(py "equals", title)])];
                         VDict [(py "property", VStr DATE_PROPERTY);
                                (py "date", VDict [(py "equals", date_iso)])]])]);
       n ← lift (py_len results);
       if (n =? 1)%nat then lift (first_id results)
       else if (1 <? n)%nat then
         _ ← log (pyu "제목+작성일 중복 감지: %s (%s)") [title; date_iso];
         mret VNone
       else
         (if truthy title then
            results ← query_database token database_id
              (VDict [(py "property", VStr TITLE_PROPERTY);
                      (py "title", VDict [(py "equals", title)])]);
            n ← lift (py_len results);
            if (n =? 1)%nat then lift (first_id results) else mret VNone
          else mret VNone)
     else
       (if truthy title then
          results ← query_database token database_id
            (VDict [(py "property", VStr TITLE_PROPERTY);
                    (py "title", VDict [(py "equals", title)])]);
          n ← lift (py_len results);
          if (n =? 1)%nat then lift (first_id results) else mret VNone
        else mret VNone))).
  { destruct (truthy title && truthy date_iso); [|exact Htitle].
    apply sends_bind; [apply sends_query_database, HP|intros results].
    apply sends_bind; [apply sends_lift|intros n].
    destruct (n =? 1)%nat; [apply sends_lift|].
    destruct (1 <? n)%nat; [|exact Htitle].
    apply sends_bind; [apply sends_log|intros; apply sends_ret]. }
  unfold find_existing_page.
  destruct (truthy detail_url); [|exact Hboth].
  apply sends_bind; [apply sends_query_database, HP|intros results].
  apply sends_bind; [apply sends_lift|intros n].
  destruct (n =? 1)%nat; [apply sends_lift|].
  destruct (1 <? n)%nat; [|exact Hboth].
  apply sends_bind; [apply sends_log|intros; apply sends_ret].
Qed.

Lemma sends_ensure_select_option P token database_id name options :
  (∀ properties,
     P (make_request (py "PATCH") (database_url database_id) token
          (Some (VDict [(py "properties", properties)])))) →
  sends P (ensure_select_option token database_id AUTHOR_PROPERTY name options).
Proof.
  intros HP. unfold ensure_select_option.
  destruct (negb (nonempty name)); [apply sends_ret|].
  apply sends_bind; [apply sends_lift|intros sanitized].
  destruct (negb (forallb hashable _)); [apply sends_raise|].
  destruct (existsb _ _); [apply sends_ret|].
  apply sends_bind; [apply sends_log|intros _].
  apply sends_bind; [apply sends_update_database, HP|intros; apply sends_lift].
Qed.

Lemma sends_process_item token database_id has_views st item :
  sends (is_mirror_request token database_id)
    (process_item token database_id has_views st item).
Proof.
  unfold process_item.
  apply sends_bind.
  { destruct (truthy (dict_get item (py "url"))); [|apply sends_ret].
    apply sends_bind; [apply sends_lift|intros url].
    apply sends_bind; [apply sends_lift|intros [[|c s]|]]; apply sends_ret. }
  intros [item' urls].
  apply sends_bind; [apply sends_lift|intros title].
  apply sends_bind; [apply sends_lift|intros date_key].
  apply sends_bind.
  { destruct title; first [apply sends_ret|apply sends_raise]. }
  intros dates. apply sends_bind; [apply sends_log|intros _].
  apply sends_bind.
  { destruct (truthy (dict_get item' (py "author"))); [|apply sends_ret].
    apply sends_bind; [apply sends_lift|intros author].
    destruct author; first [apply sends_raise|apply sends_ensure_select_option, mirror_schema_update]. }
  intros options. apply sends_bind; [apply sends_lift|intros properties].
  apply sends_bind; [apply sends_find_existing_page, mirror_query|intros page_id].
  destruct (truthy page_id).
  - apply sends_bind; [apply sends_update_page|intros _].
    apply sends_bind; [apply sends_log|intros; apply sends_ret].
  - apply sends_bind; [apply sends_create_page|intros _].
    apply sends_bind; [apply sends_log|intros; apply sends_ret].
Qed.

Lemma sends_preflight token database_id :
  sends (is_mirror_request token database_id) (preflight token database_id).
Proof.
  unfold preflight.
  apply sends_bind.
  { unfold fetch_database. apply sends_notion_request. split; [done|]. by left. }
  intros database. apply sends_bind.
  { unfold ensure_url_property.
    apply sends_bind; [apply sends_lift|intros prop].
    destruct (truthy prop).
    - apply sends_bind; [apply sends_lift|intros actual].
      destruct (negb _); [apply sends_raise|apply sends_ret].
    - apply sends_bind; [apply sends_log|intros _]. apply sends_update_database, mirror_schema_update. }
  intros database'. apply sends_bind; [apply sends_lift|intros _].
  apply sends_bind; [apply sends_lift|intros author_options].
  apply sends_bind; [|intros; apply sends_ret].
  unfold validate_optional_property_type.
  apply sends_bind; [apply sends_lift|intros prop].
  destruct (negb (truthy prop)); [apply sends_ret|].
  apply sends_bind; [apply sends_lift|intros actual].
  destruct (negb _); [|apply sends_ret].
  apply sends_bind; [apply sends_log|intros; apply sends_ret].
Qed.

Lemma retirement_is_mirror token database_id req :
  is_retirement_request token database_id req →
  is_mirror_request token database_id req.
Proof.
  intros [(Hm & Hu & Ht & payload & Hp & Hf & _)|[page_id ->]].
  - split; [done|]. right. right. left. split; [done|]. split; [done|].
    by exists payload, pinned_filter.
  - split; [done|]. do 4 right. split; [done|]. by eexists page_id, _.
Qed.

Lemma sends_reconcile fuel token database_id items :
  sends (is_mirror_request token database_id)
    (reconcile fuel token database_id items).
Proof.
  unfold reconcile.
  apply sends_bind; [apply sends_preflight|intros [author_options has_views]].
  apply sends_bind.
  { apply sends_foldM. intros st item. apply sends_process_item. }
  intros st. apply sends_bind; [apply sends_log|intros _].
  apply sends_bind.
  { eapply sends_weaken; [apply retirement_is_mirror|].
    unfold disable_missing_top. apply sends_disable_loop; by vm_compute. }
  intros disabled. do 3 (apply sends_bind; [apply sends_log|intros _]).
  apply sends_log.
Qed.

(** X12. A run never leaves the mirror it was given.  Whatever the source
    site, the browser and the Notion API answer, every request that [main]
    sends to the API carries the token of [NOTION_TOKEN] and is one of five:
    the reading of the database [NOTION_DB_ID], without a body; an update of
    its schema, whose body holds the properties only; a query of its pages,
    whose body holds a filter; the creation of a page, whose body names the
    database as the parent and holds the properties and the icon; or the
    update of a page, whose body holds the properties and the icon and no
    other key.  No request archives a page, and no page is created under
    another database. *)
Theorem main_stays_on_the_mirror fuel h :
  ∃ new,
    (run (main fuel) h).2 = h ++ new
    ∧ Forall (is_mirror_request (default [] NOTION_TOKEN) (default [] NOTION_DB_ID))
             (requests new).
Proof.
  unfold main. rewrite run_bind.
  destruct (sends_load_items (λ _, False) fuel h) as (new & Hnew & Hreq).
  destruct (run (load_items fuel) h) as [[[[token db] items]| |] h1] eqn:Hrun;
    cbn [snd] in Hnew; subst h1.
  - destruct (load_items_return fuel h _ _ _ _ Hrun) as (-> & -> & _).
    cbn [default from_option id].
    destruct (sends_reconcile fuel token db items (h ++ new)) as (new2 & Hn2 & F2).
    exists (new ++ new2). rewrite Hn2, <- app_assoc. split; [done|].
    rewrite requests_app. apply Forall_app. split; [|done].
    eapply Forall_impl; [exact Hreq|]. by intros r [].
  - exists new. split; [done|]. eapply Forall_impl; [exact Hreq|]. by intros r [].
  - exists new. split; [done|]. eapply Forall_impl; [exact Hreq|]. by intros r [].
Qed.

End MirrorFrame.

(** ** The items that a crawl returns *)

Lemma is_top_set_date v item :
  is_top (dict_set (py "date") v item) = is_top item.
Proof. unfold is_top, dict_get. by rewrite assoc_dict_set_ne. Qed.

Lemma is_top_set_url v item :
  is_top (dict_set (py "url") v item) = is_top item.
Proof. unfold is_top, dict_get. by rewrite assoc_dict_set_ne. Qed.

Section CrawlResult.
Context `{HostChecks} `{Html} `{Environ} `{World}.

Lemma remembered_distinct items seen : remembered items seen → distinct_pinned items.
Proof. intros (Ht & keys & Hk & Hn & _). split; [done|]. by exists keys. Qed.

(** The end of the two loop bodies: the item is kept unless its key was
    seen. *)
Lemma remember_keeps (m : M dict) items seen (new_top : N) :
  remembered items seen →
  (∀ h it h', run m h = (Return it, h') → is_top it = true) →
  ∀ h st h',
    run (item ← m;
         key ← lift (item_key item);
         if bool_decide (key ∈ seen) then mret (items, seen, new_top)
         else mret (items ++ [item], {[ key ]} ∪ seen, new_top + 1)) h
    = (Return st, h') →
    remembered st.1.1 st.1.2.
Proof.
  intros Hinv Hm h st h' Hrun.
  apply run_bind_Return in Hrun as (it & h1 & Hit & Hrun).
  apply Hm in Hit.
  apply run_bind_Return in Hrun as (key & h2 & Hkey & Hrun).
  destruct (item_key it) as [key'|] eqn:Ek; [|done].
  cbn [lift] in Hkey. rewrite run_ret in Hkey. injection Hkey as -> ->.
  case_bool_decide as Hseen; rewrite run_ret in Hrun; injection Hrun as <- _;
    cbn [fst snd]; [done|].
  destruct Hinv as (Ht & keys & Hk & Hn & Hs). split.
  - apply Forall_app. split; [done|]. by constructor.
  - exists (keys ++ [key]). split; [|split].
    + apply Forall2_app; [done|]. by constructor.
    + apply NoDup_app. split; [done|]. split; [|apply NoDup_singleton].
      intros k Hk1 Hk2. apply list_elem_of_singleton in Hk2 as ->.
      by apply Hseen, Hs.
    + intros k Hk1. apply elem_of_app in Hk1 as [Hk1|Hk1]; [set_solver|].
      apply list_elem_of_singleton in Hk1 as ->. set_solver.
Qed.

Lemma collect_top_http_keeps st item h st' h' :
  remembered st.1.1 st.1.2 → is_top item = true →
  run (collect_top_http st item) h = (Return st', h') →
  remembered st'.1.1 st'.1.2.
Proof.
  destruct st as [[items seen] new_top]. cbn [fst snd]. intros Hinv Htop.
  unfold collect_top_http. apply remember_keeps; [done|].
  clear h st' h'. intros h it h'.
  destruct (dict_get item (py "url")) as [|b|n|[|c s]|l|d]; cbv beta iota;
    try (destruct (truthy _); [by cbn|rewrite run_ret; by intros [= <- _]]).
  intros Hrun. apply run_bind_Return in Hrun as (w & h1 & _ & Hrun).
  rewrite run_ret in Hrun. injection Hrun as <- _.
  destruct (truthy_opt w); [by rewrite is_top_set_date|done].
Qed.

Lemma collect_top_keeps url st item h st' h' :
  remembered st.1.1 st.1.2 → is_top item = true →
  run (collect_top url st item) h = (Return st', h') →
  remembered st'.1.1 st'.1.2.
Proof.
  destruct st as [[items seen] new_top]. cbn [fst snd]. intros Hinv Htop.
  unfold collect_top. intros Hrun.
  apply run_bind_Return in Hrun as (row_index & h1 & _ & Hrun).
  apply run_bind_Return in Hrun as ([written_at detail_url] & h2 & _ & Hrun).
  revert Hrun. apply remember_keeps; [done|].
  clear h st' h' h1 h2. intros h it h'.
  set (dated := if truthy written_at then _ else _).
  assert (Hd : is_top dated = true).
  { unfold dated. destruct (truthy written_at); [by rewrite is_top_set_date|done]. }
  destruct (truthy detail_url).
  - intros Hrun. apply run_bind_Return in Hrun as (n & h1 & _ & Hrun).
    rewrite run_ret in Hrun. injection Hrun as <- _. by rewrite is_top_set_url.
  - rewrite run_ret. by intros [= <- _].
Qed.

Lemma foldM_keeps (f : list dict * gset pystr * N → dict → M (list dict * gset pystr * N)) :
  (∀ st item h st' h',
     remembered st.1.1 st.1.2 → is_top item = true →
     run (f st item) h = (Return st', h') → remembered st'.1.1 st'.1.2) →
  ∀ l st h st' h',
    Forall (λ item, is_top item = true) l →
    remembered st.1.1 st.1.2 →
    run (foldM f st l) h = (Return st', h') → remembered st'.1.1 st'.1.2.
Proof.
  intros Hf. induction l as [|item l IH]; intros st h st' h' Hl Hinv; cbn [foldM].
  - rewrite run_ret. by intros [= <- _].
  - intros Hrun. apply run_bind_Return in Hrun as (st1 & h1 & Hone & Hrest).
    apply Forall_cons in Hl as [Hi Hl].
    eapply IH; [exact Hl| |exact Hrest].
    eapply Hf; [exact Hinv|exact Hi|exact Hone].
Qed.

Lemma filter_pinned (l : list dict) :
  Forall (λ item, is_top item = true) (filter (λ item, is_top item = true) l).
Proof.
  apply Forall_forall. intros x Hx. by apply list_elem_of_filter in Hx as [Hx _].
Qed.

Lemma crawl_http_loop_keeps fuel :
  ∀ page items seen h out h',
    remembered items seen →
    run (crawl_http_loop fuel page items seen) h = (Return out, h') →
    distinct_pinned out.
Proof.
  induction fuel as [|fuel IH]; intros page items seen h out h' Hinv;
    cbn [crawl_http_loop]; [done|].
  intros Hrun.
  apply run_bind_Return in Hrun as (url & h1 & _ & Hrun).
  apply run_bind_Return in Hrun as ([] & h2 & _ & Hrun).
  apply run_bind_Return in Hrun as (html_text & h3 & _ & Hrun).
  destruct (negb (truthy_opt html_text)).
  { rewrite run_bind, run_log, run_ret in Hrun. injection Hrun as <- _.
    by eapply remembered_distinct. }
  apply run_bind_Return in Hrun as (page_items & h4 & _ & Hrun).
  apply run_bind_Return in Hrun as ([] & h5 & _ & Hrun).
  destruct page_items as [|item0 rest].
  { rewrite run_ret in Hrun. injection Hrun as <- _. by eapply remembered_distinct. }
  apply run_bind_Return in Hrun as ([[items1 seen1] new_top] & h6 & Hfold & Hrun).
  apply (foldM_keeps collect_top_http collect_top_http_keeps) in Hfold;
    [|apply filter_pinned|exact Hinv].
  cbn [fst snd] in Hfold.
  apply run_bind_Return in Hrun as ([] & h7 & _ & Hrun).
  destruct (existsb _ _).
  - rewrite run_bind, run_log, run_ret in Hrun. injection Hrun as <- _.
    by eapply remembered_distinct.
  - by eapply IH.
Qed.

Lemma crawl_loop_keeps fuel :
  ∀ page items seen h out h',
    remembered items seen →
    run (crawl_loop fuel page items seen) h = (Return out, h') →
    distinct_pinned out.
Proof.
  induction fuel as [|fuel IH]; intros page items seen h out h' Hinv;
    cbn [crawl_loop]; [done|].
  intros Hrun.
  apply run_bind_Return in Hrun as (url & h1 & _ & Hrun).
  apply run_bind_Return in Hrun as ([] & h2 & _ & Hrun).
  apply run_bind_Return in Hrun as (loaded & h3 & _ & Hrun).
  destruct loaded as [page_rows|].
  2:{ rewrite run_bind, run_log, run_ret in Hrun. injection Hrun as <- _.
      by eapply remembered_distinct. }
  apply run_bind_Return in Hrun as (page_items & h4 & _ & Hrun).
  apply run_bind_Return in Hrun as ([] & h5 & _ & Hrun).
  destruct page_items as [|item0 rest].
  { rewrite run_ret in Hrun. injection Hrun as <- _. by eapply remembered_distinct. }
  apply run_bind_Return in Hrun as ([[items1 seen1] new_top] & h6 & Hfold & Hrun).
  apply (foldM_keeps (collect_top url) (collect_top_keeps url)) in Hfold;
    [|apply filter_pinned|exact Hinv].
  cbn [fst snd] in Hfold.
  apply run_bind_Return in Hrun as ([] & h7 & _ & Hrun).
  destruct (existsb _ _).
  - rewrite run_bind, run_log, run_ret in Hrun. injection Hrun as <- _.
    by eapply remembered_distinct.
  - by eapply IH.
Qed.

Lemma remembered_nil : remembered [] ∅.
Proof.
  split; [constructor|]. exists []. split; [constructor|].
  split; [constructor|]. intros k Hk. by apply elem_of_nil in Hk.
Qed.

(** X13. The items of a crawl are pinned and pairwise different.  When
    [crawl_top_items] returns, in the browser mode or in the HTTP mode,
    every item of its result has a true [top], and no two items have the
    same key, the key of an item being its link or, without a link, its
    title and date joined by a bar. *)
Theorem crawl_returns_distinct_pinned_items fuel h items h' :
  run (crawl_top_items fuel) h = (Return items, h') →
  distinct_pinned items.
Proof.
  unfold crawl_top_items, crawl_top_items_http.
  destruct (negb playwright_installed).
  - intros Hrun. apply run_bind_Return in Hrun as ([] & h1 & _ & Hrun).
    eapply crawl_http_loop_keeps; [apply remembered_nil|exact Hrun].
  - intros Hrun. apply run_bind_Return in Hrun as ([] & h1 & _ & Hrun).
    apply run_bind_Return in Hrun as (launcher & h2 & _ & Hrun).
    apply run_bind_Return in Hrun as ([] & h3 & _ & Hrun).
    apply run_bind_Return in Hrun as (out & h4 & Hloop & Hrun).
    apply run_bind_Return in Hrun as ([] & h5 & _ & Hrun).
    rewrite run_ret in Hrun. injection Hrun as <- _.
    eapply crawl_loop_keeps; [apply remembered_nil|exact Hloop].
Qed.

End CrawlResult.

Lemma crawl_returns_distinct_pinned_items_witness :
  ∃ items h',
    run (@crawl_top_items lenient_checks bar_html file_environ
           world_of_three_pages 3) [] = (Return items, h')
    ∧ length items = 3%nat
    ∧ @distinct_pinned world_of_three_pages items.
Proof.
  eexists _, _. split; [by vm_compute|]. split; [done|].
  eapply (@crawl_returns_distinct_pinned_items lenient_checks bar_html file_environ
            world_of_three_pages 3 []).
  by vm_compute.
Defined.

(** ** Where the answer of the identity resolution comes from *)

Section Resolution.
Context `{HostChecks} `{World}.

Lemma notion_request_return method url token payload h data h' :
  run (notion_request method url token payload) h = (Return data, h') →
  ∃ before,
    h' = before ++ [EvNotion (make_request method url token payload)
                      (HttpOk (Some data))].
Proof.
  intros Hrun. apply notion_request_returns in Hrun as (fails & -> & _).
  eexists. by rewrite app_assoc.
Qed.

Lemma query_database_return token database_id filter_payload h results h' :
  run (query_database token database_id filter_payload) h = (Return results, h') →
  ∃ before data,
    h' = before ++ [EvNotion (make_request (py "POST")
                                (database_url database_id ++ py "/query") token
                                (Some (VDict [(py "filter", filter_payload)])))
                      (HttpOk (Some data))]
    ∧ py_get data (py "results") (VList []) = Ok results.
Proof.
  unfold query_database. intros Hrun.
  apply run_bind_Return in Hrun as (data & h1 & Hreq & Hget).
  apply notion_request_return in Hreq as [before ->].
  destruct (py_get data (py "results") (VList [])) as [r|] eqn:Er; [|done].
  cbn [lift] in Hget. rewrite run_ret in Hget. injection Hget as -> <-.
  by exists before, data.
Qed.

(** One tier of the resolution: a query, and what follows when it does
    not decide. *)
Lemma tier_return token database_id filter_payload (duplicate rest : M value)
    h page_id h' :
  run (results ← query_database token database_id filter_payload;
       n ← lift (py_len results);
       if (n =? 1)%nat then lift (first_id results)
       else if (1 <? n)%nat then duplicate else rest) h
  = (Return page_id, h') →
  (∃ before e, h' = before ++ [e] ∧ unique_match token database_id page_id e)
  ∨ (∃ h1, run duplicate h1 = (Return page_id, h'))
  ∨ (∃ h1, run rest h1 = (Return page_id, h')).
Proof.
  intros Hrun.
  apply run_bind_Return in Hrun as (results & h1 & Hq & Hrun).
  apply query_database_return in Hq as (before & data & -> & Hres).
  apply run_bind_Return in Hrun as (n & h2 & Hn & Hrun).
  destruct (py_len results) as [n'|] eqn:Elen; [|done].
  cbn [lift] in Hn. rewrite run_ret in Hn. injection Hn as -> <-.
  destruct (Nat.eqb_spec n 1) as [->|_].
  - destruct (first_id results) as [pid|] eqn:Eid; [|done].
    cbn [lift] in Hrun. rewrite run_ret in Hrun. injection Hrun as <- <-.
    left. eexists _, _. split; [done|]. by exists filter_payload, data, results.
  - destruct (1 <? n)%nat; [right; left|right; right]; by eexists.
Qed.

(** X14. A page is found only by a unique match.  When
    [find_existing_page] returns a true identifier, the last thing that
    happened is a query of the pages of the database that was answered with
    exactly one page, and the identifier is the one of that page: a tier
    that finds several pages, or none, never names a page. *)
Theorem found_page_is_a_unique_match
    token database_id detail_url title date_iso h page_id h' :
  run (find_existing_page token database_id detail_url title date_iso) h
  = (Return page_id, h') →
  truthy page_id = true →
  ∃ before e, h' = before ++ [e] ∧ unique_match token database_id page_id e.
Proof.
  intros Hrun Htrue.
  assert (Hnone : ∀ (m : M unit) h1,
            run (_ ← m; mret VNone) h1 ≠ (Return page_id, h')).
  { intros m h1 Hm. apply run_bind_Return in Hm as ([] & h2 & _ & Hm).
    rewrite run_ret in Hm. injection Hm as <- _. done. }
  assert (Hret : ∀ h1, run (mret VNone : M value) h1 ≠ (Return page_id, h')).
  { intros h1. rewrite run_ret. intros [= <- _]. done. }
  set (by_title :=
    if truthy title then
      results ← query_database token database_id
        (VDict [(py "property", VStr TITLE_PROPERTY);
                (py "title", VDict [(py "equals", title)])]);
      n ← lift (py_len results);
      if (n =? 1)%nat then lift (first_id results) else mret VNone
    else mret VNone).
  assert (Htitle : ∀ h1, run by_title h1 = (Return page_id, h') →
            ∃ before e, h' = before ++ [e] ∧ unique_match token database_id page_id e).
  { intros h1. unfold by_title. destruct (truthy title); [|by intros ?%Hret].
    intros Ht.
    assert (Ht' : run (results ← query_database token database_id
                         (VDict [(py "property", VStr TITLE_PROPERTY);
                                 (py "title", VDict [(py "equals", title)])]);
                       n ← lift (py_len results);
                       if (n =? 1)%nat then lift (first_id results)
                       else if (1 <? n)%nat then mret VNone else mret VNone) h1
                  = (Return page_id, h')).
    { rewrite <- Ht. rewrite !run_bind. destruct (run (query_database _ _ _) h1)
        as [[results| |] h2]; [|done..].
      rewrite !run_bind. destruct (run (lift (py_len results)) h2)
        as [[n| |] h3]; [|done..].
      by destruct (n =? 1)%nat, (1 <? n)%nat. }
    apply tier_return in Ht' as [Hu|[[h2 Hd]|[h2 Hd]]]; [done|by apply Hret in Hd..]. }
  set (by_title_and_date :=
    if truthy title && truthy date_iso then
      results ← query_database token database_id
        (VDict [(py "and",
                 VList [VDict [(py "property", VStr TITLE_PROPERTY);
                               (py "title", VDict [(py "equals", title)])];
                        VDict [(py "property", VStr DATE_PROPERTY);
                               (py "date", VDict [(py "equals", date_iso)])]])]);
      n ← lift (py_len results);
      if (n =? 1)%nat then lift (first_id results)
      else if (1 <? n)%nat then
        _ ← log (pyu "제목+작성일 중복 감지: %s (%s)") [title; date_iso];
        mret VNone
      else by_title
    else by_title).
  assert (Hboth : ∀ h1, run by_title_and_date h1 = (Return page_id, h') →
            ∃ before e, h' = before ++ [e] ∧ unique_match token database_id page_id e).
  { intros h1. unfold by_title_and_date.
    destruct (truthy title && truthy date_iso); [|apply Htitle].
    intros Ht. apply tier_return in Ht as [Hu|[[h2 Hd]|[h2 Hd]]];
      [done|by apply Hnone in Hd|by eapply Htitle]. }
  change (run (if truthy detail_url then
                 results ← query_database token database_id
                   (VDict [(py "property", VStr URL_PROPERTY);
                           (py "url", VDict [(py "equals", detail_url)])]);
                 n ← lift (py_len results);
                 if (n =? 1)%nat then lift (first_id results)
                 else if (1 <? n)%nat then
                   _ ← log (pyu "URL 중복 감지: %s") [detail_url];
                   mret VNone
                 else by_title_and_date
               else by_title_and_date) h = (Return page_id, h')) in Hrun.
  destruct (truthy detail_url); [|by eapply Hboth].
  apply tier_return in Hrun as [Hu|[[h2 Hd]|[h2 Hd]]];
    [done|by apply Hnone in Hd|by eapply Hboth].
Qed.

End Resolution.

Lemma found_page_is_a_unique_match_witness :
  ∃ h',
    run (@find_existing_page lenient_checks world_with_one_match (py "t") (py "d")
           (VStr notice_url) (VStr (py "Notice")) VNone) []
    = (Return (VStr (py "p1")), h')
    ∧ ∃ before e, h' = before ++ [e]
                  ∧ unique_match (py "t") (py "d") (VStr (py "p1")) e.
Proof.
  eexists. split; [by vm_compute|].
  eapply (@found_page_is_a_unique_match lenient_checks world_with_one_match
            (py "t") (py "d")
            (VStr notice_url) (VStr (py "Notice")) VNone []); by vm_compute.
Defined.

(** ** The address of a list page is no link to a notice *)

Section ListAddress.
Context `{HostChecks}.

(** X15. The address of a list page is never taken for the link of a
    notice.  For every page number, [build_list_url] succeeds; the three
    parameters it writes are the ones that [normalize_detail_url] drops, so
    that the address normalises to the bare address of the list; and
    [is_detail_url] refuses it. *)
Theorem list_address_is_no_detail_link (page : N) :
  ∃ url,
    build_list_url page = Ok url
    ∧ normalize_detail_url (Some url) = Ok (Some BASE_URL)
    ∧ is_detail_url url = Ok false.
Proof.
  exists (list_url page). split; [apply build_list_url_total|].
  set (p := py "/ko/scholarship-notice").
  set (q := py "introPkId=All&option=TITLE&page=" ++ str_of_N page).
  assert (Hurl : list_url page
                 = py "https" ++ py ":" ++ py "//" ++ py "www.sogang.ac.kr"
                   ++ p ++ query_suffix q).
  { unfold list_url, BASE_URL, query_suffix, p, q.
    assert (nonempty (py "introPkId=All&option=TITLE&page=" ++ str_of_N page) = true)
      as -> by (by vm_compute).
    lit. cbn [app]. done. }
  assert (Hc : canonical_parts (py "https") (py "www.sogang.ac.kr") p).
  { split; try (by vm_compute); try done.
    - exists 104, [116; 116; 112; 115]. by vm_compute.
    - lit. free_solve.
    - lit. free_solve.
    - right. by exists (py "ko/scholarship-notice").
    - unfold p. lit. free_solve.
    - unfold p. lit. free_solve. }
  pose proof (uint_chars_safe (N.to_uint page)) as Hsafe. fold (str_of_N page) in Hsafe.
  assert (Hq1 : free (is_char (ch "#")) q).
  { unfold q. lit. cbn [app]. free_solve.
    eapply safe_free; [|exact Hsafe]. intros c0 Hc0. chars. }
  assert (Hq2 : free is_unsafe_url_byte q).
  { unfold q. lit. cbn [app]. free_solve.
    eapply safe_free; [|exact Hsafe]. intros c0 Hc0. chars. }
  pose proof (urlparse_canonical _ _ _ _ Hc Hq1 Hq2) as Hparse.
  rewrite <- Hurl in Hparse.
  assert (Hitems : urlencode [(py "introPkId", py "All"); (py "option", py "TITLE");
                              (py "page", str_of_N page)] = Ok q).
  { unfold urlencode. cbn [quote_items].
    rewrite !quote_plus_safe by (first [exact Hsafe | by vm_compute]).
    cbn [mbind result_mbind result_bind join]. unfold q. lit. cbn [app]. done. }
  assert (Hqs : parse_qs q = [(py "introPkId", [py "All"]); (py "option", [py "TITLE"]);
                              (py "page", [str_of_N page])]).
  { unfold parse_qs.
    destruct (parse_qsl_urlencode _ _ Hitems) as [-> _]; [|done].
    repeat (constructor; [first [done|apply str_of_N_nonempty]|]). constructor. }
  split.
  - rewrite normalize_unfold.
    assert (Hlast : ∃ s' c, list_url page = s' ++ [c] ∧ is_space c = false).
    { pose proof (str_of_N_nonempty page) as Hne.
      destruct (str_of_N page) as [|c0 ds] eqn:Eds using rev_ind; [done|]. clear IHds.
      exists (BASE_URL ++ py "?introPkId=All&option=TITLE&page=" ++ ds), c0.
      split.
      - unfold list_url. rewrite Eds. by rewrite <- !app_assoc.
      - apply safe_not_space. rewrite forallb_app in Hsafe.
        apply andb_true_iff in Hsafe as [_ Hc0]. cbn in Hc0.
        by rewrite andb_true_r in Hc0. }
    destruct Hlast as (s' & c & Es & Hcs).
    assert (Hr : rstrip (list_url page) = list_url page).
    { rewrite Es. by apply rstrip_snoc. }
    rewrite (strip_of_rstripped _ Hr).
    assert (Hhead : list_url page = 104 :: drop 1 (list_url page)).
    { rewrite Hurl. by lit. }
    assert (Hl : lstrip (list_url page) = list_url page).
    { rewrite Hhead at 1. cbn [lstrip].
      assert (is_space 104 = false) as -> by (by vm_compute).
      by rewrite <- Hhead. }
    rewrite Hl.
    assert (nonempty (list_url page) = true) as ->
      by (rewrite Hhead; apply nonempty_cons).
    cbn [negb].
    assert (Hlow : ∃ low, str_lower (list_url page) = 104 :: low).
    { rewrite Hhead. by eexists. }
    destruct Hlow as [low ->].
    assert (bool_decide (104 :: low ∈ placeholder_links) = false) as ->.
    { apply bool_decide_eq_false_2. unfold placeholder_links.
      rewrite !elem_of_cons, elem_of_nil. lit.
      intros [E|[E|[E|[E|[]]]]]; discriminate E. }
    assert (existsb (λ x, startswith x (104 :: low)) script_prefixes = false)
      as -> by (by vm_compute).
    unfold normalize_tail.
    assert (startswith (py "//") (list_url page) = false) as ->
      by (rewrite Hhead; by vm_compute).
    rewrite Hparse.
    cbn [mbind result_mbind result_bind scheme netloc path query].
    rewrite bool_decide_eq_false_2
      by (intros Hin; apply (bool_decide_eq_true_2 _) in Hin; by vm_compute in Hin).
    assert (negb (nonempty (py "https")) || negb (nonempty (py "www.sogang.ac.kr"))
            = false) as -> by (by vm_compute).
    cbn [mbind result_mbind result_bind scheme netloc path query].
    rewrite Hqs.
    assert (query_items [(py "introPkId", [py "All"]); (py "option", [py "TITLE"]);
                         (py "page", [str_of_N page])] = []) as -> by (by vm_compute).
    assert (urlencode [] = Ok []) as -> by done.
    cbn [mbind result_mbind result_bind].
    rewrite (urlunparse_canonical _ _ _ _ Hc).
    unfold query_suffix. change (nonempty []) with false. by rewrite app_nil_r.
  - unfold is_detail_url.
    assert (nonempty (list_url page) = true) as ->.
    { rewrite Hurl. by lit. }
    cbn [negb]. rewrite Hparse. cbn [mbind result_mbind result_bind path query].
    assert (bool_decide (is_Some (re_search match_detail_path p)) = false) as ->
      by (by vm_compute).
    by rewrite Hqs.
Qed.

End ListAddress.

(** ** The variables of the [.env] file *)

Lemma setdefault_spec key value env env' :
  setdefault key value env = Ok env' →
  env' = match env !! key with Some _ => env | None => <[ key := value ]> env end.
Proof.
  unfold setdefault. destruct (negb (fs_encodable key)); [done|].
  destruct (env !! key); [by intros [= <-]|].
  destruct (negb (fs_encodable value)); [done|].
  destruct (contains 0 key || contains 0 value); [done|]. by intros [= <-].
Qed.

Lemma load_lines_only_adds lines :
  ∀ env,
    env ⊆ (load_lines lines env).2
    ∧ ∀ key value,
        (load_lines lines env).2 !! key = Some value →
        env !! key = Some value
        ∨ (env !! key = None ∧ first_entry key lines = Some value).
Proof.
  induction lines as [|line rest IH]; intros env; cbn [load_lines first_entry].
  - split; [done|]. intros key value Hk. by left.
  - destruct (dotenv_entry line) as [[k v]|]; [|apply IH].
    destruct (setdefault k v env) as [env'|e] eqn:Es.
    2:{ cbn [snd]. split; [done|]. intros key value Hk. by left. }
    apply setdefault_spec in Es.
    destruct (IH env') as [IH1 IH2]. destruct (env !! k) as [w|] eqn:Ek; subst env'.
    + split; [done|]. intros key value Hk.
      destruct (IH2 key value Hk) as [Hin|[Hnone Hfirst]]; [by left|].
      right. split; [done|].
      destruct (str_eqb k key) eqn:E; [|done].
      apply str_eqb_true in E as ->. congruence.
    + split.
      * etrans; [|exact IH1]. by apply insert_subseteq.
      * intros key value Hk.
        destruct (IH2 key value Hk) as [Hin|[Hnone Hfirst]].
        -- destruct (decide (k = key)) as [->|Hne].
           ++ rewrite lookup_insert_eq in Hin. injection Hin as ->.
              right. split; [done|]. by rewrite str_eqb_refl.
           ++ rewrite lookup_insert_ne in Hin by done. by left.
        -- destruct (decide (k = key)) as [->|Hne].
           ++ by rewrite lookup_insert_eq in Hnone.
           ++ rewrite lookup_insert_ne in Hnone by done. right. split; [done|].
              by apply str_eqb_false in Hne as ->.
Qed.

(** X17. [load_dotenv] only adds.  Whatever the file holds and however the
    loading ends, every variable that was set before keeps its value, and a
    variable that is set afterwards and was not set before has the value of
    the first line of the file that gives it one.  Without a file the
    environment is unchanged. *)
Theorem load_dotenv_only_adds file env :
  env ⊆ (load_dotenv file env).2
  ∧ (∀ key value,
       (load_dotenv file env).2 !! key = Some value →
       env !! key = Some value
       ∨ (env !! key = None
          ∧ ∃ lines, file = Some lines ∧ first_entry key lines = Some value))
  ∧ (file = None → load_dotenv file env = (Ok tt, env)).
Proof.
  destruct file as [lines|]; cbn [load_dotenv snd].
  - destruct (load_lines_only_adds lines env) as [H1 H2].
    split; [done|]. split; [|done]. intros key value Hk.
    destruct (H2 key value Hk) as [Hin|[Hnone Hfirst]]; [by left|].
    right. split; [done|]. by exists lines.
  - split; [done|]. split; [|done]. intros key value Hk. by left.
Qed.

Lemma load_dotenv_only_adds_witness :
  ({[ py "A" := py "1" ]} : gmap pystr pystr) !! py "B" = Some (py "2")
  ∨ (({[ py "A" := py "1" ]} : gmap pystr pystr) !! py "B" = None
     ∧ ∃ lines,
         Some [py "A=0" ++ [10]; py "# B=1" ++ [10]; py "B = 2" ++ [10]; py "B=3"]
         = Some lines
         ∧ first_entry (py "B") lines = Some (py "2")).
Proof.
  apply (proj1 (proj2 (load_dotenv_only_adds
           (Some [py "A=0" ++ [10]; py "# B=1" ++ [10]; py "B = 2" ++ [10]; py "B=3"])
           {[ py "A" := py "1" ]})) (py "B") (py "2")).
  by vm_compute.
Defined.

(** ** Quoted values *)

Lemma strip_clean s c r x :
  s = c :: r ++ [x] → is_space c = false → is_space x = false → strip s = s.
Proof.
  intros -> Hc Hx. unfold strip. cbn [lstrip]. rewrite Hc.
  by rewrite app_comm_cons, rstrip_snoc.
Qed.

Lemma rstrip_drop_space s x : is_space x = true → rstrip (s ++ [x]) = rstrip s.
Proof.
  intros Hx. unfold rstrip. rewrite rev_app_distr. cbn [rev app lstrip].
  by rewrite Hx.
Qed.

Lemma lstrip_head c s : is_space c = false → lstrip (c :: s) = c :: s.
Proof. intros Hc. cbn [lstrip]. by rewrite Hc. Qed.

(** X18. Quotes protect a value.  A line made of a name, an equals sign, a
    value between two double quotes or two single quotes, and a line feed
    gives the name that value, whatever the value holds: white space at its
    ends, equals signs, hash signs and quotes are kept.  The name is any
    text without an equals sign that neither begins nor ends with white
    space and does not begin with a hash sign. *)
Theorem dotenv_quoted_value_round_trip (key value : pystr) (quote_char : N) :
  quote_char = 34 ∨ quote_char = 39 →
  key ≠ [] → strip key = key → free (is_char (ch "=")) key →
  startswith (py "#") key = false →
  dotenv_entry (key ++ py "=" ++ [quote_char] ++ value ++ [quote_char] ++ [10])
  = Some (key, value).
Proof.
  intros Hq Hne Hstrip Hfree Hhash.
  assert (Hqs : is_space quote_char = false) by (by destruct Hq as [-> | ->]).
  assert (Hquoted : strip (quote_char :: value ++ [quote_char])
                    = quote_char :: value ++ [quote_char]).
  { by eapply strip_clean. }
  destruct key as [|k0 key']; [done|].
  assert (Hk0 : is_space k0 = false).
  { destruct (is_space k0) eqn:E; [|done]. exfalso.
    apply (f_equal (@length N)) in Hstrip. unfold strip in Hstrip.
    cbn [lstrip] in Hstrip. rewrite E in Hstrip.
    assert (Hle : (length (rstrip (lstrip key')) ≤ length key')%nat).
    { unfold rstrip. rewrite length_rev.
      etrans; [apply lstrip_length|]. rewrite length_rev. apply lstrip_length. }
    cbn [length] in Hstrip. lia. }
  set (line := (k0 :: key') ++ py "=" ++ [quote_char] ++ value ++ [quote_char]).
  assert (Hline : strip (line ++ [10]) = line).
  { unfold strip. unfold line at 1. cbn [app lstrip]. rewrite Hk0.
    change (k0 :: (key' ++ py "=" ++ quote_char :: value ++ [quote_char]) ++ [10])
      with (line ++ [10]).
    rewrite rstrip_drop_space by (by vm_compute).
    unfold line.
    replace ((k0 :: key') ++ py "=" ++ [quote_char] ++ value ++ [quote_char])
      with (((k0 :: key') ++ py "=" ++ [quote_char] ++ value) ++ [quote_char])
      by (by rewrite <- !app_assoc).
    by apply rstrip_snoc. }
  unfold dotenv_entry.
  replace ((k0 :: key') ++ py "=" ++ [quote_char] ++ value ++ [quote_char] ++ [10])
    with (line ++ [10]) by (unfold line; by rewrite <- !app_assoc).
  rewrite Hline.
  assert (nonempty line = true) as -> by done.
  assert (startswith (py "#") line = false) as ->.
  { revert Hhash. unfold line. lit. cbn [app startswith]. by rewrite !andb_true_r. }
  cbn [negb orb].
  assert (split_once (ch "=") line
          = Some (k0 :: key', quote_char :: value ++ [quote_char])) as ->.
  { unfold line. lit.
    change (split_once 61 ((k0 :: key') ++ 61 :: quote_char :: value ++ [quote_char])
            = Some (k0 :: key', quote_char :: value ++ [quote_char])).
    by rewrite split_once_app. }
  rewrite Hstrip, Hquoted.
  assert (nonempty (k0 :: key') = true) as -> by done. cbn [negb].
  do 2 f_equal. unfold unquoted.
  assert ((2 <=? length (quote_char :: value ++ [quote_char]))%nat = true) as ->.
  { apply Nat.leb_le. cbn [length]. rewrite length_app. cbn. lia. }
  assert (bool_decide (head (quote_char :: value ++ [quote_char])
                       = last (quote_char :: value ++ [quote_char])) = true) as ->.
  { apply bool_decide_eq_true_2. rewrite app_comm_cons, last_snoc. done. }
  assert (bool_decide (head (quote_char :: value ++ [quote_char])
                       ∈ [Some 34; Some 39]) = true) as ->.
  { apply bool_decide_eq_true_2. cbn [head]. destruct Hq as [-> | ->]; set_solver. }
  assert (Hlen : (length (quote_char :: value ++ [quote_char]) - 2)%nat
                 = length value).
  { cbn [length]. rewrite length_app. cbn [length]. lia. }
  rewrite Hlen. cbn [andb drop]. rewrite drop_0. by rewrite take_app_length.
Qed.

Lemma dotenv_quoted_value_round_trip_witness :
  dotenv_entry (py "NOTION_TOKEN" ++ py "=" ++ [34] ++ py " a=b # c " ++ [34] ++ [10])
  = Some (py "NOTION_TOKEN", py " a=b # c ").
Proof.
  apply (dotenv_quoted_value_round_trip (py "NOTION_TOKEN") (py " a=b # c ") 34);
    first [by left | by vm_compute | lit; free_solve].
Defined.

(** ** The link chosen for a row *)

Section RowLink.
Context `{HostChecks} `{Html} `{Environ}.

(** X19. The link of a row is its first detail link.  When the loop of
    [extract_detail_url_from_row_html] over the links of a row returns a
    link, that link is the normal form of one of the links of the row, it is
    a detail link, and every link before it was passed over: it normalised
    to nothing or to a link that is no detail link.  When the loop returns
    nothing, every link of the row was passed over. *)
Theorem first_detail_href_is_first_match hrefs r :
  first_detail_href hrefs = Ok r →
  match r with
  | Some u =>
      ∃ before href after,
        hrefs = before ++ href :: after
        ∧ Forall (λ x, passed_over (unescape x)) before
        ∧ normalize_detail_url (Some (unescape href)) = Ok (Some u)
        ∧ u ≠ [] ∧ is_detail_url u = Ok true
  | None => Forall (λ x, passed_over (unescape x)) hrefs
  end.
Proof.
  revert r. induction hrefs as [|href rest IH]; intros r; cbn [first_detail_href].
  - intros [= <-]. constructor.
  - destruct (normalize_detail_url (Some (unescape href))) as [candidate|] eqn:En;
      [|done].
    cbn [mbind result_mbind result_bind].
    assert (Hskip : passed_over (unescape href) →
              first_detail_href rest = Ok r →
              match r with
              | Some u =>
                  ∃ before href0 after,
                    href :: rest = before ++ href0 :: after
                    ∧ Forall (λ x, passed_over (unescape x)) before
                    ∧ normalize_detail_url (Some (unescape href0)) = Ok (Some u)
                    ∧ u ≠ [] ∧ is_detail_url u = Ok true
              | None => Forall (λ x, passed_over (unescape x)) (href :: rest)
              end).
    { intros Hp Hr. specialize (IH r Hr). destruct r as [u|].
      - destruct IH as (before & href0 & after & -> & Hb & Hn & Hu).
        exists (href :: before), href0, after. split; [done|].
        split; [by constructor|done].
      - by constructor. }
    destruct candidate as [c|]; [|apply Hskip; by left].
    destruct (nonempty c) eqn:Ec.
    2:{ apply Hskip. right. exists c. split; [done|]. left.
        by apply nonempty_false. }
    destruct (is_detail_url c) as [[|]|] eqn:Ed; [| |done];
      cbn [mbind result_mbind result_bind].
    + intros [= <-]. exists [], href, rest. split; [done|]. split; [constructor|].
      split; [done|]. split; [by apply nonempty_true|done].
    + apply Hskip. right. exists c. split; [done|]. by right.
Qed.

End RowLink.

Lemma first_detail_href_is_first_match_witness :
  ∃ before href after,
    [py "#"; py "/ko/scholarship-notice?page=2"; py "/ko/detail/7?page=2"]
    = before ++ href :: after
    ∧ Forall (λ x, @passed_over lenient_checks (@unescape bar_html x)) before
    ∧ @normalize_detail_url lenient_checks (Some (@unescape bar_html href))
      = Ok (Some (py "https://www.sogang.ac.kr/ko/detail/7"))
    ∧ py "https://www.sogang.ac.kr/ko/detail/7" ≠ []
    ∧ @is_detail_url lenient_checks (py "https://www.sogang.ac.kr/ko/detail/7")
      = Ok true.
Proof.
  apply (@first_detail_href_is_first_match lenient_checks bar_html
           [py "#"; py "/ko/scholarship-notice?page=2"; py "/ko/detail/7?page=2"]
           (Some (py "https://www.sogang.ac.kr/ko/detail/7"))).
  by vm_compute.
Defined.

(** ** The fields written to a page *)

(** X20. What [build_properties] writes.  The properties of a page always
    hold the title and the pinned flag of the item; the date, the author and
    the link are written when the item has a true one and left out
    otherwise, so that no empty date, author or link is sent; the number of
    views is written only when the schema has the field and the item a
    number; and nothing else is written.  It fails only for an item without
    title or pinned flag. *)
Theorem build_properties_fields (item : dict) (has_views_property : bool) :
  match build_properties item has_views_property with
  | Ok props =>
      ∃ title top,
        dict_item item (py "title") = Ok title
        ∧ dict_item item (py "top") = Ok top
        ∧ assoc TITLE_PROPERTY props
          = Some (VDict [(py "title",
                          VList [VDict [(py "text", VDict [(py "content", title)])]])])
        ∧ assoc TOP_PROPERTY props = Some (VDict [(py "checkbox", top)])
        ∧ assoc DATE_PROPERTY props
          = written_if (truthy (dict_get item (py "date")))
              (VDict [(py "date", VDict [(py "start", dict_get item (py "date"))])])
        ∧ assoc AUTHOR_PROPERTY props
          = written_if (truthy (dict_get item (py "author")))
              (VDict [(py "select", VDict [(py "name", dict_get item (py "author"))])])
        ∧ assoc VIEWS_PROPERTY props
          = written_if (has_views_property
                        && negb (is_none (dict_get item (py "views"))))
              (VDict [(py "number", dict_get item (py "views"))])
        ∧ assoc URL_PROPERTY props
          = written_if (truthy (dict_get item (py "url")))
              (VDict [(py "url", dict_get item (py "url"))])
        ∧ Forall (λ kv, kv.1 ∈ written_fields) props
  | Raise e =>
      e = KeyError
      ∧ (assoc (py "title") item = None ∨ assoc (py "top") item = None)
  end.
Proof.
  unfold build_properties, dict_item.
  destruct (assoc (py "title") item) as [title|] eqn:Et;
    cbn [mbind result_mbind result_bind]; [|by split; [|left]].
  destruct (assoc (py "top") item) as [top|] eqn:Eo;
    cbn [mbind result_mbind result_bind]; [|by split; [|right]].
  exists title, top. split; [done|]. split; [done|].
  fold (is_none (dict_get item (py "views"))).
  generalize (dict_get item (py "date")) (dict_get item (py "author"))
             (dict_get item (py "views")) (dict_get item (py "url")).
  intros date author views url.
  destruct (truthy date), (truthy author), has_views_property,
    (is_none views), (truthy url);
    cbn [andb negb written_if];
    (repeat split; [by vm_compute..|]);
    unfold written_fields;
    repeat (apply List.Forall_cons; [apply list_elem_of_In; vm_compute; tauto|]);
    apply List.Forall_nil.
Qed.

(** ** The row of an item *)

Section RowIndex.
Context `{HostChecks}.

Lemma extract_list_row_index index row item :
  extract_list_row index row = Ok (Some item) →
  dict_get item (py "row_index") = VInt (Z.of_nat index).
Proof.
  unfold extract_list_row.
  destruct (length (cell_texts row) <? 5)%nat; [done|].
  destruct (parse_int _) as [views|]; [|done].
  cbn [mbind result_mbind result_bind].
  destruct (negb _ || _); [done|].
  destruct (first_detail_link (link_hrefs row)) as [u|]; [|done].
  cbn. intros [= <-]. by vm_compute.
Qed.

Lemma extract_list_rows_from_offsets page :
  ∀ index items,
    extract_list_rows_from index page = Ok items →
    ∃ offsets,
      Forall2 (λ item k, ∃ row, page !! k = Some row
                                ∧ extract_list_row (index + k) row = Ok (Some item))
              items offsets
      ∧ StronglySorted lt offsets.
Proof.
  induction page as [|row page IH]; intros index items.
  - intros [= <-]. exists []. split; constructor.
  - cbn [extract_list_rows_from mbind result_mbind result_bind].
    destruct (extract_list_row index row) as [r|] eqn:Er; [|done].
    destruct (extract_list_rows_from (S index) page) as [rs|] eqn:Ers; [|done].
    intros [= <-]. destruct (IH _ _ Ers) as (offsets & Hf & Hs).
    assert (Hshift : Forall2 (λ item k, ∃ row0, (row :: page) !! k = Some row0
                        ∧ extract_list_row (index + k) row0 = Ok (Some item))
                       rs (map S offsets)).
    { apply Forall2_fmap_r. eapply Forall2_impl; [exact Hf|].
      intros item k (row0 & Hk & Hrow). exists row0. split; [done|].
      by replace (index + S k)%nat with (S index + k)%nat by lia. }
    assert (Hsorted : StronglySorted lt (map S offsets)).
    { clear -Hs. induction Hs as [|k l Hl IHl Hk]; cbn [map]; constructor; [done|].
      apply Forall_fmap. eapply Forall_impl; [exact Hk|]. intros j Hj. cbn. lia. }
    destruct r as [item|]; [|by exists (map S offsets)].
    exists (0%nat :: map S offsets). split.
    + constructor; [|done]. exists row. split; [done|].
      by replace (index + 0)%nat with index by lia.
    + constructor; [done|]. apply Forall_fmap, Forall_forall. intros j _. cbn. lia.
Qed.

(** X21. The row index of an item names its row.  When [extract_list_rows]
    returns, every item was extracted from a row of the page, the
    [row_index] of the item is the position of that row among all the rows
    of the page, the rows passed over included, and the items come in the
    order of their rows, no row giving two items. *)
Theorem extract_list_rows_indexes_rows (page : list PageRow) (items : list dict) :
  extract_list_rows page = Ok items →
  ∃ positions,
    Forall2 (λ item k,
               ∃ row, page !! k = Some row
                      ∧ extract_list_row k row = Ok (Some item)
                      ∧ dict_get item (py "row_index") = VInt (Z.of_nat k))
            items positions
    ∧ StronglySorted lt positions.
Proof.
  unfold extract_list_rows. intros Hrun.
  destruct (extract_list_rows_from_offsets _ _ _ Hrun) as (positions & Hf & Hs).
  exists positions. split; [|done].
  eapply Forall2_impl; [exact Hf|]. intros item k (row & Hk & Hrow).
  cbn in Hrow. exists row. split; [done|]. split; [done|].
  by eapply extract_list_row_index.
Qed.

End RowIndex.

Lemma extract_list_rows_indexes_rows_witness :
  ∃ items,
    @extract_list_rows lenient_checks
      [{| cell_texts := [py "header"]; link_hrefs := [] |}; undated_row] = Ok items
    ∧ ∃ positions,
        Forall2 (λ item k,
                   ∃ row, [{| cell_texts := [py "header"]; link_hrefs := [] |};
                           undated_row] !! k = Some row
                          ∧ @extract_list_row lenient_checks k row = Ok (Some item)
                          ∧ dict_get item (py "row_index") = VInt (Z.of_nat k))
                items positions
        ∧ StronglySorted lt positions.
Proof.
  eexists. split; [by vm_compute|].
  eapply (@extract_list_rows_indexes_rows lenient_checks
            [{| cell_texts := [py "header"]; link_hrefs := [] |}; undated_row]).
  by vm_compute.
Defined.

(** ** The titles of the items *)

Lemma lstrip_elem x s : x ∈ lstrip s → x ∈ s.
Proof.
  destruct (lstrip_spec s) as (ws & E & _). intros Hx. rewrite E.
  apply elem_of_app. by right.
Qed.

Lemma strip_elem x s : x ∈ strip s → x ∈ s.
Proof.
  unfold strip, rstrip. intros Hx.
  apply list_elem_of_In, in_rev, list_elem_of_In, lstrip_elem in Hx.
  apply list_elem_of_In, in_rev, list_elem_of_In in Hx.
  by apply lstrip_elem.
Qed.

Lemma replace_char_gone a b s : a ≠ b → a ∉ replace_char a b s.
Proof.
  intros Hab Hin. unfold replace_char in Hin.
  apply list_elem_of_fmap in Hin as (c & Hc & _).
  destruct (c =? a) eqn:E; [done|]. apply N.eqb_neq in E. done.
Qed.

Section Titles.
Context `{HostChecks} `{Html} `{Environ}.

Lemma clean_text_clean html_text :
  strip (clean_text html_text) = clean_text html_text
  ∧ 0xA0 ∉ clean_text html_text.
Proof.
  unfold clean_text. split; [apply strip_idem|].
  intros Hin. apply strip_elem in Hin. revert Hin. by apply replace_char_gone.
Qed.

Lemma parse_row_title row_html item :
  parse_row row_html = Ok (Some item) →
  clean_title item
  ∧ ∃ title, dict_get item (py "title") = VStr title ∧ 0xA0 ∉ title.
Proof.
  unfold parse_row. destruct (find_cells row_html) as [|c0 cells] eqn:Ec; [done|].
  set (cleaned := map clean_text (c0 :: cells)).
  destruct (Nat.ltb_spec (length cleaned) 5) as [|Hlen]; [done|].
  destruct (parse_int _) as [views|]; [|done].
  cbn [mbind result_mbind result_bind].
  destruct (negb _ || _ || negb (nonempty (at_ 1 cleaned))) eqn:Eskip; [done|].
  apply orb_false_iff in Eskip as [_ Et]. apply negb_false_iff, nonempty_true in Et.
  destruct (extract_detail_url_from_row_html row_html) as [u|]; [|done].
  cbn [mbind result_mbind result_bind]. intros [= <-].
  assert (Hat : ∃ cell, at_ 1 cleaned = clean_text cell).
  { unfold at_, cleaned. exists (nth 1 (c0 :: cells) []).
    rewrite <- (map_nth clean_text). apply nth_indep.
    unfold cleaned in Hlen. lia. }
  destruct Hat as [cell Hat].
  destruct (clean_text_clean cell) as [Hs Hn]. rewrite <- Hat in Hs, Hn.
  split.
  - exists (at_ 1 cleaned). split; [by vm_compute|]. by split.
  - exists (at_ 1 cleaned). split; [by vm_compute|done].
Qed.

Lemma extract_list_row_title index row item :
  extract_list_row index row = Ok (Some item) → clean_title item.
Proof.
  unfold extract_list_row.
  destruct (length (cell_texts row) <? 5)%nat; [done|].
  destruct (parse_int _) as [views|]; [|done].
  cbn [mbind result_mbind result_bind].
  destruct (negb (nonempty (strip (at_ 1 (cell_texts row)))) || _) eqn:Eskip; [done|].
  apply orb_false_iff in Eskip as [Et _]. apply negb_false_iff, nonempty_true in Et.
  destruct (first_detail_link (link_hrefs row)) as [u|]; [|done].
  cbn [mbind result_mbind result_bind]. intros [= <-].
  exists (strip (at_ 1 (cell_texts row))). split; [by vm_compute|].
  split; [done|apply strip_idem].
Qed.

(** X22. The titles of the items are clean.  Every item that [parse_rows]
    or [extract_list_rows] returns has a title that is a text, is not empty
    and has no white space at its ends; the titles of [parse_rows] hold no
    no-break space either.  The titles are what the identity resolution and
    the retirement pass compare. *)
Theorem extracted_titles_are_clean :
  (∀ html_text items,
     parse_rows html_text = Ok items →
     Forall (λ item,
               clean_title item
               ∧ ∃ title, dict_get item (py "title") = VStr title ∧ 0xA0 ∉ title)
            items)
  ∧ (∀ page items,
       extract_list_rows page = Ok items → Forall clean_title items).
Proof.
  split.
  - intros html_text items. unfold parse_rows.
    destruct (result_mapM parse_row (find_rows html_text)) as [rs|] eqn:Er; [|done].
    cbn [mbind result_mbind result_bind]. intros [= <-].
    revert rs Er. induction (find_rows html_text) as [|row rows IH]; intros rs.
    + intros [= <-]. constructor.
    + cbn [result_mapM mbind result_mbind result_bind].
      destruct (parse_row row) as [r|] eqn:Erow; [|done].
      destruct (result_mapM parse_row rows) as [rs'|]; [|done].
      intros [= <-]. specialize (IH rs' eq_refl).
      destruct r as [item|];
        [rewrite omap_id_cons_Some|by rewrite omap_id_cons_None].
      constructor; [by eapply parse_row_title|done].
  - intros page items Hrun.
    destruct (extract_list_rows_from_offsets _ _ _ Hrun) as (positions & Hf & _).
    clear Hrun. induction Hf as [|item k items ks (row & _ & Hrow) _ IH];
      constructor; [by eapply extract_list_row_title|done].
Qed.

End Titles.

Lemma extracted_titles_are_clean_witness :
  Forall clean_title
    [[(py "title", VStr (py "Notice")); (py "author", VStr (py "Office"));
      (py "date", VNone); (py "views", VInt 12); (py "top", VBool true);
      (py "row_index", VInt 0); (py "detail_url", VNone)]].
Proof.
  apply (proj2 (@extracted_titles_are_clean lenient_checks bar_html file_environ)
           [undated_row]).
  by vm_compute.
Defined.

(** ** The counters of the reconciliation *)

Lemma served_app h1 h2 : served (h1 ++ h2) = served h1 ++ served h2.
Proof.
  induction h1 as [|e h1 IH]; [done|].
  destruct e as [req [[data|]| | |]| | | | | | | |]; cbn [app served]; by rewrite ?IH.
Qed.

Lemma pages_created_app h1 h2 :
  pages_created (h1 ++ h2) = pages_created h1 + pages_created h2.
Proof.
  unfold pages_created. rewrite served_app, List.filter_app, length_app. lia.
Qed.

Lemma pages_updated_app h1 h2 :
  pages_updated (h1 ++ h2) = pages_updated h1 + pages_updated h2.
Proof.
  unfold pages_updated. rewrite served_app, List.filter_app, length_app. lia.
Qed.

(** The requests that were answered with data are among those sent. *)
Lemma served_requests P h : Forall P (requests h) → Forall P (served h).
Proof.
  induction h as [|e h IH]; [done|].
  destruct e as [req [[data|]| | |]| | | | | | | |]; cbn [requests served];
    try exact IH; intros [Hr Hh]%Forall_cons; try (by apply IH).
  constructor; [done|by apply IH].
Qed.

Lemma filter_none {A} (p : A → bool) l :
  Forall (λ x, p x = false) l → List.filter p l = [].
Proof.
  induction 1 as [|x l Hx _ IH]; [done|]. cbn [List.filter]. by rewrite Hx.
Qed.

Lemma tallies_bind {A B} (m : M A) (k : A → M B) rel :
  tallies m (λ _ c u, c = 0 ∧ u = 0) → (∀ a, tallies (k a) rel) →
  tallies (m ≫= k) rel.
Proof.
  intros Hm Hk h b h' Hrun.
  apply run_bind_Return in Hrun as (a & h1 & H1 & H2).
  destruct (Hm _ _ _ H1) as (new1 & -> & Hc & Hu).
  destruct (Hk a _ _ _ H2) as (new2 & -> & Hrel).
  exists (new1 ++ new2). split; [by rewrite app_assoc|].
  by rewrite pages_created_app, pages_updated_app, Hc, Hu, !N.add_0_l.
Qed.

(** A computation that sends no request about a page writes no page. *)
Lemma tallies_sends {A} (P : Request → Prop) (m : M A) :
  (∀ r, P r → is_creation r = false ∧ is_update r = false) →
  sends P m → tallies m (λ _ c u, c = 0 ∧ u = 0).
Proof.
  intros HP Hm h a h' Hrun. destruct (Hm h) as (new & Hnew & Hreq).
  rewrite Hrun in Hnew. cbn [snd] in Hnew. exists new. split; [done|].
  apply served_requests in Hreq.
  unfold pages_created, pages_updated. rewrite !filter_none; [done|..];
    (eapply Forall_impl; [exact Hreq|]); intros r Hr; by destruct (HP r Hr).
Qed.

Lemma tallies_ret {A} (a : A) (rel : A → N → N → Prop) :
  rel a 0 0 → tallies (mret a) rel.
Proof.
  intros Hrel h b h'. rewrite run_ret. intros [= <- <-].
  exists []. by rewrite app_nil_r.
Qed.

Section Counters.
Context `{HostChecks} `{World}.

Lemma no_page_lift {A} (r : result A) : tallies (lift r) (λ _ c u, c = 0 ∧ u = 0).
Proof.
  apply (tallies_sends (λ _, False)); [done|apply sends_lift].
Qed.

Lemma no_page_log fmt args : tallies (log fmt args) (λ _ c u, c = 0 ∧ u = 0).
Proof.
  apply (tallies_sends (λ _, False)); [done|apply sends_log].
Qed.

(** The failures that are retried were not answered with data. *)
Lemma served_retry_trace req fails :
  Forall (λ out, retryable out = true) fails →
  ∀ k, served (retry_trace req k fails) = [].
Proof.
  induction 1 as [|out fails Hout _ IH]; intros k; [done|].
  cbn [retry_trace retry_events app].
  destruct out as [b|code ra body|reason|e]; try done; cbn [served retry_log]; apply IH.
Qed.

(** A call of the transport that returns was served once. *)
Lemma notion_request_served method url token payload h data h' :
  run (notion_request method url token payload) h = (Return data, h') →
  ∃ new, h' = h ++ new ∧ served new = [make_request method url token payload].
Proof.
  intros Hrun. apply notion_request_returns in Hrun as (fails & -> & Hfails).
  eexists. split; [done|]. rewrite served_app, served_retry_trace by done. done.
Qed.

Lemma tallies_update_page token page_id properties :
  tallies (update_page token page_id properties) (λ _ c u, c = 0 ∧ u = 1).
Proof.
  intros h [] h' Hrun. unfold update_page in Hrun.
  apply run_bind_Return in Hrun as (data & h1 & Hreq & Hret).
  rewrite run_ret in Hret. injection Hret as <-.
  apply notion_request_served in Hreq as (new & -> & Hserved).
  exists new. split; [done|]. unfold pages_created, pages_updated. rewrite Hserved.
  cbn [List.filter]. unfold is_creation, is_update, make_request.
  cbn [req_method req_url].
  replace (str_eqb (py "PATCH") (py "POST")) with false by (by vm_compute).
  replace (str_eqb (py "PATCH") (py "PATCH")) with true by (by vm_compute).
  cbn [andb].
  assert (startswith (py "https://api.notion.com/v1/pages/")
            (py "https://api.notion.com/v1/pages/" ++ str_of page_id) = true) as ->.
  { apply startswith_spec. by eexists. }
  done.
Qed.

Lemma tallies_create_page token database_id properties :
  tallies (create_page token database_id properties) (λ _ c u, c = 1 ∧ u = 0).
Proof.
  intros h [] h' Hrun. unfold create_page in Hrun.
  apply run_bind_Return in Hrun as (data & h1 & Hreq & Hret).
  rewrite run_ret in Hret. injection Hret as <-.
  apply notion_request_served in Hreq as (new & -> & Hserved).
  exists new. split; [done|]. unfold pages_created, pages_updated. rewrite Hserved.
  by vm_compute.
Qed.

(** The requests about the schema and the queries are about no page. *)
Lemma schema_update_no_page token database_id properties :
  is_creation (make_request (py "PATCH") (database_url database_id) token
                 (Some (VDict [(py "properties", properties)]))) = false
  ∧ is_update (make_request (py "PATCH") (database_url database_id) token
                 (Some (VDict [(py "properties", properties)]))) = false.
Proof.
  unfold is_creation, is_update, make_request, database_url.
  cbn [req_method req_url]. split; [by vm_compute|].
  apply andb_false_iff. right. apply not_true_iff_false.
  intros [r Hr]%startswith_spec. revert Hr. lit. cbn [app]. discriminate.
Qed.

Lemma query_no_page token database_id filter_payload :
  is_creation (make_request (py "POST") (database_url database_id ++ py "/query")
                 token (Some (VDict [(py "filter", filter_payload)]))) = false
  ∧ is_update (make_request (py "POST") (database_url database_id ++ py "/query")
                 token (Some (VDict [(py "filter", filter_payload)]))) = false.
Proof.
  unfold is_creation, is_update, make_request, database_url, api_pages_url.
  cbn [req_method req_url]. split; [|by vm_compute].
  apply andb_false_iff. right. unfold str_eqb. apply bool_decide_eq_false_2.
  lit. cbn [app]. discriminate.
Qed.

Lemma tallies_process_item token database_id has_views st item :
  tallies (process_item token database_id has_views st item)
    (λ st' c u, created st' = created st + c ∧ updated st' = updated st + u
                ∧ c + u = 1).
Proof.
  unfold process_item.
  apply tallies_bind.
  { apply (tallies_sends (λ _, False)); [done|].
    destruct (truthy (dict_get item (py "url"))); [|apply sends_ret].
    apply sends_bind; [apply sends_lift|intros url].
    apply sends_bind; [apply sends_lift|intros [[|c s]|]]; apply sends_ret. }
  intros [item' urls].
  apply tallies_bind; [apply no_page_lift|intros title].
  apply tallies_bind; [apply no_page_lift|intros date_key].
  apply tallies_bind.
  { apply (tallies_sends (λ _, False)); [done|].
    destruct title; first [apply sends_ret|apply sends_raise]. }
  intros dates. apply tallies_bind; [apply no_page_log|intros _].
  apply tallies_bind.
  { apply (tallies_sends about_no_page); [done|].
    destruct (truthy (dict_get item' (py "author"))); [|apply sends_ret].
    apply sends_bind; [apply sends_lift|intros author].
    destruct author;
      first [apply sends_raise
            |apply sends_ensure_select_option; intros; apply schema_update_no_page]. }
  intros options. apply tallies_bind; [apply no_page_lift|intros properties].
  apply tallies_bind.
  { apply (tallies_sends about_no_page); [done|].
    apply sends_find_existing_page. intros. apply query_no_page. }
  intros page_id. destruct (truthy page_id).
  - intros h st' h' Hrun.
    apply run_bind_Return in Hrun as ([] & h1 & Hwrite & Hrun).
    destruct (tallies_update_page _ _ _ _ _ _ Hwrite) as (new & -> & Hc & Hu).
    rewrite run_bind, run_log, run_ret in Hrun. injection Hrun as <- <-.
    eexists. split; [by rewrite <- app_assoc|].
    rewrite pages_created_app, pages_updated_app, Hc, Hu.
    unfold pages_created, pages_updated.
    cbn [created updated served List.filter length]. repeat split; lia.
  - intros h st' h' Hrun.
    apply run_bind_Return in Hrun as ([] & h1 & Hwrite & Hrun).
    destruct (tallies_create_page _ _ _ _ _ _ Hwrite) as (new & -> & Hc & Hu).
    rewrite run_bind, run_log, run_ret in Hrun. injection Hrun as <- <-.
    eexists. split; [by rewrite <- app_assoc|].
    rewrite pages_created_app, pages_updated_app, Hc, Hu.
    unfold pages_created, pages_updated.
    cbn [created updated served List.filter length]. repeat split; lia.
Qed.

Lemma tallies_items token database_id has_views items :
  ∀ st,
    tallies (foldM (process_item token database_id has_views) st items)
      (λ st' c u, created st' = created st + c ∧ updated st' = updated st + u
                  ∧ c + u = N.of_nat (length items)).
Proof.
  induction items as [|item items IH]; intros st; cbn [foldM].
  - apply tallies_ret. cbn [length]. repeat split; lia.
  - intros h st' h' Hrun.
    apply run_bind_Return in Hrun as (st1 & h1 & H1 & H2).
    destruct (tallies_process_item _ _ _ _ _ _ _ _ H1) as (new1 & -> & Hc1 & Hu1 & Hone).
    destruct (IH st1 _ _ _ H2) as (new2 & -> & Hc2 & Hu2 & Hsum).
    exists (new1 ++ new2). split; [by rewrite app_assoc|].
    rewrite pages_created_app, pages_updated_app. cbn [length].
    repeat split; lia.
Qed.

(** X4. The summary of a run counts the pages it wrote.  When the
    reconciliation of a list of items comes back, the last three lines it
    logged give the number of items, a number of pages created and a number
    of pages updated.  The second is the number of requests that create a
    page, and the third the number of requests that update a page, which the
    API answered with data while the items were processed; the two add up to
    the number of items: every item was written once, as a creation or as an
    update. *)
Theorem reconcile_counts_every_item fuel token database_id items h h' :
  run (reconcile fuel token database_id items) h = (Return tt, h') →
  ∃ author_options has_views h1 st h2 before,
    run (preflight token database_id) h = (Return (author_options, has_views), h1)
    ∧ run (foldM (process_item token database_id has_views)
             (initial_state author_options) items) h1 = (Return st, h2)
    ∧ h' = before ++ [EvLog (pyu "TOP 항목 수: %s") [VInt (Z.of_nat (length items))];
                      EvLog (pyu "생성: %s") [VInt (Z.of_N (created st))];
                      EvLog (pyu "업데이트: %s") [VInt (Z.of_N (updated st))]]
    ∧ created st = pages_created (drop (length h1) h2)
    ∧ updated st = pages_updated (drop (length h1) h2)
    ∧ created st + updated st = N.of_nat (length items).
Proof.
  unfold reconcile. intros Hrun.
  apply run_bind_Return in Hrun as ([options has_views] & h1 & Hpre & Hrun).
  apply run_bind_Return in Hrun as (st & h2 & Hfold & Hrun).
  fold (initial_state options) in Hfold.
  destruct (tallies_items _ _ _ _ _ _ _ _ Hfold) as (new & -> & Hc & Hu & Hsum).
  cbn [initial_state created updated] in Hc, Hu. rewrite N.add_0_l in Hc, Hu.
  apply run_bind_Return in Hrun as ([] & h3 & _ & Hrun).
  apply run_bind_Return in Hrun as (disabled & h4 & _ & Hrun).
  rewrite !run_bind, !run_log in Hrun. injection Hrun as <-.
  exists options, has_views, h1, st, (h1 ++ new),
         (h4 ++ [EvLog (pyu "TOP 해제 수: %s") [VInt (Z.of_N disabled)]]).
  rewrite drop_app_length.
  split; [done|]. split; [done|]. split; [by rewrite <- !app_assoc|].
  split; [done|]. split; [done|]. lia.
Qed.

End Counters.

Lemma reconcile_counts_every_item_witness :
  ∃ author_options has_views h1 st h2 before,
    run (@preflight lenient_checks world_without_url_field (py "t") (py "d")) []
    = (Return (author_options, has_views), h1)
    ∧ run (foldM (@process_item lenient_checks world_without_url_field
                    (py "t") (py "d") has_views)
             (initial_state author_options) [plain_item]) h1 = (Return st, h2)
    ∧ (run (@reconcile lenient_checks world_without_url_field 1 (py "t") (py "d")
              [plain_item]) []).2
      = before ++ [EvLog (pyu "TOP 항목 수: %s") [VInt (Z.of_nat (length [plain_item]))];
                   EvLog (pyu "생성: %s") [VInt (Z.of_N (created st))];
                   EvLog (pyu "업데이트: %s") [VInt (Z.of_N (updated st))]]
    ∧ created st = pages_created (drop (length h1) h2)
    ∧ updated st = pages_updated (drop (length h1) h2)
    ∧ created st + updated st = N.of_nat (length [plain_item]).
Proof.
  apply (@reconcile_counts_every_item lenient_checks world_without_url_field 1
           (py "t") (py "d") [plain_item] []).
  by vm_compute.
Defined.
